(* ===== verification/_CoqProject ===== *)
-Q . S2P
Prelude.v
Crates.v
Machine.v
FrameAlloc.v
Paging.v
Layout.v
PageMap.v
AddressSpace.v
PagingLemmas.v
PageMapLemmas.v
MapperLemmas.v
UnmapLemmas.v
BootstrapHeap.v
Friendly.v
FriendlyExample.v
PhysicalAllocator.v
AllocatorTheorems.v
PagingTheorems.v
Heap.v
HeapLemmas.v
HeapTheorems.v
Storage.v
StorageLemmas.v
ActivePageMap.v
ActivePageMapLemmas.v
Redirect.v
RemapLemmas.v
Text.v
Vga.v
MemoryInit.v
MemoryTheorems.v
MemoryInfoTheorems.v
Ports.v
Interrupts.v
InterruptTheorems.v
VgaTheorems.v
Panic.v
PanicTheorems.v
Cpu.v
CpuTheorems.v
Bytes.v
Syscall.v
SyscallTheorems.v
UserRuntime.v
PhysicalMapping.v
PhysicalMappingTheorems.v
Process.v
ProcessLemmas.v
ProcessTheorems.v
ProcessSpace.v
RemapKernel.v
RemapTheorems.v
KernelSpaceTheorems.v
BootLemmas.v
BootTables.v
InitMemoryTheorems.v
SharedSpace.v
SpawnTheorems.v
Kmain.v
SmallBlocks.v
KmainTheorems.v
Locks.v
KernelLocks.v
LockTheorems.v
