(* ===== verification/Prelude.v ===== *)
(** * Verification of the Wolffia kernel

    Wolffia is an x86-64 kernel written in Rust ([kernel/]) with a small user
    library ([userspace/libwolffia]). This library models its Rust code as Rocq
    functions, operation by operation, over a model of the machine it runs on, and
    proves what the operations do.

    ** How the code is modelled

    A Rust function becomes a function in the monad [M St A] of this file: it takes
    a state [St] and returns a value and a new state, or stops the machine ([stop]:
    a panic with its message, an arithmetic overflow, a page fault, a halt).
    [Result] and [Option] values are [result] and [option]. Integers are [Z] with the
    width written out: [add64], [sub64], [mul64] and [shl8] overflow as the build
    profile says ([Build]: a panic when overflow checks are on, a wrap when they are
    not), and the theorems hold for both profiles unless they name one. References,
    locks taken and released in the same function, and [static]s become parts of the
    state: [machine] ([Machine.v]) for memory, registers and the frame allocator,
    [heap_state] ([Heap.v]), [intr] ([Interrupts.v]), [VgaWriter] ([Vga.v]), [cpu]
    ([Cpu.v]), [sys] ([Syscall.v]), [proc_state] ([Process.v]), [kernel]
    ([MemoryInit.v]) and all of it together, [system] ([Kmain.v]). What the locks themselves
    do, with interrupts between any two steps, is a model of its own ([Locks.v],
    [KernelLocks.v]): for every function the locks it takes and what it calls meanwhile.

    Memory is real: the page tables are words of physical memory, every access of the
    kernel to a table goes through the recursive entry and the MMU's translation
    ([mmu_walk]), and an access to an unmapped or read-only address faults.

    ** Code that is not in the repository

    External crates are classes whose operations are parameters and whose laws state
    their documented behaviour: [Crates.v] ([x86_64], [bit_field], [bitflags]),
    [Friendly.v] (the buddy tree of [friendly]), [GdtCrate] ([Cpu.v]), [GoblinCrate] and
    [DashMapCrate] ([Process.v]), [AcpiCrate] ([Kmain.v]). What these crates ask of the global
    allocator and hand to the logger is part of the parameters. Each class has an executable instance that satisfies the laws
    ([FriendlyExample.v] for the tree), which the examples run on. Hardware (the two
    8259 controllers and the timer of [Ports.v], the MMU of [Machine.v]) is modelled
    after its data sheets.

    ** The parts and their files (paths below [kernel/src/])

    - [Prelude.v] (this file): outcomes, the monad, loops, integers, tactics, lemmas.
    - [FrameAlloc.v]: the interface [FrameAllocator] with its contract
      [FrameAllocatorSpec], against which paging, heap and processes are proved;
      [PhysicalAllocator.v] discharges it for [memory/physical_allocator.rs].
    - [BootstrapHeap.v]: [memory/bootstrap_heap.rs]. Properties of both allocators:
      [AllocatorTheorems.v].
    - [Paging.v], [PageMap.v], [ActivePageMap.v]: [memory/paging.rs],
      [memory/paging/page_map.rs], [memory/paging/remap.rs]. [AddressSpace.v] is the
      physical view of an address space; [PagingLemmas.v], [PageMapLemmas.v],
      [MapperLemmas.v], [UnmapLemmas.v], [ActivePageMapLemmas.v] relate the code to
      it; the properties are in [PagingTheorems.v]. [RemapKernel.v] describes the
      mappings that [remap_kernel] asks for, [Redirect.v] and [RemapLemmas.v] the
      recursive entry turned to tables that are not active, [RemapTheorems.v] has the
      properties of [remap_kernel].
    - [Heap.v], [HeapLemmas.v], [HeapTheorems.v]: [memory/heap.rs]. [Storage.v], [StorageLemmas.v]:
      the blocks behind the containers of other crates, with the allocation error handler of [lang.rs].
    - [PhysicalMapping.v], [PhysicalMappingTheorems.v]: [memory/physical_mapping.rs]
      and the callbacks of [acpi_handler.rs].
    - [Text.v]: the formatting of numbers that the kernel uses, with [f64]s.
    - [Layout.v], [MemoryInit.v], [MemoryTheorems.v]: the constants of the address
      space, [memory.rs], [memory/stack_allocator.rs]. [MemoryInfoTheorems.v] is about
      the report of [print_memory_info], [KernelSpaceTheorems.v] is about
      the end of [init_memory], from the new tables to the interrupt stacks,
      [BootLemmas.v] about its beginning, the bootstrap heap; [BootTables.v] has the
      tables that [boot.asm] leaves; [InitMemoryTheorems.v] is [init_memory] as a whole.
    - [Ports.v], [Interrupts.v], [InterruptTheorems.v]: [interrupts.rs],
      [interrupts/pic.rs], [interrupts/exceptions.rs], [pit.rs].
    - [Vga.v], [VgaTheorems.v]: [vga.rs], [log.rs]. [Panic.v], [PanicTheorems.v]:
      [lang.rs], and the well-formedness of the screen.
    - [Cpu.v], [CpuTheorems.v]: [tss.rs], [gdt.rs], [setup_syscall] of [syscall.rs],
      [enable_features] of [lib.rs], [jump_usermode] of [process.rs].
    - [Bytes.v], [Syscall.v], [SyscallTheorems.v]: byte accesses and UTF-8,
      [memory/buffer.rs], [syscall.rs], [userspace/libwolffia/src/syscall.rs].
      [UserRuntime.v]: the rest of the user library and the [init] program.
    - [Process.v]: [process.rs]. [ProcessLemmas.v] is about loading segments,
      [ProcessSpace.v] about the address space of a new process, [SharedSpace.v] about
      two address spaces that share the kernel's half; the properties are in
      [ProcessTheorems.v] and [SpawnTheorems.v].
    - [Kmain.v], [KmainTheorems.v]: [kmain] of [lib.rs], [acpi_init], [log::init], and
      the listeners of [interrupts.rs] as blocks of the heap ([SmallBlocks.v]).
    - [Locks.v]: a language of lock operations, its steps with interrupts, and a checker
      that is proved sound; [KernelLocks.v]: every function that takes a lock, in this
      language; [LockTheorems.v]: the properties.

    ** What the theorems show

    - Paging: the recursive window leads to the tables; [walk_page_table] is the
      MMU's translation; [map_to], [map], [map_range], [try_map_user_range],
      [set_flags], [unmap], [unmap_range] change exactly the translations they are
      asked to change ([evolves], [pages_backed], [unmapped]), keep the tables well
      formed ([tables_inv]) and report want of memory only when it is real: [takes c]
      bounds the frames an operation uses, [short_of c] says fewer than [c] are free.
    - Allocators: the bootstrap heap never hands out overlapping boxes; after
      initialisation the frame allocator offers exactly the usable frames, none of
      which holds a byte of the kernel or the boot information; [allocate] returns
      once the trees it finds locked are released, and fails only if no tree has a
      block; [deallocate] undoes it.
    - Booting: [remap_kernel] moves to new tables in which every page is translated as
      the last mapping asked for says; [init_memory], from the tables of the boot code,
      leaves allocators, heap, address space, guard page and interrupt stacks as
      described, with memory in use untouched; [kmain] ends in the first process, with
      everything set up and its messages on the serial port, the report on memory among
      them (whose numbers are those of the memory map, rounded), or panics because memory
      is short or the image is refused.
    - Locks: the kernel never asks for a lock while it holds it, wherever interrupts
      arrive, except while the list of listeners is changed: there one stops it for good.
    - Heap: an invariant ties the buddy tree to the mapped pages ([heap_inv]); [init],
      [alloc] and [dealloc] keep it, live blocks do not overlap, and the frames of a page that no block needs any
      more are given back.
      Windows onto physical memory show the bytes asked for and leave no trace.
    - Interrupts: remapping, masking, the life of an interrupt up to its completion,
      [sleep]; an interrupt of the slave controller is never completed.
    - Screen: the writer refines a terminal (lines, wrapping at 80 columns, scrolling),
      no operation leaves the screen or panics, and the report of a panic appears
      on screen and serial port before the machine halts.
    - Processor: port permissions, and selectors that agree wherever they are used.
    - System calls: [try_from_user] accepts exactly the buffers a process may read;
      [Map] (for every request and both build profiles) and [Print] on every branch; printing from the user library round-trips.
    - Processes: a new address space shares the kernel's half and has nothing else;
      [spawn_from_elf] as a whole leaves a process whose address space shows exactly
      the segments of the image, with the permissions of their headers, and the
      kernel's own address space as it was outside of the heap, where the blocks of the process table
      may have changed and all others are as they were; images are refused with the
      right error, identifiers are fresh, the first run of a process enters user mode
      with a stack and the segments and ports it needs.

    Each property has, next to it, an instance on a concrete machine.

    ** Fuel and bounds

    [log2_floor_loop] has 64 steps, one for each bit of a [u64]. The scan of
    [PhysicalAllocator::allocate] spins while trees are locked by others: its fuel is
    a parameter, the lock outcomes are an arbitrary sequence, and [allocate_correct]
    shows that 257 steps beyond the last contended one are enough. [sleep] takes the
    list of interrupts that arrive while it waits. All other loops run over lists.

    ** Not modelled

    More than one processor (the kernel runs on one); the effect of interrupts that arrive
    in the middle of [kmain] on anything but the locks; stale TLB entries (flushes are
    recorded, translations always read the tables); the machinery of [core::fmt] (texts are
    given formatted, in the slices that formatting writes, except for the numbers of
    [Text.v]), and the string that [Logger::log] formats a record into; the storage behind some [Vec]s and
    [Box]es (the frames that [remap_range] collects, freed before it returns, and the trees beyond 8 GiB are values,
    not blocks of the heap; the listeners, the process table and the parsed image are blocks); the line that
    [try_map_user_range] traces when the loader refuses a segment, upon which the kernel panics (that of the [Map]
    call is modelled); the search for ACPI tables (the [acpi] crate); the
    assembly that boots the machine, of which only the tables it leaves are described;
    the build script. What remains is declarations without behaviour: attributes, derived
    traits, [Deref]s of wrappers, [Send] and [Sync]. *)
From Stdlib Require Export ZArith Lia.
From stdpp Require Export base gmap list strings numbers option.

#[export] Set Default Goal Selector "!".
Open Scope Z_scope.

(** * Outcomes and the kernel monad

    A Rust function of the kernel either returns or stops the machine: the
    panic handler of [lang.rs] prints and halts, [halt()] loops on [hlt], and an
    access to an unmapped address enters the [page_fault] handler, which panics. *)

Inductive stop :=
| Panic (msg : string)
| Overflow
| PageFault (va : Z)
| Halted
| OutOfFuel.

Inductive res (A : Type) :=
| Ret (a : A)
| Stop (why : stop).
Arguments Ret {A} a.
Arguments Stop {A} why.

(** Rust's [Result]. *)
Inductive result (A E : Type) :=
| Ok (a : A)
| Err (e : E).
Arguments Ok {A E} a.
Arguments Err {A E} e.

Definition rbind {A B : Type} (r : res A) (k : A -> res B) : res B :=
  match r with
  | Ret a => k a
  | Stop w => Stop w
  end.

(** State passing over an outcome. *)
Definition M (St A : Type) : Type := St -> res (A * St).

Definition ret {St A : Type} (a : A) : M St A := fun s => Ret (a, s).
Definition stop_with {St A : Type} (w : stop) : M St A := fun _ => Stop w.
Definition panic {St A : Type} (msg : string) : M St A := stop_with (Panic msg).
Definition bind {St A B : Type} (m : M St A) (k : A -> M St B) : M St B :=
  fun s => match m s with
           | Ret (a, s') => k a s'
           | Stop w => Stop w
           end.
Definition lift {St A : Type} (r : res A) : M St A :=
  fun s => match r with
           | Ret a => Ret (a, s)
           | Stop w => Stop w
           end.
Definition gets {St A : Type} (f : St -> A) : M St A := fun s => Ret (f s, s).
Definition modify {St : Type} (f : St -> St) : M St unit := fun s => Ret (tt, f s).
Definition assert_m {St : Type} (b : bool) (msg : string) : M St unit :=
  if b then ret tt else panic msg.

Declare Scope kernel_scope.
Delimit Scope kernel_scope with kernel.
Notation "'let!' x ':=' m 'in' k" := (bind m (fun x => k))
  (at level 10, x pattern, m at level 100, k at level 200) : kernel_scope.
Notation "'do!' m 'in' k" := (bind m (fun _ => k))
  (at level 10, m at level 100, k at level 200) : kernel_scope.
Notation "'let?' x ':=' r 'in' k" := (rbind r (fun x => k))
  (at level 10, x pattern, r at level 100, k at level 200) : kernel_scope.
Open Scope kernel_scope.

(** [for x in l { f(x) }] *)
Fixpoint for_each {St B : Type} (l : list B) (f : B -> M St unit) : M St unit :=
  match l with
  | [] => ret tt
  | x :: l => do! f x in for_each l f
  end.

(** [for x in l { f(x)?; } Ok(())] *)
Fixpoint try_each {St B E : Type} (l : list B) (f : B -> M St (result unit E))
  : M St (result unit E) :=
  match l with
  | [] => ret (Ok tt)
  | x :: l =>
      let! r := f x in
      match r with
      | Ok _ => try_each l f
      | Err e => ret (Err e)
      end
  end.

(** [Option::expect], [Result::expect]. *)
Definition expect {St A : Type} (o : option A) (msg : string) : M St A :=
  match o with
  | Some a => ret a
  | None => panic msg
  end.
Definition expect_ok {St A E : Type} (r : result A E) (msg : string) : M St A :=
  match r with
  | Ok a => ret a
  | Err _ => panic msg
  end.

(** [a..=b] and [a..b] over integers. *)
Definition range_incl (a b : Z) : list Z := seqZ a (b - a + 1).
Definition range_excl (a b : Z) : list Z := seqZ a (b - a).

#[global] Arguments range_incl : simpl never.
#[global] Arguments range_excl : simpl never.

(** * Machine integers

    Arithmetic is on [Z]; the kernel is built both with overflow checks (the
    [debug] profile: an overflow panics) and without (the default [release]
    profile: it wraps), so the profile is a parameter. *)

Class Build := { overflow_checks : bool }.

Abbreviation two64 := 18446744073709551616.
Definition u64_max : Z := two64 - 1.
Definition is_u64 (z : Z) : Prop := 0 <= z < two64.

Definition wrap (w : Z) (z : Z) : Z := z mod 2 ^ w.

Definition checked (w : Z) `{Build} (z : Z) : res Z :=
  if (0 <=? z) && (z <? 2 ^ w) then Ret z
  else if overflow_checks then Stop Overflow else Ret (wrap w z).

Definition add64 `{Build} (a b : Z) : res Z := checked 64 (a + b).
Definition sub64 `{Build} (a b : Z) : res Z := checked 64 (a - b).
Definition mul64 `{Build} (a b : Z) : res Z := checked 64 (a * b).

(** [x << n] never checks the bits it drops; a shift by the width or more is an
    overflow (checked build) or takes the amount modulo the width. *)
Definition shl64 (a n : Z) : Z := wrap 64 (Z.shiftl a n).
Definition shl8 `{Build} (a n : Z) : res Z :=
  if n <? 8 then Ret (wrap 8 (Z.shiftl a n))
  else if overflow_checks then Stop Overflow else Ret (wrap 8 (Z.shiftl a (n mod 8))).

(** * Shared lemmas *)

Create HintDb wolffia.

Lemma bind_ret {St A B} (m : M St A) (k : A -> M St B) s a s' :
  m s = Ret (a, s') -> bind m k s = k a s'.
Proof. intros H. unfold bind. by rewrite H. Qed.

Lemma bind_stop {St A B} (m : M St A) (k : A -> M St B) s w :
  m s = Stop w -> bind m k s = Stop w.
Proof. intros H. unfold bind. by rewrite H. Qed.

Lemma bind_cong {St A B} (m : M St A) (k k' : A -> M St B) s :
  (forall a s', k a s' = k' a s') -> bind m k s = bind m k' s.
Proof. intros H. unfold bind. destruct (m s) as [[a s']|]; [apply H|done]. Qed.
Lemma bind_ext {St A B} (m m' : M St A) (k : A -> M St B) s :
  (forall s, m s = m' s) -> bind m k s = bind m' k s.
Proof. intros H. unfold bind. by rewrite H. Qed.

#[global] Arguments bind : simpl never.

Lemma bind_ret_l {St A B} (a : A) (k : A -> M St B) s : bind (ret a) k s = k a s.
Proof. done. Qed.
Lemma bind_lift_ret {St A B} (a : A) (k : A -> M St B) s : bind (lift (Ret a)) k s = k a s.
Proof. done. Qed.
Lemma bind_lift_stop {St A B} w (k : A -> M St B) s : bind (lift (Stop w)) k s = Stop w.
Proof. done. Qed.
Lemma bind_assert_true {St B} msg (k : unit -> M St B) s : bind (assert_m true msg) k s = k tt s.
Proof. done. Qed.
Lemma bind_assert_false {St B} msg (k : unit -> M St B) s :
  bind (assert_m false msg) k s = Stop (Panic msg).
Proof. done. Qed.
Lemma bind_expect_some {St A B} (a : A) msg (k : A -> M St B) s :
  bind (expect (Some a) msg) k s = k a s.
Proof. done. Qed.
Lemma bind_expect_none {St A B} msg (k : A -> M St B) s :
  bind (expect None msg) k s = Stop (Panic msg).
Proof. done. Qed.
Lemma bind_expect_ok {St A B E} (a : A) msg (k : A -> M St B) s :
  bind (expect_ok (Ok (E := E) a) msg) k s = k a s.
Proof. done. Qed.
Lemma bind_expect_err {St A B E} (e : E) msg (k : A -> M St B) s :
  bind (expect_ok (Err (A := A) e) msg) k s = Stop (Panic msg).
Proof. done. Qed.
Lemma bind_assoc {St A B C} (m : M St A) (k : A -> M St B) (h : B -> M St C) s :
  bind (bind m k) h s = bind m (fun a => bind (k a) h) s.
Proof. unfold bind. by destruct (m s) as [[]|]. Qed.

(** Steps over the calls whose outcome is known without looking at the state. *)
Ltac msimp :=
  repeat first
    [ rewrite bind_assoc | rewrite bind_ret_l | rewrite bind_lift_ret | rewrite bind_lift_stop
    | rewrite bind_assert_true | rewrite bind_assert_false
    | rewrite bind_expect_some | rewrite bind_expect_none
    | rewrite bind_expect_ok | rewrite bind_expect_err ]; cbv beta iota.

(** Steps over the first call, whose outcome is the equation [H]. *)
Ltac mcall H := rewrite (bind_ret _ _ _ _ _ H); cbv beta iota; msimp.

Lemma Ret_inj {A B} (a a' : A) (b b' : B) : Ret (a, b) = Ret (a', b') -> a = a' /\ b = b'.
Proof. by intros [= -> ->]. Qed.

Lemma bind_inv {St A B} (m : M St A) (k : A -> M St B) s b s' :
  bind m k s = Ret (b, s') -> exists a s1, m s = Ret (a, s1) /\ k a s1 = Ret (b, s').
Proof. unfold bind. destruct (m s) as [[a s1]|w]; [eauto | done]. Qed.

(** Loops with bodies that agree on the elements they visit. *)
Lemma try_each_ext {St A E} (l : list A) (f g : A -> M St (result unit E)) (s : St) :
  (forall x s, x ∈ l -> f x s = g x s) -> try_each l f s = try_each l g s.
Proof.
  revert s. induction l as [|x l IH]; intros s Hfg; [done|]. cbn [try_each]. unfold bind.
  rewrite Hfg by set_solver. destruct (g x s) as [[[|] s']|]; try done. apply IH. set_solver.
Qed.

Lemma for_each_ext {St A} (l : list A) (f g : A -> M St unit) (s : St) :
  (forall x s, x ∈ l -> f x s = g x s) -> for_each l f s = for_each l g s.
Proof.
  revert s. induction l as [|x l IH]; intros s Hfg; [done|]. cbn [for_each]. unfold bind.
  rewrite Hfg by set_solver. destruct (g x s) as [[[] s']|]; try done. apply IH. set_solver.
Qed.

Lemma for_each_fmap {St A C} (g : A -> C) (l : list A) (f : C -> M St unit) (s : St) :
  for_each (g <$> l) f s = for_each l (fun x => f (g x)) s.
Proof.
  revert s. induction l as [|x l IH]; intros s; [done|]. cbn [fmap list_fmap for_each]. unfold bind.
  destruct (f (g x) s) as [[? s']|]; [apply IH|done].
Qed.

Lemma for_each_app {St A} (l k : list A) (f : A -> M St unit) (s : St) :
  for_each (l ++ k) f s = bind (for_each l f) (fun _ => for_each k f) s.
Proof.
  revert s. induction l as [|x l IH]; intros s; [done|]. cbn [app for_each]. unfold bind in *.
  destruct (f x s) as [[[] s']|]; [apply IH|done].
Qed.

(** A loop in a loop. *)
Lemma for_each_mbind {St A C} (g : A -> list C) (l : list A) (f : C -> M St unit) (s : St) :
  for_each (l ≫= g) f s = for_each l (fun x => for_each (g x) f) s.
Proof.
  revert s. induction l as [|x l IH]; intros s; [done|]. cbn [mbind list_bind for_each].
  rewrite for_each_app. unfold bind. destruct (for_each (g x) f s) as [[[] s']|]; [apply IH|done].
Qed.

(** Skipped iterations. *)
Lemma for_each_skip {St A} (p : A -> bool) (l : list A) (f : A -> M St unit) (s : St) :
  for_each l (fun x => if p x then ret tt else f x) s =
    for_each (filter (fun x => p x = false) l) f s.
Proof.
  revert s. induction l as [|x l IH]; intros s; [done|]. cbn [for_each]. destruct (p x) eqn:E.
  - rewrite filter_cons_False by congruence. apply IH.
  - rewrite filter_cons_True by done. cbn [for_each]. unfold bind.
    destruct (f x s) as [[? s']|]; [apply IH|done].
Qed.

Lemma checked_small w `{Build} z : 0 <= z < 2 ^ w -> checked w z = Ret z.
Proof.
  intros Hz. unfold checked.
  replace ((0 <=? z) && (z <? 2 ^ w)) with true by lia. done.
Qed.

Lemma add64_small `{Build} a b : 0 <= a + b < two64 -> add64 a b = Ret (a + b).
Proof. intros. by apply checked_small. Qed.
Lemma sub64_small `{Build} a b : 0 <= a - b < two64 -> sub64 a b = Ret (a - b).
Proof. intros. by apply checked_small. Qed.
Lemma mul64_small `{Build} a b : 0 <= a * b < two64 -> mul64 a b = Ret (a * b).
Proof. intros. by apply checked_small. Qed.

Lemma checked_inv w `{Build} z r : 0 <= w -> checked w z = Ret r -> 0 <= r < 2 ^ w.
Proof.
  intros Hw. unfold checked.
  destruct ((0 <=? z) && (z <? 2 ^ w)) eqn:E; [intros [= <-]; lia|].
  destruct overflow_checks; [done|]. intros [= <-].
  apply Z.mod_pos_bound. by apply Z.pow_pos_nonneg.
Qed.

Lemma elem_of_range_incl a b x : x ∈ range_incl a b <-> a <= x <= b.
Proof. unfold range_incl. rewrite elem_of_seqZ. lia. Qed.
Lemma elem_of_range_excl a b x : x ∈ range_excl a b <-> a <= x < b.
Proof. unfold range_excl. rewrite elem_of_seqZ. lia. Qed.

Lemma range_incl_nil a b : b < a -> range_incl a b = [].
Proof. intros. unfold range_incl, seqZ. by rewrite Z2Nat.nonpos by lia. Qed.

Lemma range_incl_cons a b : a <= b -> range_incl a b = a :: range_incl (a + 1) b.
Proof.
  intros. unfold range_incl. rewrite seqZ_cons by lia. f_equal. f_equal; lia.
Qed.

Lemma range_excl_nil a b : b <= a -> range_excl a b = [].
Proof. intros. unfold range_excl, seqZ. by rewrite Z2Nat.nonpos by lia. Qed.

Lemma range_excl_cons a b : a < b -> range_excl a b = a :: range_excl (a + 1) b.
Proof.
  intros. unfold range_excl. rewrite seqZ_cons by lia. f_equal. f_equal; lia.
Qed.

(** ** Bits *)

Lemma land_ones_mod a n : 0 <= n -> Z.land a (2 ^ n - 1) = a mod 2 ^ n.
Proof. intros. by rewrite <- Z.land_ones, Z.ones_equiv, Z.sub_1_r. Qed.

Lemma lor_low_add h l n : 0 <= n -> 0 <= l < 2 ^ n -> Z.lor (h * 2 ^ n) l = h * 2 ^ n + l.
Proof.
  intros Hn Hl.
  assert (Z.land (h * 2 ^ n) l = 0) as Hland.
  { apply Z.bits_inj'. intros k Hk. rewrite Z.land_spec, Z.bits_0.
    destruct (Z.lt_ge_cases k n) as [Hlt|Hge].
    - rewrite <- Z.shiftl_mul_pow2, Z.shiftl_spec_low; done.
    - rewrite <- (Z.mod_small l (2 ^ n)) by done.
      by rewrite Z.mod_pow2_bits_high, andb_false_r by lia. }
  by rewrite <- Z.lxor_lor, <- Z.add_nocarry_lxor.
Qed.

Lemma testbit_low h l n k : 0 <= k < n -> Z.testbit (h * 2 ^ n + l) k = Z.testbit l k.
Proof.
  intros Hk. rewrite <- (Z.mod_pow2_bits_low _ n k), <- (Z.mod_pow2_bits_low l n k) by lia.
  rewrite Z.add_comm, Z_mod_plus_full. done.
Qed.

(** A flag test [a & b == b] for a one-bit [b] is a bit test. *)
Lemma land_bit_eqb a n : 0 <= n -> (Z.land a (2 ^ n) =? 2 ^ n) = Z.testbit a n.
Proof.
  intros Hn. destruct (Z.testbit a n) eqn:E.
  - apply Z.eqb_eq. apply Z.bits_inj'. intros k Hk.
    rewrite Z.land_spec, Z.pow2_bits_eqb by done.
    destruct (Z.eqb_spec n k); [by subst; rewrite E|by rewrite andb_false_r].
  - apply Z.eqb_neq. intros H. apply (f_equal (fun x => Z.testbit x n)) in H.
    rewrite Z.land_spec, Z.pow2_bits_true, E in H by done. done.
Qed.
