(* ===== verification/Crates.v ===== *)
(** The crates the kernel calls and whose code is not part of the repository,
    as classes: the operations are parameters of the model and the laws state
    their documented behaviour. Each class has one executable instance, used by
    the concrete examples only.

    - [X86_64Crate]: addresses of the [x86_64] crate ([PhysAddr], [VirtAddr],
      [PhysFrame]); an address is represented by its [as_u64].
    - [BitflagsCrate]: the operations the [bitflags!] macro generates; a flag
      set is represented by its [bits].
    - [BitFieldCrate]: [BitField] on an 8-bit integer, and the atomic version of
      [atomic_bitfield] without the concurrency. *)
From S2P Require Import Prelude.

(** Bit 47 copied to bits 48..63. *)
Definition sign_extend_47 (a : Z) : Z :=
  if Z.testbit a 47 then a mod 2 ^ 48 + (2 ^ 64 - 2 ^ 48) else a mod 2 ^ 48.

Definition canonical (a : Z) : bool := sign_extend_47 a =? a.

Class X86_64Crate := {
  PhysAddr_new : Z -> res Z;
  PhysFrame_containing_address : Z -> Z;
  VirtAddr_new : Z -> res Z;
  VirtAddr_try_new : Z -> option Z;
  VirtAddr_new_truncate : Z -> Z;
  (** Panics if a bit in the range 52 to 64 is set. *)
  PhysAddr_new_ok a : 0 <= a < 2 ^ 52 -> PhysAddr_new a = Ret a;
  PhysAddr_new_panics a : 2 ^ 52 <= a < 2 ^ 64 -> exists m, PhysAddr_new a = Stop (Panic m);
  (** The frame that contains the address, as its start address. *)
  PhysFrame_containing_address_spec a :
    0 <= a < 2 ^ 52 -> PhysFrame_containing_address a = a - a mod 4096;
  (** Sign extends bit 47; succeeds when bits 48 to 64 are a correct sign
      extension or all null. *)
  VirtAddr_try_new_ok a :
    0 <= a < 2 ^ 64 -> canonical a = true \/ a < 2 ^ 48 ->
    VirtAddr_try_new a = Some (sign_extend_47 a);
  VirtAddr_try_new_err a :
    0 <= a < 2 ^ 64 -> canonical a = false -> 2 ^ 48 <= a -> VirtAddr_try_new a = None;
  VirtAddr_new_spec a : exists m,
    VirtAddr_new a = match VirtAddr_try_new a with
                     | Some v => Ret v
                     | None => Stop (Panic m)
                     end;
  VirtAddr_new_truncate_spec a : 0 <= a < 2 ^ 64 -> VirtAddr_new_truncate a = sign_extend_47 a
}.

Class BitflagsCrate := {
  (** [T::from_bits_truncate(bits)], for the flags [all] the type declares. *)
  from_bits_truncate : Z -> Z -> Z;
  (** [a.contains(b)], [a | b]. *)
  contains : Z -> Z -> bool;
  flags_or : Z -> Z -> Z;
  from_bits_truncate_spec all bits : from_bits_truncate all bits = Z.land bits all;
  contains_spec a b : contains a b = (Z.land a b =? b);
  flags_or_spec a b : flags_or a b = Z.lor a b
}.

Class BitFieldCrate := {
  (** [x.get_bit(i)], [x.set_bit(i, v)] on a [u8]. *)
  get_bit : Z -> Z -> bool;
  set_bit : Z -> Z -> bool -> Z;
  get_bit_spec x i : 0 <= i < 8 -> get_bit x i = Z.testbit x i;
  set_bit_spec x i v : 0 <= i < 8 ->
    set_bit x i v = if v then Z.setbit x i else Z.clearbit x i
}.

(** * Executable instances *)

Program Definition x86_64_example : X86_64Crate := {|
  PhysAddr_new a := if a <? 2 ^ 52 then Ret a else Stop (Panic "PhysAddr::new");
  PhysFrame_containing_address a := a - a mod 4096;
  VirtAddr_new a :=
    if canonical a || (a <? 2 ^ 48) then Ret (sign_extend_47 a)
    else Stop (Panic "VirtAddr::new");
  VirtAddr_try_new a :=
    if canonical a || (a <? 2 ^ 48) then Some (sign_extend_47 a) else None;
  VirtAddr_new_truncate a := sign_extend_47 a
|}.
Next Obligation. intros a Ha. simpl. by replace (a <? 2 ^ 52) with true by lia. Qed.
Next Obligation. intros a Ha. simpl. replace (a <? 2 ^ 52) with false by lia. eauto. Qed.
Next Obligation. done. Qed.
Next Obligation.
  intros a Ha [Hc|Hl]; simpl; [by rewrite Hc|].
  replace (a <? 2 ^ 48) with true by lia. by rewrite orb_true_r.
Qed.
Next Obligation.
  intros a Ha Hc Hl. simpl. rewrite Hc. by replace (a <? 2 ^ 48) with false by lia.
Qed.
Next Obligation.
  intros a. simpl. exists "VirtAddr::new"%string. by destruct (_ || _).
Qed.
Next Obligation. done. Qed.

Program Definition bitflags_example : BitflagsCrate := {|
  from_bits_truncate all bits := Z.land bits all;
  contains a b := Z.land a b =? b;
  flags_or a b := Z.lor a b
|}.
Solve All Obligations with done.

Program Definition bit_field_example : BitFieldCrate := {|
  get_bit x i := Z.testbit x i;
  set_bit x i v := if v then Z.setbit x i else Z.clearbit x i
|}.
Solve All Obligations with done.
