(* ===== verification/Machine.v ===== *)
(** The machine the paging code runs on: physical memory as 8-byte words, the
    registers paging depends on, the four-level x86-64 translation the MMU
    performs on every access, and the volatile fill of [util.rs]. Everything the
    kernel does to a page table goes through [vread64] and [vwrite64], which
    translate a virtual address first: the tables are reached by their recursive
    mapping only, as in the code. *)
From S2P Require Import Prelude Crates.

Inductive tlb_op :=
| FlushPage (va : Z)
| FlushAll.

(** [P] is the state of the physical frame allocator. *)
Record machine (P : Type) := Machine {
  mem : gmap Z Z;       (** word at a physical address that is a multiple of 8 *)
  cr3 : Z;              (** physical address of the active P4 table *)
  cr3_flags : Z;
  cr0_wp : bool;        (** write protection also applies to ring 0 *)
  tlb : list tlb_op;    (** flush instructions executed, latest first *)
  pmm : P
}.
Arguments Machine {P}.
Arguments mem {P}.
Arguments cr3 {P}.
Arguments cr3_flags {P}.
Arguments cr0_wp {P}.
Arguments tlb {P}.
Arguments pmm {P}.

Definition set_mem {P} (m : gmap Z Z) (s : machine P) : machine P :=
  Machine m (cr3 s) (cr3_flags s) (cr0_wp s) (tlb s) (pmm s).
Definition set_cr3 {P} (f fl : Z) (s : machine P) : machine P :=
  Machine (mem s) f fl (cr0_wp s) (tlb s) (pmm s).
Definition set_wp {P} (b : bool) (s : machine P) : machine P :=
  Machine (mem s) (cr3 s) (cr3_flags s) b (tlb s) (pmm s).
Definition push_tlb {P} (o : tlb_op) (s : machine P) : machine P :=
  Machine (mem s) (cr3 s) (cr3_flags s) (cr0_wp s) (o :: tlb s) (pmm s).
Definition set_pmm {P} (p : P) (s : machine P) : machine P :=
  Machine (mem s) (cr3 s) (cr3_flags s) (cr0_wp s) (tlb s) p.

(** * The MMU *)

Definition word (m : gmap Z Z) (a : Z) : Z := default 0 (m !! a).

(** Entry [i] of the table in the frame at [f]. *)
Definition entry_at (m : gmap Z Z) (f i : Z) : Z := word m (f + 8 * i).

Definition e_present (e : Z) : bool := Z.testbit e 0.
Definition e_writable (e : Z) : bool := Z.testbit e 1.
Definition e_huge (e : Z) : bool := Z.testbit e 7.
(** Bits 12 to 51. *)
Definition e_addr (e : Z) : Z := Z.land e 0x000FFFFFFFFFF000.

Definition va_p4 (va : Z) : Z := Z.land (Z.shiftr va 39) 511.
Definition va_p3 (va : Z) : Z := Z.land (Z.shiftr va 30) 511.
Definition va_p2 (va : Z) : Z := Z.land (Z.shiftr va 21) 511.
Definition va_p1 (va : Z) : Z := Z.land (Z.shiftr va 12) 511.

#[global] Arguments entry_at : simpl never.
#[global] Arguments e_present : simpl never.
#[global] Arguments e_writable : simpl never.
#[global] Arguments e_huge : simpl never.
#[global] Arguments e_addr : simpl never.

(** Translation of a supervisor data access with the P4 table at [root]: the
    physical address and whether every level allows writes. *)
Definition mmu_walk (m : gmap Z Z) (root va : Z) : option (Z * bool) :=
  if negb (canonical va) then None else
  let e4 := entry_at m root (va_p4 va) in
  if negb (e_present e4) || e_huge e4 then None else
  let e3 := entry_at m (e_addr e4) (va_p3 va) in
  if negb (e_present e3) then None else
  if e_huge e3 then
    Some (e_addr e3 - e_addr e3 mod 2 ^ 30 + va mod 2 ^ 30, e_writable e4 && e_writable e3) else
  let e2 := entry_at m (e_addr e3) (va_p2 va) in
  if negb (e_present e2) then None else
  if e_huge e2 then
    Some (e_addr e2 - e_addr e2 mod 2 ^ 21 + va mod 2 ^ 21,
          e_writable e4 && e_writable e3 && e_writable e2) else
  let e1 := entry_at m (e_addr e2) (va_p1 va) in
  if negb (e_present e1) then None else
  Some (e_addr e1 + va mod 4096,
        e_writable e4 && e_writable e3 && e_writable e2 && e_writable e1).

Section access.
Context {P : Type}.

Definition vread64 (va : Z) : M (machine P) Z := fun s =>
  match mmu_walk (mem s) (cr3 s) va with
  | Some (pa, _) => Ret (word (mem s) pa, s)
  | None => Stop (PageFault va)
  end.

Definition vwrite64 (va v : Z) : M (machine P) unit := fun s =>
  match mmu_walk (mem s) (cr3 s) va with
  | Some (pa, w) =>
      if w || negb (cr0_wp s) then Ret (tt, set_mem (<[pa := v]> (mem s)) s)
      else Stop (PageFault va)
  | None => Stop (PageFault va)
  end.

(** [tlb::flush], [tlb::flush_all]. *)
Definition tlb_flush (va : Z) : M (machine P) unit := modify (push_tlb (FlushPage va)).
Definition tlb_flush_all : M (machine P) unit := modify (push_tlb FlushAll).

(** [util::memset_volatile_64bit]. The loop runs [n >> 3] times. *)
Definition memset_volatile_64bit (s c n : Z) : M (machine P) Z :=
  do! assert_m (Z.land n 7 =? 0) "n must a be multiple of 8" in
  do! assert_m (Z.land s 7 =? 0) "ptr must be aligned to 8 bytes" in
  do! for_each (range_excl 0 (Z.shiftr n 3)) (fun i => vwrite64 (s + 8 * i) c) in
  ret s.

End access.
