(* ===== verification/FrameAlloc.v ===== *)
(** The contract between the physical frame allocator and its clients (paging,
    heap, processes). [PhysicalAllocator.v] discharges it for the allocator of
    [physical_allocator.rs]; the paging theorems are proved against it. *)
From S2P Require Import Prelude Crates Machine.

(** [PHYSICAL_ALLOCATOR.allocate(order)] gives the start address of a frame of
    [2^order] pages, [PHYSICAL_ALLOCATOR.deallocate(addr, order)] takes it back. *)
Class FrameAllocator (P : Type) := {
  fa_allocate : Z -> M P (option Z);
  fa_deallocate : Z -> Z -> M P unit
}.

(** The 4 KiB frames of the block of order [k] at [f]. *)
Definition in_block (f k x : Z) : Prop :=
  exists i, 0 <= i < 2 ^ k /\ x = f + 4096 * i.

(** What the allocator promises. [fa_free p] holds of the start addresses of the
    frames it may still hand out, [fa_live p] of the blocks handed out and not
    taken back. *)
Class FrameAllocatorSpec (P : Type) `{FrameAllocator P} := {
  fa_inv : P -> Prop;
  fa_free : P -> Z -> Prop;
  fa_live : P -> Z -> Z -> Prop;
  fa_free_range p f : fa_inv p -> fa_free p f -> f mod 4096 = 0 /\ 0 <= f < 2 ^ 40;
  fa_allocate_returns p k : fa_inv p -> 0 <= k <= 18 ->
    exists o p', fa_allocate k p = Ret (o, p') /\ fa_inv p';
  fa_allocate_some p k f p' : fa_inv p -> 0 <= k <= 18 -> fa_allocate k p = Ret (Some f, p') ->
    f mod 2 ^ (k + 12) = 0 /\
    (forall x, in_block f k x -> fa_free p x) /\
    (forall x, fa_free p' x <-> fa_free p x /\ ~ in_block f k x) /\
    (forall g j, fa_live p' g j <-> (g = f /\ j = k) \/ fa_live p g j);
  fa_allocate_none p k p' : fa_inv p -> 0 <= k <= 18 -> fa_allocate k p = Ret (None, p') ->
    (forall x, fa_free p' x <-> fa_free p x) /\
    (forall g j, fa_live p' g j <-> fa_live p g j) /\
    (forall f, f mod 2 ^ (k + 12) = 0 -> ~ (forall x, in_block f k x -> fa_free p x));
  fa_live_not_free p f k x : fa_inv p -> fa_live p f k -> in_block f k x -> ~ fa_free p x;
  fa_deallocate_live p f k : fa_inv p -> fa_live p f k ->
    exists p', fa_deallocate f k p = Ret (tt, p') /\ fa_inv p' /\
      (forall x, fa_free p' x <-> fa_free p x \/ in_block f k x) /\
      (forall g j, fa_live p' g j <-> fa_live p g j /\ ~ (g = f /\ j = k))
}.

(** The same calls on the machine's allocator. *)
Section calls.
Context {P : Type} `{FrameAllocator P}.

Definition allocate_frame (k : Z) : M (machine P) (option Z) := fun s =>
  match fa_allocate k (pmm s) with
  | Ret (o, p) => Ret (o, set_pmm p s)
  | Stop w => Stop w
  end.

Definition deallocate_frame (f k : Z) : M (machine P) unit := fun s =>
  match fa_deallocate f k (pmm s) with
  | Ret (_, p) => Ret (tt, set_pmm p s)
  | Stop w => Stop w
  end.

End calls.

Lemma in_block_0 f x : in_block f 0 x <-> x = f.
Proof.
  unfold in_block. split; [intros (i & Hi & ->); lia|]. intros ->. exists 0. lia.
Qed.

#[export] Instance in_block_dec f k x : Decision (in_block f k x).
Proof.
  refine (cast_if (decide ((x - f) mod 4096 = 0 /\ 0 <= (x - f) / 4096 < 2 ^ k))); unfold in_block.
  - abstract (exists ((x - f) / 4096); Z.to_euclidean_division_equations; lia).
  - abstract (intros (i & Hi & ->); match goal with H : ~ _ |- _ => apply H end;
      replace (f + 4096 * i - f) with (i * 4096) by lia; rewrite Z.div_mul, Z_mod_mult; lia).
Defined.
