(* ===== verification/Paging.v ===== *)
(** [kernel/src/memory/paging.rs]: pages, page table entries, and page tables
    reached through their (virtual) address. *)
From S2P Require Import Prelude Crates Machine FrameAlloc.

Definition PAGE_TABLE_ENTRIES : Z := 512.

Inductive PageSize := Kib4 | Mib2.

#[export] Instance PageSize_eq_dec : EqDecision PageSize.
Proof. solve_decision. Defined.

Definition bytes (sz : PageSize) : Z :=
  match sz with
  | Kib4 => 4 * 1024
  | Mib2 => 2 * 1024 * 1024
  end.

(** ** Pages *)

Record Page := mkPage { number : Z; size : option PageSize }.

#[export] Instance Page_eq_dec : EqDecision Page.
Proof. solve_decision. Defined.

Definition p4_index (p : Page) : Z := Z.land (Z.shiftr (number p) 27) 511.
Definition p3_index (p : Page) : Z := Z.land (Z.shiftr (number p) 18) 511.
Definition p2_index (p : Page) : Z := Z.land (Z.shiftr (number p) 9) 511.
Definition p1_index (p : Page) : Z := Z.land (number p) 511.

Definition start_address `{Build} (p : Page) : res (option Z) :=
  match size p with
  | Some sz => let? a := mul64 (number p) (bytes sz) in Ret (Some a)
  | None => Ret None
  end.

Definition containing_address (addr : Z) : Page := mkPage (addr / bytes Kib4) (Some Kib4).

Definition page_add `{Build} (p : Page) (n : Z) : res Page :=
  let? k := add64 (number p) n in Ret (mkPage k (size p)).
Definition page_sub `{Build} (p : Page) (n : Z) : res Page :=
  let? k := sub64 (number p) n in Ret (mkPage k (size p)).

(** [Ord] compares numbers only; [Step] is the iterator of [a..=b]. *)
Definition page_cmp (p q : Page) : comparison := Z.compare (number p) (number q).
Definition page_gt (p q : Page) : bool :=
  match page_cmp p q with Gt => true | _ => false end.

Definition steps_between (a b : Page) : option Z :=
  if number a <=? number b then Some (number b - number a) else None.
Definition forward_checked `{Build} (p : Page) (count : Z) : res (option Page) :=
  if number p + count <? two64 then let? q := page_add p count in Ret (Some q) else Ret None.
Definition backward_checked `{Build} (p : Page) (count : Z) : res (option Page) :=
  if 0 <=? number p - count then let? q := page_sub p count in Ret (Some q) else Ret None.

(** ** Entry flags *)

Definition PRESENT : Z := 1.
Definition WRITABLE : Z := Z.shiftl 1 1.
Definition USER_ACCESSIBLE : Z := Z.shiftl 1 2.
Definition WRITE_DIRECT : Z := Z.shiftl 1 3.
Definition NO_CACHE : Z := Z.shiftl 1 4.
Definition ACCESSED : Z := Z.shiftl 1 5.
Definition DIRTY : Z := Z.shiftl 1 6.
Definition HUGE_PAGE : Z := Z.shiftl 1 7.
Definition GLOBAL : Z := Z.shiftl 1 8.
Definition NO_EXECUTE : Z := Z.shiftl 1 63.

Definition EntryFlags_all : Z :=
  Z.lor PRESENT (Z.lor WRITABLE (Z.lor USER_ACCESSIBLE (Z.lor WRITE_DIRECT (Z.lor NO_CACHE
  (Z.lor ACCESSED (Z.lor DIRTY (Z.lor HUGE_PAGE (Z.lor GLOBAL NO_EXECUTE)))))))).

Infix "|||" := flags_or (at level 50, left associativity).

(** ** Levels *)

Inductive Level := Level4 | Level3 | Level2 | Level1.

(** [HierarchicalLevel::CAN_BE_HUGE] *)
Definition CAN_BE_HUGE (l : Level) : bool :=
  match l with
  | Level3 | Level2 => true
  | Level4 | Level1 => false
  end.

(** [page_map.rs]: the error of a failed frame allocation. *)
Inductive OutOfMemory := OutOfMemory_.

Section paging.
Context `{B : Build} `{X : X86_64Crate} `{F : BitflagsCrate}.

(** ** Page table entries *)

Definition entry_flags (e : Z) : Z := from_bits_truncate EntryFlags_all e.

Definition physical_address (e : Z) : res (option Z) :=
  if contains (entry_flags e) PRESENT then
    let? a := PhysAddr_new (Z.land e 0x000FFFFFFFFFF000) in Ret (Some a)
  else Ret None.

(** [add_flags] and [set] give the entry's new value. *)
Definition entry_add_flags (e flags : Z) : Z := Z.lor e flags.

Definition entry_set (physical_address flags : Z) : res Z :=
  if negb (Z.land physical_address 0xFFF =? 0) then Stop (Panic "Physical address not page aligned!") else
  let bit_47 := Z.land (Z.shiftr physical_address 48) 1 in
  if bit_47 =? 1 then
    if Z.shiftr physical_address 48 =? 0xFFFF then Ret (Z.lor physical_address flags)
    else Stop (Panic "Physical address is not correctly sign extended!")
  else
    if Z.shiftr physical_address 48 =? 0 then Ret (Z.lor physical_address flags)
    else Stop (Panic "Physical address is not correctly sign extended!").

(** ** Page tables, by the virtual address of the table *)

Context {P : Type} `{FA : FrameAllocator P}.

(** [Index]/[IndexMut]: [self.entries[index]], bounds checked. *)
Definition table_read (t index : Z) : M (machine P) Z :=
  do! assert_m ((0 <=? index) && (index <? PAGE_TABLE_ENTRIES)) "index out of bounds" in
  vread64 (t + 8 * index).
Definition table_write (t index v : Z) : M (machine P) unit :=
  do! assert_m ((0 <=? index) && (index <? PAGE_TABLE_ENTRIES)) "index out of bounds" in
  vwrite64 (t + 8 * index) v.

(** [self.entries[index].set(addr, flags)] *)
Definition table_set (t index addr flags : Z) : M (machine P) unit :=
  let! v := lift (entry_set addr flags) in table_write t index v.

(** [PageTable::zero]: every entry [set_unused]. *)
Definition zero (t : Z) : M (machine P) unit :=
  for_each (range_excl 0 PAGE_TABLE_ENTRIES) (fun i => table_write t i 0).

Definition next_table_addr (t index : Z) : M (machine P) (option Z) :=
  let! e := table_read t index in
  let entry_flags := entry_flags e in
  if contains entry_flags PRESENT && negb (contains entry_flags HUGE_PAGE) then
    ret (Some (Z.lor (Z.lor (shl64 0xFFFF 48) (shl64 t 9)) (shl64 index 12)))
  else ret None.

Definition next_page_table (t index : Z) : M (machine P) (option Z) := next_table_addr t index.
Definition next_page_table_mut (t index : Z) : M (machine P) (option Z) := next_table_addr t index.

(** [None]: a huge page is mapped here; [Some (Err OutOfMemory_)]: out of memory. *)
Definition next_table_create (l : Level) (t index : Z)
  : M (machine P) (option (result Z OutOfMemory)) :=
  let finish :=
    let! next := next_page_table_mut t index in
    ret (option_map Ok next) in
  let! next := next_page_table t index in
  match next with
  | Some _ => finish
  | None =>
      let! e := table_read t index in
      if contains (entry_flags e) HUGE_PAGE then
        do! assert_m (CAN_BE_HUGE l) "Page has huge bit but cannot be huge!" in
        finish
      else
        let! frame := allocate_frame 0 in
        match frame with
        | None => ret (Some (Err OutOfMemory_))
        | Some frame =>
            do! table_set t index frame (PRESENT ||| WRITABLE ||| USER_ACCESSIBLE) in
            let! next := next_page_table_mut t index in
            let! next := expect next "No next table!" in
            do! zero next in
            finish
        end
  end.

End paging.
