(* ===== verification/Layout.v ===== *)
(** Constants of the kernel's and the processes' address space layout:
    [memory.rs], [memory/heap.rs], [vga.rs] and [process.rs]. *)
From S2P Require Import Prelude Crates Machine FrameAlloc Paging.

Definition KERNEL_MAPPING_BEGIN : Z := 0xffffffff80000000.
Definition IST_STACK_SIZE_PAGES : Z := 4.
Definition PAGE_BEFORE_NON_CANONICAL : Page := containing_address (Z.shiftl 1 47 - 1).
Definition LAST_USABLE_PAGE : Page :=
  mkPage (number PAGE_BEFORE_NON_CANONICAL - 1) (Some Kib4).

Definition HEAP_START : Z := 0xffffffff40000000.
Definition VIRTUAL_VGA_PTR : Z := KERNEL_MAPPING_BEGIN + 0xb8000.

Section process_constants.
Context `{X : X86_64Crate}.
Definition STACK_TOP : Z := VirtAddr_new_truncate 0x7fffffffe000.
Definition INITIAL_STACK_SIZE_PAGES : Z := 16.
Definition STACK_BOTTOM : Z := VirtAddr_new_truncate (STACK_TOP - INITIAL_STACK_SIZE_PAGES).
End process_constants.
