(* ===== verification/PageMap.v ===== *)
(** [kernel/src/memory/paging/page_map.rs]: the [Mapper] and its operations on
    the active page tables. *)
From S2P Require Import Prelude Crates Machine FrameAlloc Paging Layout.

Inductive FreeMemory := Free | NoFree.
Inductive InvalidateTlb := Invalidate | NoInvalidate.
Inductive ZeroPage := Zero | NoZero.
Inductive TryMapError :=
| InvalidAddress (p : Page)
| AlreadyMapped (p : Page)
| TryOutOfMemory.

#[export] Instance FreeMemory_eq_dec : EqDecision FreeMemory.
Proof. solve_decision. Defined.
#[export] Instance InvalidateTlb_eq_dec : EqDecision InvalidateTlb.
Proof. solve_decision. Defined.
#[export] Instance ZeroPage_eq_dec : EqDecision ZeroPage.
Proof. solve_decision. Defined.

(** [From<OutOfMemory> for TryMapError] *)
Definition TryMapError_from (_ : OutOfMemory) : TryMapError := TryOutOfMemory.

(** The address of the P4 table in the recursive window,
    [0o177_777_776_776_776_776_0000]. *)
Definition P4 : Z := 0xFFFFFF7FBFDFE000.

(** A [PageRangeMapping]: the range of page numbers and the first frame number. *)
Record PageRangeMapping := mkPageRangeMapping { pages : Z * Z; start_frame : Z }.

Section mapper.
Context `{B : Build} `{X : X86_64Crate} `{F : BitflagsCrate} {P : Type} `{FA : FrameAllocator P}.

Definition page_start (p : Page) (msg : string) : M (machine P) Z :=
  let! a := lift (start_address p) in expect a msg.

Definition walk_page_table (page : Page) : M (machine P) (option (Z * PageSize)) :=
  let! p3 := next_page_table P4 (p4_index page) in
  let huge_page :=
    match p3 with
    | None => ret None
    | Some p3 =>
        let! p3_entry := table_read p3 (p3_index page) in
        let! pa := lift (physical_address p3_entry) in
        if bool_decide (is_Some pa) && contains (entry_flags p3_entry) HUGE_PAGE then
          panic "1 GiB pages are not supported!"
        else
          let! p2 := next_page_table p3 (p3_index page) in
          match p2 with
          | None => ret None
          | Some p2 =>
              let! p2_entry := table_read p2 (p2_index page) in
              let! start_frame := lift (physical_address p2_entry) in
              match start_frame with
              | None => ret None
              | Some start_frame =>
                  if contains (entry_flags p2_entry) (PRESENT ||| HUGE_PAGE) then
                    do! assert_m (Z.shiftr start_frame 12 mod PAGE_TABLE_ENTRIES =? 0)
                          "Adress is not 2MiB aligned!" in
                    ret (Some (p2_entry, Mib2))
                  else ret None
              end
          end
    end in
  let! small :=
    match p3 with
    | None => ret None
    | Some p3 =>
        let! p2 := next_page_table p3 (p3_index page) in
        match p2 with
        | None => ret None
        | Some p2 =>
            let! p1 := next_page_table p2 (p2_index page) in
            match p1 with
            | None => ret None
            | Some p1 =>
                let! p1_entry := table_read p1 (p1_index page) in
                if contains (entry_flags p1_entry) PRESENT then ret (Some (p1_entry, Kib4))
                else ret None
            end
        end
    end in
  match small with
  | Some r => ret (Some r)
  | None => huge_page
  end.

Definition map_to (page : Page) (physical_address flags : Z) (invplg : InvalidateTlb)
  : M (machine P) (result unit OutOfMemory) :=
  let! p3 := next_table_create Level4 P4 (p4_index page) in
  let! p3 := expect p3 "No next p3 table!" in
  match p3 with
  | Err e => ret (Err e)
  | Ok p3 =>
  let! p2 := next_table_create Level3 p3 (p3_index page) in
  let! p2 := expect p2 "No next p2 table!" in
  match p2 with
  | Err e => ret (Err e)
  | Ok p2 =>
  do! assert_m (bool_decide (is_Some (size page))) "Page to map requires size!" in
  if bool_decide (size page = Some Kib4) then
    let! p1 := next_table_create Level2 p2 (p2_index page) in
    match p1 with
    | None =>
        let! e := table_read p2 (p2_index page) in
        if contains (entry_flags e) HUGE_PAGE then
          panic "No next p1 table - the area is mapped in 2mib pages"
        else panic "No next p1 table (unknown reason)"
    | Some (Err e) => ret (Err e)
    | Some (Ok p1) =>
        do! table_set p1 (p1_index page) physical_address (flags ||| PRESENT) in
        do! (if decide (invplg = Invalidate) then
               let! a := page_start page "unwrap" in
               let! a := lift (VirtAddr_new a) in
               tlb_flush a
             else ret tt) in
        ret (Ok tt)
    end
  else panic "2mib pages are only partially supported!"
  end
  end.

Definition map (page : Page) (flags : Z) (invplg : InvalidateTlb) (zero : ZeroPage)
  : M (machine P) (result unit OutOfMemory) :=
  do! assert_m (bool_decide (is_Some (size page))) "Page needs size!" in
  let order := if decide (size page = Some Kib4) then 0 else 9 in
  let! frame := allocate_frame order in
  match frame with
  | None => ret (Err OutOfMemory_)
  | Some frame =>
      let! r := map_to page frame flags invplg in
      match r with
      | Err e => ret (Err e)
      | Ok _ =>
          do! (if decide (zero = Zero) then
                 let! a := page_start page "unwrap" in
                 let! sz := expect (size page) "unwrap" in
                 do! memset_volatile_64bit a 0 (bytes sz) in ret tt
               else ret tt) in
          ret (Ok tt)
      end
  end.

(** [Page::containing_address(no as u64 * 0x1000)] *)
Definition page_of_number (no : Z) : res Page :=
  let? a := mul64 no 0x1000 in Ret (containing_address a).

Definition both_kib4 (start last : Page) : bool :=
  bool_decide (size start = Some Kib4) && bool_decide (size last = Some Kib4).

Definition map_range (start last : Page) (flags : Z) (invplg : InvalidateTlb) (zero : ZeroPage)
  : M (machine P) (result unit OutOfMemory) :=
  do! assert_m (both_kib4 start last) "Only mapping of 4kib pages is supported" in
  try_each (range_incl (number start) (number last)) (fun no =>
    let! page := lift (page_of_number no) in
    map page flags invplg zero).

(** What it traces before it refuses the last page is [trace_user_range] of [Syscall.v]. *)
Definition try_map_user_range (start last : Page) (flags : Z) (invplg : InvalidateTlb)
    (ignore_already_mapped : bool) (zero : ZeroPage)
  : M (machine P) (result unit TryMapError) :=
  do! assert_m (both_kib4 start last) "Only mapping of 4kib pages is supported" in
  let! v_start := page_start start "unwrap" in
  let! v_end := page_start last "unwrap" in
  if page_gt last LAST_USABLE_PAGE then ret (Err (InvalidAddress last)) else
  if bool_decide (VirtAddr_try_new v_end = None) then ret (Err (InvalidAddress last)) else
  if bool_decide (VirtAddr_try_new v_start = None) then ret (Err (InvalidAddress start)) else
  if Z.shiftr v_end 63 =? 1 then ret (Err (InvalidAddress last)) else
  if Z.shiftr v_start 63 =? 1 then ret (Err (InvalidAddress start)) else
  let stack_bottom := containing_address STACK_BOTTOM in
  if page_gt last stack_bottom then ret (Err (InvalidAddress last)) else
  try_each (range_incl (number start) (number last)) (fun no =>
    let! page := lift (page_of_number no) in
    let! mapped := if ignore_already_mapped then ret false
                   else let! w := walk_page_table page in ret (bool_decide (is_Some w)) in
    if mapped then ret (Err (AlreadyMapped page)) else
    let! r := map page flags invplg zero in
    match r with
    | Ok _ => ret (Ok tt)
    | Err e => ret (Err (TryMapError_from e))
    end).

Definition set_flags (start last : Page) (flags : Z) (invplg : InvalidateTlb)
  : M (machine P) unit :=
  for_each (range_incl (number start) (number last)) (fun no =>
    let! page := lift (page_of_number no) in
    let! w := walk_page_table page in
    let! w := expect w "Virtual address is not mapped!" in
    let! paddr := lift (physical_address w.1) in
    let! paddr := expect paddr "unwrap" in
    let! r := map_to page paddr flags invplg in
    expect_ok r "unwrap").

Definition unmap (page : Page) (free_physmem : FreeMemory) (invplg : InvalidateTlb)
  : M (machine P) unit :=
  let! a := lift (start_address page) in
  do! assert_m (bool_decide (is_Some a)) "Page to map requires size!" in
  let! w := walk_page_table page in
  do! assert_m (bool_decide (is_Some w)) "Virtual address is not mapped!" in
  let! p3 := next_page_table_mut P4 (p4_index page) in
  let! p3 := expect p3 "Unmap called on unmapped page!" in
  let! p2 := next_page_table_mut p3 (p3_index page) in
  let! p2 := expect p2 "Unmap called on unmapped page!" in
  let! p1 := next_page_table_mut p2 (p2_index page) in
  do! match p1 with
      | Some p1 =>
          let! e := table_read p1 (p1_index page) in
          let! frame := lift (physical_address e) in
          let! frame := expect frame "Page already unmapped!" in
          do! table_write p1 (p1_index page) 0 in
          if decide (free_physmem = Free) then deallocate_frame frame 0 else ret tt
      | None =>
          let! e := table_read p2 (p2_index page) in
          let! frame := lift (physical_address e) in
          let! frame := expect frame "Page already unmapped!" in
          do! table_write p2 (p2_index page) 0 in
          if decide (free_physmem = Free) then deallocate_frame frame 9 else ret tt
      end in
  if decide (invplg = Invalidate) then
    let! a := page_start page "unwrap" in
    let! a := lift (VirtAddr_new a) in
    tlb_flush a
  else ret tt.

Definition unmap_range (start last : Page) (free_physmem : FreeMemory) (invplg : InvalidateTlb)
  : M (machine P) unit :=
  for_each (range_incl (number start) (number last)) (fun no =>
    unmap (mkPage no (size start)) free_physmem invplg).

Definition id_map_range (first last flags : Z) (invplg : InvalidateTlb) : M (machine P) unit :=
  for_each (range_incl (first / 4096) (last / 4096)) (fun frame_no =>
    let! addr := lift (mul64 frame_no 4096) in
    let! pa := lift (PhysAddr_new addr) in
    let! r := map_to (containing_address addr) pa flags invplg in
    expect_ok r "Out of physical memory for page tables").

(** [util::round_up_divide] *)
Definition round_up_divide (x y : Z) : res Z :=
  let? a := add64 x y in let? a := sub64 a 1 in Ret (a / y).

Definition higher_half_map_range (first last flags : Z) (invplg : InvalidateTlb)
  : M (machine P) unit :=
  let! frame_end := lift (round_up_divide last 4096) in
  for_each (range_incl (first / 4096) frame_end) (fun frame_no =>
    let! address := lift (mul64 frame_no 4096) in
    let! pa := lift (sub64 address KERNEL_MAPPING_BEGIN) in
    let! pa := lift (PhysAddr_new pa) in
    let! r := map_to (containing_address address) pa flags invplg in
    expect_ok r "Out of physical memory for page tables").

Definition PageRangeMapping_new (start_page : Page) (start_frame pages : Z)
  : res PageRangeMapping :=
  if negb (bool_decide (size start_page = Some Kib4)) then
    Stop (Panic "Start page needs to be 4kib!") else
  let? a := start_address start_page in
  match a with
  | None => Stop (Panic "unwrap")
  | Some a =>
      let page_number := a / 4096 in
      let? last := add64 page_number pages in
      Ret (mkPageRangeMapping (page_number, last) start_frame)
  end.

Definition map_page_range (mapping : PageRangeMapping) (invplg : InvalidateTlb) (flags : Z)
  : M (machine P) (result unit OutOfMemory) :=
  let ps := range_incl (pages mapping).1 (pages mapping).2 in
  let! last_frame := lift (add64 (start_frame mapping) (Z.of_nat (length ps))) in
  let frames := range_incl (start_frame mapping) last_frame in
  try_each (zip frames ps) (fun '(frame_no, page_no) =>
    let! phys_address := lift (mul64 frame_no 4096) in
    let! virtual_address := lift (mul64 page_no 4096) in
    let! pa := lift (PhysAddr_new phys_address) in
    map_to (containing_address virtual_address) pa flags invplg).

End mapper.
