(* ===== verification/AddressSpace.v ===== *)
(** The physical view of an address space: the tables reached from a P4 frame by
    following entries in physical memory, and the fact that makes the recursive
    mapping work: the virtual addresses the kernel computes for its tables are
    translated by the MMU to exactly those frames. *)
From S2P Require Import Prelude Crates Machine.

(** * Tables by path *)

(** The frame that entry [i] of the table at [f] points to. *)
Definition next_frame (m : gmap Z Z) (f i : Z) : option Z :=
  let e := entry_at m f i in
  if e_present e && negb (e_huge e) then Some (e_addr e) else None.

(** The table reached from the one at [f] by the indices [p]. *)
Fixpoint table_at (m : gmap Z Z) (f : Z) (p : list Z) : option Z :=
  match p with
  | [] => Some f
  | i :: p => next_frame m f i ≫= fun g => table_at m g p
  end.

Definition idx (i : Z) : Prop := 0 <= i < 512.

(** The index of the recursive entry. *)
Definition REC : Z := 510.

(** The virtual address of the page with table indices [a], [b], [c], [d] in the
    upper half. *)
Definition va4 (a b c d : Z) : Z :=
  2 ^ 64 - 2 ^ 48 + a * 2 ^ 39 + b * 2 ^ 30 + c * 2 ^ 21 + d * 2 ^ 12.

(** Where the table at path [p] appears in the recursive window. *)
Definition tva (p : list Z) : Z :=
  match p with
  | [] => va4 REC REC REC REC
  | [a] => va4 REC REC REC a
  | [a; b] => va4 REC REC a b
  | a :: b :: c :: _ => va4 REC a b c
  end.

#[global] Arguments va4 : simpl never.
#[global] Arguments tva : simpl never.

(** The recursive entry of the P4 table at [R] points back to it. *)
Record rec_ok (m : gmap Z Z) (R : Z) : Prop := {
  rec_present : e_present (entry_at m R REC) = true;
  rec_not_huge : e_huge (entry_at m R REC) = false;
  rec_writable : e_writable (entry_at m R REC) = true;
  rec_addr : e_addr (entry_at m R REC) = R
}.

(** Every entry on the way to the table at [p] allows writes. *)
Fixpoint path_writable (m : gmap Z Z) (f : Z) (p : list Z) : bool :=
  match p with
  | [] => true
  | i :: p => e_writable (entry_at m f i) && path_writable m (e_addr (entry_at m f i)) p
  end.

(** * Lemmas *)

Lemma va_index_alt x n : 0 <= n -> Z.land (Z.shiftr x n) 511 = (x / 2 ^ n) mod 512.
Proof.
  intros. rewrite Z.shiftr_div_pow2 by done. apply (land_ones_mod _ 9). lia.
Qed.

Lemma e_addr_alt e : e_addr e = ((e / 2 ^ 12) mod 2 ^ 40) * 2 ^ 12.
Proof.
  unfold e_addr. rewrite <- Z.land_ones, <- Z.shiftr_div_pow2, <- Z.shiftl_mul_pow2 by lia.
  change 0x000FFFFFFFFFF000 with (Z.shiftl (Z.ones 40) 12).
  apply Z.bits_inj'. intros k Hk.
  rewrite Z.land_spec, !Z.shiftl_spec by lia.
  destruct (Z.lt_ge_cases k 12).
  - rewrite !(Z.testbit_neg_r _ (k - 12)) by lia. apply andb_false_r.
  - rewrite Z.land_spec, Z.shiftr_spec by lia. f_equal. f_equal. lia.
Qed.

Lemma e_addr_range e : e_addr e mod 4096 = 0 /\ 0 <= e_addr e < 2 ^ 52.
Proof.
  rewrite e_addr_alt. pose proof (Z.mod_pos_bound (e / 2 ^ 12) (2 ^ 40)).
  split; [|lia]. change 4096 with (2 ^ 12). apply Z_mod_mult.
Qed.

Section va.
Context (a b c d off : Z).
Context (Ha : idx a) (Hb : idx b) (Hc : idx c) (Hd : idx d) (Ho : 0 <= off < 4096).

Lemma va4_p4 : va_p4 (va4 a b c d + off) = a.
Proof.
  unfold va_p4, va4, idx in *. rewrite va_index_alt by lia.
  Z.to_euclidean_division_equations. lia.
Qed.
Lemma va4_p3 : va_p3 (va4 a b c d + off) = b.
Proof.
  unfold va_p3, va4, idx in *. rewrite va_index_alt by lia.
  Z.to_euclidean_division_equations. lia.
Qed.
Lemma va4_p2 : va_p2 (va4 a b c d + off) = c.
Proof.
  unfold va_p2, va4, idx in *. rewrite va_index_alt by lia.
  Z.to_euclidean_division_equations. lia.
Qed.
Lemma va4_p1 : va_p1 (va4 a b c d + off) = d.
Proof.
  unfold va_p1, va4, idx in *. rewrite va_index_alt by lia.
  Z.to_euclidean_division_equations. lia.
Qed.
Lemma va4_off : (va4 a b c d + off) mod 4096 = off.
Proof.
  unfold va4, idx in *. Z.to_euclidean_division_equations. lia.
Qed.
End va.

Lemma va4_canonical a b c d off :
  256 <= a < 512 -> idx b -> idx c -> idx d -> 0 <= off < 4096 ->
  canonical (va4 a b c d + off) = true.
Proof.
  unfold idx. intros. unfold canonical, sign_extend_47.
  assert (((va4 a b c d + off) / 2 ^ 47) mod 2 = 1) as Hb.
  { unfold va4. Z.to_euclidean_division_equations. lia. }
  assert (Z.testbit (va4 a b c d + off) 47 = true) as -> by (by apply Z.testbit_true).
  apply Z.eqb_eq. unfold va4. Z.to_euclidean_division_equations. lia.
Qed.

(** The address computed by [next_table_addr] for entry [i] of a table drops the
    first index of the table's own address and appends [i]. *)
Lemma next_va a b c d i :
  idx a -> idx b -> idx c -> idx d -> idx i ->
  Z.lor (Z.lor (shl64 0xFFFF 48) (shl64 (va4 a b c d) 9)) (shl64 i 12) = va4 b c d i.
Proof.
  unfold idx. intros Ha Hb Hc Hd Hi. unfold shl64, wrap.
  rewrite !Z.shiftl_mul_pow2 by lia.
  rewrite (Z.mod_small (0xFFFF * 2 ^ 48)) by lia.
  rewrite (Z.mod_small (i * 2 ^ 12)) by lia.
  set (low := b * 2 ^ 39 + c * 2 ^ 30 + d * 2 ^ 21).
  assert ((va4 a b c d * 2 ^ 9) mod 2 ^ 64 = (2 ^ 16 - 512 + a) * 2 ^ 48 + low) as ->.
  { unfold va4, low. Z.to_euclidean_division_equations. lia. }
  assert (0 <= low < 2 ^ 48) as Hlow by (unfold low; lia).
  rewrite <- (lor_low_add (2 ^ 16 - 512 + a) low 48), Z.lor_assoc by lia.
  rewrite <- !(Z.shiftl_mul_pow2 _ 48), <- Z.shiftl_lor by lia.
  assert (Z.lor 0xFFFF (2 ^ 16 - 512 + a) = 0xFFFF) as ->.
  { apply Z.bits_inj'. intros k Hk. rewrite Z.lor_spec. change 0xFFFF with (Z.ones 16).
    destruct (Z.lt_ge_cases k 16).
    - by rewrite Z.ones_spec_low by lia.
    - rewrite Z.ones_spec_high by lia.
      rewrite <- (Z.mod_small (2 ^ 16 - 512 + a) (2 ^ 16)) by lia.
      by rewrite Z.mod_pow2_bits_high by lia. }
  rewrite Z.shiftl_mul_pow2, (lor_low_add 0xFFFF low 48) by lia.
  replace (0xFFFF * 2 ^ 48 + low)
    with ((0xFFFF * 2 ^ 27 + b * 2 ^ 18 + c * 2 ^ 9 + d) * 2 ^ 21) by (unfold low; lia).
  rewrite lor_low_add by lia. unfold va4. lia.
Qed.

Lemma next_tva p i :
  Forall idx p -> idx i -> (length p <= 2)%nat ->
  Z.lor (Z.lor (shl64 0xFFFF 48) (shl64 (tva p) 9)) (shl64 i 12) = tva (p ++ [i]).
Proof.
  assert (idx REC) by (unfold idx, REC; lia).
  intros Hp Hi Hlen. destruct p as [|a [|b [|c p]]]; simpl in *; try lia;
    decompose_Forall; unfold tva; by apply next_va.
Qed.

Lemma table_at_app m f p q :
  table_at m f (p ++ q) = table_at m f p ≫= fun g => table_at m g q.
Proof.
  revert f. induction p as [|i p IH]; intros f; simpl; [done|].
  destruct (next_frame m f i); simpl; [apply IH|done].
Qed.

Lemma table_at_snoc m f p i :
  table_at m f (p ++ [i]) = table_at m f p ≫= fun g => next_frame m g i.
Proof.
  rewrite table_at_app. destruct (table_at m f p) as [g|]; simpl; [|done].
  by destruct (next_frame m g i).
Qed.

Lemma path_writable_snoc m f p i g :
  table_at m f p = Some g ->
  path_writable m f (p ++ [i]) = path_writable m f p && e_writable (entry_at m g i).
Proof.
  revert f. induction p as [|j p IH]; intros f; simpl.
  - intros [= ->]. by rewrite andb_true_r.
  - unfold next_frame. destruct (_ && _); simpl; [|done]. intros Hg.
    by rewrite (IH _ Hg), andb_assoc.
Qed.

Lemma next_frame_inv m f i g :
  next_frame m f i = Some g ->
  e_present (entry_at m f i) = true /\ e_huge (entry_at m f i) = false /\
  e_addr (entry_at m f i) = g.
Proof.
  unfold next_frame. destruct (e_present _), (e_huge _); simpl; try done.
  by intros [= ->].
Qed.

Lemma next_frame_some m f i :
  e_present (entry_at m f i) = true -> e_huge (entry_at m f i) = false ->
  next_frame m f i = Some (e_addr (entry_at m f i)).
Proof. intros Hp Hh. unfold next_frame. by rewrite Hp, Hh. Qed.
Lemma next_frame_absent m f i :
  e_present (entry_at m f i) = false -> next_frame m f i = None.
Proof. intros Hp. unfold next_frame. by rewrite Hp. Qed.
Lemma next_frame_huge m f i :
  e_huge (entry_at m f i) = true -> next_frame m f i = None.
Proof. intros Hh. unfold next_frame. by rewrite Hh, andb_false_r. Qed.

Lemma next_frame_range m f i g :
  next_frame m f i = Some g -> g mod 4096 = 0 /\ 0 <= g < 2 ^ 52.
Proof. intros (_ & _ & <-)%next_frame_inv. apply e_addr_range. Qed.

Section recursive.
Context (m : gmap Z Z) (R : Z) (Hrec : rec_ok m R).

Lemma rec_next : next_frame m R REC = Some R.
Proof. destruct Hrec. unfold next_frame. by rewrite rec_present0, rec_not_huge0, rec_addr0. Qed.

Lemma rec_range : R mod 4096 = 0 /\ 0 <= R < 2 ^ 52.
Proof. apply (next_frame_range _ _ _ _ rec_next). Qed.

Lemma table_at_range p f : table_at m R p = Some f -> f mod 4096 = 0 /\ 0 <= f < 2 ^ 52.
Proof.
  destruct p as [|i p _] using rev_ind; [intros [= <-]; apply rec_range|].
  rewrite table_at_snoc. destruct (table_at m R p); simpl; [apply next_frame_range|done].
Qed.

(** One MMU level that is not a leaf, as a table step. *)
Lemma mmu_walk_tables a b c d off f1 f2 f3 f4 :
  256 <= a < 512 -> idx b -> idx c -> idx d -> 0 <= off < 4096 ->
  next_frame m R a = Some f1 -> next_frame m f1 b = Some f2 ->
  next_frame m f2 c = Some f3 -> next_frame m f3 d = Some f4 ->
  mmu_walk m R (va4 a b c d + off) =
    Some (f4 + off, e_writable (entry_at m R a) && e_writable (entry_at m f1 b) &&
                    e_writable (entry_at m f2 c) && e_writable (entry_at m f3 d)).
Proof.
  intros Ha Hb Hc Hd Ho H1 H2 H3 H4.
  apply next_frame_inv in H1 as (P1 & N1 & A1), H2 as (P2 & N2 & A2),
    H3 as (P3 & N3 & A3), H4 as (P4 & N4 & A4).
  assert (idx a) by (unfold idx; lia).
  unfold mmu_walk. rewrite va4_canonical by done. simpl.
  rewrite va4_p4, va4_p3, va4_p2, va4_p1, va4_off by done.
  rewrite P1, N1, A1. simpl. rewrite P2, N2, A2. simpl. rewrite P3, N3, A3. simpl.
  rewrite P4, A4. done.
Qed.

(** The MMU translates the recursive address of a table to the table. *)
Lemma mmu_walk_tva p f off :
  Forall idx p -> (length p <= 3)%nat -> table_at m R p = Some f -> 0 <= off < 4096 ->
  mmu_walk m R (tva p + off) = Some (f + off, path_writable m R p).
Proof.
  intros Hp Hlen Hf Ho. pose proof rec_next as Hr. pose proof (rec_writable _ _ Hrec) as Hw.
  assert (idx REC) as HR by (unfold idx, REC; lia).
  assert (256 <= REC < 512) by (unfold REC; lia).
  destruct p as [|a p].
  { injection Hf as <-. unfold tva. rewrite (mmu_walk_tables _ _ _ _ _ R R R R) by done.
    by rewrite Hw. }
  destruct p as [|b [|c [|]]]; simpl in *; try lia; decompose_Forall; unfold tva.
  - destruct (next_frame m R a) eqn:E1; simplify_eq/=.
    rewrite (mmu_walk_tables _ _ _ _ _ R R R f) by done.
    rewrite Hw. simpl. by rewrite ?andb_true_r.
  - destruct (next_frame m R a) as [f1|] eqn:E1; simplify_eq/=.
    destruct (next_frame m f1 b) as [f2|] eqn:E2; simplify_eq/=.
    rewrite (mmu_walk_tables _ _ _ _ _ R R f1 f) by done.
    apply next_frame_inv in E1 as (_ & _ & ->). rewrite Hw. simpl. by rewrite ?andb_true_r.
  - destruct (next_frame m R a) as [f1|] eqn:E1; simplify_eq/=.
    destruct (next_frame m f1 b) as [f2|] eqn:E2; simplify_eq/=.
    destruct (next_frame m f2 c) as [f3|] eqn:E3; simplify_eq/=.
    rewrite (mmu_walk_tables _ _ _ _ _ R f1 f2 f) by done.
    apply next_frame_inv in E1 as (_ & _ & ->), E2 as (_ & _ & ->).
    rewrite Hw. simpl. by rewrite ?andb_true_r, ?andb_assoc.
Qed.

End recursive.

(** * Well-formed address spaces *)

(** Paths of real tables: at most three indices, the first not the recursive one. *)
Definition vpath (p : list Z) : Prop :=
  Forall idx p /\ (length p <= 3)%nat /\ head p <> Some REC.

(** Entry [i] of the table at path [p]. *)
Definition ent (m : gmap Z Z) (R : Z) (p : list Z) (i : Z) : option Z :=
  (fun f => entry_at m f i) <$> table_at m R p.

(** The tables form a tree (no frame is used for two tables), with the recursive
    entry at the root and every link writable. *)
Record space_ok (m : gmap Z Z) (R : Z) : Prop := {
  so_rec : rec_ok m R;
  so_writable p f i g :
    vpath (p ++ [i]) -> table_at m R p = Some f -> next_frame m f i = Some g ->
    e_writable (entry_at m f i) = true;
  so_inj p q f :
    vpath p -> vpath q -> table_at m R p = Some f -> table_at m R q = Some f -> p = q
}.

(** Filling the table at [f] with unused entries. *)
Definition zero_frame (m : gmap Z Z) (f : Z) : gmap Z Z :=
  foldl (fun m i => <[f + 8 * i := 0]> m) m (range_excl 0 512).

#[global] Arguments zero_frame : simpl never.

(** ** Paths *)

Lemma vpath_app p q : vpath (p ++ q) -> vpath p.
Proof.
  intros (Hi & Hl & Hh). rewrite length_app in Hl. apply Forall_app in Hi as [Hi _].
  split_and!; [done|lia|]. by destruct p.
Qed.

Lemma vpath_idx p i : vpath (p ++ [i]) -> idx i.
Proof. intros (Hi & _). apply Forall_app in Hi as [_ Hi]. by decompose_Forall. Qed.

Lemma vpath_len p i : vpath (p ++ [i]) -> (length p <= 2)%nat.
Proof. intros (_ & Hl & _). rewrite length_app in Hl. simpl in Hl. lia. Qed.

Lemma vpath_nil : vpath [].
Proof. split_and!; [done|simpl; lia|done]. Qed.

Lemma vpath_snoc p i :
  vpath p -> idx i -> (length p <= 2)%nat -> (p = [] -> i <> REC) -> vpath (p ++ [i]).
Proof.
  intros (Hp & Hl & Hh) Hi Hlen Hr. split_and!.
  - apply Forall_app. auto.
  - rewrite length_app. simpl. lia.
  - destruct p; simpl; [|done]. intros [= ->]. by apply Hr.
Qed.

Lemma vpath_rec p i : vpath (p ++ [i]) -> p = [] -> i <> REC.
Proof. intros (_ & _ & Hh) -> ->. done. Qed.

Lemma prefix_snoc_strict (p : list Z) i q r : p = q ++ r -> ~ (p ++ [i]) `prefix_of` q.
Proof.
  intros -> Hc%prefix_length. rewrite !length_app in Hc. simpl in Hc. lia.
Qed.

#[export] Hint Resolve vpath_app vpath_idx vpath_len vpath_nil vpath_rec : wolffia.

(** ** Writes *)

Lemma word_insert m a b v : word (<[a := v]> m) b = if decide (a = b) then v else word m b.
Proof. unfold word. rewrite lookup_insert. by case_decide. Qed.

Lemma entry_address_inj f g i j :
  f mod 4096 = 0 -> g mod 4096 = 0 -> idx i -> idx j -> f + 8 * i = g + 8 * j -> f = g /\ i = j.
Proof. unfold idx. Z.to_euclidean_division_equations. lia. Qed.

Lemma entry_at_write m f i v g j :
  f mod 4096 = 0 -> g mod 4096 = 0 -> idx i -> idx j ->
  entry_at (<[f + 8 * i := v]> m) g j =
    if decide (f = g /\ i = j) then v else entry_at m g j.
Proof.
  intros Hf Hg Hi Hj. unfold entry_at. rewrite word_insert.
  destruct (decide (f + 8 * i = g + 8 * j)) as [Heq|Hne].
  - rewrite decide_True; [done|]. by apply entry_address_inj.
  - rewrite decide_False; [done|]. intros [-> ->]. done.
Qed.

Lemma entry_at_zero_frame_same m f i : idx i -> entry_at (zero_frame m f) f i = 0.
Proof.
  unfold zero_frame, entry_at. intros Hi. apply elem_of_range_excl in Hi. revert m Hi.
  induction (range_excl 0 512) as [|k l IH] using rev_ind; intros m Hi.
  { by apply not_elem_of_nil in Hi. }
  rewrite foldl_app. simpl. rewrite word_insert. case_decide; [done|].
  apply IH. apply elem_of_app in Hi as [Hi|Hi]; [done|].
  apply list_elem_of_singleton in Hi as ->. lia.
Qed.

Lemma word_zero_frame_other m f a :
  (forall i, idx i -> a <> f + 8 * i) -> word (zero_frame m f) a = word m a.
Proof.
  unfold zero_frame. intros Ha.
  assert (forall i, i ∈ range_excl 0 512 -> a <> f + 8 * i) as Ha'.
  { intros i Hi. apply Ha. by apply elem_of_range_excl in Hi. }
  clear Ha. revert m. induction (range_excl 0 512) as [|k l IH]; intros m; simpl; [done|].
  rewrite IH by set_solver. rewrite word_insert. case_decide; [|done].
  exfalso. apply (Ha' k); [set_solver|done].
Qed.

Lemma entry_at_zero_frame_other m f g i :
  f mod 4096 = 0 -> g mod 4096 = 0 -> f <> g -> idx i ->
  entry_at (zero_frame m f) g i = entry_at m g i.
Proof.
  intros Hf Hg Hne Hi. unfold entry_at. apply word_zero_frame_other.
  intros j Hj Heq. apply Hne. symmetry. by apply (entry_address_inj g f i j).
Qed.

(** [table_at] only looks at the entries on its path. *)
Lemma table_at_ext m m' R p :
  (forall q j h r, p = q ++ j :: r -> table_at m R q = Some h ->
     entry_at m' h j = entry_at m h j) ->
  table_at m' R p = table_at m R p.
Proof.
  induction p as [|i p IH] using rev_ind; intros Hext; [done|].
  rewrite !table_at_snoc, IH.
  - destruct (table_at m R p) as [h|] eqn:E; simpl; [|done].
    unfold next_frame. by rewrite (Hext p i h []).
  - intros q j h r -> Hq. apply (Hext q j h (r ++ [i])); [|done]. by rewrite <- app_assoc.
Qed.

Lemma path_writable_ok m R p f :
  space_ok m R -> vpath p -> table_at m R p = Some f -> path_writable m R p = true.
Proof.
  intros Hok. revert f. induction p as [|i p IH] using rev_ind; intros f Hp; [done|].
  rewrite table_at_snoc. destruct (table_at m R p) as [h|] eqn:E; simpl; [|done]. intros Hn.
  rewrite (path_writable_snoc _ _ _ _ h) by done.
  rewrite (IH h) by eauto with wolffia. simpl. by eapply so_writable.
Qed.

Lemma table_at_link_none m R p i q :
  (table_at m R p ≫= fun f => next_frame m f i) = None ->
  (p ++ [i]) `prefix_of` q -> table_at m R q = None.
Proof.
  intros Hn [r ->]. rewrite table_at_app, table_at_snoc, Hn. done.
Qed.

Section writes.
Context (m : gmap Z Z) (R : Z) (Hok : space_ok m R).
Context (p : list Z) (i f : Z) (Hp : vpath p) (Hi : idx i) (Hf : table_at m R p = Some f).
(** The recursive entry is not the one written. *)
Context (Hrec : p = [] -> i <> REC).

#[local] Lemma Hfr : f mod 4096 = 0.
Proof. by apply (table_at_range _ _ (so_rec _ _ Hok) p). Qed.

(** A write to entry [i] of the table at [p] changes no table outside the
    subtree of that entry. *)
Lemma write_table_at v q :
  vpath q -> ~ (p ++ [i]) `prefix_of` q ->
  table_at (<[f + 8 * i := v]> m) R q = table_at m R q.
Proof.
  intros Hq Hnp. apply table_at_ext. intros q' j h r -> Hh.
  assert (vpath (q' ++ [j])) as Hqj.
  { apply (vpath_app _ r). by rewrite <- app_assoc. }
  rewrite entry_at_write; [|apply Hfr|..]; eauto with wolffia.
  2:{ by apply (table_at_range _ _ (so_rec _ _ Hok) q'). }
  apply decide_False. intros [-> ->]. apply Hnp.
  rewrite (so_inj _ _ Hok p q' h) by eauto with wolffia.
  exists r. by rewrite <- app_assoc.
Qed.

(** The entries that lead to the table at [p] are other entries. *)
Lemma write_entry_on_path v q j r h :
  p = q ++ j :: r -> table_at m R q = Some h ->
  entry_at (<[f + 8 * i := v]> m) h j = entry_at m h j.
Proof.
  intros Hpq Hh.
  assert (vpath (q ++ [j])) as Hqj.
  { apply (vpath_app _ r). rewrite <- app_assoc. simpl. by rewrite <- Hpq. }
  rewrite entry_at_write; [|apply Hfr| |done|]; eauto with wolffia.
  2:{ by apply (table_at_range _ _ (so_rec _ _ Hok) q). }
  apply decide_False. intros [-> ->].
  assert (p = q) as Heq by (eapply so_inj; eauto with wolffia).
  rewrite Heq in Hpq. apply (f_equal length) in Hpq. rewrite length_app in Hpq.
  simpl in Hpq. lia.
Qed.

Lemma write_rec_ok v : rec_ok (<[f + 8 * i := v]> m) R.
Proof.
  assert (entry_at (<[f + 8 * i := v]> m) R REC = entry_at m R REC) as E.
  { rewrite entry_at_write; [|apply Hfr|apply (rec_range _ _ (so_rec _ _ Hok))|done|].
    2:{ unfold idx, REC. lia. }
    apply decide_False. intros [-> ->]. apply Hrec; [|done].
    by apply (so_inj _ _ Hok p [] R); eauto with wolffia. }
  destruct (so_rec _ _ Hok). by split; rewrite E.
Qed.

(** Writes that neither remove nor add a table. *)
Section leaf.
Context (v : Z).
Context (Hleaf : length p = 3%nat \/
                 (next_frame m f i = None /\ e_present v && negb (e_huge v) = false)).

Lemma leaf_table_at q : vpath q -> table_at (<[f + 8 * i := v]> m) R q = table_at m R q.
Proof.
  intros Hq. destruct (decide ((p ++ [i]) `prefix_of` q)) as [Hpre|]; [|by apply write_table_at].
  destruct Hleaf as [Hl|[Hn Hv]].
  - apply prefix_length in Hpre. rewrite length_app in Hpre. simpl in Hpre.
    destruct Hq as (_ & Hq & _). lia.
  - rewrite (table_at_link_none m R p i q); [|by rewrite Hf|done].
    apply (table_at_link_none _ R p i q); [|done].
    rewrite write_table_at; [|done|].
    2:{ intros Hc%prefix_length. rewrite length_app in Hc. simpl in Hc. lia. }
    rewrite Hf. simpl. unfold next_frame.
    rewrite entry_at_write by (done || apply Hfr). by rewrite decide_True, Hv.
Qed.

Lemma leaf_ent q j : vpath q -> idx j ->
  ent (<[f + 8 * i := v]> m) R q j = if decide (q = p /\ j = i) then Some v else ent m R q j.
Proof.
  intros Hq Hj. unfold ent. rewrite leaf_table_at by done.
  destruct (table_at m R q) as [h|] eqn:E; simpl.
  - rewrite entry_at_write; [|apply Hfr| |done|done].
    2:{ by apply (table_at_range _ _ (so_rec _ _ Hok) q). }
    destruct (decide (f = h /\ i = j)) as [[-> ->]|Hne].
    + rewrite decide_True; [done|]. split; [|done]. by eapply so_inj.
    + rewrite decide_False; [done|]. intros [-> ->]. apply Hne. split; congruence.
  - rewrite decide_False; [done|]. intros [-> ->]. congruence.
Qed.

Lemma leaf_space_ok : space_ok (<[f + 8 * i := v]> m) R.
Proof.
  split.
  - apply write_rec_ok.
  - intros q h j g Hq. rewrite leaf_table_at by eauto with wolffia. intros Hh.
    pose proof (proj1 (table_at_range _ _ (so_rec _ _ Hok) q h Hh)) as Hhr.
    unfold next_frame. rewrite entry_at_write; [|apply Hfr| |done|]; eauto with wolffia.
    case_decide as Hd; [|intros Hn; by eapply so_writable].
    destruct Hd as [-> ->]. destruct Hleaf as [Hl|[_ ->]]; [|done].
    rewrite <- (so_inj _ _ Hok p q h) in Hq by eauto with wolffia.
    apply vpath_len in Hq. lia.
  - intros q r h Hq Hr. rewrite !leaf_table_at by done. by apply so_inj.
Qed.

End leaf.
End writes.

(** Linking a fresh frame [g] as a new, empty table below entry [i] of [p]. *)
Section link.
Context (m : gmap Z Z) (R : Z) (Hok : space_ok m R).
Context (p : list Z) (i f : Z) (Hp : vpath (p ++ [i])) (Hf : table_at m R p = Some f).
Context (Hnone : next_frame m f i = None).
Context (g : Z) (Hg : g mod 4096 = 0).
Context (Hfresh : forall q, vpath q -> table_at m R q <> Some g).
Context (e : Z) (Hpr : e_present e = true) (Hhu : e_huge e = false)
        (Hwr : e_writable e = true) (Had : e_addr e = g).

#[local] Abbreviation m1 := (<[f + 8 * i := e]> m).
#[local] Abbreviation m2 := (zero_frame m1 g).

#[local] Lemma link_aligned q h : table_at m R q = Some h -> h mod 4096 = 0.
Proof. intros Hq. by apply (table_at_range _ _ (so_rec _ _ Hok) q). Qed.

(** Entries of the tables that existed before. *)
Lemma link_entry q h j :
  vpath q -> table_at m R q = Some h -> idx j ->
  entry_at m2 h j = if decide (q = p /\ j = i) then e else entry_at m h j.
Proof.
  intros Hq Hh Hj. rewrite entry_at_zero_frame_other; [|done|by eapply link_aligned| |done].
  2:{ intros <-. by eapply Hfresh. }
  rewrite entry_at_write; [|by eapply link_aligned|by eapply link_aligned| |done];
    eauto with wolffia.
  destruct (decide (f = h /\ i = j)) as [[-> ->]|Hne].
  - rewrite decide_True; [done|]. split; [|done]. eapply so_inj; eauto with wolffia.
  - rewrite decide_False; [done|]. intros [-> ->]. apply Hne. split; congruence.
Qed.

Lemma link_table_at q : vpath q ->
  table_at m2 R q = if decide (q = p ++ [i]) then Some g else table_at m R q.
Proof.
  induction q as [|j q IH] using rev_ind; intros Hq.
  { rewrite decide_False; [done|]. by destruct p. }
  rewrite !table_at_snoc, IH by eauto with wolffia.
  destruct (decide (q = p ++ [i])) as [->|Hne].
  - rewrite decide_False by (intros [? ?]%app_inj_tail; apply vpath_len in Hq;
      subst; rewrite length_app in Hq; apply (f_equal length) in H;
      rewrite length_app in H; simpl in H; lia).
    rewrite table_at_snoc, Hf. simpl. rewrite Hnone. simpl. unfold next_frame.
    by rewrite entry_at_zero_frame_same by eauto with wolffia.
  - destruct (table_at m R q) as [h|] eqn:Eq; simpl.
    2:{ rewrite decide_False; [done|]. intros [-> ->]%app_inj_tail. congruence. }
    unfold next_frame. rewrite (link_entry q) by eauto with wolffia.
    destruct (decide (q = p /\ j = i)) as [[-> ->]|Hqj].
    + by rewrite decide_True, Hpr, Hhu, Had.
    + rewrite decide_False; [done|]. by intros ?%app_inj_tail.
Qed.

Lemma link_ent q j : vpath q -> idx j ->
  ent m2 R q j =
    if decide (q = p /\ j = i) then Some e
    else if decide (q = p ++ [i]) then Some 0 else ent m R q j.
Proof.
  intros Hq Hj. unfold ent. rewrite link_table_at by done.
  destruct (decide (q = p ++ [i])) as [->|Hne]; simpl.
  - rewrite entry_at_zero_frame_same by done. rewrite decide_False; [done|].
    intros [H _]. apply (f_equal length) in H. rewrite length_app in H. simpl in H. lia.
  - destruct (table_at m R q) as [h|] eqn:Eq; simpl.
    + rewrite (link_entry q) by done. by case_decide.
    + rewrite decide_False; [done|]. intros [-> _]. congruence.
Qed.

Lemma link_space_ok : space_ok m2 R.
Proof.
  split.
  - assert (entry_at m2 R REC = entry_at m R REC) as E.
    { rewrite (link_entry []); [|eauto with wolffia|done|unfold idx, REC; lia].
      rewrite decide_False; [done|]. intros [Hpe Hie]. by apply (vpath_rec p i Hp). }
    destruct (so_rec _ _ Hok). by split; rewrite E.
  - intros q h j g' Hq. rewrite link_table_at by eauto with wolffia.
    destruct (decide (q = p ++ [i])) as [->|Hne].
    + intros [= <-]. unfold next_frame.
      by rewrite entry_at_zero_frame_same by eauto with wolffia.
    + intros Hh. unfold next_frame. rewrite (link_entry q) by eauto with wolffia.
      case_decide; [done|]. intros Hn. eapply so_writable; eauto.
  - intros q r h Hq Hr. rewrite !link_table_at by done.
    repeat case_decide; subst; try done.
    + intros [= <-] Hx. by apply Hfresh in Hx.
    + intros Hx [= <-]. by apply Hfresh in Hx.
    + by apply so_inj.
Qed.

End link.

Lemma path_writable_ext m m' R p f :
  table_at m R p = Some f ->
  (forall q j h r, p = q ++ j :: r -> table_at m R q = Some h ->
     entry_at m' h j = entry_at m h j) ->
  path_writable m' R p = path_writable m R p.
Proof.
  revert f. induction p as [|i p IH] using rev_ind; intros f Hf Hext; [done|].
  assert (forall q j h r, p = q ++ j :: r -> table_at m R q = Some h ->
            entry_at m' h j = entry_at m h j) as Hext'.
  { intros q j h r -> Hq. apply (Hext q j h (r ++ [i])); [|done]. by rewrite <- app_assoc. }
  rewrite table_at_snoc in Hf. destruct (table_at m R p) as [h|] eqn:E; [|done].
  rewrite !(path_writable_snoc _ _ _ _ h); [|done|by rewrite (table_at_ext m)].
  by rewrite (IH h), (Hext p i h []).
Qed.

(** Writes to a frame that is not on the way to it keep the recursive address of
    a table valid. *)
Section fresh_write.
Context (m : gmap Z Z) (R : Z) (q : list Z) (g : Z).
Context (Hrec : rec_ok m R) (Hq : Forall idx q) (Hne : q <> []).
Context (Hg : table_at m R q = Some g) (Hw : path_writable m R q = true).
Context (Hoff : forall q' j r, q = q' ++ j :: r -> table_at m R q' <> Some g).

Lemma fresh_write_keeps k v :
  idx k ->
  let m' := <[g + 8 * k := v]> m in
  rec_ok m' R /\ table_at m' R q = Some g /\ path_writable m' R q = true /\
  (forall q' j r, q = q' ++ j :: r -> table_at m' R q' <> Some g).
Proof.
  intros Hk m'.
  assert (forall h j, h mod 4096 = 0 -> h <> g -> idx j -> entry_at m' h j = entry_at m h j) as Heq.
  { intros h j Hh Hn Hj. unfold m'. rewrite entry_at_write; try done.
    - apply decide_False. by intros [-> _].
    - by apply (table_at_range _ _ Hrec q). }
  assert (forall q' j h r, q = q' ++ j :: r -> table_at m R q' = Some h ->
            entry_at m' h j = entry_at m h j) as Hext.
  { intros q' j h r Hqq Hh. apply Heq.
    - by apply (table_at_range _ _ Hrec q').
    - intros ->. by apply (Hoff q' j r Hqq).
    - rewrite Hqq in Hq. apply Forall_app in Hq as [_ Hq]. by decompose_Forall. }
  split_and!.
  - assert (entry_at m' R REC = entry_at m R REC) as E.
    { apply Heq; [by apply (rec_range _ _ Hrec)| |unfold idx, REC; lia].
      intros ->. destruct q as [|j r]; [done|]. by apply (Hoff [] j r). }
    destruct Hrec. by split; rewrite E.
  - by rewrite (table_at_ext m).
  - by rewrite (path_writable_ext m _ R q g).
  - intros q' j r Hqq. rewrite (table_at_ext m); [by eapply Hoff|].
    intros q'' j' h r' -> Hh. apply (Hext q'' j' h (r' ++ j :: r)); [|done].
    by rewrite Hqq, <- app_assoc.
Qed.

End fresh_write.

(** * The smallest address space: a P4 table with nothing but its recursive entry *)
Section root_only.
Context (m : gmap Z Z) (R : Z) (Hrec : rec_ok m R).
Context (Hempty : forall i, idx i -> i <> REC -> e_present (entry_at m R i) = false).

Lemma root_only_table_at q : vpath q -> q <> [] -> table_at m R q = None.
Proof.
  intros (Hi & _ & Hh) Hne. destruct q as [|i q]; [done|]. apply list.Forall_cons in Hi as [Hi _].
  cbn [table_at]. unfold next_frame. rewrite Hempty; [done|done|]. simpl in Hh. congruence.
Qed.

Lemma root_only_space_ok : space_ok m R.
Proof.
  split; [done|..].
  - intros p f i g Hp Hf Hn. destruct p as [|j p].
    + injection Hf as <-. unfold next_frame in Hn.
      rewrite Hempty in Hn; [done|by eapply vpath_idx|by apply (vpath_rec [] i)].
    + rewrite root_only_table_at in Hf; [done|by eapply vpath_app|done].
  - intros p q f Hp Hq Ep Eq.
    destruct p as [|i p]; [|by rewrite root_only_table_at in Ep].
    destruct q as [|j q]; [done|by rewrite root_only_table_at in Eq].
Qed.

End root_only.
