(* ===== verification/PagingLemmas.v ===== *)
(** What the page table operations of [Paging.v] do, table by table: the bridge
    from the recursive virtual addresses the code uses to the physical view of
    [AddressSpace.v]. *)
From S2P Require Import Prelude Crates Machine FrameAlloc Paging AddressSpace.

Section flags.
Context `{X : X86_64Crate} `{F : BitflagsCrate}.

Lemma flag_bit (all e n : Z) :
  0 <= n -> Z.testbit all n = true -> contains (from_bits_truncate all e) (2 ^ n) = Z.testbit e n.
Proof.
  intros Hn Hall. rewrite from_bits_truncate_spec, contains_spec, land_bit_eqb by done.
  by rewrite Z.land_spec, Hall, andb_true_r.
Qed.

Lemma contains_present e : contains (entry_flags e) PRESENT = e_present e.
Proof. by apply (flag_bit EntryFlags_all e 0). Qed.
Lemma contains_huge e : contains (entry_flags e) HUGE_PAGE = e_huge e.
Proof. by apply (flag_bit EntryFlags_all e 7). Qed.
Lemma contains_user e : contains (entry_flags e) USER_ACCESSIBLE = Z.testbit e 2.
Proof. by apply (flag_bit EntryFlags_all e 2). Qed.

Lemma contains_present_huge e :
  contains (entry_flags e) (PRESENT ||| HUGE_PAGE) = e_present e && e_huge e.
Proof.
  rewrite <- contains_present, <- contains_huge, flags_or_spec, !contains_spec.
  set (x := entry_flags e). apply eq_true_iff_eq. rewrite andb_true_iff, !Z.eqb_eq.
  unfold PRESENT, HUGE_PAGE. change (Z.shiftl 1 7) with 128.
  rewrite Z.land_lor_distr_r. split.
  - intros H. split.
    + apply (f_equal (fun y => Z.land y 1)) in H. rewrite Z.land_lor_distr_l in H.
      rewrite <- !Z.land_assoc in H. by rewrite Z.land_diag, Z.land_0_r, Z.lor_0_r in H.
    + apply (f_equal (fun y => Z.land y 128)) in H. rewrite Z.land_lor_distr_l in H.
      rewrite <- !Z.land_assoc in H. by rewrite Z.land_diag, Z.land_0_r, Z.lor_0_l in H.
  - by intros [-> ->].
Qed.

Lemma physical_address_spec e :
  physical_address e = Ret (if e_present e then Some (e_addr e) else None).
Proof.
  unfold physical_address. rewrite contains_present. destruct (e_present e); [|done].
  rewrite PhysAddr_new_ok by apply e_addr_range. done.
Qed.

(** A flag set that only uses declared flags. *)
Definition flags_ok (fl : Z) : Prop := Z.land fl EntryFlags_all = fl.

Lemma flags_ok_addr fl : flags_ok fl -> Z.land fl 0x000FFFFFFFFFF000 = 0.
Proof.
  unfold flags_ok. intros <-. rewrite <- Z.land_assoc.
  change (Z.land EntryFlags_all 0x000FFFFFFFFFF000) with 0. apply Z.land_0_r.
Qed.

Lemma flags_ok_or a b : flags_ok a -> flags_ok b -> flags_ok (a ||| b).
Proof.
  unfold flags_ok. intros Ha Hb. by rewrite flags_or_spec, Z.land_lor_distr_l, Ha, Hb.
Qed.

Lemma aligned_land pa : pa mod 4096 = 0 -> Z.land pa 0xFFF = 0.
Proof. intros. change 0xFFF with (2 ^ 12 - 1). by rewrite land_ones_mod by lia. Qed.

Lemma aligned_testbit pa k : pa mod 4096 = 0 -> 0 <= k < 12 -> Z.testbit pa k = false.
Proof.
  intros Hpa Hk. rewrite <- (Z.mod_pow2_bits_low _ 12) by lia.
  change (2 ^ 12) with 4096. rewrite Hpa. apply Z.bits_0.
Qed.

Lemma e_addr_aligned pa : pa mod 4096 = 0 -> 0 <= pa < 2 ^ 52 -> e_addr pa = pa.
Proof.
  intros Hpa Hr. rewrite e_addr_alt. rewrite (Z.mod_small (pa / 2 ^ 12)).
  - change (2 ^ 12) with 4096. Z.to_euclidean_division_equations. lia.
  - Z.to_euclidean_division_equations. lia.
Qed.

Lemma entry_set_ok pa fl :
  pa mod 4096 = 0 -> 0 <= pa < 2 ^ 48 -> entry_set pa fl = Ret (Z.lor pa fl).
Proof.
  intros Hpa Hr. unfold entry_set. rewrite aligned_land by done.
  assert (Z.shiftr pa 48 = 0) as ->; [|reflexivity].
  rewrite Z.shiftr_div_pow2 by lia. by apply Z.div_small.
Qed.

Section new_entry.
Context (pa fl : Z) (Hpa : pa mod 4096 = 0) (Hr : 0 <= pa < 2 ^ 48) (Hfl : flags_ok fl).

Lemma new_entry_addr : e_addr (Z.lor pa fl) = pa.
Proof.
  unfold e_addr. rewrite Z.land_lor_distr_l, (flags_ok_addr fl), Z.lor_0_r by done.
  apply e_addr_aligned; [done|lia].
Qed.
Lemma new_entry_present : e_present (Z.lor pa fl) = e_present fl.
Proof. unfold e_present. by rewrite Z.lor_spec, aligned_testbit by (done || lia). Qed.
Lemma new_entry_huge : e_huge (Z.lor pa fl) = e_huge fl.
Proof. unfold e_huge. by rewrite Z.lor_spec, aligned_testbit by (done || lia). Qed.
Lemma new_entry_writable : e_writable (Z.lor pa fl) = e_writable fl.
Proof. unfold e_writable. by rewrite Z.lor_spec, aligned_testbit by (done || lia). Qed.
End new_entry.

End flags.

Section tables.
Context `{B : Build} `{X : X86_64Crate} `{F : BitflagsCrate} {P : Type}.
Implicit Types s : machine P.

Lemma mmu_tva s p f off :
  rec_ok (mem s) (cr3 s) -> Forall idx p -> (length p <= 3)%nat ->
  table_at (mem s) (cr3 s) p = Some f -> 0 <= off < 4096 ->
  mmu_walk (mem s) (cr3 s) (tva p + off) = Some (f + off, path_writable (mem s) (cr3 s) p).
Proof. intros. by apply mmu_walk_tva. Qed.

Lemma table_read_spec s p f i :
  rec_ok (mem s) (cr3 s) -> Forall idx p -> (length p <= 3)%nat ->
  table_at (mem s) (cr3 s) p = Some f -> idx i ->
  table_read (tva p) i s = Ret (entry_at (mem s) f i, s).
Proof.
  unfold idx. intros Hrec Hp Hl Hf Hi. unfold table_read, assert_m, PAGE_TABLE_ENTRIES.
  replace ((0 <=? i) && (i <? 512)) with true by lia.
  unfold bind, ret, vread64. by rewrite (mmu_tva s p f) by (done || lia).
Qed.

Lemma table_write_spec s p f i v :
  space_ok (mem s) (cr3 s) -> vpath p -> table_at (mem s) (cr3 s) p = Some f -> idx i ->
  table_write (tva p) i v s = Ret (tt, set_mem (<[f + 8 * i := v]> (mem s)) s).
Proof.
  unfold idx. intros Hok Hp Hf Hi. unfold table_write, assert_m, PAGE_TABLE_ENTRIES.
  replace ((0 <=? i) && (i <? 512)) with true by lia.
  destruct (Hp) as (Hp1 & Hp2 & _).
  unfold bind, ret, vwrite64. rewrite (mmu_tva s p f) by (done || lia || apply Hok).
  by rewrite (path_writable_ok _ _ p f).
Qed.

Lemma next_table_addr_spec s p f i :
  rec_ok (mem s) (cr3 s) -> Forall idx p -> (length p <= 2)%nat ->
  table_at (mem s) (cr3 s) p = Some f -> idx i ->
  next_table_addr (tva p) i s =
    Ret ((fun _ => tva (p ++ [i])) <$> next_frame (mem s) f i, s).
Proof.
  intros Hrec Hp Hl Hf Hi. unfold next_table_addr.
  rewrite (bind_ret _ _ s _ _ (table_read_spec s p f i Hrec Hp ltac:(lia) Hf Hi)). cbv beta zeta.
  rewrite contains_present, contains_huge. unfold next_frame. rewrite next_tva by done.
  by destruct (_ && _).
Qed.

End tables.

Section zero.
Context {P : Type}.
Implicit Types s : machine P.

Lemma zero_steps s q g l :
  rec_ok (mem s) (cr3 s) -> Forall idx q -> q <> [] -> (length q <= 3)%nat ->
  table_at (mem s) (cr3 s) q = Some g -> path_writable (mem s) (cr3 s) q = true ->
  (forall q' j r, q = q' ++ j :: r -> table_at (mem s) (cr3 s) q' <> Some g) ->
  Forall idx l ->
  for_each l (fun i => table_write (tva q) i 0) s =
    Ret (tt, set_mem (foldl (fun m i => <[g + 8 * i := 0]> m) (mem s) l) s).
Proof.
  intros Hrec Hq Hne Hlen Hg Hw Hoff Hl. revert s Hrec Hg Hw Hoff.
  induction Hl as [|k l Hk Hl IH]; intros s Hrec Hg Hw Hoff; simpl.
  { unfold ret. by destruct s. }
  assert (table_write (tva q) k 0 s = Ret (tt, set_mem (<[g + 8 * k := 0]> (mem s)) s)) as Hstep.
  { unfold idx in Hk. unfold table_write, assert_m, PAGE_TABLE_ENTRIES.
    replace ((0 <=? k) && (k <? 512)) with true by lia.
    unfold bind, ret, vwrite64. rewrite (mmu_tva s q g) by (done || lia). by rewrite Hw. }
  rewrite (bind_ret _ _ _ _ _ Hstep).
  destruct (fresh_write_keeps _ _ q g Hrec Hq Hne Hg Hw Hoff k 0 Hk) as (H1 & H2 & H3 & H4).
  rewrite IH by done. by destruct s.
Qed.

Lemma zero_spec s q g :
  rec_ok (mem s) (cr3 s) -> Forall idx q -> q <> [] -> (length q <= 3)%nat ->
  table_at (mem s) (cr3 s) q = Some g -> path_writable (mem s) (cr3 s) q = true ->
  (forall q' j r, q = q' ++ j :: r -> table_at (mem s) (cr3 s) q' <> Some g) ->
  zero (tva q) s = Ret (tt, set_mem (zero_frame (mem s) g) s).
Proof.
  intros. unfold zero. rewrite (zero_steps s q g) by (done || (apply list.Forall_forall;
    intros i Hi; by apply elem_of_range_excl in Hi)). done.
Qed.

End zero.

(** * The reference page walk

    What the tables in physical memory say about a page, entry by entry. *)

Definition huge_walk (m : gmap Z Z) (R : Z) (page : Page) : res (option (Z * PageSize)) :=
  match ent m R [p4_index page] (p3_index page) with
  | None => Ret None
  | Some e3 =>
      if e_present e3 && e_huge e3 then Stop (Panic "1 GiB pages are not supported!") else
      match ent m R [p4_index page; p3_index page] (p2_index page) with
      | None => Ret None
      | Some e2 =>
          if e_present e2 && e_huge e2 then
            if Z.shiftr (e_addr e2) 12 mod PAGE_TABLE_ENTRIES =? 0 then Ret (Some (e2, Mib2))
            else Stop (Panic "Adress is not 2MiB aligned!")
          else Ret None
      end
  end.

Definition ref_walk (m : gmap Z Z) (R : Z) (page : Page) : res (option (Z * PageSize)) :=
  match ent m R [p4_index page; p3_index page; p2_index page] (p1_index page) with
  | Some e1 => if e_present e1 then Ret (Some (e1, Kib4)) else huge_walk m R page
  | None => huge_walk m R page
  end.

Lemma index_range n k : idx (Z.land (Z.shiftr n k) 511).
Proof.
  unfold idx. change 511 with (2 ^ 9 - 1). rewrite land_ones_mod by lia.
  by apply Z.mod_pos_bound.
Qed.
Lemma p4_index_range p : idx (p4_index p).
Proof. apply index_range. Qed.
Lemma p3_index_range p : idx (p3_index p).
Proof. apply index_range. Qed.
Lemma p2_index_range p : idx (p2_index p).
Proof. apply index_range. Qed.
Lemma p1_index_range p : idx (p1_index p).
Proof. unfold p1_index. rewrite <- (Z.shiftr_0_r (number p)). apply index_range. Qed.
#[export] Hint Resolve p4_index_range p3_index_range p2_index_range p1_index_range : wolffia.

Section paths.
Context (page : Page) (Hrec : p4_index page <> REC).
Lemma vpath_page_1 : vpath [p4_index page].
Proof. split_and!; [auto with wolffia|simpl; lia|]. simpl. congruence. Qed.
Lemma vpath_page_2 : vpath [p4_index page; p3_index page].
Proof. split_and!; [auto with wolffia|simpl; lia|]. simpl. congruence. Qed.
Lemma vpath_page_3 : vpath [p4_index page; p3_index page; p2_index page].
Proof. split_and!; [auto 6 with wolffia|simpl; lia|]. simpl. congruence. Qed.
End paths.
#[export] Hint Resolve vpath_page_1 vpath_page_2 vpath_page_3 : wolffia.

(** Resolve the [decide]s on path equalities. *)
Ltac decide_paths :=
  repeat first
    [ rewrite decide_True by (first [congruence | split; congruence])
    | rewrite decide_False by (intros ?; destruct_and?; simplify_eq; tauto) ].

(** Linking an empty table below an unused entry changes no translation. *)
Lemma ref_walk_link m R p i f g e page :
  space_ok m R -> vpath (p ++ [i]) -> table_at m R p = Some f ->
  e_present (entry_at m f i) = false -> g mod 4096 = 0 ->
  (forall q, vpath q -> table_at m R q <> Some g) ->
  e_present e = true -> e_huge e = false -> e_addr e = g ->
  p4_index page <> REC ->
  ref_walk (zero_frame (<[f + 8 * i := e]> m) g) R page = ref_walk m R page.
Proof.
  intros Hok Hp Hf Hnp Hg Hfresh Hpr Hhu Had Hrec.
  assert (next_frame m f i = None) as Hnone by (unfold next_frame; by rewrite Hnp).
  assert (forall q j, (p ++ [i]) `prefix_of` q -> ent m R q j = None) as Hbelow.
  { intros q j Hq. unfold ent. by rewrite (table_at_link_none m R p i q) by (by rewrite ?Hf). }
  assert (ent m R p i = Some (entry_at m f i)) as Hpi by (unfold ent; by rewrite Hf).
  assert (Hlink := link_ent m R Hok p i f Hp Hf Hnone g Hg Hfresh e Hpr Hhu Had).
  unfold ref_walk, huge_walk. rewrite !Hlink by auto with wolffia. clear Hlink Hok Hfresh.
  apply vpath_len in Hp as Hl.
  destruct p as [|x [|y [|]]]; simpl in Hl; [..|lia]; simpl app in *.
  - destruct (decide (p4_index page = i)) as [->|Hne]; decide_paths; [|done].
    by rewrite (Hbelow [i; _; _]), (Hbelow [i; _]), (Hbelow [i]) by (by eexists).
  - destruct (decide (p4_index page = x /\ p3_index page = i)) as [[-> ->]|Hne]; decide_paths.
    + rewrite (Hbelow [x; i; _]), (Hbelow [x; i]) by (by eexists).
      rewrite Hpi. simpl. by rewrite Hnp, Hpr, Hhu.
    + done.
  - destruct (decide (p4_index page = x /\ p3_index page = y /\ p2_index page = i))
      as [(-> & -> & ->)|Hne]; decide_paths; [|done].
    rewrite (Hbelow [x; y; i]) by (by eexists). rewrite Hpi. simpl.
    by rewrite Hnp, Hpr, Hhu.
Qed.

(** * Invariant and evolution of the machine *)

Definition frame_of (a : Z) : Z := a - a mod 4096.

(** Two pages with the same table indices. *)
Definition same_page (p q : Page) : Prop :=
  p4_index p = p4_index q /\ p3_index p = p3_index q /\
  p2_index p = p2_index q /\ p1_index p = p1_index q.

#[export] Instance same_page_dec p q : Decision (same_page p q).
Proof. unfold same_page. apply _. Defined.

Lemma ref_walk_same_page m R p q : same_page p q -> ref_walk m R p = ref_walk m R q.
Proof. intros (H4 & H3 & H2 & H1). unfold ref_walk, huge_walk. by rewrite H4, H3, H2, H1. Qed.

Section evolution.
Context {P : Type} `{FA : FrameAllocator P} `{FS : !FrameAllocatorSpec P}.
Implicit Types s : machine P.

(** The frame at [f] holds a table of the active address space. *)
Definition is_table s (f : Z) : Prop :=
  exists q, vpath q /\ table_at (mem s) (cr3 s) q = Some f.

(** The active tables are well formed and no frame that holds one can be handed
    out by the allocator. *)
Record tables_inv s : Prop := {
  ti_space : space_ok (mem s) (cr3 s);
  ti_fa : fa_inv (pmm s);
  ti_free f : is_table s f -> ~ fa_free (pmm s) f
}.

(** What mapping operations may do: add tables, taken from free frames, and
    change the translation of the pages [T]. *)
Record evolves (T : Page -> Prop) s s' : Prop := {
  ev_cr3 : cr3 s' = cr3 s;
  ev_cr3_flags : cr3_flags s' = cr3_flags s;
  ev_wp : cr0_wp s' = cr0_wp s;
  ev_inv : tables_inv s';
  ev_tables q f : vpath q -> table_at (mem s) (cr3 s) q = Some f ->
    table_at (mem s') (cr3 s) q = Some f;
  ev_new f : is_table s' f -> is_table s f \/ fa_free (pmm s) f;
  ev_walk page : p4_index page <> REC -> ~ T page ->
    ref_walk (mem s') (cr3 s) page = ref_walk (mem s) (cr3 s) page;
  ev_huge p i e : vpath (p ++ [i]) -> ent (mem s') (cr3 s) p i = Some e -> e_huge e = true ->
    ent (mem s) (cr3 s) p i = Some e;
  ev_free f : fa_free (pmm s') f -> fa_free (pmm s) f;
  ev_live f k : fa_live (pmm s) f k -> fa_live (pmm s') f k;
  ev_mem a : ~ is_table s (frame_of a) -> ~ fa_free (pmm s) (frame_of a) ->
    word (mem s') a = word (mem s) a
}.

Lemma evolves_refl T s : tables_inv s -> evolves T s s.
Proof. intros Hi. split; auto. Qed.

Lemma evolves_trans T s1 s2 s3 : evolves T s1 s2 -> evolves T s2 s3 -> evolves T s1 s3.
Proof.
  intros [] []. split; try congruence; auto.
  - intros q f Hq Hf. rewrite <- ev_cr4 in *. auto.
  - intros f Hf. destruct (ev_new1 f Hf) as [Ht|Hfr]; auto.
  - intros page Hp HT. rewrite <- ev_walk0 by done. rewrite <- ev_cr4 in *. auto.
  - intros p i e Hp He Hh. rewrite <- ev_cr4 in *. auto.
  - intros a Ht Hfr. rewrite ev_mem1; [auto|..].
    + intros Ht2. destruct (ev_new0 _ Ht2); auto.
    + auto.
Qed.

Lemma evolves_weaken (T T' : Page -> Prop) s s' :
  (forall page, T page -> T' page) -> evolves T s s' -> evolves T' s s'.
Proof. intros HT []. split; auto. Qed.

(** Only the allocator moved, and it handed out at most the frames [f] gives. *)
Lemma evolves_pmm T s p' :
  tables_inv s -> fa_inv p' ->
  (forall f, fa_free p' f -> fa_free (pmm s) f) ->
  (forall f k, fa_live (pmm s) f k -> fa_live p' f k) ->
  evolves T s (set_pmm p' s).
Proof.
  intros [Hsp Hfa Hfr] Hp' Hsub Hlive. split; simpl; auto.
  split; simpl; auto. intros f Hf Hc. apply (Hfr f); auto.
Qed.

End evolution.

Section create.
Context `{B : Build} `{X : X86_64Crate} `{F : BitflagsCrate}.
Context {P : Type} `{FA : FrameAllocator P} `{FS : !FrameAllocatorSpec P}.
Implicit Types s : machine P.

Lemma allocate_frame_spec s k : fa_inv (pmm s) -> 0 <= k <= 18 ->
  exists o p', allocate_frame k s = Ret (o, set_pmm p' s) /\
    fa_allocate k (pmm s) = Ret (o, p') /\ fa_inv p'.
Proof.
  intros Hi Hk. destruct (fa_allocate_returns _ _ Hi Hk) as (o & p' & E & Hp').
  exists o, p'. unfold allocate_frame. by rewrite E.
Qed.

Lemma allocate_frame_0_some s f p' : fa_inv (pmm s) ->
  fa_allocate 0 (pmm s) = Ret (Some f, p') ->
  fa_free (pmm s) f /\ f mod 4096 = 0 /\ 0 <= f < 2 ^ 40 /\
  (forall x, fa_free p' x <-> fa_free (pmm s) x /\ x <> f) /\
  (forall g k, fa_live p' g k <-> (g = f /\ k = 0) \/ fa_live (pmm s) g k).
Proof.
  intros Hi E. destruct (fa_allocate_some _ 0 _ _ Hi ltac:(lia) E) as (_ & H1 & H2 & H3).
  assert (fa_free (pmm s) f) as Hf by (apply H1; by apply in_block_0).
  destruct (fa_free_range _ _ Hi Hf). split_and!; try done; try lia.
  intros x. rewrite H2, in_block_0. done.
Qed.

(** Counting frames: at most [c] frames stopped being free, fewer than [c] are free. *)
Definition takes (c : Z) s s' : Prop :=
  exists l : list Z, Z.of_nat (length l) <= c /\
    forall x, fa_free (pmm s) x -> fa_free (pmm s') x \/ x ∈ l.

Definition short_of (c : Z) s : Prop :=
  exists l : list Z, Z.of_nat (length l) < c /\ forall x, fa_free (pmm s) x -> x ∈ l.

Lemma takes_none c s s' : 0 <= c -> (forall x, fa_free (pmm s) x -> fa_free (pmm s') x) -> takes c s s'.
Proof. intros Hc Hf. exists []. split; [done|auto]. Qed.

Lemma takes_refl s : takes 0 s s.
Proof. by apply takes_none. Qed.

Lemma takes_one f s s' :
  (forall x, fa_free (pmm s) x -> x <> f -> fa_free (pmm s') x) -> takes 1 s s'.
Proof.
  intros Hf. exists [f]. split; [done|]. intros x Hx. destruct (decide (x = f)) as [->|Hne]; [right; left|left; auto].
Qed.

Lemma takes_trans a b s s1 s' : takes a s s1 -> takes b s1 s' -> takes (a + b) s s'.
Proof.
  intros (l1 & Hl1 & H1) (l2 & Hl2 & H2). exists (l1 ++ l2). rewrite length_app. split; [lia|].
  intros x Hx. rewrite elem_of_app. destruct (H1 x Hx) as [Hx1|]; [|auto]. destruct (H2 x Hx1); auto.
Qed.

Lemma takes_mono a b s s' : a <= b -> takes a s s' -> takes b s s'.
Proof. intros Hab (l & Hl & H). exists l. split; [lia|done]. Qed.

Lemma takes_same c s s1 s' : pmm s' = pmm s1 -> takes c s s1 -> takes c s s'.
Proof. intros E (l & Hl & H). exists l. by rewrite E. Qed.

Lemma short_of_takes a b s s1 : takes a s s1 -> short_of b s1 -> short_of (a + b) s.
Proof.
  intros (l1 & Hl1 & H1) (l2 & Hl2 & H2). exists (l1 ++ l2). rewrite length_app. split; [lia|].
  intros x Hx. rewrite elem_of_app. destruct (H1 x Hx) as [Hx1|]; auto.
Qed.

Lemma short_of_mono a b s : a <= b -> short_of a s -> short_of b s.
Proof. intros Hab (l & Hl & H). exists l. split; [lia|done]. Qed.

(** As many frames as [c] are free. *)
Lemma not_short c s (l : list Z) : NoDup l -> c <= Z.of_nat (length l) ->
  (forall x, x ∈ l -> fa_free (pmm s) x) -> ~ short_of c s.
Proof.
  intros Hnd Hc Hf (k & Hk & Hs). assert (l ⊆+ k) as Hsub by (apply NoDup_submseteq; auto).
  apply submseteq_length in Hsub. lia.
Qed.

(** No frame is free when an allocation fails. *)
Lemma allocate_frame_0_none s p' : fa_inv (pmm s) ->
  fa_allocate 0 (pmm s) = Ret (None, p') -> short_of 1 s.
Proof.
  intros Hi E. exists []. split; [done|]. intros x Hx.
  destruct (fa_allocate_none _ 0 _ Hi ltac:(lia) E) as (_ & _ & Hn).
  destruct (fa_free_range _ _ Hi Hx) as [Hal _]. destruct (Hn x Hal). by intros y ->%in_block_0.
Qed.

Definition table_flags : Z := PRESENT ||| WRITABLE ||| USER_ACCESSIBLE.

Lemma table_flags_eq : table_flags = 7.
Proof. unfold table_flags. by rewrite !flags_or_spec. Qed.

Section new_table_entry.
Context (g : Z) (Hg : g mod 4096 = 0) (Hr : 0 <= g < 2 ^ 48).
Lemma new_table_entry :
  let e := Z.lor g table_flags in
  e_present e = true /\ e_huge e = false /\ e_writable e = true /\ e_addr e = g.
Proof.
  rewrite table_flags_eq. simpl. split_and!.
  - by rewrite new_entry_present.
  - by rewrite new_entry_huge.
  - by rewrite new_entry_writable.
  - by rewrite new_entry_addr.
Qed.
End new_table_entry.

(** Linking the freshly allocated frame [g]: the machine evolves and the new
    path leads to [g]. *)
Lemma link_evolves s p i f g p' :
  tables_inv s -> vpath (p ++ [i]) -> table_at (mem s) (cr3 s) p = Some f ->
  e_present (entry_at (mem s) f i) = false ->
  fa_allocate 0 (pmm s) = Ret (Some g, p') -> fa_inv p' ->
  let m2 := zero_frame (<[f + 8 * i := Z.lor g table_flags]> (mem s)) g in
  evolves (fun _ => False) s (set_mem m2 (set_pmm p' s)) /\
  table_at m2 (cr3 s) (p ++ [i]) = Some g.
Proof.
  intros [Hsp Hfa Htf] Hp Hf Hnp Halloc Hp' m2.
  destruct (allocate_frame_0_some _ _ _ Hfa Halloc) as (Hgf & Hga & Hgr & Hfree' & Hlive').
  assert (0 <= g < 2 ^ 48) as Hgr' by lia.
  destruct (new_table_entry g Hga Hgr') as (Hpr & Hhu & Hwr & Had).
  assert (forall q, vpath q -> table_at (mem s) (cr3 s) q <> Some g) as Hfresh.
  { intros q Hq Hc. apply (Htf g); [by exists q|done]. }
  assert (next_frame (mem s) f i = None) as Hnone by (unfold next_frame; by rewrite Hnp).
  pose proof (link_table_at _ _ Hsp p i f Hp Hf Hnone g Hga Hfresh _ Hpr Hhu Had) as Hta.
  fold m2 in Hta.
  assert (forall x, is_table (set_mem m2 (set_pmm p' s)) x -> is_table s x \/ x = g) as Hnew.
  { intros x (q & Hq & Hx). simpl in Hx. rewrite Hta in Hx by done.
    case_decide; [right; congruence|left; by exists q]. }
  split; [|by rewrite Hta, decide_True].
  split; simpl; auto.
  - split; simpl; [by apply (link_space_ok _ _ Hsp p i f Hp Hf Hnone g)|done|].
    intros x Hx Hc. apply Hfree' in Hc as [Hc Hne].
    destruct (Hnew x Hx) as [Ht| ->]; [by apply (Htf x)|done].
  - intros q x Hq Hx. rewrite Hta by done. rewrite decide_False; [done|].
    intros ->. rewrite table_at_snoc, Hf in Hx. simpl in Hx. congruence.
  - intros x Hx. destruct (Hnew x Hx) as [Ht| ->]; auto.
  - intros page Hpg _. by apply (ref_walk_link _ _ p i f g).
  - intros q j e Hq He Hh. revert He.
    unfold m2. rewrite (link_ent _ _ Hsp p i f Hp Hf Hnone g Hga Hfresh _ Hpr Hhu Had) by eauto with wolffia.
    destruct (decide (q = p /\ j = i)); [by intros [= <-]; congruence|].
    destruct (decide (q = p ++ [i])); [by intros [= <-]|done].
  - intros x Hx. by apply Hfree' in Hx as [? _].
  - intros x k Hx. apply Hlive'. auto.
  - intros a Hna Hfa'. unfold m2.
    assert (forall h j, h mod 4096 = 0 -> idx j -> a = h + 8 * j -> frame_of a = h) as Hfo.
    { unfold frame_of, idx. intros h j Hh Hj ->. Z.to_euclidean_division_equations. lia. }
    rewrite word_zero_frame_other.
    2:{ intros j Hj Ha. apply Hfa'. by rewrite (Hfo g j). }
    rewrite word_insert. rewrite decide_False; [done|]. intros Ha. apply Hna.
    exists p. split; [eauto with wolffia|]. rewrite (Hfo f i); eauto with wolffia.
    by apply (table_at_range _ _ (so_rec _ _ Hsp) p).
Qed.

(** The tables between the two steps in which the code links a table. *)
Lemma linked_table s p i f g p' :
  tables_inv s -> vpath (p ++ [i]) -> table_at (mem s) (cr3 s) p = Some f ->
  e_present (entry_at (mem s) f i) = false ->
  fa_allocate 0 (pmm s) = Ret (Some g, p') ->
  let m1 := <[f + 8 * i := Z.lor g table_flags]> (mem s) in
  rec_ok m1 (cr3 s) /\ table_at m1 (cr3 s) p = Some f /\ next_frame m1 f i = Some g /\
  table_at m1 (cr3 s) (p ++ [i]) = Some g /\ path_writable m1 (cr3 s) (p ++ [i]) = true /\
  (forall q' j r, p ++ [i] = q' ++ j :: r -> table_at m1 (cr3 s) q' <> Some g).
Proof.
  intros [Hsp Hfa Htf] Hp Hf Hnp Halloc m1. set (e := Z.lor g table_flags) in *.
  destruct (allocate_frame_0_some _ _ _ Hfa Halloc) as (Hgf & Hga & Hgr & _ & _).
  destruct (new_table_entry g Hga ltac:(lia)) as (Hpr & Hhu & Hwr & Had). fold e in Hpr, Hhu, Hwr, Had.
  assert (Hrec := write_rec_ok _ _ Hsp p i f ltac:(eauto with wolffia) ltac:(eauto with wolffia) Hf
                    (vpath_rec p i Hp) e).
  assert (forall q, vpath q -> ~ (p ++ [i]) `prefix_of` q -> table_at m1 (cr3 s) q = table_at (mem s) (cr3 s) q) as Hta.
  { intros q Hq Hpre. apply (write_table_at _ _ Hsp p); eauto with wolffia. }
  assert (table_at m1 (cr3 s) p = Some f) as Hf1.
  { rewrite Hta; eauto with wolffia. apply (prefix_snoc_strict _ _ _ []). by rewrite app_nil_r. }
  assert (entry_at m1 f i = e) as He.
  { assert (f mod 4096 = 0) by (by apply (table_at_range _ _ (so_rec _ _ Hsp) p)).
    unfold m1. rewrite entry_at_write; eauto with wolffia. by rewrite decide_True. }
  assert (next_frame m1 f i = Some g) as Hng.
  { unfold next_frame. by rewrite He, Hpr, Hhu, Had. }
  split_and!; [done|done|done|by rewrite table_at_snoc, Hf1|..].
  - rewrite (path_writable_snoc _ _ _ _ f) by done. rewrite He, Hwr, andb_true_r.
    rewrite (path_writable_ext (mem s) _ _ p f); [by eapply path_writable_ok; eauto with wolffia|done|].
    intros q j h r Hpq Hh. by apply (write_entry_on_path _ _ Hsp p i f) with q r; eauto with wolffia.
  - intros q' j r Hq'. destruct r as [|x r _] using rev_ind.
    + apply app_inj_tail in Hq' as [<- _]. rewrite Hf1. intros [= ->].
      by apply (Htf g); [exists p; eauto with wolffia|].
    + rewrite app_comm_cons, app_assoc in Hq'. apply app_inj_tail in Hq' as [Hq' _].
      rewrite Hta.
      * intros Hc. apply (Htf g); [|done]. exists q'. split; [|done].
        apply (vpath_app _ (j :: r)). rewrite <- Hq'. eauto with wolffia.
      * apply (vpath_app _ (j :: r)). rewrite <- Hq'. eauto with wolffia.
      * by apply (prefix_snoc_strict _ _ _ (j :: r)).
Qed.

(** The code's way of linking a table: set the entry, then clear the new table
    through its recursive address. *)
Lemma create_steps s p i f g p' :
  tables_inv s -> vpath (p ++ [i]) -> table_at (mem s) (cr3 s) p = Some f ->
  e_present (entry_at (mem s) f i) = false ->
  fa_allocate 0 (pmm s) = Ret (Some g, p') ->
  let e := Z.lor g table_flags in
  let s1 := set_mem (<[f + 8 * i := e]> (mem s)) (set_pmm p' s) in
  table_set (tva p) i g table_flags (set_pmm p' s) = Ret (tt, s1) /\
  next_page_table_mut (tva p) i s1 = Ret (Some (tva (p ++ [i])), s1) /\
  zero (tva (p ++ [i])) s1 =
    Ret (tt, set_mem (zero_frame (<[f + 8 * i := e]> (mem s)) g) (set_pmm p' s)).
Proof.
  intros Hinv Hp Hf Hnp Halloc e s1.
  destruct (linked_table s p i f g p' Hinv Hp Hf Hnp Halloc) as (Hrec & Hf1 & Hng & Hg & Hw & Hoff).
  destruct (Hinv) as [Hsp Hfa _]. destruct (allocate_frame_0_some _ _ _ Hfa Halloc) as (_ & Hga & Hgr & _).
  assert (Hidx := proj1 Hp). apply Forall_app in Hidx as [Hidx _]. split_and!.
  - unfold table_set. rewrite entry_set_ok by (done || lia).
    unfold bind at 1, lift. cbv beta iota.
    rewrite (table_write_spec (set_pmm p' s) p f); eauto with wolffia.
  - unfold next_page_table_mut. rewrite (next_table_addr_spec s1 p f); eauto with wolffia.
    change (next_frame (mem s1) f i = Some g) in Hng. by rewrite Hng.
  - by rewrite (zero_spec s1 (p ++ [i]) g Hrec (proj1 Hp)); [|by destruct p|apply Hp|..].
Qed.

Definition HUGE_PANIC : string := "Page has huge bit but cannot be huge!".

Lemma next_table_create_spec s l p i f :
  tables_inv s -> vpath (p ++ [i]) -> table_at (mem s) (cr3 s) p = Some f ->
  let e := entry_at (mem s) f i in
  if e_present e && negb (e_huge e) then
    next_table_create l (tva p) i s = Ret (Some (Ok (tva (p ++ [i]))), s) /\
    table_at (mem s) (cr3 s) (p ++ [i]) = Some (e_addr e)
  else if e_huge e then
    next_table_create l (tva p) i s =
      if CAN_BE_HUGE l then Ret (None, s) else Stop (Panic HUGE_PANIC)
  else exists o s', next_table_create l (tva p) i s = Ret (Some o, s') /\
    evolves (fun _ => False) s s' /\ tlb s' = tlb s /\ takes 1 s s' /\
    match o with
    | Ok t => t = tva (p ++ [i]) /\ (exists g, table_at (mem s') (cr3 s) (p ++ [i]) = Some g) /\
              (forall j, idx j -> ent (mem s') (cr3 s) (p ++ [i]) j = Some 0)
    | Err _ => short_of 1 s
    end.
Proof.
  intros Hinv Hp Hf e. destruct (Hinv) as [Hsp Hfa Htf].
  assert (Hidx := proj1 Hp). apply Forall_app in Hidx as [Hidx _].
  pose proof (next_table_addr_spec s p f i (so_rec _ _ Hsp) Hidx (vpath_len _ _ Hp) Hf
                (vpath_idx _ _ Hp)) as Hnext.
  pose proof (table_read_spec s p f i (so_rec _ _ Hsp) Hidx ltac:(apply vpath_len in Hp; lia) Hf
                (vpath_idx _ _ Hp)) as Hread.
  unfold next_frame in Hnext. fold e in Hnext, Hread.
  unfold next_table_create, next_page_table, next_page_table_mut.
  destruct (e_present e && negb (e_huge e)) eqn:Epn.
  { split.
    - rewrite (bind_ret _ _ _ _ _ Hnext). simpl. by rewrite (bind_ret _ _ _ _ _ Hnext).
    - rewrite table_at_snoc, Hf. simpl. unfold next_frame. fold e. by rewrite Epn. }
  rewrite (bind_ret _ _ _ _ _ Hnext). simpl. rewrite (bind_ret _ _ _ _ _ Hread).
  rewrite contains_huge. destruct (e_huge e) eqn:Ehu.
  { destruct (CAN_BE_HUGE l); unfold assert_m.
    - unfold bind at 1, ret at 1. by rewrite (bind_ret _ _ _ _ _ Hnext).
    - done. }
  assert (e_present e = false) as Enp by (by destruct (e_present e)).
  destruct (allocate_frame_spec s 0 Hfa ltac:(lia)) as (o & p' & Halloc & Hfalloc & Hp').
  rewrite (bind_ret _ _ _ _ _ Halloc). destruct o as [g|].
  - destruct (create_steps s p i f g p' Hinv Hp Hf Enp Hfalloc) as (H1 & H2 & H3).
    destruct (link_evolves s p i f g p' Hinv Hp Hf Enp Hfalloc Hp') as [Hev Hta].
    rewrite (bind_ret _ _ _ _ _ H1), (bind_ret _ _ _ _ _ H2). simpl.
    unfold bind at 1, ret at 1. rewrite (bind_ret _ _ _ _ _ H3).
    set (s2 := set_mem (zero_frame _ _) _) in *.
    assert (Hn2 : next_table_addr (tva p) i s2 = Ret (Some (tva (p ++ [i])), s2)).
    { assert (table_at (mem s2) (cr3 s2) p = Some f) as Hf2.
      { apply (ev_tables _ _ _ Hev); eauto with wolffia. }
      rewrite (next_table_addr_spec s2 p f); eauto with wolffia.
      - rewrite table_at_snoc in Hta. change (table_at (mem s2) (cr3 s) p = Some f) in Hf2.
        change (zero_frame _ _) with (mem s2) in Hta. rewrite Hf2 in Hta.
        change (next_frame (mem s2) f i = Some g) in Hta. by rewrite Hta.
      - apply (ti_space _ (ev_inv _ _ _ Hev)). }
    rewrite (bind_ret _ _ _ _ _ Hn2). eexists _, s2. split_and!; [done|done|done| |].
    { destruct (allocate_frame_0_some _ _ _ Hfa Hfalloc) as (_ & _ & _ & Hfr & _).
      apply (takes_one g). intros x Hx Hne. apply Hfr. by split. }
    cbn [option_map]. split_and!; [done|by exists g|].
    intros j Hj. unfold ent. change (zero_frame _ _) with (mem s2) in Hta. rewrite Hta.
    cbn [fmap option_fmap option_map]. f_equal. by apply entry_at_zero_frame_same.
  - destruct (fa_allocate_none _ 0 _ Hfa ltac:(lia) Hfalloc) as (Hfr & Hlv & _).
    eexists _, _. split_and!; [done| |done|by apply takes_none; [done|intros x; apply Hfr]|
      by apply (allocate_frame_0_none _ _ Hfa Hfalloc)].
    apply evolves_pmm; [done|done|intros x; apply Hfr|intros x k; apply Hlv].
Qed.

End create.
