(* ===== verification/PageMapLemmas.v ===== *)
(** Lemmas on the [Mapper] operations of [PageMap.v]: the software page walk, the
    descent that creates missing tables, and the write of a leaf entry. *)
From S2P Require Import Prelude Crates Machine FrameAlloc Paging Layout PageMap.
From S2P Require Import AddressSpace PagingLemmas.

Lemma P4_tva : P4 = tva [].
Proof. done. Qed.

Section walk.
Context `{B : Build} `{X : X86_64Crate} `{F : BitflagsCrate} {P : Type}.
Implicit Types s : machine P.

(** A value with the state it leaves unchanged. *)
Definition returning {A} (r : res A) s : res (A * machine P) :=
  match r with
  | Ret a => Ret (a, s)
  | Stop w => Stop w
  end.

Section levels.
Context (s : machine P) (Hrec : rec_ok (mem s) (cr3 s)) (page : Page).
#[local] Abbreviation a := (p4_index page).
#[local] Abbreviation b := (p3_index page).
#[local] Abbreviation c := (p2_index page).
#[local] Abbreviation d := (p1_index page).
#[local] Abbreviation m := (mem s).
#[local] Abbreviation R := (cr3 s).

Lemma step_p3 :
  next_page_table P4 a s = Ret ((fun _ => tva [a]) <$> next_frame m R a, s).
Proof.
  rewrite P4_tva. unfold next_page_table.
  rewrite (next_table_addr_spec s [] R); auto with wolffia.
Qed.

Lemma step_p2 f : next_frame m R a = Some f ->
  next_page_table (tva [a]) b s = Ret ((fun _ => tva [a; b]) <$> next_frame m f b, s) /\
  table_read (tva [a]) b s = Ret (entry_at m f b, s).
Proof.
  intros H. assert (table_at m R [a] = Some f) by (simpl; by rewrite H).
  split.
  - unfold next_page_table. rewrite (next_table_addr_spec s [a] f); auto with wolffia.
  - apply (table_read_spec s [a] f); auto with wolffia.
Qed.

Lemma step_p1 f g : next_frame m R a = Some f -> next_frame m f b = Some g ->
  next_page_table (tva [a; b]) c s = Ret ((fun _ => tva [a; b; c]) <$> next_frame m g c, s) /\
  table_read (tva [a; b]) c s = Ret (entry_at m g c, s).
Proof.
  intros H1 H2.
  assert (table_at m R [a; b] = Some g) by (simpl; rewrite H1; simpl; by rewrite H2).
  split.
  - unfold next_page_table. rewrite (next_table_addr_spec s [a; b] g); auto with wolffia.
  - apply (table_read_spec s [a; b] g); auto with wolffia.
Qed.

Lemma step_leaf f g h : next_frame m R a = Some f -> next_frame m f b = Some g ->
  next_frame m g c = Some h ->
  table_read (tva [a; b; c]) d s = Ret (entry_at m h d, s).
Proof.
  intros H1 H2 H3. apply (table_read_spec s [a; b; c] h); auto 6 with wolffia.
  simpl. rewrite H1. simpl. rewrite H2. simpl. by rewrite H3.
Qed.

Lemma ent_1 f : next_frame m R a = Some f -> ent m R [a] b = Some (entry_at m f b).
Proof. intros H. unfold ent. simpl. by rewrite H. Qed.
Lemma ent_2 f g : next_frame m R a = Some f -> next_frame m f b = Some g ->
  ent m R [a; b] c = Some (entry_at m g c).
Proof. intros H1 H2. unfold ent. simpl. rewrite H1. simpl. by rewrite H2. Qed.
Lemma ent_3 f g h : next_frame m R a = Some f -> next_frame m f b = Some g ->
  next_frame m g c = Some h -> ent m R [a; b; c] d = Some (entry_at m h d).
Proof.
  intros H1 H2 H3. unfold ent. simpl. rewrite H1. simpl. rewrite H2. simpl. by rewrite H3.
Qed.

(** [walk_page_table] computes the reference walk, panics included. *)
Lemma walk_page_table_ref :
  walk_page_table page s = returning (ref_walk m R page) s.
Proof.
  unfold walk_page_table. mcall step_p3. cbv zeta. unfold ref_walk, huge_walk.
  destruct (next_frame m R a) as [f|] eqn:H1.
  2:{ simpl. unfold ent. simpl. by rewrite H1. }
  destruct (step_p2 f H1) as [Hn2 Hr2]. cbn [fmap option_fmap option_map].
  rewrite (ent_1 f H1). msimp. mcall Hn2.
  destruct (next_frame m f b) as [g|] eqn:H2; cbn [fmap option_fmap option_map].
  2:{ msimp. mcall Hr2. rewrite physical_address_spec, contains_huge. msimp.
      unfold ent. cbn [table_at]. rewrite H1. cbn. rewrite H2. cbn.
      destruct (e_present (entry_at m f b)), (e_huge (entry_at m f b)); cbn; try done;
        by mcall Hn2. }
  cbn [fmap option_fmap option_map] in Hn2.
  destruct (next_frame_inv _ _ _ _ H2) as (P2 & N2 & _).
  destruct (step_p1 f g H1 H2) as [Hn1 Hr1]. rewrite (ent_2 f g H1 H2). msimp. mcall Hn1.
  destruct (next_frame m g c) as [h|] eqn:H3; cbn [fmap option_fmap option_map].
  - rewrite (ent_3 f g h H1 H2 H3). msimp. mcall (step_leaf f g h H1 H2 H3).
    destruct (next_frame_inv _ _ _ _ H3) as (P3 & N3 & _).
    rewrite contains_present. destruct (e_present (entry_at m h d)); msimp; [done|].
    mcall Hr2. rewrite physical_address_spec, contains_huge, P2, N2. msimp. cbn.
    mcall Hn2. mcall Hr1. rewrite physical_address_spec, P3. msimp.
    by rewrite contains_present_huge, P3, N3.
  - replace (ent m R [a; b; c] d) with (@None Z)
      by (unfold ent; simpl; rewrite H1; simpl; rewrite H2; simpl; by rewrite H3).
    msimp. mcall Hr2. rewrite physical_address_spec, contains_huge, P2, N2. msimp. cbn.
    mcall Hn2. mcall Hr1. rewrite physical_address_spec. msimp.
    rewrite contains_present_huge.
    destruct (e_present (entry_at m g c)), (e_huge (entry_at m g c)); cbn; msimp; try done.
    by destruct (_ =? _); msimp.
Qed.
End levels.
End walk.

(** * The walk and the MMU *)

Section indices.
Context (va : Z) (Hva : 0 <= va).
#[local] Lemma index_shift k :
  0 <= k -> Z.land (Z.shiftr (va / 4096) k) 511 = Z.land (Z.shiftr va (12 + k)) 511.
Proof.
  intros. f_equal. change 4096 with (2 ^ 12). rewrite <- Z.shiftr_div_pow2 by lia.
  by rewrite Z.shiftr_shiftr by lia.
Qed.
Lemma page_p4 : p4_index (containing_address va) = va_p4 va.
Proof. apply (index_shift 27). lia. Qed.
Lemma page_p3 : p3_index (containing_address va) = va_p3 va.
Proof. apply (index_shift 18). lia. Qed.
Lemma page_p2 : p2_index (containing_address va) = va_p2 va.
Proof. apply (index_shift 9). lia. Qed.
Lemma page_p1 : p1_index (containing_address va) = va_p1 va.
Proof.
  pose proof (index_shift 0 ltac:(lia)) as H. by rewrite Z.shiftr_0_r in H.
Qed.
End indices.

(** Where the reference walk sends [va], with the permission to write. *)
Definition translation (r : option (Z * PageSize)) (va : Z) : option Z :=
  (fun '(e, sz) => e_addr e + va mod bytes sz) <$> r.

Lemma mib2_aligned e :
  Z.shiftr (e_addr e) 12 mod PAGE_TABLE_ENTRIES = 0 -> e_addr e mod 2 ^ 21 = 0.
Proof.
  destruct (e_addr_range e) as [Ha Hr]. rewrite Z.shiftr_div_pow2 by lia.
  unfold PAGE_TABLE_ENTRIES. change (2 ^ 12) with 4096. change (2 ^ 21) with 2097152.
  intros H. Z.to_euclidean_division_equations. lia.
Qed.

Lemma ref_walk_mmu m R va r :
  0 <= va -> canonical va = true ->
  ref_walk m R (containing_address va) = Ret r ->
  fst <$> mmu_walk m R va = translation r va.
Proof.
  intros Hva Hc. unfold ref_walk, huge_walk, mmu_walk. rewrite Hc. cbn [negb].
  rewrite page_p4, page_p3, page_p2, page_p1 by done. unfold ent. cbn [table_at].
  destruct (e_present (entry_at m R (va_p4 va))) eqn:P4'; cbn [negb orb andb]; cycle 1.
  { rewrite next_frame_absent by done. by intros [= <-]. }
  destruct (e_huge (entry_at m R (va_p4 va))) eqn:H4.
  { rewrite next_frame_huge by done. by intros [= <-]. }
  rewrite next_frame_some by done. cbn [mbind option_bind fmap option_fmap option_map].
  set (f3 := e_addr (entry_at m R (va_p4 va))).
  destruct (e_present (entry_at m f3 (va_p3 va))) eqn:P3; cbn [negb andb]; cycle 1.
  { rewrite next_frame_absent by done. by intros [= <-]. }
  destruct (e_huge (entry_at m f3 (va_p3 va))) eqn:H3.
  { by rewrite next_frame_huge by done. }
  rewrite next_frame_some by done. cbn [mbind option_bind fmap option_fmap option_map].
  set (f2 := e_addr (entry_at m f3 (va_p3 va))).
  destruct (e_present (entry_at m f2 (va_p2 va))) eqn:P2; cbn [negb andb]; cycle 1.
  { rewrite next_frame_absent by done. by intros [= <-]. }
  destruct (e_huge (entry_at m f2 (va_p2 va))) eqn:H2.
  { rewrite next_frame_huge by done. cbn [mbind option_bind fmap option_fmap option_map].
    case_match eqn:Ha; [|done]. apply Z.eqb_eq in Ha. intros [= <-].
    cbn [fst translation fmap option_fmap option_map bytes].
    by rewrite (mib2_aligned _ Ha), Z.sub_0_r. }
  rewrite next_frame_some by done. cbn [mbind option_bind fmap option_fmap option_map].
  set (f1 := e_addr (entry_at m f2 (va_p2 va))).
  destruct (e_present (entry_at m f1 (va_p1 va))); cbn [negb andb]; by intros [= <-].
Qed.

(** * Mapping a page *)

(** Replacing a leaf entry changes the translation of its page only. *)
Lemma ref_walk_leaf m R page page' f v :
  space_ok m R -> p4_index page <> REC -> p4_index page' <> REC ->
  table_at m R [p4_index page; p3_index page; p2_index page] = Some f ->
  ~ same_page page page' ->
  ref_walk (<[f + 8 * p1_index page := v]> m) R page' = ref_walk m R page'.
Proof.
  intros Hok Hr Hr' Hf Hne.
  assert (Hleaf := leaf_ent m R Hok _ (p1_index page) f (vpath_page_3 page Hr)
                     (p1_index_range page) Hf ltac:(done) v (or_introl eq_refl)).
  unfold ref_walk, huge_walk. rewrite !Hleaf by auto with wolffia.
  rewrite decide_False by (intros [[= H1 H2 H3] H4]; apply Hne; unfold same_page; by rewrite H1, H2, H3, H4).
  by rewrite !decide_False by (intros [H _]; discriminate H).
Qed.

Lemma ref_walk_leaf_same m R page f v :
  space_ok m R -> p4_index page <> REC ->
  table_at m R [p4_index page; p3_index page; p2_index page] = Some f ->
  e_present v = true ->
  ref_walk (<[f + 8 * p1_index page := v]> m) R page = Ret (Some (v, Kib4)).
Proof.
  intros Hok Hr Hf Hv. unfold ref_walk.
  rewrite (leaf_ent m R Hok _ (p1_index page) f (vpath_page_3 page Hr) (p1_index_range page) Hf
             ltac:(done) v (or_introl eq_refl)) by auto with wolffia.
  by rewrite decide_True, Hv.
Qed.

Section mapping.
Context `{B : Build} `{X : X86_64Crate} `{F : BitflagsCrate}.
Context {P : Type} `{FA : FrameAllocator P} `{FS : !FrameAllocatorSpec P}.
Implicit Types s : machine P.

Definition clear_entry s (p : list Z) (i : Z) : Prop :=
  forall e, ent (mem s) (cr3 s) p i = Some e -> e_huge e = false.

(** No huge page lies on the way to the page's P1 table. *)
Record path_clear s (page : Page) : Prop := {
  pc_p4 : clear_entry s [] (p4_index page);
  pc_p3 : clear_entry s [p4_index page] (p3_index page);
  pc_p2 : clear_entry s [p4_index page; p3_index page] (p2_index page)
}.

Lemma evolves_tlb T s s' o : evolves T s s' -> evolves T s (push_tlb o s').
Proof. intros Hev. destruct (ev_inv _ _ _ Hev). destruct Hev. by split. Qed.

Lemma descend s l p i f :
  tables_inv s -> vpath (p ++ [i]) -> table_at (mem s) (cr3 s) p = Some f -> clear_entry s p i ->
  exists o s', next_table_create l (tva p) i s = Ret (Some o, s') /\
    evolves (fun _ => False) s s' /\ tlb s' = tlb s /\ takes 1 s s' /\
    match o with
    | Ok t => t = tva (p ++ [i]) /\ (exists g, table_at (mem s') (cr3 s') (p ++ [i]) = Some g) /\
              (s' = s \/ forall j, idx j -> ent (mem s') (cr3 s') (p ++ [i]) j = Some 0)
    | Err _ => short_of 1 s
    end.
Proof.
  intros Hinv Hp Hf Hclear.
  assert (e_huge (entry_at (mem s) f i) = false) as Hh.
  { apply Hclear. unfold ent. by rewrite Hf. }
  pose proof (next_table_create_spec s l p i f Hinv Hp Hf) as Hspec. simpl in Hspec.
  rewrite Hh in Hspec. destruct (e_present _ && negb false).
  - destruct Hspec as [E Ht]. eexists _, s. rewrite E.
    split_and!; [done|by apply evolves_refl|done|by apply takes_none|]. split_and!; eauto.
  - destruct Hspec as (o & s' & E & Hev & Htlb & Htk & Ho). exists o, s'.
    split_and!; [done|done|done|done|]. destruct o as [t|]; [|done].
    destruct Ho as (-> & Hg & Hj). rewrite (ev_cr3 _ _ _ Hev). eauto.
Qed.

(** The entry checks survive the creation of tables above them. *)
Lemma clear_next s s' p i :
  clear_entry s p i -> idx i ->
  (s' = s \/ forall j, idx j -> ent (mem s') (cr3 s') p j = Some 0) -> clear_entry s' p i.
Proof.
  intros Hc Hi [->|Hz]; [done|]. intros e He. rewrite Hz in He by done. by injection He as <-.
Qed.

Lemma clear_below s s' p i k :
  clear_entry s (p ++ [i]) k -> idx i ->
  (s' = s \/ forall j, idx j -> ent (mem s') (cr3 s') p j = Some 0) -> clear_entry s' (p ++ [i]) k.
Proof.
  intros Hc Hi [->|Hz]; [done|]. intros e. specialize (Hz i Hi). unfold ent in *.
  rewrite table_at_snoc. destruct (table_at (mem s') (cr3 s') p) as [f|]; [|done].
  injection Hz as Hz. cbn. unfold next_frame. by rewrite Hz.
Qed.

(** Writing the leaf entry of [page]; any value. *)
Lemma leaf_evolves s page f v :
  tables_inv s -> p4_index page <> REC ->
  table_at (mem s) (cr3 s) [p4_index page; p3_index page; p2_index page] = Some f ->
  evolves (same_page page) s (set_mem (<[f + 8 * p1_index page := v]> (mem s)) s).
Proof.
  intros [Hsp Hfa Htf] Hr Hf.
  set (path := [p4_index page; p3_index page; p2_index page]) in *.
  assert (vpath path) as Hp by (apply vpath_page_3; done).
  assert (forall q, vpath q -> table_at (<[f + 8 * p1_index page := v]> (mem s)) (cr3 s) q
                             = table_at (mem s) (cr3 s) q) as Hta.
  { intros q Hq. apply (leaf_table_at _ _ Hsp path); auto with wolffia. }
  assert (forall x, is_table (set_mem (<[f + 8 * p1_index page := v]> (mem s)) s) x <-> is_table s x)
    as Hit.
  { intros x. unfold is_table. simpl. split; intros (q & Hq & Hx); exists q;
      (split; [done|]); [by rewrite <- Hta|by rewrite Hta]. }
  split; simpl; auto.
  - split; simpl; [|done|intros x Hx; apply Htf; by apply Hit].
    apply (leaf_space_ok _ _ Hsp path); auto with wolffia.
  - intros q x Hq Hx. by rewrite Hta.
  - intros x Hx. left. by apply Hit.
  - intros page' Hr' Hne. by apply ref_walk_leaf.
  - intros q j e Hq. rewrite (leaf_ent _ _ Hsp path) by eauto with wolffia.
    rewrite decide_False; [done|]. intros [-> _]. apply vpath_len in Hq. simpl in Hq. lia.
  - intros a Ha _. rewrite word_insert. apply decide_False. intros <-. apply Ha.
    exists path. split; [done|]. rewrite Hf. f_equal.
    destruct (table_at_range _ _ (so_rec _ _ Hsp) path f Hf) as [Hal _].
    pose proof (p1_index_range page) as Hi. unfold idx in Hi. unfold frame_of.
    Z.to_euclidean_division_equations. lia.
Qed.

(** A 4 KiB page of the canonical address space outside the recursive window. *)
Record page_ok (page : Page) : Prop := {
  po_size : size page = Some Kib4;
  po_rec : p4_index page <> REC;
  po_range : 0 <= number page * 4096 < two64;
  po_canonical : canonical (number page * 4096) = true
}.

Lemma page_start_ok page msg s : page_ok page ->
  page_start page msg s = Ret (number page * 4096, s).
Proof.
  intros []. unfold page_start, start_address. rewrite po_size0. cbn [bytes].
  change (4 * 1024) with 4096. by rewrite mul64_small.
Qed.

Lemma canonical_ext a : canonical a = true -> sign_extend_47 a = a.
Proof. apply Z.eqb_eq. Qed.

Lemma VirtAddr_new_canonical a : 0 <= a < two64 -> canonical a = true -> VirtAddr_new a = Ret a.
Proof.
  intros Ha Hc. destruct (VirtAddr_new_spec a) as [m ->].
  rewrite VirtAddr_try_new_ok by auto. by rewrite canonical_ext.
Qed.

(** The optional TLB flush at the end of [map_to] and [unmap]. *)
Definition flushed (inv : InvalidateTlb) (page : Page) s : machine P :=
  if decide (inv = Invalidate) then push_tlb (FlushPage (number page * 4096)) s else s.

Lemma flush_step {A} inv page s (k : unit -> M (machine P) A) : page_ok page ->
  bind (if decide (inv = Invalidate) then
          let! a := page_start page "unwrap" in
          let! a := lift (VirtAddr_new a) in tlb_flush a
        else ret tt) k s = k tt (flushed inv page s).
Proof.
  intros Hp. unfold flushed. case_decide; [|done].
  msimp. mcall (page_start_ok page "unwrap" s Hp).
  rewrite VirtAddr_new_canonical by apply Hp. by msimp.
Qed.

Lemma map_to_spec s page pa fl inv :
  tables_inv s -> page_ok page -> path_clear s page ->
  pa mod 4096 = 0 -> 0 <= pa < 2 ^ 48 -> flags_ok fl ->
  exists r s', map_to page pa fl inv s = Ret (r, s') /\
    match r with
    | Ok _ =>
        evolves (same_page page) s s' /\
        ref_walk (mem s') (cr3 s') page = Ret (Some (Z.lor pa (fl ||| PRESENT), Kib4)) /\
        tlb s' = tlb (flushed inv page s) /\ takes 3 s s'
    | Err _ => evolves (fun _ => False) s s' /\ short_of 3 s /\ tlb s' = tlb s /\ takes 3 s s'
    end.
Proof.
  intros Hinv Hpage [Hc4 Hc3 Hc2] Hpa Hpr Hfl. destruct (Hpage) as [Hsz Hr Hnr Hcan].
  unfold map_to. rewrite P4_tva.
  destruct (descend s Level4 [] (p4_index page) (cr3 s)) as (o & s1 & E1 & Hev1 & Ht1 & Hk1 & Ho);
    [done|by apply vpath_page_1|done|done|].
  mcall E1. destruct o as [t|e]; [|eexists _, _; split; [done|]; split_and!; [done|by apply (short_of_mono 1)|done|by apply (takes_mono 1)]].
  destruct Ho as (-> & [g1 Hg1] & Hz1). simpl app in *.
  destruct (descend s1 Level3 [p4_index page] (p3_index page) g1)
    as (o & s2 & E2 & Hev2 & Ht2 & Hk2 & Ho);
    [apply Hev1|by apply vpath_page_2|done|by eapply clear_next; eauto with wolffia|].
  pose proof (evolves_trans _ _ _ _ Hev1 Hev2) as Hev12. pose proof (takes_trans 1 1 _ _ _ Hk1 Hk2) as Hk12.
  cbn [Z.add Pos.add Pos.succ] in Hk12.
  mcall E2. destruct o as [t|e];
    [|eexists _, _; split; [done|]; split_and!;
       [done|by apply (short_of_mono (1 + 1)); [lia|apply (short_of_takes _ _ _ s1)]|congruence|by apply (takes_mono 2)]].
  destruct Ho as (-> & [g2 Hg2] & Hz2). simpl app in *.
  rewrite Hsz. rewrite bool_decide_true by eauto. msimp. rewrite bool_decide_true by done.
  destruct (descend s2 Level2 [p4_index page; p3_index page] (p2_index page) g2)
    as (o & s3 & E3 & Hev3 & Ht3 & Hk3 & Ho);
    [apply Hev2|by apply vpath_page_3|done| |].
  { eapply clear_next; [|by auto with wolffia|done].
    by apply (clear_below s s1 [p4_index page]); auto with wolffia. }
  pose proof (evolves_trans _ _ _ _ Hev12 Hev3) as Hev. pose proof (takes_trans 2 1 _ _ _ Hk12 Hk3) as Hk.
  cbn [Z.add Pos.add Pos.succ] in Hk.
  mcall E3. destruct o as [t|e];
    [|eexists _, _; split; [done|]; split_and!;
       [done|by apply (short_of_takes 2 1 _ s2)|congruence|done]].
  destruct Ho as (-> & [g3 Hg3] & _). simpl app in *.
  unfold table_set. rewrite entry_set_ok by done. msimp.
  assert (Hw := table_write_spec s3 _ g3 (p1_index page) (Z.lor pa (fl ||| PRESENT))
           (ti_space _ (ev_inv _ _ _ Hev)) (vpath_page_3 page Hr) Hg3 (p1_index_range page)).
  mcall Hw. rewrite flush_step by done. eexists _, _. split; [done|].
  assert (e_present (Z.lor pa (fl ||| PRESENT)) = true) as Hpres.
  { rewrite new_entry_present by done. unfold e_present.
    by rewrite flags_or_spec, Z.lor_spec, orb_true_r. }
  set (s4 := set_mem _ s3).
  assert (evolves (same_page page) s s4) as Hev4.
  { eapply evolves_trans; [by eapply evolves_weaken, Hev|].
    apply leaf_evolves; [apply Hev|done|done]. }
  unfold flushed. case_decide; split_and!; simpl; auto using evolves_tlb;
    try congruence; (done || by apply ref_walk_leaf_same; [apply Hev|..]).
Qed.

End mapping.
