(* ===== verification/MapperLemmas.v ===== *)
(** Lemmas on the composed [Mapper] operations: mapping with a fresh, cleared
    frame, remapping and unmapping, one page and ranges of pages. *)
From S2P Require Import Prelude Crates Machine FrameAlloc Paging Layout PageMap.
From S2P Require Import AddressSpace PagingLemmas PageMapLemmas.

(** * Writes outside the tables *)

(** [m'] has the same table entries as [m]. *)
Definition same_tables (m m' : gmap Z Z) (R : Z) : Prop :=
  forall q h j, vpath q -> table_at m R q = Some h -> idx j -> entry_at m' h j = entry_at m h j.

Section same_tables.
Context (m m' : gmap Z Z) (R : Z) (Hs : same_tables m m' R).

Lemma same_table_at q : vpath q -> table_at m' R q = table_at m R q.
Proof.
  intros Hq. apply table_at_ext. intros q' j h r -> Hh.
  assert (vpath (q' ++ [j])) as Hj by (apply (vpath_app _ r); by rewrite <- app_assoc).
  apply (Hs q'); eauto with wolffia.
Qed.

Lemma same_ent q j : vpath q -> idx j -> ent m' R q j = ent m R q j.
Proof.
  intros Hq Hj. unfold ent. rewrite same_table_at by done.
  destruct (table_at m R q) eqn:E; [|done]. cbn. f_equal. by apply (Hs q).
Qed.

Lemma same_space_ok : space_ok m R -> space_ok m' R.
Proof.
  intros [Hr Hw Hi]. assert (entry_at m' R REC = entry_at m R REC) as E.
  { apply (Hs []); [apply vpath_nil|done|unfold idx, REC; lia]. }
  split.
  - destruct Hr. by split; rewrite E.
  - intros p f i g Hp. rewrite same_table_at by eauto with wolffia. intros Hf.
    unfold next_frame. rewrite (Hs p f i) by eauto with wolffia. intros Hn.
    by eapply Hw.
  - intros p q f Hp Hq. rewrite !same_table_at by done. by apply Hi.
Qed.

Lemma same_ref_walk page : p4_index page <> REC -> ref_walk m' R page = ref_walk m R page.
Proof.
  intros Hr. unfold ref_walk, huge_walk. by rewrite !same_ent by auto with wolffia.
Qed.

End same_tables.

Lemma same_tables_trans m1 m2 m3 R :
  same_tables m1 m2 R -> same_tables m2 m3 R -> same_tables m1 m3 R.
Proof.
  intros H1 H2 q h j Hq Hh Hj. rewrite (H2 q h j), (H1 q h j); try done.
  by rewrite (same_table_at m1 m2 R H1).
Qed.

Lemma frame_of_entry f i : f mod 4096 = 0 -> idx i -> frame_of (f + 8 * i) = f.
Proof. unfold frame_of, idx. intros. Z.to_euclidean_division_equations. lia. Qed.

(** Any change of memory outside the frames of the tables. *)
Lemma same_tables_words m m' R :
  rec_ok m R ->
  (forall a, (exists q, vpath q /\ table_at m R q = Some (frame_of a)) -> word m' a = word m a) ->
  same_tables m m' R.
Proof.
  intros Hr Hw q h j Hq Hh Hj. unfold entry_at. apply Hw. exists q.
  by rewrite frame_of_entry by (done || by apply (table_at_range _ _ Hr q)).
Qed.

Lemma same_tables_write m R f i v :
  rec_ok m R -> f mod 4096 = 0 -> idx i -> (forall q, vpath q -> table_at m R q <> Some f) ->
  same_tables m (<[f + 8 * i := v]> m) R.
Proof.
  intros Hr Hf Hi Hn. apply same_tables_words; [done|]. intros a (q & Hq & Hh).
  rewrite word_insert. apply decide_False. intros <-. rewrite frame_of_entry in Hh by done.
  by apply (Hn q).
Qed.

(** * Mapped pages *)

(** [page] is mapped by the 4 KiB entry [e]. *)
Definition small_mapping (m : gmap Z Z) (R : Z) (page : Page) (e : Z) : Prop :=
  ref_walk m R page = Ret (Some (e, Kib4)).

Lemma small_mapping_inv m R page e : small_mapping m R page e ->
  exists f1 f2 f3, next_frame m R (p4_index page) = Some f1 /\
    next_frame m f1 (p3_index page) = Some f2 /\ next_frame m f2 (p2_index page) = Some f3 /\
    entry_at m f3 (p1_index page) = e /\ e_present e = true.
Proof.
  unfold small_mapping, ref_walk. unfold ent at 1. cbn [table_at].
  assert (huge_walk m R page <> Ret (Some (e, Kib4))) as Hh.
  { unfold huge_walk. by repeat case_match. }
  destruct (next_frame m R (p4_index page)) as [f1|] eqn:E1; cbn; [|done].
  destruct (next_frame m f1 (p3_index page)) as [f2|] eqn:E2; cbn; [|done].
  destruct (next_frame m f2 (p2_index page)) as [f3|] eqn:E3; cbn; [|done].
  destruct (e_present (entry_at m f3 (p1_index page))) eqn:E4; [|done].
  intros [= <-]. by exists f1, f2, f3.
Qed.

Lemma small_mapping_table m R page e : small_mapping m R page e ->
  exists g, table_at m R [p4_index page; p3_index page; p2_index page] = Some g /\
    entry_at m g (p1_index page) = e /\ e_present e = true.
Proof.
  intros (f1 & f2 & f3 & E1 & E2 & E3 & E4 & E5)%small_mapping_inv. exists f3.
  split_and!; [|done|done]. cbn. rewrite E1. cbn. rewrite E2. cbn. by rewrite E3.
Qed.

Lemma canonical_page n off :
  0 <= off < 4096 -> 0 <= n * 4096 < two64 -> canonical (n * 4096) = true -> canonical (n * 4096 + off) = true.
Proof.
  intros Ho Hn. unfold canonical, sign_extend_47.
  assert (Z.testbit (n * 4096 + off) 47 = Z.testbit (n * 4096) 47) as ->.
  { rewrite !Z.testbit_eqb by lia. do 2 f_equal. change (2 ^ 47) with (4096 * 2 ^ 35).
    rewrite <- !Z.div_div by lia. f_equal. Z.to_euclidean_division_equations. lia. }
  rewrite !Z.eqb_eq. destruct (Z.testbit (n * 4096) 47); Z.to_euclidean_division_equations; lia.
Qed.

(** What the MMU does with an access to a mapped page. *)
Lemma mmu_small m R page e off :
  space_ok m R -> page_ok page -> small_mapping m R page e -> 0 <= off < 4096 ->
  mmu_walk m R (number page * 4096 + off) = Some (e_addr e + off, e_writable e).
Proof.
  intros Hok [Hsz Hr Hrange Hcan] Hm Ho.
  destruct (small_mapping_inv _ _ _ _ Hm) as (f1 & f2 & f3 & E1 & E2 & E3 & E4 & E5).
  set (va := number page * 4096 + off).
  assert (number (containing_address va) = number page) as En.
  { unfold va. cbn. change (4 * 1024) with 4096. Z.to_euclidean_division_equations. lia. }
  assert (0 <= va) as Hva by (unfold va; lia).
  pose proof (page_p4 va) as I4. pose proof (page_p3 va) as I3.
  pose proof (page_p2 va) as I2. pose proof (page_p1 va) as I1.
  unfold p4_index, p3_index, p2_index, p1_index in I4, I3, I2, I1. rewrite En in *.
  fold (p4_index page) in I4. fold (p3_index page) in I3. fold (p2_index page) in I2.
  fold (p1_index page) in I1.
  assert (va mod 4096 = off) as Hoff by (unfold va; Z.to_euclidean_division_equations; lia).
  pose proof (so_writable _ _ Hok [] R (p4_index page) f1 (vpath_page_1 page Hr) eq_refl E1) as W1.
  assert (table_at m R [p4_index page] = Some f1) as T1 by (cbn; by rewrite E1).
  pose proof (so_writable _ _ Hok [p4_index page] f1 (p3_index page) f2 (vpath_page_2 page Hr) T1 E2) as W2.
  assert (table_at m R [p4_index page; p3_index page] = Some f2) as T2
    by (cbn; rewrite E1; cbn; by rewrite E2).
  pose proof (so_writable _ _ Hok [p4_index page; p3_index page] f2 (p2_index page) f3 (vpath_page_3 page Hr) T2 E3) as W3.
  apply next_frame_inv in E1 as (P1 & N1 & A1), E2 as (P2 & N2 & A2), E3 as (P3 & N3 & A3).
  unfold mmu_walk. unfold va at 1. rewrite canonical_page by done. cbn [negb].
  rewrite <- I4, <- I3, <- I2, <- I1, P1, N1, A1. cbn [negb orb]. rewrite P2, N2, A2. cbn [negb].
  rewrite P3, N3, A3. cbn [negb]. rewrite E4, E5, W1, W2, W3, Hoff. done.
Qed.

(** * Clearing a data frame through its mapping *)

Section data.
Context {P : Type} `{FA : FrameAllocator P} `{FS : !FrameAllocatorSpec P}.
Implicit Types s : machine P.

Lemma set_mem_set_mem m m' s : set_mem m (set_mem m' s) = set_mem m s.
Proof. done. Qed.

(** Memory outside the tables, in frames that were free when the operation began. *)
Lemma evolves_data T s0 s m' :
  evolves T s0 s -> same_tables (mem s) m' (cr3 s) ->
  (forall a, ~ fa_free (pmm s0) (frame_of a) -> word m' a = word (mem s) a) ->
  evolves T s0 (set_mem m' s).
Proof.
  intros Hev Hs Hw. pose proof (ev_cr3 _ _ _ Hev) as Hc.
  assert (forall x, is_table (set_mem m' s) x <-> is_table s x) as Hit.
  { intros x. unfold is_table. simpl. split; intros (q & Hq & Hx); exists q; (split; [done|]).
    - by rewrite <- (same_table_at _ _ _ Hs).
    - by rewrite (same_table_at _ _ _ Hs). }
  destruct Hev as [? ? ? [Hsp Hfa Hfr] Ht Hn Hwalk Hf Hl Hm]. split; simpl; auto.
  - split; simpl; [by eapply same_space_ok|done|]. intros f Hx. apply Hfr. by apply Hit.
  - intros q f Hq Hx. rewrite <- Hc. rewrite (same_table_at _ _ _ Hs) by done. rewrite Hc. auto.
  - intros f Hx. apply Hn. by apply Hit.
  - intros page Hp HT. rewrite <- Hc. rewrite (same_ref_walk _ _ _ Hs) by done. rewrite Hc. auto.
  - intros p i e Hp. rewrite <- Hc. rewrite (same_ent _ _ _ Hs) by eauto with wolffia.
    rewrite Hc. auto.
  - intros a H1 H2. rewrite Hw by done. auto.
Qed.

(** The loop of [memset_volatile_64bit] over a mapped, writable page. *)
Lemma memset_steps s page e l :
  space_ok (mem s) (cr3 s) -> page_ok page -> small_mapping (mem s) (cr3 s) page e ->
  ~ is_table s (e_addr e) -> e_writable e || negb (cr0_wp s) = true -> Forall idx l ->
  let m' := foldl (fun m i => <[e_addr e + 8 * i := 0]> m) (mem s) l in
  for_each l (fun i => vwrite64 (number page * 4096 + 8 * i) 0) s = Ret (tt, set_mem m' s) /\
  same_tables (mem s) m' (cr3 s).
Proof.
  intros Hok Hp Hm Hnt Hw Hl. revert s Hok Hm Hnt Hw.
  induction Hl as [|i l Hi Hl IH]; intros s Hok Hm Hnt Hw m'.
  { split; [by destruct s|]. by intros q h j _ _ _. }
  set (m1 := <[e_addr e + 8 * i := 0]> (mem s)).
  assert (same_tables (mem s) m1 (cr3 s)) as Hs1.
  { apply same_tables_write; [apply Hok|apply e_addr_range|done|].
    intros q Hq Hc. apply Hnt. by exists q. }
  assert (vwrite64 (number page * 4096 + 8 * i) 0 s = Ret (tt, set_mem m1 s)) as Hstep.
  { unfold vwrite64. rewrite (mmu_small _ _ page e) by (done || (unfold idx in Hi; lia)).
    by rewrite Hw. }
  destruct (IH (set_mem m1 s)) as [E Hs2].
  - by eapply same_space_ok.
  - unfold small_mapping. simpl. rewrite (same_ref_walk _ _ _ Hs1); [done|apply Hp].
  - intros (q & Hq & Hc). simpl in Hc. apply Hnt. exists q. split; [done|].
    by rewrite <- (same_table_at _ _ _ Hs1).
  - done.
  - split; [|by eapply same_tables_trans].
    cbn [for_each]. rewrite (bind_ret _ _ _ _ _ Hstep). exact E.
Qed.

Lemma memset_page s page e :
  space_ok (mem s) (cr3 s) -> page_ok page -> small_mapping (mem s) (cr3 s) page e ->
  ~ is_table s (e_addr e) -> e_writable e || negb (cr0_wp s) = true ->
  memset_volatile_64bit (number page * 4096) 0 4096 s =
    Ret (number page * 4096, set_mem (zero_frame (mem s) (e_addr e)) s) /\
  same_tables (mem s) (zero_frame (mem s) (e_addr e)) (cr3 s).
Proof.
  intros Hok Hp Hm Hnt Hw.
  assert (Forall idx (range_excl 0 512)) as Hl
    by (apply list.Forall_forall; intros i Hi%elem_of_range_excl; done).
  destruct (memset_steps s page e (range_excl 0 512) Hok Hp Hm Hnt Hw Hl) as [E Hs].
  split; [|exact Hs]. unfold memset_volatile_64bit. change (Z.shiftr 4096 3) with 512.
  assert (Z.land (number page * 4096) 7 = 0) as ->.
  { change 7 with (2 ^ 3 - 1). rewrite land_ones_mod by lia.
    replace (number page * 4096) with ((number page * 512) * 2 ^ 3) by lia. apply Z_mod_mult. }
  change (Z.land 4096 7 =? 0) with true. change (0 =? 0) with true. msimp.
  by rewrite (bind_ret _ _ _ _ _ E).
Qed.

End data.

Section map_page.
Context `{B : Build} `{X : X86_64Crate} `{F : BitflagsCrate}.
Context {P : Type} `{FA : FrameAllocator P} `{FS : !FrameAllocatorSpec P}.
Implicit Types s : machine P.

Lemma path_clear_pmm s p page : path_clear s page -> path_clear (set_pmm p s) page.
Proof. intros []. by split. Qed.

(** The entry that [map] installs for the frame [f]. *)
Definition leaf_entry (f fl : Z) : Z := Z.lor f (fl ||| PRESENT).

Lemma leaf_entry_facts f fl : f mod 4096 = 0 -> 0 <= f < 2 ^ 48 -> flags_ok fl ->
  e_addr (leaf_entry f fl) = f /\ e_present (leaf_entry f fl) = true /\
  e_writable (leaf_entry f fl) = e_writable fl.
Proof.
  intros Hf Hr Hfl. assert (flags_ok (fl ||| PRESENT)) by (by apply flags_ok_or). unfold leaf_entry.
  split_and!.
  - by apply new_entry_addr.
  - rewrite new_entry_present by done. unfold e_present.
    by rewrite flags_or_spec, Z.lor_spec, orb_true_r.
  - rewrite new_entry_writable by done. unfold e_writable.
    rewrite flags_or_spec, Z.lor_spec. apply orb_false_r.
Qed.

Lemma is_table_pmm s p x : is_table (set_pmm p s) x <-> is_table s x.
Proof. done. Qed.

(** [map] of one page: either a free frame backs it, cleared if asked for, and no
    other page changed; or memory ran out and no page changed. *)
Lemma map_spec s page fl inv z :
  tables_inv s -> page_ok page -> path_clear s page -> flags_ok fl ->
  (z = Zero -> e_writable fl || negb (cr0_wp s) = true) ->
  exists r s', map page fl inv z s = Ret (r, s') /\
    match r with
    | Ok _ => exists f, fa_free (pmm s) f /\ ~ fa_free (pmm s') f /\ fa_live (pmm s') f 0 /\
        ~ is_table s' f /\ evolves (same_page page) s s' /\
        small_mapping (mem s') (cr3 s') page (leaf_entry f fl) /\
        (z = Zero -> forall i, idx i -> entry_at (mem s') f i = 0) /\
        tlb s' = tlb (flushed inv page s) /\ takes 4 s s'
    | Err _ => evolves (fun _ => False) s s' /\ short_of 4 s /\ tlb s' = tlb s
    end.
Proof.
  intros Hinv Hp Hc Hfl Hz. destruct (Hp) as [Hsz Hr Hrange Hcan]. destruct (Hinv) as [Hsp Hfa Htf].
  unfold map. rewrite Hsz. rewrite bool_decide_true by eauto. msimp. rewrite decide_True by done.
  destruct (allocate_frame_spec s 0 Hfa ltac:(lia)) as (o & p1 & Ea & Ef & Hp1). mcall Ea.
  destruct o as [f|].
  2:{ destruct (fa_allocate_none _ 0 _ Hfa ltac:(lia) Ef) as (Hf & Hl & _).
      eexists _, _. split; [done|]. split_and!; [|by apply (short_of_mono 1); [lia|apply (allocate_frame_0_none _ _ Hfa Ef)]|done].
      apply evolves_pmm; [done|done|intros x; apply Hf|intros x k; apply Hl]. }
  destruct (allocate_frame_0_some _ _ _ Hfa Ef) as (Hff & Hal & Hfr & Hfree1 & Hlive1).
  set (s1 := set_pmm p1 s).
  assert (evolves (fun _ => False) s s1) as Hev1.
  { apply evolves_pmm; [done|done|intros x; apply Hfree1|intros x k Hx; apply Hlive1; auto]. }
  assert (takes 1 s s1) as Htk1.
  { apply (takes_one f). intros x Hx Hne. apply Hfree1. by split. }
  destruct (map_to_spec s1 page f fl inv (ev_inv _ _ _ Hev1) Hp (path_clear_pmm _ _ _ Hc) Hal
              ltac:(lia) Hfl) as (r & s2 & Em & Hres).
  mcall Em. destruct r as [u|u].
  2:{ destruct Hres as (Hev2 & Hex & Htlb & _). eexists _, _. split; [done|]. split_and!; [..|done].
      - by eapply evolves_trans.
      - by apply (short_of_takes 1 3 _ s1). }
  destruct Hres as (Hev2 & Hw & Htlb & Htk2). pose proof (takes_trans 1 3 _ _ _ Htk1 Htk2) as Htk.
  destruct (leaf_entry_facts f fl Hal ltac:(lia) Hfl) as (Ha & Hpres & Hwr).
  assert (evolves (same_page page) s s2) as Hev.
  { eapply evolves_trans; [|exact Hev2]. eapply evolves_weaken; [|exact Hev1]. done. }
  assert (~ fa_free (pmm s2) f) as Hnf.
  { intros Hx%(ev_free _ _ _ Hev2). simpl in Hx. apply Hfree1 in Hx as [_ Hx]. done. }
  assert (~ is_table s2 f) as Hnt.
  { intros Hx. apply (ev_new _ _ _ Hev2) in Hx as [Hx|Hx].
    - by apply (Htf f).
    - simpl in Hx. apply Hfree1 in Hx as [_ Hx]. done. }
  assert (fa_live (pmm s2) f 0) as Hlv.
  { apply (ev_live _ _ _ Hev2). apply Hlive1. auto. }
  change (tlb (flushed inv page s1)) with (tlb (flushed inv page (set_pmm p1 s))) in Htlb.
  assert (tlb s2 = tlb (flushed inv page s)) as Htlb'.
  { rewrite Htlb. unfold flushed. by case_decide. }
  case_decide as Hzd.
  - specialize (Hz Hzd).
    destruct (memset_page s2 page (leaf_entry f fl)) as [Ems Hst]; [apply Hev2|done|done|by rewrite Ha|
      by rewrite Hwr, (ev_wp _ _ _ Hev)|]. rewrite Ha in *.
    msimp. mcall (page_start_ok page "unwrap" s2 Hp).
    change (bytes Kib4) with 4096. mcall Ems. eexists _, _. split; [done|]. exists f.
    set (s3 := set_mem (zero_frame (mem s2) f) s2).
    assert (evolves (same_page page) s s3) as Hev3.
    { apply evolves_data; [done|done|]. intros a Hna. apply word_zero_frame_other.
      intros i Hi Hai. apply Hna. by rewrite Hai, frame_of_entry. }
    split_and!; try done.
    + intros (q & Hq & Hx). apply Hnt. exists q. split; [done|].
      by rewrite <- (same_table_at _ _ _ Hst).
    + unfold small_mapping. change (cr3 s3) with (cr3 s2). change (mem s3) with (zero_frame (mem s2) f).
      by rewrite (same_ref_walk _ _ _ Hst).
    + intros _ i Hi. by apply entry_at_zero_frame_same.
  - msimp. eexists _, _. split; [done|]. exists f. by split_and!.
Qed.

Lemma path_clear_evolves T s s' page :
  p4_index page <> REC -> evolves T s s' -> path_clear s page -> path_clear s' page.
Proof.
  intros Hr Hev [H4 H3 H2].
  assert (forall p i, vpath (p ++ [i]) -> clear_entry s p i -> clear_entry s' p i) as Hcl.
  { intros p i Hp Hc e He. rewrite (ev_cr3 _ _ _ Hev) in He. destruct (e_huge e) eqn:E; [|done].
    rewrite <- E. apply Hc. by apply (ev_huge _ _ _ Hev). }
  split; apply Hcl; try done; simpl; auto with wolffia.
Qed.

End map_page.

(** * Ranges of pages *)

(** The 4 KiB page with number [n]. *)
Definition page_no (n : Z) : Page := mkPage n (Some Kib4).

Lemma number_indices p : number p mod 2 ^ 36 =
  p4_index p * 2 ^ 27 + p3_index p * 2 ^ 18 + p2_index p * 2 ^ 9 + p1_index p.
Proof.
  assert (p1_index p = number p mod 512) as -> by (apply (land_ones_mod (number p) 9); lia).
  unfold p4_index, p3_index, p2_index. rewrite !va_index_alt by lia.
  Z.to_euclidean_division_equations. lia.
Qed.

Lemma same_page_number p q :
  same_page p q -> number p mod 2 ^ 36 = number q mod 2 ^ 36.
Proof. intros (H4 & H3 & H2 & H1). rewrite !number_indices. congruence. Qed.

Lemma canonical_half n : canonical (n * 4096) = true ->
  n < 2 ^ 35 /\ n mod 2 ^ 36 = n \/ 2 ^ 52 - 2 ^ 35 <= n /\ n = n mod 2 ^ 36 + (2 ^ 52 - 2 ^ 36).
Proof.
  unfold canonical, sign_extend_47. rewrite Z.eqb_eq.
  rewrite (Z.testbit_eqb (n * 4096) 47) by lia. case_match eqn:E.
  - apply Z.eqb_eq in E. Z.to_euclidean_division_equations. lia.
  - apply Z.eqb_neq in E. Z.to_euclidean_division_equations. lia.
Qed.

(** Two canonical pages with the same indices are the same page. *)
Lemma same_page_inj p q : page_ok p -> page_ok q -> same_page p q -> number p = number q.
Proof.
  intros [_ _ Hp Cp] [_ _ Hq Cq] Hs%same_page_number.
  apply canonical_half in Cp. apply canonical_half in Cq.
  Z.to_euclidean_division_equations. lia.
Qed.

(** The first page of the last GiBs, where the kernel's own pages are. *)
Definition KERNEL_PAGE : Z := 0xffffffff40000.

Lemma kernel_page_ok n : KERNEL_PAGE <= n < 2 ^ 52 -> page_ok (page_no n).
Proof.
  unfold KERNEL_PAGE. intros Hn. split; cbn [size page_no number].
  - done.
  - unfold p4_index, REC. cbn [number page_no]. rewrite va_index_alt by lia.
    Z.to_euclidean_division_equations. lia.
  - lia.
  - unfold canonical, sign_extend_47. rewrite Z.eqb_eq, (Z.testbit_eqb _ 47) by lia.
    case_match eqn:E; [|apply Z.eqb_neq in E]; Z.to_euclidean_division_equations; lia.
Qed.

(** The pages numbered [a] to [k - 1]. *)
Definition in_pages (a k : Z) (page : Page) : Prop :=
  exists n, a <= n < k /\ same_page (page_no n) page.

Section ranges.
Context `{B : Build} `{X : X86_64Crate} `{F : BitflagsCrate}.
Context {P : Type} `{FA : FrameAllocator P} `{FS : !FrameAllocatorSpec P}.
Implicit Types s : machine P.

Lemma page_of_number_ok n : page_ok (page_no n) -> page_of_number n = Ret (page_no n).
Proof.
  intros [_ _ Hr _]. unfold page_of_number. simpl in Hr. change 0x1000 with 4096.
  rewrite mul64_small by done. cbn [rbind]. unfold containing_address, page_no.
  change (bytes Kib4) with 4096. by rewrite Z.div_mul.
Qed.

(** In [s'], page [n] is backed by the frame [f], which was free in [s]. *)
Record backed s s' (fl : Z) (z : ZeroPage) (n f : Z) : Prop := {
  bk_was_free : fa_free (pmm s) f;
  bk_taken : ~ fa_free (pmm s') f;
  bk_live : fa_live (pmm s') f 0;
  bk_data : ~ is_table s' f;
  bk_mapping : small_mapping (mem s') (cr3 s') (page_no n) (leaf_entry f fl);
  bk_zero : z = Zero -> forall i, idx i -> entry_at (mem s') f i = 0
}.

(** Exactly the pages [a] to [k - 1] were given frames of their own. *)
Definition pages_backed (fl : Z) (z : ZeroPage) (a k : Z) s s' : Prop :=
  evolves (in_pages a k) s s' /\
  exists fr : Z -> Z,
    (forall n, a <= n < k -> backed s s' fl z n (fr n)) /\
    (forall n m, a <= n < k -> a <= m < k -> fr n = fr m -> n = m).

Lemma backed_later T s s1 s' fl z n f :
  evolves T s1 s' -> ~ T (page_no n) -> p4_index (page_no n) <> REC -> f mod 4096 = 0 ->
  backed s s1 fl z n f -> backed s s' fl z n f.
Proof.
  intros Hev HT Hr Hal [H1 H2 H3 H4 H5 H6]. split; try done.
  - intros Hc%(ev_free _ _ _ Hev). done.
  - by apply (ev_live _ _ _ Hev).
  - intros Hc%(ev_new _ _ _ Hev). tauto.
  - unfold small_mapping. rewrite (ev_cr3 _ _ _ Hev), (ev_walk _ _ _ Hev) by done. done.
  - intros Hz i Hi. rewrite <- (H6 Hz i Hi). apply (ev_mem _ _ _ Hev); by rewrite frame_of_entry.
Qed.

Lemma in_pages_mono a k a' k' page : a' <= a -> k <= k' -> in_pages a k page -> in_pages a' k' page.
Proof. intros Ha Hk (n & Hn & Hs). exists n. split; [lia|done]. Qed.

Lemma pages_backed_nil fl z a s : tables_inv s -> pages_backed fl z a a s s.
Proof.
  intros Hi. split; [by apply evolves_refl|]. exists (fun n => n). split; intros; lia.
Qed.

(** One page, then the rest. *)
Lemma pages_backed_cons fl z a k s s1 s' f :
  (forall n, a <= n < k -> page_ok (page_no n)) -> a < k -> fa_inv (pmm s) ->
  evolves (same_page (page_no a)) s s1 -> backed s s1 fl z a f ->
  pages_backed fl z (a + 1) k s1 s' -> pages_backed fl z a k s s'.
Proof.
  intros Hok Hak Hinv Hev Hb [Hev' (fr & Hfr & Hinj)].
  assert (f mod 4096 = 0) as Hal by (by destruct (fa_free_range _ _ Hinv (bk_was_free _ _ _ _ _ _ Hb))).
  assert (backed s s' fl z a f) as Hb'.
  { apply (backed_later _ s s1 s' fl z a f Hev'); try done.
    - intros (n & Hn & Hs). apply same_page_inj in Hs; [simpl in Hs; lia|apply Hok; lia|apply Hok; lia].
    - apply Hok. lia. }
  split.
  { eapply evolves_trans; (eapply evolves_weaken; [|done]).
    - intros page Hs. exists a. split; [lia|done].
    - intros page Hs. by apply (in_pages_mono (a + 1) k); try lia. }
  exists (fun n => if decide (n = a) then f else fr n). split.
  - intros n Hn. case_decide as E; [by subst|]. destruct (Hfr n ltac:(lia)) as [H1 H2 H3 H4 H5 H6].
    split; try done. by apply (ev_free _ _ _ Hev).
  - intros n m Hn Hm. destruct (decide (n = a)) as [->|], (decide (m = a)) as [->|]; try done.
    + intros ->. exfalso. apply (bk_taken _ _ _ _ _ _ Hb). apply (Hfr m). lia.
    + intros <-. exfalso. apply (bk_taken _ _ _ _ _ _ Hb). apply (Hfr n). lia.
    + apply Hinj; lia.
Qed.

Lemma pages_backed_evolves fl z a k s s1 s' :
  (forall n, a <= n < k -> page_ok (page_no n)) -> fa_inv (pmm s) ->
  pages_backed fl z a k s s1 -> evolves (fun _ => False) s1 s' -> pages_backed fl z a k s s'.
Proof.
  intros Hok Hinv [Hev (fr & Hfr & Hinj)] Hev'. split.
  { eapply evolves_trans; [done|]. by eapply evolves_weaken; [|done]. }
  exists fr. split; [|done]. intros n Hn. eapply (backed_later _ s s1 s'); eauto.
  - by apply Hok.
  - by destruct (fa_free_range _ _ Hinv (bk_was_free _ _ _ _ _ _ (Hfr n Hn))).
Qed.

(** What a loop that maps the pages [a] to [b] one by one does; [E] is its error
    and [stop_ok n s e] says when it may give up at page [n]. *)
Section loop.
Context {E : Type} (fl : Z) (z : ZeroPage).
Context (body : Z -> M (machine P) (result unit E)).
Context (gives_up : Z -> machine P -> machine P -> E -> Prop).
(** [fresh n s] holds of a page that the loop accepts; mapping other pages does not
    change it. *)
Context (fresh : Z -> machine P -> Prop).
Context (Hfresh : forall n m s s', n <> m -> page_ok (page_no n) -> page_ok (page_no m) ->
  evolves (same_page (page_no m)) s s' -> fresh n s' -> fresh n s).
Context (s0_wp : bool).
Context (Hbody : forall n s, tables_inv s -> page_ok (page_no n) -> path_clear s (page_no n) ->
  cr0_wp s = s0_wp ->
  exists r s', body n s = Ret (r, s') /\
    match r with
    | Ok _ => fresh n s /\
        exists f, evolves (same_page (page_no n)) s s' /\ backed s s' fl z n f /\ takes 4 s s'
    | Err e => evolves (fun _ => False) s s' /\ gives_up n s s' e
    end).

Lemma map_loop_spec s a b :
  tables_inv s -> cr0_wp s = s0_wp ->
  (forall n, a <= n <= b -> page_ok (page_no n) /\ path_clear s (page_no n)) ->
  exists r s', try_each (range_incl a b) body s = Ret (r, s') /\
    match r with
    | Ok _ => pages_backed fl z a (Z.max a (b + 1)) s s' /\ takes (4 * Z.max 0 (b + 1 - a)) s s' /\
        forall n, a <= n <= b -> fresh n s
    | Err e => exists k s1, a <= k <= b /\ pages_backed fl z a k s s1 /\ takes (4 * (k - a)) s s1 /\
        evolves (fun _ => False) s1 s' /\ gives_up k s1 s' e
    end.
Proof.
  remember (Z.to_nat (b - a + 1)) as len eqn:El. revert a s El.
  induction len as [|len IH]; intros a s El Hinv Hwp Hpages.
  { rewrite range_incl_nil by lia. exists (Ok tt), s. split; [done|].
    replace (Z.max a (b + 1)) with a by lia. split_and!; [by apply pages_backed_nil|
      apply takes_none; [lia|done]|intros; lia]. }
  rewrite range_incl_cons by lia. cbn [try_each].
  destruct (Hpages a ltac:(lia)) as [Hok Hcl].
  destruct (Hbody a s Hinv Hok Hcl Hwp) as (r & s1 & Eb & Hr). rewrite (bind_ret _ _ _ _ _ Eb).
  destruct r as [u|e].
  2:{ destruct Hr as [Hev Hg]. exists (Err e), s1. split; [done|]. exists a, s.
      split_and!; [lia|lia|by apply pages_backed_nil|apply takes_none; [lia|done]|done|done]. }
  destruct Hr as (Hfr & f & Hev & Hb & Htk).
  destruct (IH (a + 1) s1 ltac:(lia) (ev_inv _ _ _ Hev)) as (r' & s' & Et & Hr').
  { by rewrite (ev_wp _ _ _ Hev). }
  { intros n Hn. destruct (Hpages n ltac:(lia)) as [Hok' Hcl']. split; [done|].
    by apply (path_clear_evolves _ _ _ _ (po_rec _ Hok') Hev). }
  exists r', s'. split; [done|].
  assert (forall k, k <= b + 1 -> forall n, a <= n < k -> page_ok (page_no n)) as Hpo
    by (intros k Hk n Hn; apply Hpages; lia).
  destruct r' as [u'|e].
  - replace (Z.max a (b + 1)) with (b + 1) by lia.
    replace (Z.max (a + 1) (b + 1)) with (b + 1) in Hr' by lia. destruct Hr' as (Hr' & Htk' & Hfr').
    split_and!; [|by apply (takes_mono (4 + 4 * Z.max 0 (b + 1 - (a + 1)))); [lia|apply (takes_trans _ _ _ s1)]|].
    2:{ intros n Hn. destruct (decide (n = a)) as [->|Hne]; [done|].
        apply (Hfresh n a s s1); [done|apply Hpages; lia|done|done|apply Hfr'; lia]. }
    apply (pages_backed_cons fl z a (b + 1) s s1 s' f); auto; [apply Hpo; lia|lia|apply Hinv].
  - destruct Hr' as (k & s2 & Hk & Hpb & Htk' & Hev2 & Hg). exists k, s2.
    split_and!; [lia|lia| |by apply (takes_mono (4 + 4 * (k - (a + 1)))); [lia|apply (takes_trans _ _ _ s1)]|done|done].
    apply (pages_backed_cons fl z a k s s1 s2 f); auto; [apply Hpo; lia|lia|apply Hinv].
Qed.

End loop.

(** ** [map_range] *)

Lemma map_body_spec s0_wp fl inv z n s :
  flags_ok fl -> (z = Zero -> e_writable fl || negb s0_wp = true) ->
  tables_inv s -> page_ok (page_no n) -> path_clear s (page_no n) -> cr0_wp s = s0_wp ->
  exists r s', map (page_no n) fl inv z s = Ret (r, s') /\
    match r with
    | Ok _ => True /\
        exists f, evolves (same_page (page_no n)) s s' /\ backed s s' fl z n f /\ takes 4 s s'
    | Err _ => evolves (fun _ => False) s s' /\ short_of 4 s
    end.
Proof.
  intros Hfl Hz Hinv Hok Hcl Hwp.
  destruct (map_spec s (page_no n) fl inv z Hinv Hok Hcl Hfl) as (r & s' & E & Hr); [by rewrite Hwp|].
  exists r, s'. split; [done|]. destruct r as [u|u].
  - destruct Hr as (f & H1 & H2 & H3 & H4 & H5 & H6 & H7 & _ & H8). split; [done|]. exists f. by split_and!.
  - tauto.
Qed.

Lemma both_kib4_no a b : both_kib4 (page_no a) (page_no b) = true.
Proof. unfold both_kib4. by rewrite !bool_decide_true. Qed.

Lemma map_range_spec s a b fl inv z :
  tables_inv s -> flags_ok fl -> (z = Zero -> e_writable fl || negb (cr0_wp s) = true) ->
  (forall n, a <= n <= b -> page_ok (page_no n) /\ path_clear s (page_no n)) ->
  exists r s', map_range (page_no a) (page_no b) fl inv z s = Ret (r, s') /\
    match r with
    | Ok _ => pages_backed fl z a (Z.max a (b + 1)) s s' /\ takes (4 * Z.max 0 (b + 1 - a)) s s'
    | Err _ => exists k, a <= k <= b /\ pages_backed fl z a k s s' /\ short_of (4 * (k - a + 1)) s
    end.
Proof.
  intros Hinv Hfl Hz Hpages. unfold map_range. rewrite both_kib4_no. msimp. cbn [number page_no].
  rewrite (try_each_ext _ _ (fun n => map (page_no n) fl inv z)).
  2:{ intros n s1 Hn%elem_of_range_incl. rewrite page_of_number_ok by (by apply Hpages). by msimp. }
  destruct (map_loop_spec fl z (fun n => map (page_no n) fl inv z)
              (fun n s1 s' _ => short_of 4 s1) (fun _ _ => True) ltac:(done) (cr0_wp s)
              (fun n s1 => map_body_spec (cr0_wp s) fl inv z n s1 Hfl Hz) s a b Hinv eq_refl Hpages)
    as (r & s' & E & Hr).
  exists r, s'. split; [done|]. destruct r as [u|u]; [tauto|].
  destruct Hr as (k & s1 & Hk & Hb & Htk & Hev & Hex). exists k. split_and!; [lia|lia|..].
  - apply (pages_backed_evolves fl z a k s s1 s'); auto; [|apply Hinv].
    intros n Hn. apply Hpages. lia.
  - apply (short_of_mono (4 * (k - a) + 4)); [lia|]. by apply (short_of_takes _ _ _ s1).
Qed.

(** ** [try_map_user_range] *)

(** The last page a process may map itself: the one that holds [STACK_BOTTOM]. *)
Definition LAST_USER_PAGE : Z := 0x7fffffffd.

Lemma stack_bottom_page : number (containing_address STACK_BOTTOM) = LAST_USER_PAGE.
Proof.
  unfold STACK_BOTTOM, STACK_TOP, INITIAL_STACK_SIZE_PAGES.
  by rewrite !VirtAddr_new_truncate_spec by (rewrite ?VirtAddr_new_truncate_spec by lia; done).
Qed.

Lemma user_page_ok n : 0 <= n <= LAST_USER_PAGE -> page_ok (page_no n).
Proof.
  unfold LAST_USER_PAGE. intros Hn. split; cbn [size page_no number]; [done|..].
  - unfold p4_index, REC. cbn [number page_no]. rewrite va_index_alt by lia.
    Z.to_euclidean_division_equations. lia.
  - lia.
  - unfold canonical, sign_extend_47. rewrite Z.eqb_eq, (Z.testbit_eqb (n * 4096) 47) by lia.
    case_match eqn:E; [apply Z.eqb_eq in E|]; Z.to_euclidean_division_equations; lia.
Qed.

Lemma ref_walk_clear s page :
  path_clear s page ->
  ref_walk (mem s) (cr3 s) page = Ret None \/
  exists e, small_mapping (mem s) (cr3 s) page e.
Proof.
  intros [_ H3 H2]. unfold clear_entry in H3, H2. unfold small_mapping, ref_walk, huge_walk.
  destruct (ent _ _ [_] _) as [e3|]; [rewrite ?(H3 e3) by done|];
    (destruct (ent _ _ [_; _] _) as [e2|]; [rewrite ?(H2 e2) by done|]);
    destruct (ent _ _ [_; _; _] _) as [e1|];
    rewrite ?andb_false_r; try destruct (e_present e1); eauto.
Qed.

(** The checks that [try_map_user_range] makes before it maps anything. *)
Definition user_range_ok (a b : Z) : bool := (b <=? LAST_USER_PAGE) && (a <? 2 ^ 36).

(** The page that it names when they fail: the last, unless that is at most [LAST_USABLE_PAGE] and the first is
    not in the lower half. *)
Definition refused_page (a b : Z) : Z := if (b <=? 0x7fffffffe) && negb (a <? 2 ^ 36) then a else b.

Lemma try_new_none a : 0 <= a < two64 -> VirtAddr_try_new a = None -> 2 ^ 48 <= a.
Proof.
  intros Ha. destruct (decide (a < 2 ^ 48)); [|lia].
  by rewrite VirtAddr_try_new_ok by auto.
Qed.

Lemma try_new_some a v : 0 <= a < two64 -> VirtAddr_try_new a = Some v ->
  a < 2 ^ 48 \/ 2 ^ 64 - 2 ^ 47 <= a.
Proof.
  intros Ha. destruct (decide (a < 2 ^ 48)) as [|Hge]; [auto|].
  destruct (canonical a) eqn:E; [|by rewrite VirtAddr_try_new_err by (done || lia)].
  intros _. right. unfold canonical, sign_extend_47 in E. apply Z.eqb_eq in E.
  rewrite (Z.testbit_eqb a 47) in E by lia. case_match eqn:E';
    [apply Z.eqb_eq in E'|]; Z.to_euclidean_division_equations; lia.
Qed.

Lemma shiftr_63 a : 0 <= a < two64 -> (Z.shiftr a 63 =? 1) = (2 ^ 63 <=? a).
Proof.
  intros Ha. rewrite Z.shiftr_div_pow2 by lia. apply eq_true_iff_eq.
  rewrite Z.eqb_eq, Z.leb_le. Z.to_euclidean_division_equations. lia.
Qed.

Definition user_body (fl : Z) (inv : InvalidateTlb) (ign : bool) (z : ZeroPage) (page : Page)
  : M (machine P) (result unit TryMapError) :=
  let! mapped := if ign then ret false
                 else let! w := walk_page_table page in ret (bool_decide (is_Some w)) in
  if mapped then ret (Err (AlreadyMapped page)) else
  let! r := map page fl inv z in
  match r with
  | Ok _ => ret (Ok tt)
  | Err e => ret (Err (TryMapError_from e))
  end.

Lemma page_start_no n msg s : 0 <= n < 2 ^ 52 -> page_start (page_no n) msg s = Ret (n * 4096, s).
Proof.
  intros Hn. unfold page_start, start_address. cbn [size page_no number bytes].
  change (4 * 1024) with 4096. by rewrite mul64_small by lia.
Qed.

(** The checks reject a range before anything is mapped, or let it through. *)
Lemma user_range_checks s a b fl inv ign z :
  0 <= a < 2 ^ 52 -> 0 <= b < 2 ^ 52 ->
  if user_range_ok a b then
    try_map_user_range (page_no a) (page_no b) fl inv ign z s =
      try_each (range_incl a b) (fun n => user_body fl inv ign z (page_no n)) s
  else try_map_user_range (page_no a) (page_no b) fl inv ign z s =
         Ret (Err (InvalidAddress (page_no (refused_page a b))), s).
Proof.
  intros Ha Hb. unfold try_map_user_range. rewrite both_kib4_no. msimp.
  mcall (page_start_no a "unwrap" s Ha). mcall (page_start_no b "unwrap" s Hb).
  rewrite !shiftr_63 by lia.
  unfold page_gt, page_cmp. rewrite stack_bottom_page. cbn [number page_no].
  change (number LAST_USABLE_PAGE) with 0x7fffffffe.
  unfold user_range_ok, refused_page, LAST_USER_PAGE.
  assert (forall x y, match x ?= y with Gt => true | _ => false end = (y <? x)) as Hgt.
  { intros x y. unfold Z.ltb. rewrite (Z.compare_antisym x y). by destruct (x ?= y). }
  rewrite !Hgt.
  destruct (0x7fffffffe <? b) eqn:E1.
  { replace (b <=? 0x7fffffffd) with false by lia. by replace (b <=? 0x7fffffffe) with false by lia. }
  replace (b <=? 0x7fffffffe) with true by lia.
  rewrite (bool_decide_false (VirtAddr_try_new (b * 4096) = None)).
  2:{ intros H%try_new_none; lia. }
  replace (2 ^ 63 <=? b * 4096) with false by lia.
  destruct (decide (VirtAddr_try_new (a * 4096) = None)) as [E2|E2].
  { rewrite bool_decide_true by done. apply try_new_none in E2; [|lia].
    replace (a <? 2 ^ 36) with false by lia. by rewrite andb_false_r. }
  rewrite bool_decide_false by done.
  assert (a < 2 ^ 36 \/ 2 ^ 63 <= a * 4096) as Hcase.
  { destruct (VirtAddr_try_new (a * 4096)) as [v|] eqn:E; [|done].
    apply try_new_some in E; lia. }
  destruct (2 ^ 63 <=? a * 4096) eqn:E3.
  { replace (a <? 2 ^ 36) with false by lia. by rewrite andb_false_r. }
  replace (a <? 2 ^ 36) with true by lia.
  destruct (0x7fffffffd <? b) eqn:E4.
  { by replace (b <=? 0x7fffffffd) with false by lia. }
  replace (b <=? 0x7fffffffd) with true by lia. cbn [andb].
  apply try_each_ext. intros n s1 Hn%elem_of_range_incl.
  rewrite page_of_number_ok by (apply user_page_ok; unfold LAST_USER_PAGE; lia). by msimp.
Qed.

(** Without overflow checks, a range that ends where no address is. *)
Lemma user_range_beyond s a b fl inv ign z : overflow_checks = false -> 0 <= a < 2 ^ 52 -> 2 ^ 52 <= b ->
  try_map_user_range (page_no a) (page_no b) fl inv ign z s = Ret (Err (InvalidAddress (page_no b)), s).
Proof.
  intros Hov Ha Hb. unfold try_map_user_range. rewrite both_kib4_no. msimp. mcall (page_start_no a "unwrap" s Ha).
  unfold page_start at 1, start_address. cbn [size number bytes page_no]. unfold mul64, checked. rewrite Hov.
  rewrite bind_assoc. replace (_ && _) with false by lia. cbn [rbind]. rewrite bind_lift_ret. msimp. unfold page_gt, page_cmp. cbn [number page_no].
  change (number LAST_USABLE_PAGE) with 0x7fffffffe. by replace (b ?= 0x7fffffffe) with Gt by (symmetry; apply Z.compare_gt_iff; lia).
Qed.

(** Why the loop of [try_map_user_range] may give up at page [n]. *)
Definition user_gives_up (ign : bool) (n : Z) s s' (e : TryMapError) : Prop :=
  match e with
  | InvalidAddress _ => False
  | AlreadyMapped p => ign = false /\ p = page_no n /\ s' = s /\
      exists e, small_mapping (mem s) (cr3 s) (page_no n) e
  | TryOutOfMemory => short_of 4 s
  end.

(** The page is not mapped yet, unless that is ignored. *)
Definition user_fresh (ign : bool) (n : Z) s : Prop :=
  ign = false -> ref_walk (mem s) (cr3 s) (page_no n) = Ret None.

Lemma user_fresh_evolves ign n m s s' : n <> m -> page_ok (page_no n) -> page_ok (page_no m) ->
  evolves (same_page (page_no m)) s s' -> user_fresh ign n s' -> user_fresh ign n s.
Proof.
  intros Hne Hn Hm Hev Hf Hi. rewrite <- (Hf Hi), (ev_cr3 _ _ _ Hev), (ev_walk _ _ _ Hev); [done|apply Hn|].
  intros Hs%same_page_inj; [simpl in Hs; lia|done|done].
Qed.

Lemma user_body_spec s0_wp fl inv ign z n s :
  flags_ok fl -> (z = Zero -> e_writable fl || negb s0_wp = true) ->
  tables_inv s -> page_ok (page_no n) -> path_clear s (page_no n) -> cr0_wp s = s0_wp ->
  exists r s', user_body fl inv ign z (page_no n) s = Ret (r, s') /\
    match r with
    | Ok _ => user_fresh ign n s /\
        exists f, evolves (same_page (page_no n)) s s' /\ backed s s' fl z n f /\ takes 4 s s'
    | Err e => evolves (fun _ => False) s s' /\ user_gives_up ign n s s' e
    end.
Proof.
  intros Hfl Hz Hinv Hok Hcl Hwp. unfold user_body.
  assert (exists m : bool,
    (if ign then ret false else let! w := walk_page_table (page_no n) in ret (bool_decide (is_Some w))) s
      = Ret (m, s) /\
    (m = true -> ign = false /\ exists e, small_mapping (mem s) (cr3 s) (page_no n) e) /\
    (m = false -> user_fresh ign n s)) as (m & Em & Hm & Hm').
  { destruct ign; [by exists false|].
    rewrite (bind_ret _ _ _ (match ref_walk (mem s) (cr3 s) (page_no n) with Ret o => o | _ => None end) s).
    - eexists. split; [done|]. destruct (ref_walk_clear s (page_no n) Hcl) as [E|[e E]]; rewrite E.
      + split; [intros Hd%bool_decide_eq_true; by destruct Hd|]. by intros _ _.
      + rewrite bool_decide_true by eauto. split; [|done]. split; [done|by exists e].
    - rewrite walk_page_table_ref by apply Hinv.
      destruct (ref_walk_clear s (page_no n) Hcl) as [->|[e ->]]; done. }
  rewrite (bind_ret _ _ _ _ _ Em). destruct m.
  - destruct (Hm eq_refl) as [Hi He]. eexists _, _. split; [done|]. split; [by apply evolves_refl|].
    by split_and!.
  - destruct (map_body_spec s0_wp fl inv z n s Hfl Hz Hinv Hok Hcl Hwp) as (r & s' & E & Hr).
    rewrite (bind_ret _ _ _ _ _ E). destruct r as [u|u]; eexists _, _; (split; [done|]); [|done].
    split; [by apply Hm'|apply Hr].
Qed.

Lemma try_map_user_range_spec s a b fl inv ign z :
  tables_inv s -> flags_ok fl -> (z = Zero -> e_writable fl || negb (cr0_wp s) = true) ->
  0 <= a < 2 ^ 52 -> 0 <= b < 2 ^ 52 ->
  (forall n, a <= n <= b -> path_clear s (page_no n)) ->
  exists r s', try_map_user_range (page_no a) (page_no b) fl inv ign z s = Ret (r, s') /\
    match r with
    | Ok _ => user_range_ok a b = true /\ pages_backed fl z a (Z.max a (b + 1)) s s' /\
        takes (4 * Z.max 0 (b + 1 - a)) s s' /\ forall n, a <= n <= b -> user_fresh ign n s
    | Err (InvalidAddress p) => user_range_ok a b = false /\ p = page_no (refused_page a b) /\ s' = s
    | Err (AlreadyMapped p) => user_range_ok a b = true /\ ign = false /\
        exists k, a <= k <= b /\ p = page_no k /\ pages_backed fl z a k s s' /\
          exists e, small_mapping (mem s') (cr3 s') p e
    | Err TryOutOfMemory => user_range_ok a b = true /\
        exists k, a <= k <= b /\ pages_backed fl z a k s s' /\ short_of (4 * (k - a + 1)) s
    end.
Proof.
  intros Hinv Hfl Hz Ha Hb Hcl. pose proof (user_range_checks s a b fl inv ign z Ha Hb) as Hchk.
  destruct (user_range_ok a b) eqn:Eok.
  2:{ rewrite Hchk. eexists _, _. by split. }
  rewrite Hchk. unfold user_range_ok in Eok.
  assert (forall n, a <= n <= b -> page_ok (page_no n)) as Hpo
    by (intros n Hn; apply user_page_ok; lia).
  destruct (map_loop_spec fl z (fun n => user_body fl inv ign z (page_no n)) (user_gives_up ign)
              (user_fresh ign) (user_fresh_evolves ign) (cr0_wp s) (fun n s1 => user_body_spec (cr0_wp s) fl inv ign z n s1 Hfl Hz)
              s a b Hinv eq_refl (fun n Hn => conj (Hpo n Hn) (Hcl n Hn))) as (r & s' & E & Hr).
  exists r, s'. split; [done|]. destruct r as [u|e]; [tauto|].
  destruct Hr as (k & s1 & Hk & Hpb & Htk & Hev & Hg).
  assert (pages_backed fl z a k s s') as Hpb'.
  { apply (pages_backed_evolves fl z a k s s1 s'); auto; [|apply Hinv]. intros n Hn. apply Hpo. lia. }
  destruct e as [p|p|]; [done|..].
  - destruct Hg as (-> & -> & -> & He). split_and!; try done. by exists k.
  - split; [done|]. exists k. split_and!; [lia|lia|done|].
    apply (short_of_mono (4 * (k - a) + 4)); [lia|]. by apply (short_of_takes _ _ _ s1).
Qed.

(** ** Mapping the pages of a list, with a panic when memory runs out *)

Definition in_list (l : list Z) (page : Page) : Prop := exists n, n ∈ l /\ same_page (page_no n) page.

Lemma map_list_spec s l fl inv z msg :
  tables_inv s -> flags_ok fl -> (z = Zero -> e_writable fl || negb (cr0_wp s) = true) -> NoDup l ->
  (forall n, n ∈ l -> page_ok (page_no n) /\ path_clear s (page_no n)) ->
  (exists s', for_each l (fun n => let! r := map (page_no n) fl inv z in expect_ok r msg) s = Ret (tt, s') /\
     evolves (in_list l) s s' /\ (forall n, n ∈ l -> exists f, backed s s' fl z n f) /\
     takes (4 * Z.of_nat (length l)) s s') \/
  (for_each l (fun n => let! r := map (page_no n) fl inv z in expect_ok r msg) s = Stop (Panic msg) /\
   short_of (4 * Z.of_nat (length l)) s).
Proof.
  intros Hinv Hfl Hz Hnd. revert s Hinv Hz. induction Hnd as [|a l Hni Hnd IH]; intros s Hinv Hz Hpages.
  { left. exists s. split; [done|]. split_and!; [by apply evolves_refl|by intros n ?%not_elem_of_nil|by apply takes_none]. }
  destruct (Hpages a ltac:(left)) as [Hok Hcl]. cbn [for_each].
  destruct (map_body_spec (cr0_wp s) fl inv z a s Hfl Hz Hinv Hok Hcl eq_refl) as (r & s1 & E & Hr).
  rewrite bind_assoc, (bind_ret _ _ _ _ _ E). destruct r as [u|u]; msimp.
  2:{ right. split; [done|]. destruct Hr as [_ Hex]. apply (short_of_mono 4); [cbn [length]; lia|done]. }
  destruct Hr as (_ & f & Hev & Hb & Htk).
  assert (forall page, same_page (page_no a) page -> in_list (a :: l) page) as HT1
    by (intros page Hs; exists a; split; [left|done]).
  assert (forall page, in_list l page -> in_list (a :: l) page) as HT2
    by (intros page (n & Hn & Hs); exists n; split; [by right|done]).
  destruct (IH s1 (ev_inv _ _ _ Hev)) as [(s' & E' & Hev' & Hb' & Htk')|[E' Hex]].
  { by rewrite (ev_wp _ _ _ Hev). }
  { intros n Hn. destruct (Hpages n ltac:(by right)) as [Hok' Hcl']. split; [done|].
    by apply (path_clear_evolves _ _ _ _ (po_rec _ Hok') Hev). }
  2:{ right. split; [done|]. apply (short_of_mono (4 + 4 * Z.of_nat (length l))); [cbn [length]; lia|].
      by apply (short_of_takes _ _ _ s1). }
  left. exists s'. split; [done|]. split_and!.
  { eapply evolves_trans; (eapply evolves_weaken; [|done]); done. }
  2:{ apply (takes_mono (4 + 4 * Z.of_nat (length l))); [cbn [length]; lia|]. by apply (takes_trans _ _ _ s1). }
  intros n [->|Hn]%elem_of_cons.
  - exists f. apply (backed_later _ s s1 s' fl z a f Hev'); [|apply Hok| |done].
    + intros (k & Hk & Hs). apply same_page_inj in Hs; [|apply Hpages; by right|done].
      simpl in Hs. congruence.
    + by destruct (fa_free_range _ _ (ti_fa _ Hinv) (bk_was_free _ _ _ _ _ _ Hb)).
  - destruct (Hb' n Hn) as (g & [H1 H2 H3 H4 H5 H6]). exists g. split; try done.
    by apply (ev_free _ _ _ Hev).
Qed.

End ranges.
