(* ===== verification/UnmapLemmas.v ===== *)
(** Lemmas on the [Mapper] operations that work on pages that are mapped already:
    changing their flags and unmapping them. *)
From S2P Require Import Prelude Crates Machine FrameAlloc Paging Layout PageMap.
From S2P Require Import AddressSpace PagingLemmas PageMapLemmas MapperLemmas.

Section remap.
Context `{B : Build} `{X : X86_64Crate} `{F : BitflagsCrate}.
Context {P : Type} `{FA : FrameAllocator P} `{FS : !FrameAllocatorSpec P}.
Implicit Types s : machine P.

(** Descending through a table that exists. *)
Lemma create_existing s l p i f g :
  tables_inv s -> vpath (p ++ [i]) -> table_at (mem s) (cr3 s) p = Some f ->
  next_frame (mem s) f i = Some g ->
  next_table_create l (tva p) i s = Ret (Some (Ok (tva (p ++ [i]))), s).
Proof.
  intros Hinv Hp Hf Hn. pose proof (next_table_create_spec s l p i f Hinv Hp Hf) as H. simpl in H.
  apply next_frame_inv in Hn as (E1 & E2 & _). rewrite E1, E2 in H. by destruct H.
Qed.

(** The machine with the leaf entry of [page] replaced. *)
Definition leaf_written (g : Z) (page : Page) (v : Z) s : machine P :=
  set_mem (<[g + 8 * p1_index page := v]> (mem s)) s.

Lemma map_to_existing s page pa fl inv e :
  tables_inv s -> page_ok page -> small_mapping (mem s) (cr3 s) page e ->
  pa mod 4096 = 0 -> 0 <= pa < 2 ^ 48 ->
  exists g, table_at (mem s) (cr3 s) [p4_index page; p3_index page; p2_index page] = Some g /\
    map_to page pa fl inv s =
      Ret (Ok tt, flushed inv page (leaf_written g page (leaf_entry pa fl) s)).
Proof.
  intros Hinv Hpage Hm Hpa Hr. destruct (Hpage) as [Hsz Hrec _ _].
  destruct (small_mapping_inv _ _ _ _ Hm) as (f1 & f2 & f3 & E1 & E2 & E3 & _ & _).
  assert (table_at (mem s) (cr3 s) [p4_index page] = Some f1) as T1 by (cbn; by rewrite E1).
  assert (table_at (mem s) (cr3 s) [p4_index page; p3_index page] = Some f2) as T2
    by (cbn; rewrite E1; cbn; by rewrite E2).
  assert (table_at (mem s) (cr3 s) [p4_index page; p3_index page; p2_index page] = Some f3) as T3
    by (cbn; rewrite E1; cbn; rewrite E2; cbn; by rewrite E3).
  exists f3. split; [done|]. unfold map_to. rewrite P4_tva.
  mcall (create_existing s Level4 [] (p4_index page) (cr3 s) f1 Hinv (vpath_page_1 page Hrec) eq_refl E1).
  mcall (create_existing s Level3 [p4_index page] (p3_index page) f1 f2 Hinv (vpath_page_2 page Hrec) T1 E2).
  rewrite Hsz, bool_decide_true by eauto. msimp. rewrite bool_decide_true by done.
  mcall (create_existing s Level2 [p4_index page; p3_index page] (p2_index page) f2 f3 Hinv
           (vpath_page_3 page Hrec) T2 E3).
  unfold table_set. rewrite entry_set_ok by done. msimp. cbn [app].
  mcall (table_write_spec s _ f3 (p1_index page) (Z.lor pa (fl ||| PRESENT)) (ti_space _ Hinv)
           (vpath_page_3 page Hrec) T3 (p1_index_range page)).
  by rewrite flush_step.
Qed.

(** After the leaf entry is replaced by a present one. *)
Lemma leaf_written_present s page g v inv :
  tables_inv s -> page_ok page ->
  table_at (mem s) (cr3 s) [p4_index page; p3_index page; p2_index page] = Some g ->
  e_present v = true ->
  let s' := flushed inv page (leaf_written g page v s) in
  evolves (same_page page) s s' /\ small_mapping (mem s') (cr3 s') page v /\ pmm s' = pmm s.
Proof.
  intros Hinv Hpage Hg Hv s'.
  pose proof (leaf_evolves s page g v Hinv (po_rec _ Hpage) Hg) as Hev.
  assert (mem s' = <[g + 8 * p1_index page := v]> (mem s) /\ cr3 s' = cr3 s /\ pmm s' = pmm s)
    as (Em & Ec & Ep) by (unfold s', flushed; by case_decide).
  split_and!; [|unfold small_mapping; rewrite Em, Ec|done].
  - unfold s', flushed. case_decide; [by apply evolves_tlb|done].
  - apply ref_walk_leaf_same; try done; [apply Hinv|apply Hpage].
Qed.

(** ** [set_flags] *)

Definition set_flags_body (fl : Z) (inv : InvalidateTlb) (page : Page) : M (machine P) unit :=
  let! w := walk_page_table page in
  let! w := expect w "Virtual address is not mapped!" in
  let! paddr := lift (physical_address w.1) in
  let! paddr := expect paddr "unwrap" in
  let! r := map_to page paddr fl inv in
  expect_ok r "unwrap".

Lemma set_flags_body_spec s page fl inv e :
  tables_inv s -> page_ok page -> small_mapping (mem s) (cr3 s) page e -> e_addr e < 2 ^ 48 ->
  flags_ok fl ->
  exists s', set_flags_body fl inv page s = Ret (tt, s') /\
    evolves (same_page page) s s' /\ pmm s' = pmm s /\
    small_mapping (mem s') (cr3 s') page (leaf_entry (e_addr e) fl).
Proof.
  intros Hinv Hpage Hm Hr Hfl. unfold set_flags_body.
  assert (walk_page_table page s = Ret (Some (e, Kib4), s)) as Hw.
  { rewrite walk_page_table_ref by apply Hinv. by rewrite Hm. }
  mcall Hw. cbn [fst]. rewrite physical_address_spec.
  destruct (small_mapping_table _ _ _ _ Hm) as (g0 & _ & _ & Hpres). rewrite Hpres. msimp.
  destruct (e_addr_range e) as [Hal Hlo].
  destruct (map_to_existing s page (e_addr e) fl inv e Hinv Hpage Hm Hal ltac:(lia)) as (g & Hg & E).
  mcall E. eexists. split; [done|].
  destruct (leaf_entry_facts (e_addr e) fl Hal ltac:(lia) Hfl) as (_ & Hp & _).
  destruct (leaf_written_present s page g (leaf_entry (e_addr e) fl) inv Hinv Hpage Hg Hp)
    as (Hev & Hmap & Hpmm). done.
Qed.

Lemma set_flags_spec s a b fl inv (en : Z -> Z) :
  tables_inv s -> flags_ok fl ->
  (forall n, a <= n <= b -> page_ok (page_no n) /\
     small_mapping (mem s) (cr3 s) (page_no n) (en n) /\ e_addr (en n) < 2 ^ 48) ->
  exists s', set_flags (page_no a) (page_no b) fl inv s = Ret (tt, s') /\
    evolves (in_pages a (b + 1)) s s' /\ pmm s' = pmm s /\
    forall n, a <= n <= b ->
      small_mapping (mem s') (cr3 s') (page_no n) (leaf_entry (e_addr (en n)) fl).
Proof.
  intros Hinv Hfl Hpages. unfold set_flags. cbn [number page_no].
  rewrite (for_each_ext _ _ (fun n => set_flags_body fl inv (page_no n))).
  2:{ intros n s1 Hn%elem_of_range_incl. rewrite page_of_number_ok by (by apply Hpages). by msimp. }
  remember (Z.to_nat (b - a + 1)) as len eqn:El. revert a s El Hinv Hpages.
  induction len as [|len IH]; intros a s El Hinv Hpages.
  { rewrite range_incl_nil by lia. exists s. split; [done|].
    split_and!; [by apply evolves_refl|done|intros; lia]. }
  rewrite range_incl_cons by lia. cbn [for_each].
  destruct (Hpages a ltac:(lia)) as (Hok & Hm & Hr).
  destruct (set_flags_body_spec s (page_no a) fl inv (en a) Hinv Hok Hm Hr Hfl)
    as (s1 & E1 & Hev1 & Hp1 & Hm1).
  destruct (IH (a + 1) s1 ltac:(lia) (ev_inv _ _ _ Hev1)) as (s' & E & Hev & Hp & Hms).
  { intros n Hn. destruct (Hpages n ltac:(lia)) as (Hok' & Hm' & Hr'). split_and!; [done| |done].
    unfold small_mapping. rewrite (ev_cr3 _ _ _ Hev1), (ev_walk _ _ _ Hev1); [done|apply Hok'|].
    intros Hs%same_page_inj; [simpl in Hs; lia|done|done]. }
  exists s'. rewrite (bind_ret _ _ _ _ _ E1). split; [done|]. split_and!.
  - eapply evolves_trans; (eapply evolves_weaken; [|done]).
    + intros page Hs. exists a. split; [lia|done].
    + intros page Hs. by apply (in_pages_mono (a + 1) (b + 1)); try lia.
  - congruence.
  - intros n Hn. destruct (decide (n = a)) as [->|Hne]; [|apply Hms; lia].
    unfold small_mapping. rewrite (ev_cr3 _ _ _ Hev), (ev_walk _ _ _ Hev); [done|apply Hok|].
    intros (k & Hk & Hs). apply same_page_inj in Hs; [simpl in Hs; lia|apply Hpages; lia|done].
Qed.

(** ** [unmap] *)

Lemma leaf_cleared s page g :
  tables_inv s -> p4_index page <> REC ->
  table_at (mem s) (cr3 s) [p4_index page; p3_index page; p2_index page] = Some g ->
  let m' := <[g + 8 * p1_index page := 0]> (mem s) in
  ref_walk m' (cr3 s) page = Ret None.
Proof.
  intros Hinv Hr Hg m'.
  pose proof (leaf_ent _ _ (ti_space _ Hinv) _ (p1_index page) g (vpath_page_3 page Hr)
                (p1_index_range page) Hg ltac:(done) 0 (or_introl eq_refl)) as Hle.
  unfold ref_walk, huge_walk. unfold m'. rewrite !Hle by auto with wolffia.
  rewrite decide_True by done. change (e_present 0) with false. cbv iota.
  rewrite !decide_False by (intros [H _]; discriminate H).
  cbn [table_at] in Hg.
  destruct (next_frame (mem s) (cr3 s) (p4_index page)) as [f1|] eqn:E1; [|done]. cbn in Hg.
  destruct (next_frame (mem s) f1 (p3_index page)) as [f2|] eqn:E2; [|done]. cbn in Hg.
  destruct (next_frame (mem s) f2 (p2_index page)) as [f3|] eqn:E3; [|done].
  unfold ent. cbn [table_at]. rewrite E1. cbn. rewrite E2. cbn.
  apply next_frame_inv in E2 as (_ & -> & _), E3 as (_ & -> & _). by rewrite !andb_false_r.
Qed.

(** The frame that backs [page] goes back to the allocator if asked for. *)
Record unmapped (free : FreeMemory) (page : Page) (e : Z) s s' : Prop := {
  um_inv : tables_inv s';
  um_gone : ref_walk (mem s') (cr3 s') page = Ret None;
  um_others page' : p4_index page' <> REC -> ~ same_page page page' ->
    ref_walk (mem s') (cr3 s') page' = ref_walk (mem s) (cr3 s) page';
  um_tables x : is_table s' x <-> is_table s x;
  um_free x : fa_free (pmm s') x <-> fa_free (pmm s) x \/ (free = Free /\ x = e_addr e);
  um_live g k : fa_live (pmm s') g k <->
    fa_live (pmm s) g k /\ ~ (free = Free /\ g = e_addr e /\ k = 0);
  um_clear page' : p4_index page' <> REC -> path_clear s page' -> path_clear s' page';
  um_mem a : ~ is_table s (frame_of a) -> word (mem s') a = word (mem s) a;
  um_cr3 : cr3 s' = cr3 s;
  um_cr3_flags : cr3_flags s' = cr3_flags s;
  um_wp : cr0_wp s' = cr0_wp s;
  um_paths q f : vpath q -> table_at (mem s) (cr3 s) q = Some f ->
    table_at (mem s') (cr3 s') q = Some f
}.

Lemma unmapped_flushed free page e inv s s' :
  unmapped free page e s s' -> unmapped free page e s (flushed inv page s').
Proof.
  intros H. unfold flushed. case_decide; [|done]. destruct H as [[]]. split; try done.
  intros page' Hr Hc. destruct (um_clear0 page' Hr Hc). by split.
Qed.

Lemma flush_end inv page s : page_ok page ->
  (if decide (inv = Invalidate) then
     let! a := page_start page "unwrap" in
     let! a := lift (VirtAddr_new a) in tlb_flush a
   else ret tt) s = Ret (tt, flushed inv page s).
Proof.
  intros Hp. unfold flushed. case_decide; [|done].
  mcall (page_start_ok page "unwrap" s Hp). by rewrite VirtAddr_new_canonical by apply Hp.
Qed.

Lemma unmap_spec s page free inv e :
  tables_inv s -> page_ok page -> small_mapping (mem s) (cr3 s) page e ->
  (free = Free -> fa_live (pmm s) (e_addr e) 0 /\ ~ is_table s (e_addr e)) ->
  exists s', unmap page free inv s = Ret (tt, s') /\ unmapped free page e s s' /\
    tlb s' = tlb (flushed inv page s).
Proof.
  intros Hinv Hpage Hm Hfree. destruct (Hpage) as [Hsz Hr Hrange Hcan].
  destruct (small_mapping_inv _ _ _ _ Hm) as (f1 & f2 & f3 & E1 & E2 & E3 & E4 & E5).
  assert (table_at (mem s) (cr3 s) [p4_index page; p3_index page; p2_index page] = Some f3) as T3
    by (cbn; rewrite E1; cbn; rewrite E2; cbn; by rewrite E3).
  pose proof (so_rec _ _ (ti_space _ Hinv)) as Hrec.
  unfold unmap, start_address. rewrite Hsz. cbn [bytes]. change (4 * 1024) with 4096.
  rewrite mul64_small by done. cbn [rbind]. msimp.
  assert (walk_page_table page s = Ret (Some (e, Kib4), s)) as Hw.
  { rewrite walk_page_table_ref by done. by rewrite Hm. }
  mcall Hw.
  pose proof (step_p3 s Hrec page) as S3. rewrite E1 in S3. mcall S3.
  destruct (step_p2 s Hrec page f1 E1) as [S2 _]. rewrite E2 in S2. cbn [fmap option_fmap option_map] in *.
  msimp. mcall S2. msimp.
  destruct (step_p1 s Hrec page f1 f2 E1 E2) as [S1 _]. rewrite E3 in S1.
  cbn [fmap option_fmap option_map] in *. mcall S1.
  mcall (step_leaf s Hrec page f1 f2 f3 E1 E2 E3). rewrite E4.
  rewrite physical_address_spec, E5. msimp.
  mcall (table_write_spec s _ f3 (p1_index page) 0 (ti_space _ Hinv) (vpath_page_3 page Hr) T3
           (p1_index_range page)).
  set (s1 := set_mem _ s).
  pose proof (leaf_evolves s page f3 0 Hinv Hr T3) as Hev. fold s1 in Hev.
  pose proof (leaf_cleared s page f3 Hinv Hr T3) as Hgone. simpl in Hgone.
  assert (forall x, is_table s1 x <-> is_table s x) as Hit.
  { intros x. unfold is_table. split; intros (q & Hq & Hx); exists q; (split; [done|]).
    - simpl in Hx. by rewrite (leaf_table_at _ _ (ti_space _ Hinv) _ _ f3 (vpath_page_3 page Hr)
        (p1_index_range page) T3 ltac:(done) 0 (or_introl eq_refl)) in Hx.
    - simpl. by rewrite (leaf_table_at _ _ (ti_space _ Hinv) _ _ f3 (vpath_page_3 page Hr)
        (p1_index_range page) T3 ltac:(done) 0 (or_introl eq_refl)). }
  assert (forall a, ~ is_table s (frame_of a) -> word (mem s1) a = word (mem s) a) as Hmem.
  { intros a Ha. simpl. rewrite word_insert. apply decide_False. intros <-. apply Ha.
    rewrite frame_of_entry; [|by apply (table_at_range _ _ Hrec _ _ T3)|apply p1_index_range].
    eexists. split; [by apply vpath_page_3|done]. }
  destruct (decide (free = Free)) as [->|Hnf].
  - destruct (Hfree eq_refl) as [Hlive Hnt].
    destruct (fa_deallocate_live (pmm s) (e_addr e) 0 (ti_fa _ Hinv) Hlive)
      as (p' & Ed & Hp' & Hf' & Hl').
    assert (deallocate_frame (e_addr e) 0 s1 = Ret (tt, set_pmm p' s1)) as Hd.
    { unfold deallocate_frame. simpl. by rewrite Ed. }
    mcall Hd. rewrite flush_end by done. eexists. split; [done|].
    split; [|unfold flushed; by case_decide].
    assert (tables_inv (set_pmm p' s1)) as Hinv'.
    { split; simpl; [apply Hev|done|]. intros x Hx. apply Hit in Hx.
      rewrite Hf', in_block_0. intros [Hc| ->]; [by apply (ti_free _ Hinv x)|done]. }
    apply unmapped_flushed. split; simpl; try done.
    + intros page' Hr' Hne. apply (ev_walk _ _ _ Hev); done.
    + intros x. rewrite Hf', in_block_0. naive_solver.
    + intros g k. rewrite Hl'. naive_solver.
    + intros page' Hr' Hc'. apply path_clear_pmm. by apply (path_clear_evolves _ _ _ _ Hr' Hev).
    + apply (ev_tables _ _ _ Hev).
  - msimp. rewrite flush_end by done. eexists. split; [done|].
    split; [|unfold flushed; by case_decide].
    apply unmapped_flushed. split; simpl; try done.
    + apply Hev.
    + intros page' Hr' Hne. apply (ev_walk _ _ _ Hev); done.
    + naive_solver.
    + naive_solver.
    + intros page' Hr' Hc'. by apply (path_clear_evolves _ _ _ _ Hr' Hev).
    + apply (ev_tables _ _ _ Hev).
Qed.

(** ** [unmap_range] *)

Lemma unmap_range_spec s a b free inv (en : Z -> Z) :
  tables_inv s ->
  (forall n, a <= n <= b -> page_ok (page_no n) /\ small_mapping (mem s) (cr3 s) (page_no n) (en n) /\
     (free = Free -> fa_live (pmm s) (e_addr (en n)) 0 /\ ~ is_table s (e_addr (en n)))) ->
  (free = Free -> forall n m, a <= n <= b -> a <= m <= b -> e_addr (en n) = e_addr (en m) -> n = m) ->
  exists s', unmap_range (page_no a) (page_no b) free inv s = Ret (tt, s') /\ tables_inv s' /\
    (forall n, a <= n <= b -> ref_walk (mem s') (cr3 s') (page_no n) = Ret None) /\
    (forall page, p4_index page <> REC -> ~ in_pages a (b + 1) page ->
       ref_walk (mem s') (cr3 s') page = ref_walk (mem s) (cr3 s) page) /\
    (forall x, is_table s' x <-> is_table s x) /\
    (forall x, fa_free (pmm s') x <->
       fa_free (pmm s) x \/ (free = Free /\ exists n, a <= n <= b /\ x = e_addr (en n))) /\
    (forall x, ~ is_table s (frame_of x) -> word (mem s') x = word (mem s) x) /\
    cr3 s' = cr3 s.
Proof.
  unfold unmap_range. cbn [number size page_no].
  remember (Z.to_nat (b - a + 1)) as len eqn:El. revert a s El.
  induction len as [|len IH]; intros a s El Hinv Hpages Hinj.
  { rewrite range_incl_nil by lia. exists s. split; [done|].
    split_and!; try done; [intros; lia|]. intros x. split; [auto|].
    intros [H|(_ & n & Hn & _)]; [done|lia]. }
  rewrite range_incl_cons by lia. cbn [for_each].
  destruct (Hpages a ltac:(lia)) as (Hok & Hm & Hfr).
  destruct (unmap_spec s (page_no a) free inv (en a) Hinv Hok Hm Hfr) as (s1 & E1 & Hum & _).
  destruct (Hum) as [Hinv1 Hgone Hoth Htab Hfree Hlive _ Hmem Hcr3 _ _ _].
  assert (forall n, a + 1 <= n <= b -> ~ same_page (page_no a) (page_no n)) as Hdiff.
  { intros n Hn Hs%same_page_inj; [simpl in Hs; lia|done|apply Hpages; lia]. }
  destruct (IH (a + 1) s1 ltac:(lia) Hinv1) as (s' & E & Hinv' & Hg & Ho & Ht & Hf & Hw & Hc).
  { intros n Hn. destruct (Hpages n ltac:(lia)) as (Hok' & Hm' & Hfr'). split_and!; [done|..].
    - unfold small_mapping. rewrite Hoth; [done|apply Hok'|by apply Hdiff].
    - intros ->. destruct (Hfr' eq_refl) as [Hl Ht]. split; [|by rewrite Htab].
      apply Hlive. split; [done|]. intros (_ & Heq & _).
      assert (n = a) by (apply Hinj; (done || lia)). lia. }
  { intros Hfe n m Hn Hm'. apply Hinj; (done || lia). }
  exists s'. rewrite (bind_ret _ _ _ _ _ E1). split; [done|]. split_and!; [done|..].
  - intros n Hn. destruct (decide (n = a)) as [->|Hne]; [|apply Hg; lia].
    rewrite Ho; [done|apply Hok|]. intros (k & Hk & Hs).
    apply (Hdiff k ltac:(lia)). unfold same_page in *. naive_solver.
  - intros page Hr Hn. rewrite Ho, Hoth; try done.
    + intros Hs. apply Hn. exists a. split; [lia|done].
    + intros Hin. apply Hn. by apply (in_pages_mono (a + 1) (b + 1)); try lia.
  - intros x. by rewrite Ht.
  - intros x. rewrite Hf, Hfree. split.
    + intros [[H|[-> ->]]|(-> & n & Hn & ->)]; [auto|..]; right; split; try done.
      * exists a. split; [lia|done].
      * exists n. split; [lia|done].
    + intros [H|(-> & n & Hn & ->)]; [auto|].
      destruct (decide (n = a)) as [->|Hne]; [auto|]. right. split; [done|]. exists n. split; [lia|done].
  - intros x Hx. rewrite Hw; [by apply Hmem|]. by rewrite Htab.
  - congruence.
Qed.

(** ** Mapping pages to given frames *)

(** The pages [a] to [k - 1] lead to the frames [pa n]. *)
Definition pages_to (fl : Z) (pa : Z -> Z) (a k : Z) s s' : Prop :=
  evolves (in_pages a k) s s' /\
  forall n, a <= n < k -> small_mapping (mem s') (cr3 s') (page_no n) (leaf_entry (pa n) fl).

Lemma map_to_loop s a b fl inv (pa : Z -> Z) :
  tables_inv s -> flags_ok fl ->
  (forall n, a <= n <= b -> page_ok (page_no n) /\ path_clear s (page_no n) /\
     pa n mod 4096 = 0 /\ 0 <= pa n < 2 ^ 48) ->
  exists r s', try_each (range_incl a b) (fun n => map_to (page_no n) (pa n) fl inv) s = Ret (r, s') /\
    match r with
    | Ok _ => pages_to fl pa a (Z.max a (b + 1)) s s'
    | Err _ => exists k, a <= k <= b /\ pages_to fl pa a k s s' /\ short_of (3 * (k - a + 1)) s
    end.
Proof.
  intros Hinv Hfl. remember (Z.to_nat (b - a + 1)) as len eqn:El. revert a s El Hinv.
  induction len as [|len IH]; intros a s El Hinv Hpages.
  { rewrite range_incl_nil by lia. eexists (Ok tt), s. split; [done|].
    split; [by apply evolves_refl|intros; lia]. }
  rewrite range_incl_cons by lia. cbn [try_each].
  destruct (Hpages a ltac:(lia)) as (Hok & Hcl & Hal & Hr).
  destruct (map_to_spec s (page_no a) (pa a) fl inv Hinv Hok Hcl Hal Hr Hfl) as (r & s1 & E1 & Hr1).
  rewrite (bind_ret _ _ _ _ _ E1). destruct r as [u|e].
  2:{ destruct Hr1 as (Hev & Hex & _). exists (Err e), s1. split; [done|]. exists a.
      split_and!; [lia|lia|..].
      - split; [by eapply evolves_weaken; [|done]|intros; lia].
      - by apply (short_of_mono 3); [lia|]. }
  destruct Hr1 as (Hev & Hm & _ & Htk).
  destruct (IH (a + 1) s1 ltac:(lia) (ev_inv _ _ _ Hev)) as (r & s' & E & Hres).
  { intros n Hn. destruct (Hpages n ltac:(lia)) as (Hok' & Hcl' & ?). split_and!; try tauto.
    apply (path_clear_evolves _ _ _ _ (po_rec _ Hok') Hev Hcl'). }
  assert (forall k, k <= b + 1 -> a < k -> pages_to fl pa (a + 1) k s1 s' -> pages_to fl pa a k s s') as Hcons.
  { intros k Hk Hak [Hev' Hms]. split.
    - eapply evolves_trans; (eapply evolves_weaken; [|done]).
      + intros page Hs. exists a. split; [lia|done].
      + intros page Hs. by apply (in_pages_mono (a + 1) k); try lia.
    - intros n Hn. destruct (decide (n = a)) as [->|Hne]; [|apply Hms; lia].
      unfold small_mapping. rewrite (ev_cr3 _ _ _ Hev'), (ev_walk _ _ _ Hev'); [done|apply Hok|].
      intros (i & Hi & Hs). apply same_page_inj in Hs; [simpl in Hs; lia|apply Hpages; lia|done]. }
  exists r, s'. split; [done|]. destruct r as [u'|e].
  - replace (Z.max a (b + 1)) with (b + 1) by lia. replace (Z.max (a + 1) (b + 1)) with (b + 1) in Hres by lia.
    apply Hcons; [lia|lia|done].
  - destruct Hres as (k & Hk & Hto & Hex). exists k. split_and!; [lia|lia|apply Hcons; [lia|lia|done]|].
    apply (short_of_mono (3 + 3 * (k - (a + 1) + 1))); [lia|]. by apply (short_of_takes _ _ _ s1).
Qed.

(** The loops that panic when memory runs out. *)
Lemma for_each_expect {A E} (l : list A) (f : A -> M (machine P) (result unit E)) msg s :
  for_each l (fun x => let! r := f x in expect_ok r msg) s =
    match try_each l f s with
    | Ret (Ok _, s') => Ret (tt, s')
    | Ret (Err _, _) => Stop (Panic msg)
    | Stop w => Stop w
    end.
Proof.
  revert s. induction l as [|x l IH]; intros s; [done|]. cbn [for_each try_each].
  rewrite bind_assoc. unfold bind. destruct (f x s) as [[[u|e] s1]|w]; try done.
  cbn. destruct u. apply IH.
Qed.

End remap.
