(* ===== verification/BootstrapHeap.v ===== *)
(** [kernel/src/memory/bootstrap_heap.rs]: the bitmap allocator with eight slots
    that holds the trees of the physical allocator until the kernel heap exists.
    [BootstrapAllocator] is the allocator of objects of [sz] bytes behind the
    [Once] of [BootstrapHeap]. *)
From S2P Require Import Prelude Crates.

Record BootstrapAllocator := mkBootstrap {
  start_addr : Z;
  bitmap : Z          (** the [u8] behind the mutex *)
}.

(** [BootstrapHeapBox]: the pointer; the allocator it belongs to is the one above. *)
Record BootstrapHeapBox := mkBox { box_ptr : Z }.

Section bootstrap.
Context `{F : BitFieldCrate} (sz : Z).

Definition space_taken : Z := sz * 8.

Definition start (a : BootstrapAllocator) : Z := start_addr a.

Definition new_unchecked (start : Z) : BootstrapAllocator := mkBootstrap start 0.

(** Set a slot to used or not. *)
Definition set_used (index : Z) (used : bool) (a : BootstrapAllocator) : BootstrapAllocator :=
  let bit := index mod 8 in
  mkBootstrap (start_addr a) (set_bit (bitmap a) bit used).

(** The loop [for bit in 0..8] of [allocate]. *)
Fixpoint allocate_from (bits : list Z) (a : BootstrapAllocator)
  : option BootstrapHeapBox * BootstrapAllocator :=
  match bits with
  | [] => (None, a)
  | bit :: bits =>
      let byte := bitmap a in
      if negb (get_bit byte bit) then
        (Some (mkBox (start a + bit * sz)), mkBootstrap (start_addr a) (set_bit byte bit true))
      else allocate_from bits a
  end.

Definition bootstrap_allocate (a : BootstrapAllocator)
  : option BootstrapHeapBox * BootstrapAllocator := allocate_from (range_excl 0 8) a.

Definition bootstrap_deallocate (obj : BootstrapHeapBox) (a : BootstrapAllocator)
  : BootstrapAllocator :=
  let addr_in_heap := box_ptr obj - start_addr a in
  let index := addr_in_heap / sz in
  set_used index false a.

(** [Drop for BootstrapHeapBox]. *)
Definition drop_box (obj : BootstrapHeapBox) (a : BootstrapAllocator) : BootstrapAllocator :=
  bootstrap_deallocate obj a.

(** ** The [Once] around the allocator *)

Definition heap_allocate (h : option BootstrapAllocator)
  : res (option BootstrapHeapBox * option BootstrapAllocator) :=
  match h with
  | None => Stop (Panic "unwrap")
  | Some a => let (b, a) := bootstrap_allocate a in Ret (b, Some a)
  end.

(** [call_once]: an initialised heap is left alone. *)
Definition init_unchecked (address : Z) (h : option BootstrapAllocator)
  : option BootstrapAllocator :=
  match h with
  | None => Some (new_unchecked address)
  | Some a => Some a
  end.

Definition heap_start (h : option BootstrapAllocator) : res Z :=
  match h with
  | None => Stop (Panic "unwrap")
  | Some a => Ret (start a)
  end.

Definition heap_end `{Build} (h : option BootstrapAllocator) : res Z :=
  let? s := heap_start h in add64 s space_taken.

(** * Slots in use *)

(** The specification: which of the eight slots are handed out. *)
Definition slot_used (a : BootstrapAllocator) (i : Z) : bool := Z.testbit (bitmap a) i.
Definition slot_ptr (a : BootstrapAllocator) (i : Z) : Z := start_addr a + i * sz.

Definition slot (i : Z) : Prop := 0 <= i < 8.

Lemma allocate_from_spec l a : Forall slot l ->
  match allocate_from l a with
  | (Some b, a') => exists i, i ∈ l /\ slot_used a i = false /\ b = mkBox (slot_ptr a i) /\
      start_addr a' = start_addr a /\ bitmap a' = Z.setbit (bitmap a) i
  | (None, a') => a' = a /\ forall i, i ∈ l -> slot_used a i = true
  end.
Proof.
  induction 1 as [|i l Hi Hl IH]; simpl.
  { split; [done|]. by intros i ?%not_elem_of_nil. }
  rewrite get_bit_spec by done. fold (slot_used a i).
  destruct (slot_used a i) eqn:E; cbn [negb].
  - destruct (allocate_from l a) as [[b|] a']; [destruct IH as (j & ? & ?)|destruct IH as [-> IH]].
    + exists j. split; [by right|done].
    + split; [done|]. intros j [->|Hj]%elem_of_cons; [done|by apply IH].
  - exists i. rewrite set_bit_spec by done. split_and!; [set_solver|done..].
Qed.

Lemma slots_range : Forall slot (range_excl 0 8).
Proof. apply list.Forall_forall. intros i Hi%elem_of_range_excl. done. Qed.

Lemma bootstrap_allocate_spec a :
  match bootstrap_allocate a with
  | (Some b, a') => exists i, slot i /\ slot_used a i = false /\ b = mkBox (slot_ptr a i) /\
      start_addr a' = start_addr a /\ bitmap a' = Z.setbit (bitmap a) i
  | (None, a') => a' = a /\ forall i, slot i -> slot_used a i = true
  end.
Proof.
  pose proof (allocate_from_spec (range_excl 0 8) a slots_range) as H.
  unfold bootstrap_allocate. destruct (allocate_from _ a) as [[b|] a'].
  - destruct H as (i & Hi%elem_of_range_excl & H). eauto.
  - destruct H as [-> H]. split; [done|]. intros i Hi. by apply H, elem_of_range_excl.
Qed.

Lemma drop_box_spec a i : 0 < sz -> slot i ->
  drop_box (mkBox (slot_ptr a i)) a = mkBootstrap (start_addr a) (Z.clearbit (bitmap a) i).
Proof.
  unfold slot. intros Hsz Hi. unfold drop_box, bootstrap_deallocate, set_used, slot_ptr. simpl.
  replace (start_addr a + i * sz - start_addr a) with (i * sz) by lia.
  rewrite Z.div_mul, Z.mod_small by lia. by rewrite set_bit_spec.
Qed.

(** ** Clients of the heap *)

(** A history of calls: [allocate] hands out a box, dropping a box that was handed
    out takes it back. *)
Inductive heap_step : BootstrapAllocator * list BootstrapHeapBox ->
                      BootstrapAllocator * list BootstrapHeapBox -> Prop :=
| step_allocate a live b a' :
    bootstrap_allocate a = (Some b, a') -> heap_step (a, live) (a', b :: live)
| step_exhausted a live a' :
    bootstrap_allocate a = (None, a') -> heap_step (a, live) (a', live)
| step_drop a live1 b live2 :
    heap_step (a, live1 ++ b :: live2) (drop_box b a, live1 ++ live2).

(** The boxes handed out are exactly the slots marked used. *)
Definition heap_inv (addr : Z) (st : BootstrapAllocator * list BootstrapHeapBox) : Prop :=
  start_addr st.1 = addr /\
  exists slots, st.2 = (fun i => mkBox (addr + i * sz)) <$> slots /\ NoDup slots /\
    Forall slot slots /\ forall i, slot i -> slot_used st.1 i = true <-> i ∈ slots.

Lemma heap_inv_step addr st st' :
  0 < sz -> heap_inv addr st -> heap_step st st' -> heap_inv addr st'.
Proof.
  intros Hsz (Ha & slots & Hl & Hnd & Hs & Hu) Hstep. destruct Hstep as [a live b a' E|a live a' E|a l1 b l2].
  - pose proof (bootstrap_allocate_spec a) as Hsp. rewrite E in Hsp.
    destruct Hsp as (i & Hi & Hfree & -> & Hst & Hbm). simpl in *. split; [simpl; congruence|].
    assert (i ∉ slots) as Hni by (intros Hin; apply (Hu i Hi) in Hin; congruence).
    exists (i :: slots). split_and!.
    + simpl. unfold slot_ptr. by rewrite Hl, Ha.
    + by constructor.
    + by constructor.
    + intros j Hj. unfold slot_used in *. simpl. rewrite Hbm, elem_of_cons, Z.setbit_eqb by (unfold slot in *; lia).
      rewrite orb_true_iff, Z.eqb_eq, Hu by done. intuition congruence.
  - pose proof (bootstrap_allocate_spec a) as Hsp. rewrite E in Hsp. destruct Hsp as [-> _].
    split; [done|]. by exists slots.
  - simpl in *. split; [done|]. subst addr.
    symmetry in Hl. apply fmap_app_inv in Hl as (s1 & s2' & -> & Hl2 & ->).
    symmetry in Hl2. apply fmap_cons_inv in Hl2 as (i & s2 & -> & -> & ->).
    apply list.NoDup_app in Hnd as (Hn1 & Hn12 & Hn2). apply list.NoDup_cons in Hn2 as [Hi2 Hn2].
    apply Forall_app in Hs as [Hs1 Hs2]. apply list.Forall_cons in Hs2 as [Hi Hs2].
    exists (s1 ++ s2). split_and!.
    + by rewrite fmap_app.
    + apply list.NoDup_app. split_and!; [done| |done]. intros x Hx Hx2. apply (Hn12 x Hx). by right.
    + by apply Forall_app.
    + intros j Hj. fold (slot_ptr a i). rewrite drop_box_spec by done. unfold slot_used in *. simpl.
      rewrite Z.clearbit_eqb, andb_true_iff, Hu by done.
      rewrite negb_true_iff, Z.eqb_neq, !elem_of_app, elem_of_cons.
      split; [intuition congruence|]. intros Hin. split; [tauto|]. intros ->.
      destruct Hin as [Hin|Hin]; [|done]. apply (Hn12 j Hin). by left.
Qed.

Lemma heap_inv_reachable addr st :
  0 < sz -> rtc heap_step (new_unchecked addr, []) st -> heap_inv addr st.
Proof.
  intros Hsz Hr.
  assert (heap_inv addr (new_unchecked addr, [])) as H0.
  { split; [done|]. exists []. split_and!; [done|constructor|done|].
    intros i _. unfold slot_used. simpl. rewrite Z.bits_0. set_solver. }
  revert H0. generalize (new_unchecked addr, @nil BootstrapHeapBox) as st0, Hr.
  clear Hr. intros st0 Hr. induction Hr; eauto using heap_inv_step.
Qed.

End bootstrap.
