(* ===== verification/Friendly.v ===== *)
(** The buddy allocator of the [friendly] crate, which is not part of the
    repository: its operations are parameters, and the laws state what a buddy
    tree promises. A tree of [levels] levels and base order [base] manages
    [2^(levels-1)] base blocks of [2^base] bytes, addressed by byte offset; a block
    of order [k] has [2^k] base blocks. The instance at the end is a first-fit
    free list, used by the concrete examples. *)
From S2P Require Import Prelude.

(** The base blocks of the block of order [k] at offset [f]. *)
Definition block_of (base f k x : Z) : Prop :=
  exists i, 0 <= i < 2 ^ k /\ x = f + 2 ^ base * i.

Definition tree_bytes (levels base : Z) : Z := 2 ^ (levels - 1 + base).

(** [Range<usize>] values are pairs [start, end). *)
Definition range_has (r : Z * Z) (x : Z) : Prop := r.1 <= x < r.2.

Class FriendlyTree (levels base : Z) := {
  tree : Type;
  tree_new : list (Z * Z) -> tree;
  tree_allocate : Z -> tree -> option Z * tree;
  tree_deallocate : Z -> Z -> tree -> res tree;
  (** [tree.block(index).order_free] *)
  tree_order_free : Z -> tree -> Z;
  (** [Tree::max_order()], [Tree::total_blocks()] *)
  max_order : Z;
  total_blocks : Z;
  max_order_spec : max_order = levels - 1;
  total_blocks_spec : total_blocks = 2 ^ levels - 1;

  tree_inv : tree -> Prop;
  tree_free : tree -> Z -> Prop;
  tree_live : tree -> Z -> Z -> Prop;
  tree_free_range t x : tree_inv t -> tree_free t x ->
    x mod 2 ^ base = 0 /\ 0 <= x < tree_bytes levels base;
  (** A new tree offers the base blocks that lie in a usable range. *)
  tree_new_inv us : tree_inv (tree_new us);
  tree_new_free us x : tree_free (tree_new us) x <->
    x mod 2 ^ base = 0 /\ 0 <= x < tree_bytes levels base /\
    exists r, r ∈ us /\ range_has r x /\ range_has r (x + 2 ^ base - 1);
  tree_new_live us f k : ~ tree_live (tree_new us) f k;
  (** Allocation gives an aligned free block and fails only if there is none. *)
  tree_allocate_inv t k : tree_inv t -> 0 <= k <= levels - 1 -> tree_inv (tree_allocate k t).2;
  tree_allocate_some t k f t' : tree_inv t -> 0 <= k <= levels - 1 ->
    tree_allocate k t = (Some f, t') ->
    f mod 2 ^ (k + base) = 0 /\
    (forall x, block_of base f k x -> tree_free t x) /\
    (forall x, tree_free t' x <-> tree_free t x /\ ~ block_of base f k x) /\
    (forall g j, tree_live t' g j <-> (g = f /\ j = k) \/ tree_live t g j);
  tree_allocate_none t k t' : tree_inv t -> 0 <= k <= levels - 1 ->
    tree_allocate k t = (None, t') ->
    (forall x, tree_free t' x <-> tree_free t x) /\
    (forall g j, tree_live t' g j <-> tree_live t g j) /\
    (forall f, f mod 2 ^ (k + base) = 0 -> ~ (forall x, block_of base f k x -> tree_free t x));
  tree_live_not_free t f k x :
    tree_inv t -> tree_live t f k -> block_of base f k x -> ~ tree_free t x;
  (** A block that was handed out lies in the tree. *)
  tree_live_range t f k : tree_inv t -> tree_live t f k ->
    0 <= k <= levels - 1 /\ f mod 2 ^ (k + base) = 0 /\ 0 <= f < tree_bytes levels base;
  tree_deallocate_live t f k : tree_inv t -> tree_live t f k ->
    exists t', tree_deallocate f k t = Ret t' /\ tree_inv t' /\
      (forall x, tree_free t' x <-> tree_free t x \/ block_of base f k x) /\
      (forall g j, tree_live t' g j <-> tree_live t g j /\ ~ (g = f /\ j = k));
  (** The node [j] of level [l] is marked wholly free exactly when its block is. *)
  tree_order_free_spec t l j : tree_inv t -> 0 <= l <= levels - 1 -> 0 <= j < 2 ^ l ->
    tree_order_free (2 ^ l - 1 + j) t = levels - l <->
    (forall x, block_of base (j * 2 ^ (levels - 1 - l + base)) (levels - 1 - l) x -> tree_free t x)
}.

(** [friendly::blocks_in_tree] *)
Class FriendlyCrate := {
  blocks_in_tree : Z -> Z;
  blocks_in_tree_spec n : 0 <= n -> blocks_in_tree n = 2 ^ n - 1
}.
