(* ===== verification/FriendlyExample.v ===== *)
(** An executable tree that satisfies the laws of [Friendly.v]: a set of free base
    blocks and a list of the blocks handed out, searched first fit from block 0. It stands in
    for the buddy tree in the concrete examples only. *)
From S2P Require Import Prelude Friendly.

Record ex_tree := mkExTree { ex_free : gset Z; ex_live : list (Z * Z) }.

Section example.
Context (levels base : Z) (Hlevels : 1 <= levels) (Hbase : 0 <= base).

Definition ex_blocks (f k : Z) : list Z := (fun i => f + 2 ^ base * i) <$> range_excl 0 (2 ^ k).

(** The base blocks that lie in [r] and in the tree. *)
Definition ex_range (r : Z * Z) : list Z :=
  let lo := Z.max 0 r.1 in
  let hi := Z.min (tree_bytes levels base) r.2 in
  (fun i => 2 ^ base * i) <$> range_excl ((lo + 2 ^ base - 1) / 2 ^ base) (hi / 2 ^ base).

Definition ex_new (us : list (Z * Z)) : ex_tree :=
  mkExTree (list_to_set (us ≫= ex_range)) [].

Definition ex_fits (k : Z) (t : ex_tree) (f : Z) : bool :=
  (f mod 2 ^ (k + base) =? 0) && forallb (fun x => bool_decide (x ∈ ex_free t)) (ex_blocks f k).

Definition ex_allocate (k : Z) (t : ex_tree) : option Z * ex_tree :=
  match List.find (ex_fits k t) (0 :: elements (ex_free t)) with
  | Some f => (Some f, mkExTree (ex_free t ∖ list_to_set (ex_blocks f k)) ((f, k) :: ex_live t))
  | None => (None, t)
  end.

Definition ex_deallocate (f k : Z) (t : ex_tree) : res ex_tree :=
  if bool_decide ((f, k) ∈ ex_live t) then
    Ret (mkExTree (ex_free t ∪ list_to_set (ex_blocks f k))
                  (filter (fun b => b <> (f, k)) (ex_live t)))
  else Stop (Panic "block is free").

Definition ex_order_free (i : Z) (t : ex_tree) : Z :=
  let l := Z.log2 (i + 1) in
  let j := i + 1 - 2 ^ l in
  if forallb (fun x => bool_decide (x ∈ ex_free t))
       (ex_blocks (j * 2 ^ (levels - 1 - l + base)) (levels - 1 - l))
  then levels - l else 0.

Record ex_inv (t : ex_tree) : Prop := {
  ei_free x : x ∈ ex_free t -> x mod 2 ^ base = 0 /\ 0 <= x < tree_bytes levels base;
  ei_live f k : (f, k) ∈ ex_live t ->
    0 <= k <= levels - 1 /\ f mod 2 ^ (k + base) = 0 /\ 0 <= f < tree_bytes levels base;
  ei_taken f k x : (f, k) ∈ ex_live t -> x ∈ ex_blocks f k -> x ∉ ex_free t;
  ei_disjoint f k g j x : (f, k) ∈ ex_live t -> (g, j) ∈ ex_live t -> (f, k) <> (g, j) ->
    x ∈ ex_blocks f k -> x ∉ ex_blocks g j
}.

Lemma elem_of_ex_blocks f k x : x ∈ ex_blocks f k <-> block_of base f k x.
Proof.
  unfold ex_blocks, block_of. rewrite list_elem_of_fmap. setoid_rewrite elem_of_range_excl.
  naive_solver.
Qed.

Lemma base_pos : 0 < 2 ^ base.
Proof. by apply Z.pow_pos_nonneg. Qed.

Lemma elem_of_ex_range r x : x ∈ ex_range r <->
  x mod 2 ^ base = 0 /\ 0 <= x < tree_bytes levels base /\
  range_has r x /\ range_has r (x + 2 ^ base - 1).
Proof.
  unfold ex_range, range_has. rewrite list_elem_of_fmap. setoid_rewrite elem_of_range_excl.
  pose proof base_pos as Hb.
  assert (tree_bytes levels base = 2 ^ (levels - 1) * 2 ^ base) as Ht
    by (unfold tree_bytes; rewrite Z.pow_add_r by lia; lia).
  set (T := tree_bytes levels base) in *. set (b := 2 ^ base) in *. set (n := 2 ^ (levels - 1)) in *.
  clearbody T b n. clear - Hb Ht. split.
  - intros (i & -> & Hi). rewrite Z.mul_comm, Z_mod_mult. split; [done|].
    destruct Hi as [Hlo Hhi].
    assert (Z.max 0 r.1 <= i * b) as Hmax.
    { pose proof (Z.mod_pos_bound (Z.max 0 r.1 + b - 1) b Hb).
      pose proof (Z.div_mod (Z.max 0 r.1 + b - 1) b ltac:(lia)). nia. }
    assert ((i + 1) * b <= Z.min T r.2) as Hmin.
    { pose proof (Z.mod_pos_bound (Z.min T r.2) b Hb).
      pose proof (Z.div_mod (Z.min T r.2) b ltac:(lia)). nia. }
    lia.
  - intros (Hm & Hx & H1 & H2). exists (x / b).
    assert (x = b * (x / b)) as E by (apply Z.div_exact; lia).
    split; [done|]. set (i := x / b) in *. clearbody i. subst x.
    assert (i < n) by nia. assert (b * i + b <= T) by nia.
    split; [apply Z.lt_succ_r, Z.div_lt_upper_bound; nia|].
    assert (i + 1 <= Z.min T r.2 / b); [|lia]. apply Z.div_le_lower_bound; nia.
Qed.

Lemma forallb_blocks f k t :
  forallb (fun x => bool_decide (x ∈ ex_free t)) (ex_blocks f k) = true <->
  (forall x, block_of base f k x -> x ∈ ex_free t).
Proof.
  rewrite forallb_forall. setoid_rewrite bool_decide_eq_true.
  split; intros H x Hx; apply H; [by apply list_elem_of_In, elem_of_ex_blocks|].
  by apply elem_of_ex_blocks, list_elem_of_In.
Qed.

Lemma ex_fits_spec k t f : ex_fits k t f = true <->
  f mod 2 ^ (k + base) = 0 /\ (forall x, block_of base f k x -> x ∈ ex_free t).
Proof. unfold ex_fits. by rewrite andb_true_iff, Z.eqb_eq, forallb_blocks. Qed.

Lemma ex_fits_free k t f : 0 <= k -> ex_fits k t f = true -> f ∈ ex_free t.
Proof.
  intros Hk [_ Hf]%ex_fits_spec. apply Hf. exists 0. split; [|lia].
  split; [lia|]. apply Z.pow_pos_nonneg; lia.
Qed.

Lemma ex_allocate_spec t k : 0 <= k ->
  match ex_allocate k t with
  | (Some f, t') => f ∈ ex_free t /\ ex_fits k t f = true /\
      t' = mkExTree (ex_free t ∖ list_to_set (ex_blocks f k)) ((f, k) :: ex_live t)
  | (None, t') => t' = t /\ forall f, f ∈ ex_free t -> ex_fits k t f = false
  end.
Proof.
  intros Hk. unfold ex_allocate. destruct (List.find _ _) as [f|] eqn:E.
  - apply find_some in E as [_ Hfit]. split; [by eapply ex_fits_free|done].
  - split; [done|]. intros f Hf. eapply find_none; [done|]. right.
    by apply list_elem_of_In, elem_of_elements.
Qed.

(** The block at offset 0 is taken if it is free. *)
Lemma ex_allocate_first t k : ex_fits k t 0 = true -> (ex_allocate k t).1 = Some 0.
Proof. intros H. unfold ex_allocate. cbn [List.find]. by rewrite H. Qed.

Lemma ex_allocate_inv t k : ex_inv t -> 0 <= k <= levels - 1 -> ex_inv (ex_allocate k t).2.
Proof.
  intros [Hf Hl Ht Hd] Hk. pose proof (ex_allocate_spec t k ltac:(lia)) as H.
  destruct (ex_allocate k t) as [[f|] t']; simpl; [|by destruct H as [-> _]; split].
  destruct H as (Hin & [Hal Hfit]%ex_fits_spec & ->). setoid_rewrite <- elem_of_ex_blocks in Hfit.
  split; simpl; [set_solver|setoid_rewrite elem_of_cons..].
  - intros g j [[= -> ->]|Hg]; [|by auto]. destruct (Hf f Hin). done.
  - intros g j x [[= -> ->]|Hg] Hx; [set_solver|]. specialize (Ht g j x Hg Hx). set_solver.
  - intros g j g' j' x [[= -> ->]|Hg] [[= -> ->]|Hg'] Hne Hx Hx'; try done.
    + by apply (Ht g' j' x); auto.
    + by apply (Ht g j x); auto.
    + by eapply (Hd g j g' j' x).
Qed.

Lemma ex_deallocate_live t f k : ex_inv t -> (f, k) ∈ ex_live t ->
  exists t', ex_deallocate f k t = Ret t' /\ ex_inv t' /\
    (forall x, x ∈ ex_free t' <-> x ∈ ex_free t \/ block_of base f k x) /\
    (forall g j, (g, j) ∈ ex_live t' <-> (g, j) ∈ ex_live t /\ ~ (g = f /\ j = k)).
Proof.
  intros [Hf Hl Ht Hd] Hin. unfold ex_deallocate. rewrite bool_decide_true by done.
  eexists. split; [done|]. setoid_rewrite <- elem_of_ex_blocks. split_and!; simpl.
  - split; simpl; [|setoid_rewrite list_elem_of_filter..].
    + intros x. rewrite elem_of_union, elem_of_list_to_set. intros [Hx|Hx]; [auto|].
      apply elem_of_ex_blocks in Hx as (i & Hi & ->). destruct (Hl f k Hin) as (Hk & Ha & Hr).
      pose proof base_pos.
      assert (2 ^ (k + base) = 2 ^ k * 2 ^ base) as Ek by (rewrite Z.pow_add_r by lia; lia).
      assert (tree_bytes levels base = 2 ^ (levels - 1 - k) * 2 ^ (k + base)) as Et
        by (unfold tree_bytes; rewrite <- Z.pow_add_r by lia; f_equal; lia).
      apply Z.mod_divide in Ha as [c ->]; [|nia]. rewrite Et in *.
      assert (0 <= c < 2 ^ (levels - 1 - k)) by nia. split.
      * rewrite Ek. replace (c * (2 ^ k * 2 ^ base) + 2 ^ base * i) with ((c * 2 ^ k + i) * 2 ^ base) by lia.
        apply Z_mod_mult.
      * nia.
    + naive_solver.
    + intros g j x [Hne Hg] Hx. rewrite elem_of_union, elem_of_list_to_set.
      intros [Hx'|Hx']; [by eapply Ht|by eapply (Hd g j f k x)].
    + naive_solver.
  - set_solver.
  - intros g j. rewrite list_elem_of_filter. split; intros []; split; auto; naive_solver.
Qed.

Lemma ex_order_free_spec t l j : 0 <= l <= levels - 1 -> 0 <= j < 2 ^ l ->
  ex_order_free (2 ^ l - 1 + j) t = levels - l <->
  (forall x, block_of base (j * 2 ^ (levels - 1 - l + base)) (levels - 1 - l) x -> x ∈ ex_free t).
Proof.
  intros Hl Hj. unfold ex_order_free. rewrite <- forallb_blocks.
  replace (2 ^ l - 1 + j + 1) with (2 ^ l + j) by lia.
  assert (Z.log2 (2 ^ l + j) = l) as ->.
  { apply Z.log2_unique; [lia|]. rewrite Z.pow_succ_r; lia. }
  replace (2 ^ l + j - 2 ^ l) with j by lia. case_match; split; (done || lia).
Qed.

Program Definition friendly_example : FriendlyTree levels base := {|
  tree := ex_tree;
  tree_new := ex_new;
  tree_allocate := ex_allocate;
  tree_deallocate := ex_deallocate;
  tree_order_free := ex_order_free;
  max_order := levels - 1;
  total_blocks := 2 ^ levels - 1;
  tree_inv := ex_inv;
  tree_free t x := x ∈ ex_free t;
  tree_live t f k := (f, k) ∈ ex_live t
|}.
Next Obligation. done. Qed.
Next Obligation. done. Qed.
Next Obligation. intros t x [Hf]. apply Hf. Qed.
Next Obligation.
  intros us. split; simpl; try set_solver. intros x Hx.
  apply elem_of_list_to_set, list_elem_of_bind in Hx as (r & Hx & _).
  apply elem_of_ex_range in Hx as (? & ? & _). done.
Qed.
Next Obligation.
  intros us x. simpl. rewrite elem_of_list_to_set, list_elem_of_bind.
  setoid_rewrite elem_of_ex_range. naive_solver.
Qed.
Next Obligation. intros us f k. simpl. apply not_elem_of_nil. Qed.
Next Obligation. simpl. apply ex_allocate_inv. Qed.
Next Obligation.
  intros t k f t' Hi Hk E. simpl in *. pose proof (ex_allocate_spec t k ltac:(lia)) as H. rewrite E in H.
  destruct H as (Hin & [Hal Hfit]%ex_fits_spec & ->). setoid_rewrite <- elem_of_ex_blocks.
  setoid_rewrite <- elem_of_ex_blocks in Hfit. split_and!; simpl; [done|done|set_solver|].
  intros g j. rewrite elem_of_cons. naive_solver.
Qed.
Next Obligation.
  intros t k t' Hi Hk E. simpl in *. pose proof (ex_allocate_spec t k ltac:(lia)) as H. rewrite E in H.
  destruct H as [-> H]. split_and!; [done|done|]. intros f Hal Hfree.
  assert (ex_fits k t f = true) as Hfit by (by apply ex_fits_spec).
  specialize (H f (ex_fits_free k t f ltac:(lia) Hfit)). congruence.
Qed.
Next Obligation.
  intros t f k x [_ _ Ht _] Hl Hx. apply elem_of_ex_blocks in Hx. exact (Ht f k x Hl Hx).
Qed.
Next Obligation. intros t f k [_ Hl _ _] H. by apply Hl. Qed.
Next Obligation. simpl. apply ex_deallocate_live. Qed.
Next Obligation. intros t l j Hi Hl Hj. by apply ex_order_free_spec. Qed.

End example.
