(* ===== verification/PhysicalAllocator.v ===== *)
(** [kernel/src/memory/physical_allocator.rs]: the physical frame allocator, one
    buddy tree per GiB of memory. *)
From S2P Require Import Prelude Crates Machine FrameAlloc BootstrapHeap Friendly.

Definition LEVEL_COUNT : Z := 19.
Definition PHYS_BASE_ORDER : Z := 12.

(** Where the blocks of a tree are stored. *)
Inductive TreeBox :=
| Bootstrap (b : BootstrapHeapBox)
| HeapBox.

(** [TryState] of the allocation loop. *)
Inductive TryState := Tried | WasInUse | Untried.

#[export] Instance TryState_eq_dec : EqDecision TryState.
Proof. solve_decision. Defined.

Section physical_allocator.
Context `{X : X86_64Crate} `{T : FriendlyTree LEVEL_COUNT PHYS_BASE_ORDER}.

(** [trees: Once<[Mutex<Option<PhysicalTree>>; 256]>] *)
Record PhysicalAllocator := mkPhysicalAllocator {
  trees : option (list (option (TreeBox * tree)))
}.

(** Filter out addresses that apply to a GiB and make them local to it. *)
Definition localize (gib : Z) (usable : list (Z * Z)) : list (Z * Z) :=
  omap (fun '(r_start, r_end) =>
    let gib_start := Z.shiftl gib 30 in
    let gib_end := Z.shiftl (gib + 1) 30 + 1 in
    if (r_start <=? gib_end) && (gib_start <=? r_end) then
      let last := r_end - gib_start in
      let begin := if gib_start <=? r_start then r_start - gib_start else 0 in
      Some (begin, last)
    else None) usable.

(** The loop of [init_prelim] over the first eight slots, with the boxes the
    bootstrap heap hands out. *)
Fixpoint init_slots `{BF : BitFieldCrate} (sz : Z) (usable : list (Z * Z)) (slots : list Z)
    (h : option BootstrapAllocator) (ts : list (option (TreeBox * tree)))
  : res (option BootstrapAllocator * list (option (TreeBox * tree))) :=
  match slots with
  | [] => Ret (h, ts)
  | i :: slots =>
      let usable_i := localize i usable in
      let? (b, h) := heap_allocate sz h in
      match b with
      | None => Stop (Panic "Ran out of bootstrap heap memory!")
      | Some b =>
          init_slots sz usable slots h (<[Z.to_nat i := Some (Bootstrap b, tree_new usable_i)]> ts)
      end
  end.

Definition init_prelim `{BF : BitFieldCrate} (sz : Z) (usable : list (Z * Z))
    (h : option BootstrapAllocator) (a : PhysicalAllocator)
  : res (option BootstrapAllocator * PhysicalAllocator) :=
  match trees a with
  | Some _ => Ret (h, a)
  | None =>
      let? (h, ts) := init_slots sz usable (range_excl 0 8) h (replicate 256 None) in
      Ret (h, mkPhysicalAllocator (Some ts))
  end.

Definition init_rest (gibbibytes : Z) (usable : list (Z * Z)) (a : PhysicalAllocator)
  : res PhysicalAllocator :=
  match trees a with
  | None => Stop (Panic "unwrap")
  | Some ts =>
      Ret (mkPhysicalAllocator (Some
        (foldl (fun ts i => <[Z.to_nat i := Some (HeapBox, tree_new (localize i usable))]> ts)
               ts (range_incl 8 gibbibytes))))
  end.

(** [iter().position(|i| *i == v)] *)
Fixpoint position (v : TryState) (tried : list TryState) : option nat :=
  match tried with
  | [] => None
  | x :: tried => if decide (x = v) then Some 0%nat else S <$> position v tried
  end.

Definition pick (tried : list TryState) : option nat :=
  match position Untried tried with
  | Some i => Some i
  | None => position WasInUse tried
  end.

(** The loop of [allocate]. [busy n] says whether the [n]th [try_lock] finds the
    tree locked by someone else. *)
Fixpoint allocate_loop (fuel : nat) (busy : nat -> bool) (n : nat) (order : Z)
    (tried : list TryState) (ts : list (option (TreeBox * tree)))
  : res (option Z * list (option (TreeBox * tree))) :=
  match fuel with
  | O => Stop OutOfFuel
  | S fuel =>
      match pick tried with
      | None => Ret (None, ts)
      | Some index =>
          if busy n then
            allocate_loop fuel busy (S n) order (<[index := WasInUse]> tried) ts
          else
            match ts !! index with
            | None => Stop (Panic "index out of bounds")
            | Some None => allocate_loop fuel busy (S n) order (<[index := Tried]> tried) ts
            | Some (Some (box, t)) =>
                match tree_allocate order t with
                | (Some address, t') =>
                    let addr := address +
                      Z.of_nat index * Z.shiftl 1 (max_order + PHYS_BASE_ORDER) in
                    let? pa := PhysAddr_new addr in
                    Ret (Some (PhysFrame_containing_address pa), <[index := Some (box, t')]> ts)
                | (None, t') =>
                    allocate_loop fuel busy (S n) order (<[index := Tried]> tried)
                      (<[index := Some (box, t')]> ts)
                end
            end
      end
  end.

Definition allocate (fuel : nat) (busy : nat -> bool) (order : Z) : M PhysicalAllocator (option Z) :=
  fun a =>
    match trees a with
    | None => Stop (Panic "unwrap")
    | Some ts =>
        let? (o, ts) := allocate_loop fuel busy 0 order (replicate 256 Untried) ts in
        Ret (o, mkPhysicalAllocator (Some ts))
    end.

Definition deallocate (frame_addr order : Z) : M PhysicalAllocator unit :=
  fun a =>
    let i := Z.to_nat (Z.shiftr frame_addr (LEVEL_COUNT - 1 + PHYS_BASE_ORDER)) in
    let local_ptr := frame_addr mod Z.shiftl 1 (LEVEL_COUNT - 1 + PHYS_BASE_ORDER) in
    match trees a with
    | None => Stop (Panic "unwrap")
    | Some ts =>
        match ts !! i with
        | None => Stop (Panic "index out of bounds")
        | Some None => Stop (Panic "unwrap")
        | Some (Some (box, t)) =>
            let? t' := tree_deallocate local_ptr order t in
            Ret (tt, mkPhysicalAllocator (Some (<[i := Some (box, t')]> ts)))
        end
    end.

(** * The allocation loop *)

#[local] Abbreviation slot_t := (option (TreeBox * tree)).

Definition slot_inv (o : slot_t) : Prop :=
  match o with Some (_, t) => tree_inv t | None => True end.

(** Two states of a slot that offer and have handed out the same blocks. *)
Definition same_slot (o o' : slot_t) : Prop :=
  match o, o' with
  | None, None => True
  | Some (b, t), Some (b', t') =>
      b = b' /\ (forall x, tree_free t' x <-> tree_free t x) /\
      (forall f k, tree_live t' f k <-> tree_live t f k)
  | _, _ => False
  end.

(** No block of this order is free in the slot. *)
Definition exhausted (order : Z) (o : slot_t) : Prop :=
  match o with
  | None => True
  | Some (_, t) => forall f, f mod 2 ^ (order + PHYS_BASE_ORDER) = 0 ->
      ~ (forall x, block_of PHYS_BASE_ORDER f order x -> tree_free t x)
  end.

Definition untried_count (tried : list TryState) : nat :=
  length (filter (fun x => x <> Tried) tried).

Lemma position_some v tried i : position v tried = Some i -> tried !! i = Some v.
Proof.
  revert i. induction tried as [|x tried IH]; intros i; simpl; [done|].
  case_decide as E; [by intros [= <-]; subst|].
  destruct (position v tried) as [j|]; simpl; [|done]. intros [= <-]. by apply IH.
Qed.

Lemma position_none v tried i : position v tried = None -> tried !! i <> Some v.
Proof.
  revert i. induction tried as [|x tried IH]; intros i; simpl; [done|].
  case_decide as E; [done|]. destruct (position v tried); simpl; [done|].
  intros _. destruct i as [|i]; simpl; [congruence|by apply IH].
Qed.

Lemma pick_some tried i :
  pick tried = Some i -> exists v, tried !! i = Some v /\ v <> Tried.
Proof.
  unfold pick. destruct (position Untried tried) as [j|] eqn:E.
  - intros [= <-]. exists Untried. by apply position_some in E.
  - intros H. exists WasInUse. by apply position_some in H.
Qed.

Lemma pick_none tried i v : pick tried = None -> tried !! i = Some v -> v = Tried.
Proof.
  unfold pick. destruct (position Untried tried) eqn:E; [done|]. intros H Hv.
  pose proof (position_none _ _ i E). pose proof (position_none _ _ i H). by destruct v.
Qed.

Lemma untried_count_mark tried i v w :
  tried !! i = Some v -> v <> Tried -> w <> Tried ->
  untried_count (<[i := w]> tried) = untried_count tried.
Proof.
  unfold untried_count. revert i. induction tried as [|x tried IH]; intros [|i]; simpl; try done.
  - intros [= ->] Hv Hw. by rewrite !filter_cons_True.
  - intros Hi Hv Hw. specialize (IH i Hi Hv Hw).
    destruct (decide (x <> Tried)); [rewrite !filter_cons_True by done|
                                     rewrite !filter_cons_False by done]; simpl; lia.
Qed.

Lemma untried_count_done tried i v :
  tried !! i = Some v -> v <> Tried ->
  untried_count tried = S (untried_count (<[i := Tried]> tried)).
Proof.
  unfold untried_count. revert i. induction tried as [|x tried IH]; intros [|i]; simpl; try done.
  - intros [= ->] Hv. rewrite filter_cons_True, filter_cons_False by naive_solver. done.
  - intros Hi Hv. specialize (IH i Hi Hv).
    destruct (decide (x <> Tried)); [rewrite !filter_cons_True by done|
                                     rewrite !filter_cons_False by done]; simpl; lia.
Qed.

Definition slots_ok (ts : list slot_t) : Prop := length ts = 256%nat /\ Forall slot_inv ts.

#[local] Instance same_slot_preorder : PreOrder same_slot.
Proof.
  split.
  - intros o. by destruct o as [[b t]|].
  - intros [[b1 t1]|] [[b2 t2]|] [[b3 t3]|]; simpl; try done.
    intros (-> & Hf & Hl) (-> & Hf' & Hl'). split_and!; [done|..].
    + intros x. by rewrite Hf', Hf.
    + intros f k. by rewrite Hl', Hl.
Qed.

Definition same_slots : list slot_t -> list slot_t -> Prop := Forall2 same_slot.

#[local] Instance same_slots_preorder : PreOrder same_slots.
Proof. unfold same_slots. apply _. Qed.

Lemma block_self base f k : 0 <= k -> block_of base f k f.
Proof. intros. exists 0. split; [|lia]. split; [lia|]. by apply Z.pow_pos_nonneg. Qed.

(** The address the loop computes for a block of tree [i]. *)
Lemma loop_address ts i b t order off t' :
  slots_ok ts -> 0 <= order <= 18 -> ts !! i = Some (Some (b, t)) ->
  tree_allocate order t = (Some off, t') ->
  let addr := off + Z.of_nat i * Z.shiftl 1 (max_order + PHYS_BASE_ORDER) in
  addr = off + Z.of_nat i * 2 ^ 30 /\ PhysAddr_new addr = Ret addr /\
  PhysFrame_containing_address addr = addr /\ tree_inv t' /\ (i < 256)%nat.
Proof.
  intros [Hlen Hinv] Ho Hi Ha addr. pose proof (lookup_lt_Some _ _ _ Hi) as Hlt.
  pose proof (Forall_lookup_1 _ _ _ _ Hinv Hi) as Ht. simpl in Ht.
  assert (0 <= order <= LEVEL_COUNT - 1) as Ho' by (unfold LEVEL_COUNT; lia).
  destruct (tree_allocate_some _ _ _ _ Ht Ho' Ha) as (_ & Hfree & _).
  destruct (tree_free_range t off Ht (Hfree off (block_self _ _ _ (proj1 Ho)))) as [Hal Hr].
  change (tree_bytes LEVEL_COUNT PHYS_BASE_ORDER) with (2 ^ 30) in Hr.
  assert (addr = off + Z.of_nat i * 2 ^ 30) as E.
  { unfold addr. rewrite max_order_spec. done. }
  unfold PHYS_BASE_ORDER in Hal. change (2 ^ 12) with 4096 in Hal.
  split_and!; [done|..].
  - rewrite E. apply PhysAddr_new_ok. lia.
  - rewrite E. rewrite PhysFrame_containing_address_spec by lia.
    Z.to_euclidean_division_equations. lia.
  - pose proof (tree_allocate_inv t order Ht Ho') as H. by rewrite Ha in H.
  - lia.
Qed.

(** A failed attempt on tree [i] leaves the trees as they were. *)
Lemma loop_failed ts i b t order t' :
  slots_ok ts -> 0 <= order <= 18 -> ts !! i = Some (Some (b, t)) ->
  tree_allocate order t = (None, t') ->
  slots_ok (<[i := Some (b, t')]> ts) /\ same_slots ts (<[i := Some (b, t')]> ts) /\
  exhausted order (Some (b, t)).
Proof.
  intros [Hlen Hinv] Ho Hi Ha. pose proof (Forall_lookup_1 _ _ _ _ Hinv Hi) as Ht. simpl in Ht.
  assert (0 <= order <= LEVEL_COUNT - 1) as Ho' by (unfold LEVEL_COUNT; lia).
  destruct (tree_allocate_none _ _ _ Ht Ho' Ha) as (Hfree & Hlive & Hex).
  split_and!.
  - split; [by rewrite length_insert|]. apply Forall_insert; [done|].
    pose proof (tree_allocate_inv t order Ht Ho') as H. by rewrite Ha in H.
  - rewrite <- (list_insert_id ts i (Some (b, t))) at 1 by done.
    apply Forall2_insert; [done|]. done.
  - done.
Qed.

(** Once no tree is found locked any more, every step settles one tree. *)
Lemma allocate_loop_terminates N busy order fuel n tried ts :
  (forall m, (N <= m)%nat -> busy m = false) -> slots_ok ts -> 0 <= order <= 18 ->
  (N - n + untried_count tried < fuel)%nat ->
  allocate_loop fuel busy n order tried ts <> Stop OutOfFuel.
Proof.
  intros HN Hok Ho. revert n tried ts Hok.
  induction fuel as [|fuel IH]; intros n tried ts Hok Hf; [lia|]. simpl.
  destruct (pick tried) as [i|] eqn:Ep; [|done].
  apply pick_some in Ep as (v & Hv & Hne). pose proof (untried_count_done _ _ _ Hv Hne) as Hc.
  destruct (busy n) eqn:Eb.
  - apply IH; [done|]. rewrite (untried_count_mark _ _ v) by done.
    assert (~ (N <= n)%nat) by (intros ?; rewrite HN in Eb; done). lia.
  - destruct (ts !! i) as [[[b t]|]|] eqn:Ei; [|apply IH; [done|lia]|done].
    destruct (tree_allocate order t) as [[a|] t'] eqn:Ea.
    + destruct (loop_address _ _ _ _ _ _ _ Hok Ho Ei Ea) as (_ & -> & _). done.
    + apply IH; [|lia]. by eapply loop_failed.
Qed.

Lemma exhausted_same order o o' : same_slot o o' -> exhausted order o' <-> exhausted order o.
Proof.
  destruct o as [[b t]|], o' as [[b' t']|]; simpl; try done. intros (_ & Hf & _).
  by setoid_rewrite Hf.
Qed.

(** What the loop may return: a block of one tree, or nothing because every tree
    is exhausted. *)
Definition loop_result (order : Z) (ts : list slot_t) (r : res (option Z * list slot_t)) : Prop :=
  match r with
  | Stop w => w = OutOfFuel
  | Ret (Some f, ts') => exists ts1 i b t off t',
      same_slots ts ts1 /\ slots_ok ts1 /\ ts1 !! i = Some (Some (b, t)) /\
      tree_allocate order t = (Some off, t') /\
      f = off + Z.of_nat i * 2 ^ 30 /\ ts' = <[i := Some (b, t')]> ts1
  | Ret (None, ts') => slots_ok ts' /\ same_slots ts ts' /\
      forall i o, ts !! i = Some o -> exhausted order o
  end.

Lemma loop_result_same order ts ts2 r :
  same_slots ts ts2 -> loop_result order ts2 r -> loop_result order ts r.
Proof.
  intros Hs. destruct r as [[[f|] ts']|w]; simpl; [..|done].
  - intros (ts1 & i & b & t & off & t' & H1 & H). exists ts1, i, b, t, off, t'.
    split; [by transitivity ts2|done].
  - intros (H1 & H2 & H3). split_and!; [done|by transitivity ts2|].
    intros i o Hi. destruct (Forall2_lookup_l _ _ _ _ _ Hs Hi) as (o' & Ho' & Hoo).
    apply (exhausted_same order o o' Hoo). by eapply H3.
Qed.

Lemma allocate_loop_spec fuel busy n order tried ts :
  length tried = 256%nat -> slots_ok ts -> 0 <= order <= 18 ->
  (forall i o, tried !! i = Some Tried -> ts !! i = Some o -> exhausted order o) ->
  loop_result order ts (allocate_loop fuel busy n order tried ts).
Proof.
  intros Hlen Hok Ho. revert n tried ts Hlen Hok.
  induction fuel as [|fuel IH]; intros n tried ts Hlen Hok Htr; [done|]. simpl.
  destruct (pick tried) as [i|] eqn:Ep.
  2:{ simpl. split_and!; [done|done|]. intros i o Hi.
      destruct (lookup_lt_is_Some_2 tried i) as [v Hv].
      { rewrite Hlen. destruct Hok as [<- _]. by eapply lookup_lt_Some. }
      apply (Htr i); [|done]. rewrite Hv. f_equal. by eapply pick_none. }
  apply pick_some in Ep as (v & Hv & Hne).
  destruct (busy n).
  { apply IH; [by rewrite length_insert|done|]. intros j o Hj.
    apply list_lookup_insert_Some in Hj as [(_ & [=] & _)|[_ Hj]]. by apply Htr. }
  destruct (ts !! i) as [[[b t]|]|] eqn:Ei; cycle 1.
  { apply IH; [by rewrite length_insert|done|]. intros j o Hj Hjo.
    apply list_lookup_insert_Some in Hj as [(<- & _ & _)|[_ Hj]]; [|by eapply Htr].
    rewrite Ei in Hjo. by injection Hjo as <-. }
  { apply lookup_ge_None in Ei. apply lookup_lt_Some in Hv. destruct Hok. lia. }
  destruct (tree_allocate order t) as [[off|] t'] eqn:Ea.
  - destruct (loop_address _ _ _ _ _ _ _ Hok Ho Ei Ea) as (E & -> & Hpf & _). simpl.
    rewrite Hpf, E. by exists ts, i, b, t, off, t'.
  - destruct (loop_failed _ _ _ _ _ _ Hok Ho Ei Ea) as (Hok' & Hs & Hex).
    eapply loop_result_same; [done|]. apply IH; [by rewrite length_insert|done|].
    intros j o Hj Hjo. destruct (Forall2_lookup_r _ _ _ _ _ Hs Hjo) as (o1 & Ho1 & Hoo).
    apply (exhausted_same order o1 o Hoo).
    apply list_lookup_insert_Some in Hj as [(<- & _ & _)|[_ Hj]]; [|by eapply Htr].
    rewrite Ei in Ho1. by injection Ho1 as <-.
Qed.

(** * The frame allocator contract *)

(** The kernel runs on one core: no [try_lock] finds a tree locked, and 257
    iterations settle the 256 trees. *)
Definition uncontended (_ : nat) : bool := false.

#[export] Instance pmm_ops : FrameAllocator PhysicalAllocator := {|
  fa_allocate k := allocate 257 uncontended k;
  fa_deallocate f k := deallocate f k
|}.

(** [t] is the tree of GiB [i]. *)
Definition has_tree (ts : list slot_t) (i : nat) (t : tree) : Prop :=
  exists b, ts !! i = Some (Some (b, t)).
Definition slots_free (ts : list slot_t) (x : Z) : Prop :=
  exists i t, has_tree ts i t /\ tree_free t (x - Z.of_nat i * 2 ^ 30).
Definition slots_live (ts : list slot_t) (f k : Z) : Prop :=
  exists i t, has_tree ts i t /\ tree_live t (f - Z.of_nat i * 2 ^ 30) k.

Definition pa_inv (a : PhysicalAllocator) : Prop := exists ts, trees a = Some ts /\ slots_ok ts.
Definition pa_free (a : PhysicalAllocator) (x : Z) : Prop :=
  exists ts, trees a = Some ts /\ slots_free ts x.
Definition pa_live (a : PhysicalAllocator) (f k : Z) : Prop :=
  exists ts, trees a = Some ts /\ slots_live ts f k.

Lemma pa_free_some ts x : pa_free (mkPhysicalAllocator (Some ts)) x <-> slots_free ts x.
Proof. unfold pa_free. simpl. naive_solver. Qed.
Lemma pa_live_some ts f k : pa_live (mkPhysicalAllocator (Some ts)) f k <-> slots_live ts f k.
Proof. unfold pa_live. simpl. naive_solver. Qed.

Lemma in_block_shift f k x c :
  in_block f k x <-> block_of PHYS_BASE_ORDER (f - c) k (x - c).
Proof.
  unfold in_block, block_of. change (2 ^ PHYS_BASE_ORDER) with 4096.
  split; intros (i & Hi & E); exists i; lia.
Qed.

Lemma has_tree_inv ts i t : slots_ok ts -> has_tree ts i t -> tree_inv t /\ (i < 256)%nat.
Proof.
  intros [Hl Hi] [b Ht]. apply (Forall_lookup_1 _ _ _ _ Hi) in Ht as Hinv.
  apply lookup_lt_Some in Ht. split; [done|lia].
Qed.

Lemma has_tree_fun ts i t t' : has_tree ts i t -> has_tree ts i t' -> t = t'.
Proof. intros [? ?] [? ?]. congruence. Qed.

Lemma has_tree_insert ts i b t t' j u :
  ts !! i = Some (Some (b, t)) ->
  has_tree (<[i := Some (b, t')]> ts) j u <-> (j = i /\ u = t') \/ (j <> i /\ has_tree ts j u).
Proof.
  intros Hi. unfold has_tree. pose proof (lookup_lt_Some _ _ _ Hi) as Hlt.
  destruct (decide (j = i)) as [->|Hne].
  - rewrite list_lookup_insert_eq by done. naive_solver.
  - rewrite list_lookup_insert_ne by done. naive_solver.
Qed.

Lemma tree_free_gib t x : tree_inv t -> tree_free t x -> x mod 4096 = 0 /\ 0 <= x < 2 ^ 30.
Proof. intros Hi Hf. by destruct (tree_free_range t x Hi Hf). Qed.

Lemma tree_live_gib t f k x :
  tree_inv t -> tree_live t f k -> block_of PHYS_BASE_ORDER f k x -> 0 <= x < 2 ^ 30.
Proof.
  intros Hi Hl (i & Hx & ->). destruct (tree_live_range t f k Hi Hl) as (Hk & Ha & Hf).
  change (tree_bytes LEVEL_COUNT PHYS_BASE_ORDER) with (2 ^ 30) in Hf.
  unfold PHYS_BASE_ORDER, LEVEL_COUNT in *.
  assert (2 ^ 30 = 2 ^ (18 - k) * 2 ^ (k + 12)) as E by (rewrite <- Z.pow_add_r by lia; f_equal; lia).
  assert (2 ^ (k + 12) = 4096 * 2 ^ k) as E' by (rewrite Z.pow_add_r by lia; lia).
  apply Z.mod_divide in Ha as [c Hc]; [|lia].
  assert (c < 2 ^ (18 - k)) by nia. change (2 ^ 12) with 4096. nia.
Qed.

(** A slot is only distinguished by its free and live blocks. *)
Lemma same_slots_tree ts ts' i t' : same_slots ts ts' -> has_tree ts' i t' ->
  exists t, has_tree ts i t /\ (forall x, tree_free t' x <-> tree_free t x) /\
    (forall f k, tree_live t' f k <-> tree_live t f k).
Proof.
  intros Hs [b' Hi]. destruct (Forall2_lookup_r _ _ _ _ _ Hs Hi) as ([[b t]|] & Ho & Hoo); [|done].
  destruct Hoo as (-> & Hf & Hl). exists t. split_and!; [by exists b'|done|done].
Qed.

Lemma same_slots_tree_l ts ts' i t : same_slots ts ts' -> has_tree ts i t ->
  exists t', has_tree ts' i t' /\ (forall x, tree_free t' x <-> tree_free t x) /\
    (forall f k, tree_live t' f k <-> tree_live t f k).
Proof.
  intros Hs [b Hi]. destruct (Forall2_lookup_l _ _ _ _ _ Hs Hi) as ([[b' t']|] & Ho & Hoo); [|done].
  destruct Hoo as (-> & Hf & Hl). exists t'. split_and!; [by exists b'|done|done].
Qed.

Lemma same_slots_free ts ts' x : same_slots ts ts' -> slots_free ts' x <-> slots_free ts x.
Proof.
  intros Hs. split; intros (i & t & Ht & Hx).
  - destruct (same_slots_tree _ _ _ _ Hs Ht) as (u & Hu & Hf & _). exists i, u. by rewrite <- Hf.
  - destruct (same_slots_tree_l _ _ _ _ Hs Ht) as (u & Hu & Hf & _). exists i, u. by rewrite Hf.
Qed.

Lemma same_slots_live ts ts' f k : same_slots ts ts' -> slots_live ts' f k <-> slots_live ts f k.
Proof.
  intros Hs. split; intros (i & t & Ht & Hx).
  - destruct (same_slots_tree _ _ _ _ Hs Ht) as (u & Hu & _ & Hf). exists i, u. by rewrite <- Hf.
  - destruct (same_slots_tree_l _ _ _ _ Hs Ht) as (u & Hu & _ & Hf). exists i, u. by rewrite Hf.
Qed.

(** One tree replaced: what that does to the free and the live blocks. *)
Section replace.
Context (ts : list slot_t) (i : nat) (b : TreeBox) (t t' : tree) (f k : Z).
Context (Hok : slots_ok ts) (Hi : ts !! i = Some (Some (b, t))).
#[local] Abbreviation ts' := (<[i := Some (b, t')]> ts).
#[local] Abbreviation off := (f - Z.of_nat i * 2 ^ 30).

Lemma replace_ok : tree_inv t' -> slots_ok ts'.
Proof.
  intros Ht'. destruct Hok as [Hl Hf]. split; [by rewrite length_insert|by apply Forall_insert].
Qed.

(** A block that lies in GiB [i] meets no other tree. *)
Lemma other_tree j u x :
  (forall y, block_of PHYS_BASE_ORDER off k y -> 0 <= y < 2 ^ 30) ->
  j <> i -> has_tree ts j u -> tree_free u (x - Z.of_nat j * 2 ^ 30) -> ~ in_block f k x.
Proof.
  intros Hr Hne Hu Hx Hb. destruct (has_tree_inv ts j u Hok Hu) as [Hui _].
  destruct (tree_free_gib _ _ Hui Hx) as [_ Hxr].
  apply (in_block_shift f k x (Z.of_nat i * 2 ^ 30)) in Hb. specialize (Hr _ Hb).
  apply Hne. lia.
Qed.

Lemma replace_taken x :
  (forall y, block_of PHYS_BASE_ORDER off k y -> 0 <= y < 2 ^ 30) ->
  (forall y, tree_free t' y <-> tree_free t y /\ ~ block_of PHYS_BASE_ORDER off k y) ->
  slots_free ts' x <-> slots_free ts x /\ ~ in_block f k x.
Proof.
  intros Hr Hf. unfold slots_free. split.
  - intros (j & u & Hu & Hx). apply (has_tree_insert _ _ _ t) in Hu as [[-> ->]|[Hne Hu]]; [| |done].
    + apply Hf in Hx as [Hx Hb]. split; [by exists i, t; split; [by exists b|]|].
      by rewrite (in_block_shift _ _ _ (Z.of_nat i * 2 ^ 30)).
    + split; [by exists j, u|by eapply other_tree].
  - intros [(j & u & Hu & Hx) Hb]. exists j.
    destruct (decide (j = i)) as [->|Hne].
    + assert (u = t) as -> by (eapply has_tree_fun; [done|by exists b]).
      exists t'. split; [apply (has_tree_insert _ _ _ t); auto|]. apply Hf. split; [done|].
      by rewrite <- in_block_shift.
    + exists u. split; [apply (has_tree_insert _ _ _ t); auto|done].
Qed.

Lemma replace_given x :
  (forall y, tree_free t' y <-> tree_free t y \/ block_of PHYS_BASE_ORDER off k y) ->
  slots_free ts' x <-> slots_free ts x \/ in_block f k x.
Proof.
  intros Hf. unfold slots_free. split.
  - intros (j & u & Hu & Hx). apply (has_tree_insert _ _ _ t) in Hu as [[-> ->]|[Hne Hu]]; [| |done].
    + apply Hf in Hx as [Hx|Hb]; [left; exists i, t; split; [by exists b|done]|right].
      by rewrite (in_block_shift _ _ _ (Z.of_nat i * 2 ^ 30)).
    + left. by exists j, u.
  - intros [(j & u & Hu & Hx)|Hb].
    + destruct (decide (j = i)) as [->|Hne]; [|exists j, u; split; [apply (has_tree_insert _ _ _ t); auto|done]].
      assert (u = t) as -> by (eapply has_tree_fun; [done|by exists b]).
      exists i, t'. split; [apply (has_tree_insert _ _ _ t); auto|]. apply Hf. auto.
    + exists i, t'. split; [apply (has_tree_insert _ _ _ t); auto|]. apply Hf. right.
      by rewrite <- in_block_shift.
Qed.

Lemma replace_live (A : Z -> Z -> Prop) g j :
  (forall g j, tree_live t' (g - Z.of_nat i * 2 ^ 30) j <->
     A g j \/ tree_live t (g - Z.of_nat i * 2 ^ 30) j) ->
  slots_live ts' g j <-> A g j \/ slots_live ts g j.
Proof.
  intros Hl. unfold slots_live. split.
  - intros (n & u & Hu & Hx). apply (has_tree_insert _ _ _ t) in Hu as [[-> ->]|[Hne Hu]]; [| |done].
    + apply Hl in Hx as [Hx|Hx]; [by left|right; exists i, t; split; [by exists b|done]].
    + right. by exists n, u.
  - intros [HA|(n & u & Hu & Hx)].
    + exists i, t'. split; [apply (has_tree_insert _ _ _ t); auto|]. apply Hl. auto.
    + destruct (decide (n = i)) as [->|Hne]; [|exists n, u; split; [apply (has_tree_insert _ _ _ t); auto|done]].
      assert (u = t) as -> by (eapply has_tree_fun; [done|by exists b]).
      exists i, t'. split; [apply (has_tree_insert _ _ _ t); auto|]. apply Hl. auto.
Qed.

Lemma replace_dead g j :
  (forall y, block_of PHYS_BASE_ORDER off k y -> 0 <= y < 2 ^ 30) -> 0 <= k ->
  (forall g j, tree_live t' g j <-> tree_live t g j /\ ~ (g = off /\ j = k)) ->
  slots_live ts' g j <-> slots_live ts g j /\ ~ (g = f /\ j = k).
Proof.
  intros Hr Hk Hl. unfold slots_live.
  pose proof (Hr _ (block_self PHYS_BASE_ORDER off k Hk)) as Hoff. split.
  - intros (n & u & Hu & Hx). apply (has_tree_insert _ _ _ t) in Hu as [[-> ->]|[Hne Hu]]; [| |done].
    + apply Hl in Hx as [Hx Hn]. split; [by exists i, t; split; [by exists b|]|naive_solver].
    + split; [by exists n, u|]. intros [-> ->]. destruct (has_tree_inv ts n u Hok Hu) as [Hui _].
      pose proof (tree_live_gib _ _ _ _ Hui Hx (block_self _ _ _ Hk)). lia.
  - intros [(n & u & Hu & Hx) Hn]. exists n.
    destruct (decide (n = i)) as [->|Hne]; [|exists u; split; [apply (has_tree_insert _ _ _ t); auto|done]].
    assert (u = t) as -> by (eapply has_tree_fun; [done|by exists b]).
    exists t'. split; [apply (has_tree_insert _ _ _ t); auto|]. apply Hl. split; [done|].
    intros [E ->]. apply Hn. split; [lia|done].
Qed.

End replace.

(** What a successful [allocate] did. *)
Lemma allocate_inv fuel busy k a o a' :
  allocate fuel busy k a = Ret (o, a') -> exists ts ts',
    trees a = Some ts /\ a' = mkPhysicalAllocator (Some ts') /\
    allocate_loop fuel busy 0 k (replicate 256 Untried) ts = Ret (o, ts').
Proof.
  unfold allocate. destruct (trees a) as [ts|]; [|done].
  destruct (allocate_loop _ _ _ _ _ _) as [[o' ts']|] eqn:El; cbn [rbind]; [|done].
  intros [= -> <-]. by exists ts, ts'; rewrite El.
Qed.

Lemma start_loop_spec fuel busy k ts :
  slots_ok ts -> 0 <= k <= 18 ->
  loop_result k ts (allocate_loop fuel busy 0 k (replicate 256 Untried) ts).
Proof.
  intros Hok Hk. apply allocate_loop_spec; [by rewrite length_replicate|done|done|].
  intros i o Hi. by apply lookup_replicate in Hi as [[=] _].
Qed.

Lemma pa_allocate_inv fuel busy a k o a' :
  pa_inv a -> 0 <= k <= 18 -> allocate fuel busy k a = Ret (o, a') -> pa_inv a'.
Proof.
  intros (ts & E & Hok) Hk Hf. apply allocate_inv in Hf as (ts0 & ts' & E0 & -> & Hl).
  rewrite E in E0. injection E0 as <-. exists ts'. split; [done|].
  pose proof (start_loop_spec fuel busy k ts Hok Hk) as Hs. rewrite Hl in Hs.
  destruct o as [f|]; [|by destruct Hs].
  destruct Hs as (ts1 & i & b & t & off & t' & _ & Hok1 & Hi & Ha & _ & ->).
  apply (replace_ok _ i b t'); [done|]. eapply loop_address; eauto.
Qed.

Lemma pa_allocate_returns N fuel busy a k :
  (forall m, (N <= m)%nat -> busy m = false) -> (N + 256 < fuel)%nat ->
  pa_inv a -> 0 <= k <= 18 ->
  exists o a', allocate fuel busy k a = Ret (o, a') /\ pa_inv a'.
Proof.
  intros HN Hfuel Hinv Hk.
  destruct (allocate fuel busy k a) as [[o a']|w] eqn:Ea; [by eauto using pa_allocate_inv|].
  exfalso. destruct Hinv as (ts & E & Hok). unfold allocate in Ea. rewrite E in Ea.
  pose proof (start_loop_spec fuel busy k ts Hok Hk) as Hs.
  destruct (allocate_loop _ _ _ _ _ _) as [[o ts']|w'] eqn:El; [done|].
  simpl in Hs. subst w'. eapply (allocate_loop_terminates N busy k fuel 0); eauto.
  change (untried_count (replicate 256 Untried)) with 256%nat. lia.
Qed.

Lemma pa_allocate_some fuel busy a k f a' :
  pa_inv a -> 0 <= k <= 18 -> allocate fuel busy k a = Ret (Some f, a') ->
  f mod 2 ^ (k + 12) = 0 /\
  (forall x, in_block f k x -> pa_free a x) /\
  (forall x, pa_free a' x <-> pa_free a x /\ ~ in_block f k x) /\
  (forall g j, pa_live a' g j <-> (g = f /\ j = k) \/ pa_live a g j).
Proof.
  intros (ts & E & Hok) Hk Hf. apply allocate_inv in Hf as (ts0 & ts' & E0 & -> & Hl).
  rewrite E in E0. injection E0 as <-. destruct a as [tsa]. simpl in E. subst tsa.
  pose proof (start_loop_spec fuel busy k ts Hok Hk) as Hs. rewrite Hl in Hs.
  destruct Hs as (ts1 & i & b & t & off & t' & Hsame & Hok1 & Hi & Ha & -> & ->).
  destruct (has_tree_inv ts1 i t Hok1 (ex_intro _ b Hi)) as [Ht Hi256].
  destruct (tree_allocate_some t k off t' Ht) as (Hal & Hfree & Hfree' & Hlive');
    [unfold LEVEL_COUNT; lia|done|].
  set (f := off + _). assert (off = f - Z.of_nat i * 2 ^ 30) as Eoff by lia.
  clearbody f. subst off.
  assert (forall y, block_of PHYS_BASE_ORDER (f - Z.of_nat i * 2 ^ 30) k y -> 0 <= y < 2 ^ 30) as Hr.
  { intros y Hy. by apply (tree_free_gib t); [|apply Hfree]. }
  split_and!.
  - unfold PHYS_BASE_ORDER in Hal. replace f with (f - Z.of_nat i * 2 ^ 30 + (Z.of_nat i * 2 ^ (18 - k)) * 2 ^ (k + 12)).
    { by rewrite Z_mod_plus_full. }
    assert (2 ^ 30 = 2 ^ (18 - k) * 2 ^ (k + 12)) as Ep by (rewrite <- Z.pow_add_r by lia; f_equal; lia).
    nia.
  - intros x Hx. rewrite pa_free_some. apply (same_slots_free _ _ _ Hsame). exists i, t.
    split; [by exists b|]. apply Hfree. by rewrite <- in_block_shift.
  - intros x. rewrite !pa_free_some, <- (same_slots_free _ _ _ Hsame).
    by apply (replace_taken ts1 i b t).
  - intros g j. rewrite !pa_live_some, <- (same_slots_live _ _ _ _ Hsame).
    apply (replace_live ts1 i b t t' Hi (fun g j => g = f /\ j = k)).
    intros g' j'. rewrite Hlive'. intuition lia.
Qed.

Lemma pa_allocate_none fuel busy a k a' :
  pa_inv a -> 0 <= k <= 18 -> allocate fuel busy k a = Ret (None, a') ->
  (forall x, pa_free a' x <-> pa_free a x) /\
  (forall g j, pa_live a' g j <-> pa_live a g j) /\
  (forall f, f mod 2 ^ (k + 12) = 0 -> ~ (forall x, in_block f k x -> pa_free a x)).
Proof.
  intros (ts & E & Hok) Hk Hf. apply allocate_inv in Hf as (ts0 & ts' & E0 & -> & Hl).
  rewrite E in E0. injection E0 as <-. destruct a as [tsa]. simpl in E. subst tsa.
  pose proof (start_loop_spec fuel busy k ts Hok Hk) as Hs. rewrite Hl in Hs.
  destruct Hs as (Hok' & Hsame & Hex). split_and!.
  - intros x. rewrite !pa_free_some. by apply same_slots_free.
  - intros g j. rewrite !pa_live_some. by apply same_slots_live.
  - intros f Hal Hfree.
    assert (forall c, f = c * 2 ^ (k + 12) -> False); [|by apply Z.mod_divide in Hal as [c ->]; [eauto|lia]].
    intros c ->.
    destruct (proj1 (pa_free_some _ _) (Hfree _ (proj2 (in_block_shift _ _ _ 0) (block_self _ _ _ (proj1 Hk)))))
      as (i & t & Ht & Hti).
    destruct (has_tree_inv ts i t Hok Ht) as [Hinv Hi]. destruct Ht as [b Hb].
    destruct (tree_free_gib _ _ Hinv Hti) as [_ Hrange].
    assert (2 ^ 30 = 2 ^ (18 - k) * 2 ^ (k + 12)) as Ep by (rewrite <- Z.pow_add_r by lia; f_equal; lia).
    assert (2 ^ (k + 12) = 4096 * 2 ^ k) as Ek by (rewrite Z.pow_add_r by lia; lia).
    apply (Hex i (Some (b, t)) Hb (c * 2 ^ (k + 12) - Z.of_nat i * 2 ^ 30)).
    { unfold PHYS_BASE_ORDER. rewrite Ep, Z.mul_assoc, <- Z.mul_sub_distr_r. apply Z_mod_mult. }
    intros x (j & Hj & Hx). change (2 ^ PHYS_BASE_ORDER) with 4096 in Hx.
    assert (0 <= x < 2 ^ 30) as Hxr.
    { assert (c - Z.of_nat i * 2 ^ (18 - k) < 2 ^ (18 - k)) by nia. nia. }
    assert (in_block (c * 2 ^ (k + 12)) k (x + Z.of_nat i * 2 ^ 30)) as Hin by (exists j; lia).
    destruct (proj1 (pa_free_some _ _) (Hfree _ Hin)) as (i' & t' & Ht' & Hti'). destruct (has_tree_inv ts i' t' Hok Ht') as [Hinv' _].
    destruct (tree_free_gib _ _ Hinv' Hti') as [_ Hrange'].
    assert (i' = i) as -> by lia.
    rewrite (has_tree_fun ts i t t') by (done || by exists b).
    by replace (x + Z.of_nat i * 2 ^ 30 - Z.of_nat i * 2 ^ 30) with x in Hti' by lia.
Qed.

Lemma pa_live_not_free a f k x : pa_inv a -> pa_live a f k -> in_block f k x -> ~ pa_free a x.
Proof.
  intros (ts & E & Hok) (ts1 & E1 & i & t & Ht & Hl) Hb (ts2 & E2 & j & u & Hu & Hx). simplify_eq.
  destruct (has_tree_inv ts i t Hok Ht) as [Hinv _], (has_tree_inv ts j u Hok Hu) as [Hinv' _].
  apply (in_block_shift f k x (Z.of_nat i * 2 ^ 30)) in Hb.
  pose proof (tree_live_gib _ _ _ _ Hinv Hl Hb). pose proof (proj2 (tree_free_gib _ _ Hinv' Hx)).
  assert (j = i) as -> by lia. rewrite (has_tree_fun ts i u t) in Hx by done.
  exact (tree_live_not_free _ _ _ _ Hinv Hl Hb Hx).
Qed.

Lemma pa_deallocate_live a f k : pa_inv a -> pa_live a f k ->
  exists a', fa_deallocate f k a = Ret (tt, a') /\ pa_inv a' /\
    (forall x, pa_free a' x <-> pa_free a x \/ in_block f k x) /\
    (forall g j, pa_live a' g j <-> pa_live a g j /\ ~ (g = f /\ j = k)).
Proof.
  intros (ts & E & Hok) (ts1 & E1 & i & t & [b Hi] & Hl). simplify_eq.
  destruct (has_tree_inv ts i t Hok (ex_intro _ b Hi)) as [Hinv Hi256].
  destruct (tree_live_range t _ k Hinv Hl) as (Hk & _ & Hr).
  change (tree_bytes LEVEL_COUNT PHYS_BASE_ORDER) with (2 ^ 30) in Hr.
  destruct (tree_deallocate_live t _ k Hinv Hl) as (t' & Ed & Hinv' & Hfree & Hlive).
  cbn [fa_deallocate pmm_ops]. unfold deallocate. rewrite E.
  change (LEVEL_COUNT - 1 + PHYS_BASE_ORDER) with 30. change (Z.shiftl 1 30) with (2 ^ 30).
  rewrite Z.shiftr_div_pow2 by lia.
  assert (f / 2 ^ 30 = Z.of_nat i) as -> by (Z.to_euclidean_division_equations; lia).
  assert (f mod 2 ^ 30 = f - Z.of_nat i * 2 ^ 30) as -> by (Z.to_euclidean_division_equations; lia).
  rewrite Nat2Z.id, Hi, Ed. cbn [rbind]. destruct a as [tsa]. simpl in E. subst tsa.
  eexists. split; [done|]. split_and!.
  - eexists. split; [done|]. by apply replace_ok.
  - intros x. rewrite !pa_free_some. by apply (replace_given ts i b t).
  - intros g j. rewrite !pa_live_some. apply (replace_dead ts i b t); try done; [|lia].
    intros y Hy. exact (tree_live_gib _ _ _ _ Hinv Hl Hy).
Qed.

Lemma pa_free_range a f : pa_inv a -> pa_free a f -> f mod 4096 = 0 /\ 0 <= f < 2 ^ 40.
Proof.
  intros (ts & E & Hok) (ts1 & E1 & i & t & Ht & Hf). simplify_eq.
  destruct (has_tree_inv ts i t Hok Ht) as [Hinv Hi].
  destruct (tree_free_gib _ _ Hinv Hf). Z.to_euclidean_division_equations. lia.
Qed.

#[export] Instance pmm_spec : FrameAllocatorSpec PhysicalAllocator := {|
  fa_inv := pa_inv;
  fa_free := pa_free;
  fa_live := pa_live;
  fa_free_range := pa_free_range;
  fa_allocate_returns a k :=
    pa_allocate_returns 0 257 uncontended a k (fun _ _ => eq_refl) (le_n 257);
  fa_allocate_some := pa_allocate_some 257 uncontended;
  fa_allocate_none := pa_allocate_none 257 uncontended;
  fa_live_not_free := pa_live_not_free;
  fa_deallocate_live := pa_deallocate_live
|}.

(** * Initialisation *)

Lemma allocate_from_first `{BF : BitFieldCrate} sz l i r a :
  Forall slot (l ++ [i]) -> (forall j, j ∈ l -> slot_used a j = true) -> slot_used a i = false ->
  allocate_from sz (l ++ i :: r) a =
    (Some (mkBox (start_addr a + i * sz)), mkBootstrap (start_addr a) (Z.setbit (bitmap a) i)).
Proof.
  induction l as [|x l IH]; intros Hs Hl Hi; simpl in *.
  - apply list.Forall_cons in Hs as [Hs _]. rewrite get_bit_spec by done. unfold slot_used in Hi.
    rewrite Hi. simpl. by rewrite set_bit_spec.
  - apply list.Forall_cons in Hs as [Hx Hs]. rewrite get_bit_spec by done.
    change (Z.testbit (bitmap a) x) with (slot_used a x). rewrite Hl by set_solver. simpl.
    apply IH; set_solver.
Qed.

Lemma range_excl_split a b c : a <= b <= c -> range_excl a c = range_excl a b ++ range_excl b c.
Proof.
  intros. unfold range_excl. replace (c - a) with ((b - a) + (c - b)) by lia.
  rewrite seqZ_app by lia. by replace (a + (b - a)) with b by lia.
Qed.

(** The bitmap with the first [i] slots used. *)
Lemma ones_used i j : 0 <= j -> 0 <= i -> Z.testbit (Z.ones i) j = bool_decide (j < i).
Proof.
  intros Hj Hi. case_bool_decide; [by rewrite Z.ones_spec_low|rewrite Z.ones_spec_high; lia || done].
Qed.

Lemma bootstrap_allocate_next `{BF : BitFieldCrate} sz addr i : 0 <= i < 8 ->
  bootstrap_allocate sz (mkBootstrap addr (Z.ones i)) =
    (Some (mkBox (addr + i * sz)), mkBootstrap addr (Z.ones (i + 1))).
Proof.
  intros Hi. unfold bootstrap_allocate.
  rewrite (range_excl_split 0 i 8), (range_excl_cons i 8) by lia.
  rewrite allocate_from_first.
  - simpl. f_equal. f_equal. apply Z.bits_inj'. intros j Hj. rewrite Z.setbit_eqb by lia.
    rewrite !ones_used by lia. repeat case_bool_decide; destruct (Z.eqb_spec i j); simpl; lia || done.
  - apply list.Forall_forall. intros j. rewrite elem_of_app, elem_of_range_excl, list_elem_of_singleton.
    unfold slot. lia.
  - intros j Hj%elem_of_range_excl. unfold slot_used. simpl. rewrite ones_used by lia.
    apply bool_decide_true. lia.
  - unfold slot_used. simpl. rewrite ones_used by lia. apply bool_decide_false. lia.
Qed.

(** Slots filled one by one. *)
Lemma fill_length (g : Z -> slot_t) l ts :
  length (foldl (fun ts i => <[Z.to_nat i := g i]> ts) ts l) = length ts.
Proof.
  revert ts. induction l as [|x l IH]; intros ts; simpl; [done|]. by rewrite IH, length_insert.
Qed.

Lemma fill_lookup (g : Z -> slot_t) l ts j :
  Forall (fun i => 0 <= i < Z.of_nat (length ts)) l ->
  foldl (fun ts i => <[Z.to_nat i := g i]> ts) ts l !! j =
    if decide (Z.of_nat j ∈ l) then Some (g (Z.of_nat j)) else ts !! j.
Proof.
  induction l as [|i l IH] using rev_ind; intros Hl; [done|].
  apply Forall_app in Hl as [Hl Hi]. apply list.Forall_cons in Hi as [Hi _].
  rewrite foldl_app. simpl.
  pose proof (fill_length g l ts) as Hlen.
  destruct (decide (j = Z.to_nat i)) as [->|Hne].
  - rewrite list_lookup_insert_eq by lia. rewrite Z2Nat.id by lia.
    rewrite decide_True by set_solver. done.
  - rewrite list_lookup_insert_ne by done. rewrite IH by done.
    destruct (decide (Z.of_nat j ∈ l)) as [Hin|Hnin].
    + by rewrite decide_True by set_solver.
    + rewrite decide_False; [done|]. rewrite elem_of_app, list_elem_of_singleton.
      intros [?|?]; [done|]. apply Hne. lia.
Qed.

Definition boot_slot (sz addr : Z) (usable : list (Z * Z)) (i : Z) : slot_t :=
  Some (Bootstrap (mkBox (addr + i * sz)), tree_new (localize i usable)).

Lemma init_slots_spec `{BF : BitFieldCrate} sz usable addr i ts : 0 <= i <= 8 ->
  init_slots sz usable (range_excl i 8) (Some (mkBootstrap addr (Z.ones i))) ts =
    Ret (Some (mkBootstrap addr (Z.ones 8)),
         foldl (fun ts j => <[Z.to_nat j := boot_slot sz addr usable j]> ts) ts (range_excl i 8)).
Proof.
  intros Hi. remember (Z.to_nat (8 - i)) as n eqn:En. revert i ts Hi En.
  induction n as [|n IH]; intros i ts Hi En.
  { replace i with 8 by lia. by rewrite range_excl_nil by lia. }
  rewrite range_excl_cons by lia. cbn [init_slots foldl].
  unfold heap_allocate. rewrite bootstrap_allocate_next by lia. cbn [rbind].
  rewrite IH by lia. done.
Qed.

(** The frame at [x] lies in a usable range. *)
Definition usable_frame (usable : list (Z * Z)) (x : Z) : Prop :=
  x mod 4096 = 0 /\ exists r, r ∈ usable /\ range_has r x /\ range_has r (x + 4095).

Definition ranges_ok (usable : list (Z * Z)) : Prop := Forall (fun r => 0 <= r.1) usable.

Lemma localize_spec gib usable y :
  0 <= gib -> ranges_ok usable -> 0 <= y -> y + 4095 < 2 ^ 30 ->
  (exists r, r ∈ localize gib usable /\ range_has r y /\ range_has r (y + 4095)) <->
  (exists r, r ∈ usable /\ range_has r (gib * 2 ^ 30 + y) /\ range_has r (gib * 2 ^ 30 + y + 4095)).
Proof.
  intros Hg Hu Hy Hy'. unfold localize, range_has. setoid_rewrite list_elem_of_omap. split.
  - intros (r & ([a b] & Hin & E) & H1 & H2). exists (a, b). split; [done|].
    rewrite !Z.shiftl_mul_pow2 in E by lia. case_match eqn:Hc; [|done]. injection E as <-.
    simpl in *. case_match eqn:Ha; simpl in *; lia.
  - intros ([a b] & Hin & H1 & H2). simpl in *. eexists. split; [exists (a, b); split; [done|]|].
    + rewrite !Z.shiftl_mul_pow2 by lia.
      replace ((a <=? (gib + 1) * 2 ^ 30 + 1) && (gib * 2 ^ 30 <=? b)) with true by lia. done.
    + simpl. case_match; simpl; lia.
Qed.

Lemma new_tree_free gib usable x :
  0 <= gib -> ranges_ok usable ->
  tree_free (tree_new (localize gib usable)) (x - gib * 2 ^ 30) <->
  usable_frame usable x /\ gib * 2 ^ 30 <= x < (gib + 1) * 2 ^ 30.
Proof.
  intros Hg Hu. rewrite tree_new_free. unfold usable_frame.
  change (tree_bytes LEVEL_COUNT PHYS_BASE_ORDER) with (2 ^ 30).
  change (2 ^ PHYS_BASE_ORDER) with 4096.
  assert ((x - gib * 2 ^ 30) mod 4096 = x mod 4096) as ->.
  { replace (x - gib * 2 ^ 30) with (x + (- gib * 2 ^ 18) * 4096) by lia. apply Z_mod_plus_full. }
  replace (x - gib * 2 ^ 30 + 4096 - 1) with (x - gib * 2 ^ 30 + 4095) by lia.
  split.
  - intros (Hm & Hr & He). apply localize_spec in He; [|done|done|lia|].
    2:{ Z.to_euclidean_division_equations. lia. }
    replace (gib * 2 ^ 30 + (x - gib * 2 ^ 30)) with x in He by lia. split; [done|lia].
  - intros ([Hm He] & Hr). split_and!; [done|lia|lia|].
    apply localize_spec; [done|done|lia|Z.to_euclidean_division_equations; lia|].
    by replace (gib * 2 ^ 30 + (x - gib * 2 ^ 30)) with x by lia.
Qed.

(** Every slot below [n] holds a new tree of its GiB, the others none. *)
Definition fresh_slots (usable : list (Z * Z)) (n : Z) (ts : list slot_t) : Prop :=
  length ts = 256%nat /\
  forall j o, ts !! j = Some o ->
    if decide (Z.of_nat j < n) then exists b, o = Some (b, tree_new (localize (Z.of_nat j) usable))
    else o = None.

Lemma fresh_slots_spec usable n ts :
  0 <= n <= 256 -> ranges_ok usable -> fresh_slots usable n ts ->
  let a := mkPhysicalAllocator (Some ts) in
  pa_inv a /\ (forall x, pa_free a x <-> usable_frame usable x /\ 0 <= x < n * 2 ^ 30) /\
  (forall f k, ~ pa_live a f k).
Proof.
  intros Hn Hu [Hlen Hts] a. unfold a. split_and!.
  - exists ts. split; [done|]. split; [done|]. apply list.Forall_forall.
    intros o [j Ho]%list_elem_of_lookup. specialize (Hts j o Ho).
    case_decide; [|by rewrite Hts]. destruct Hts as [b ->]. simpl. apply tree_new_inv.
  - intros x. rewrite pa_free_some. split.
    + intros (j & t & [b Hj] & Hx). specialize (Hts j _ Hj). case_decide; [|done].
      destruct Hts as [b' [= -> ->]]. apply new_tree_free in Hx; [|lia|done]. split; [tauto|lia].
    + intros [Hx Hr]. set (j := Z.to_nat (x / 2 ^ 30)).
      assert (0 <= x / 2 ^ 30 < n) as Hjn.
      { split; [by apply Z.div_pos; lia|]. apply Z.div_lt_upper_bound; lia. }
      assert (Z.of_nat j = x / 2 ^ 30) as Ej by (unfold j; lia).
      destruct (lookup_lt_is_Some_2 ts j) as [o Ho]; [lia|].
      pose proof (Hts j o Ho) as Hj. rewrite decide_True in Hj by lia. destruct Hj as [b ->].
      exists j, (tree_new (localize (Z.of_nat j) usable)). split; [by exists b|].
      apply new_tree_free; [lia|done|]. split; [done|]. rewrite Ej.
      Z.to_euclidean_division_equations. lia.
  - intros f k. rewrite pa_live_some. intros (j & t & [b Hj] & Hl).
    specialize (Hts j _ Hj). case_decide; [|done].
    destruct Hts as [b' [= -> ->]]. by apply tree_new_live in Hl.
Qed.

Lemma init_prelim_fresh `{BF : BitFieldCrate} sz usable addr :
  exists ts, init_prelim sz usable (Some (new_unchecked addr)) (mkPhysicalAllocator None) =
    Ret (Some (mkBootstrap addr (Z.ones 8)), mkPhysicalAllocator (Some ts)) /\
    fresh_slots usable 8 ts /\
    (forall i, 0 <= i < 8 -> ts !! Z.to_nat i = Some (boot_slot sz addr usable i)).
Proof.
  unfold init_prelim. cbn [trees].
  change (new_unchecked addr) with (mkBootstrap addr (Z.ones 0)).
  rewrite init_slots_spec by lia. cbn [rbind]. eexists. split; [done|].
  assert (Forall (fun i => 0 <= i < Z.of_nat (length (replicate 256 (@None (TreeBox * tree)))))
            (range_excl 0 8)) as Hf.
  { rewrite length_replicate. apply list.Forall_forall. intros j. rewrite elem_of_range_excl. lia. }
  split; [split|].
  - by rewrite fill_length, length_replicate.
  - intros j o. rewrite fill_lookup by done.
    destruct (decide (Z.of_nat j ∈ range_excl 0 8)) as [Hj|Hj]; rewrite elem_of_range_excl in Hj.
    + intros [= <-]. rewrite decide_True by lia. by eexists.
    + intros [-> _]%lookup_replicate. by rewrite decide_False by lia.
  - intros i Hi. rewrite fill_lookup by done. rewrite Z2Nat.id by lia.
    by rewrite decide_True by (by apply elem_of_range_excl).
Qed.

Lemma init_rest_fresh gibs usable ts :
  0 <= gibs < 256 -> fresh_slots usable 8 ts ->
  exists ts', init_rest gibs usable (mkPhysicalAllocator (Some ts)) =
    Ret (mkPhysicalAllocator (Some ts')) /\ fresh_slots usable (Z.max 8 (gibs + 1)) ts'.
Proof.
  intros Hg [Hlen Hts]. unfold init_rest. cbn [trees]. eexists. split; [done|].
  split; [by rewrite (fill_length (fun i => Some (HeapBox, tree_new (localize i usable))))|].
  intros j o. rewrite (fill_lookup (fun i => Some (HeapBox, tree_new (localize i usable)))).
  2:{ rewrite Hlen. apply list.Forall_forall. intros i. rewrite elem_of_range_incl. lia. }
  destruct (decide (Z.of_nat j ∈ range_incl 8 gibs)) as [Hj|Hj]; rewrite elem_of_range_incl in Hj.
  - intros [= <-]. rewrite decide_True by lia. by eexists.
  - intros Ho. specialize (Hts j o Ho). destruct (decide (Z.of_nat j < 8)).
    + by rewrite decide_True by lia.
    + by rewrite decide_False by lia.
Qed.

End physical_allocator.
