(* ===== verification/AllocatorTheorems.v ===== *)
(** The properties of the early memory managers: the bootstrap heap of
    [bootstrap_heap.rs] and the physical frame allocator of
    [physical_allocator.rs], with their concrete instances. *)
From S2P Require Import Prelude Crates Machine FrameAlloc BootstrapHeap Friendly FriendlyExample.
From S2P Require Import PhysicalAllocator.

Section bootstrap.
Context `{F : BitFieldCrate} (sz : Z).

(** C33: every box handed out lies in the heap's memory, no two live boxes overlap,
    at most eight are live, and allocation fails exactly when all eight are. *)
Theorem bootstrap_heap_safe addr a live :
  0 < sz -> rtc (heap_step sz) (new_unchecked addr, []) (a, live) ->
  (forall b, b ∈ live -> addr <= box_ptr b /\ box_ptr b + sz <= addr + space_taken sz) /\
  (forall i j b c, live !! i = Some b -> live !! j = Some c -> i <> j ->
     box_ptr b + sz <= box_ptr c \/ box_ptr c + sz <= box_ptr b) /\
  (length live <= 8)%nat /\
  ((bootstrap_allocate sz a).1 = None <-> length live = 8%nat).
Proof.
  intros Hsz Hr. destruct (heap_inv_reachable sz addr _ Hsz Hr) as (Ha & slots & Hl & Hnd & Hs & Hu).
  simpl in *. subst live. rewrite list.Forall_forall in Hs. unfold slot in *.
  assert (slots ⊆ range_excl 0 8) as Hsub by (intros i Hi; apply elem_of_range_excl; auto).
  assert (length slots <= 8)%nat as Hlen.
  { by apply (NoDup_submseteq _ _ Hnd), submseteq_length in Hsub. }
  split_and!.
  - intros b (i & -> & Hi)%list_elem_of_fmap. apply Hs in Hi. unfold space_taken. simpl. nia.
  - intros i j b c Hb Hc Hij.
    apply list_lookup_fmap_Some in Hb as (x & -> & Hx), Hc as (y & -> & Hy). simpl.
    assert (x <> y) by (intros ->; apply Hij; eapply NoDup_lookup; eauto). nia.
  - by rewrite length_fmap.
  - rewrite length_fmap. pose proof (bootstrap_allocate_spec sz a) as Hsp.
    destruct (bootstrap_allocate sz a) as [[b|] a']; simpl; split; try done.
    + intros H8. destruct Hsp as (i & Hi & Hf & _).
      assert (i ∈ slots) as Hin; [|apply (Hu i Hi) in Hin; congruence].
      apply (NoDup_submseteq _ _ Hnd), submseteq_length_Permutation in Hsub;
        [|by rewrite H8].
      rewrite Hsub. by apply elem_of_range_excl.
    + intros _. destruct Hsp as [_ Hall]. apply Nat.le_antisymm; [done|].
      assert (range_excl 0 8 ⊆ slots) as Hsup.
      { intros x Hx%elem_of_range_excl. apply Hu; auto. }
      apply (NoDup_submseteq _ _ (NoDup_seqZ _ _)), submseteq_length in Hsup. done.
Qed.

End bootstrap.

Section allocator.
Context `{X : X86_64Crate} `{T : FriendlyTree LEVEL_COUNT PHYS_BASE_ORDER}.

(** C32: [PhysicalAllocator::init_prelim] followed by [init_rest] succeeds on a fresh
    bootstrap heap, gives the trees of the first eight GiB disjoint boxes of it,
    and afterwards the allocator offers exactly the 4 KiB frames that lie wholly in
    a usable range and below the last initialised GiB; nothing is handed out yet. *)
Theorem init_offers_usable_frames `{BF : BitFieldCrate} sz usable addr gibs :
  ranges_ok usable -> 0 <= gibs < 256 ->
  exists h a1 a2,
    init_prelim sz usable (Some (new_unchecked addr)) (mkPhysicalAllocator None) = Ret (h, a1) /\
    init_rest gibs usable a1 = Ret a2 /\
    (exists ts, trees a1 = Some ts /\ forall i, 0 <= i < 8 ->
       ts !! Z.to_nat i =
         Some (Some (Bootstrap (mkBox (addr + i * sz)), tree_new (localize i usable)))) /\
    pa_inv a1 /\ (forall x, pa_free a1 x <-> usable_frame usable x /\ 0 <= x < 8 * 2 ^ 30) /\
    pa_inv a2 /\
    (forall x, pa_free a2 x <-> usable_frame usable x /\ 0 <= x < Z.max 8 (gibs + 1) * 2 ^ 30) /\
    (forall f k, ~ pa_live a2 f k).
Proof.
  intros Hu Hg. destruct (init_prelim_fresh sz usable addr) as (ts & E & Hfr & Hbox).
  destruct (init_rest_fresh gibs usable ts Hg Hfr) as (ts' & E' & Hfr').
  destruct (fresh_slots_spec usable 8 ts ltac:(lia) Hu Hfr) as (Hi & Hf & _).
  destruct (fresh_slots_spec usable (Z.max 8 (gibs + 1)) ts' ltac:(lia) Hu Hfr') as (Hi' & Hf' & Hl').
  eexists _, _, _. split; [exact E|]. split; [exact E'|]. split_and!; try done.
  exists ts. split; [done|]. exact Hbox.
Qed.

(** C3: [PhysicalAllocator::allocate] returns once the trees it finds locked are
    released: with [N] the number of [try_lock]s that may fail, [N + 257] iterations
    are enough. A frame it returns is aligned to its size, was free, is recorded as
    handed out and no longer offered, and every other frame is as before; it returns
    [None] only when no GiB has a free aligned block of that order, and then nothing
    changed. *)
Theorem allocate_correct N fuel busy a k :
  (forall m, (N <= m)%nat -> busy m = false) -> (N + 256 < fuel)%nat ->
  pa_inv a -> 0 <= k <= 18 ->
  exists o a', allocate fuel busy k a = Ret (o, a') /\ pa_inv a' /\
    match o with
    | Some f =>
        f mod 2 ^ (k + 12) = 0 /\ (forall x, in_block f k x -> pa_free a x) /\
        (forall x, pa_free a' x <-> pa_free a x /\ ~ in_block f k x) /\
        (forall g j, pa_live a' g j <-> (g = f /\ j = k) \/ pa_live a g j)
    | None =>
        (forall x, pa_free a' x <-> pa_free a x) /\
        (forall g j, pa_live a' g j <-> pa_live a g j) /\
        (forall f, f mod 2 ^ (k + 12) = 0 -> ~ (forall x, in_block f k x -> pa_free a x))
    end.
Proof.
  intros HN Hfuel Hinv Hk.
  destruct (pa_allocate_returns N fuel busy a k HN Hfuel Hinv Hk) as (o & a' & E & Hinv').
  exists o, a'. split_and!; [done|done|]. destruct o as [f|].
  - by eapply pa_allocate_some.
  - by eapply pa_allocate_none.
Qed.

(** C20: a block that [allocate] returned can be given back: [deallocate] finds the
    tree and the offset it came from, does not panic, and the allocator offers and
    has handed out exactly what it did before the allocation. *)
Theorem allocate_deallocate_roundtrip fuel busy a k f a' :
  pa_inv a -> 0 <= k <= 18 -> allocate fuel busy k a = Ret (Some f, a') ->
  exists a'', deallocate f k a' = Ret (tt, a'') /\ pa_inv a'' /\
    (forall x, pa_free a'' x <-> pa_free a x) /\
    (forall g j, pa_live a'' g j <-> pa_live a g j).
Proof.
  intros Hinv Hk E. pose proof (pa_allocate_inv _ _ _ _ _ _ Hinv Hk E) as Hinv'.
  destruct (pa_allocate_some _ _ _ _ _ _ Hinv Hk E) as (_ & Hfree & Hfree' & Hlive).
  destruct (pa_deallocate_live a' f k Hinv') as (a'' & E'' & Hinv'' & Hf'' & Hl'').
  { apply Hlive. auto. }
  assert (in_block f k f) as Hself.
  { exists 0. split; [|lia]. split; [lia|]. apply Z.pow_pos_nonneg; lia. }
  exists a''. split_and!; [done|done|..].
  - intros x. rewrite Hf'', Hfree'. destruct (decide (in_block f k x)); naive_solver.
  - intros g j. rewrite Hl'', Hlive. split; [tauto|]. intros Hg. split; [auto|].
    intros [-> ->]. by eapply (pa_live_not_free a f k f); eauto.
Qed.

End allocator.

(** * Concrete instances *)

Section examples.
#[local] Existing Instance x86_64_example.
#[local] Existing Instance bit_field_example.
#[local] Instance frames_example : FriendlyTree LEVEL_COUNT PHYS_BASE_ORDER :=
  friendly_example 19 12 ltac:(lia) ltac:(lia).

(** Two boxes are taken, the first is dropped, and its slot is taken again. *)
Lemma bootstrap_heap_safe_witness :
  exists a, rtc (heap_step 64) (new_unchecked 4096, []) (a, [mkBox 4096; mkBox 4160]) /\
    (length [mkBox 4096; mkBox 4160] <= 8)%nat.
Proof.
  assert (rtc (heap_step 64) (new_unchecked 4096, []) (mkBootstrap 4096 3, [mkBox 4096; mkBox 4160]))
    as Hr.
  { eapply rtc_l; [by apply step_allocate|]. eapply rtc_l; [by apply step_allocate|].
    eapply rtc_l; [by apply (step_drop 64 _ [mkBox 4160] (mkBox 4096) [])|].
    eapply rtc_l; [by apply step_allocate|]. apply rtc_refl. }
  eexists. split; [exact Hr|]. by apply (bootstrap_heap_safe 64 _ _ _ eq_refl Hr).
Defined.

(** Memory with a hole: 1 MiB to 2 MiB, and 5 MiB to 6 MiB. *)
Definition example_usable : list (Z * Z) := [(0x100000, 0x200000); (0x500000, 0x600000)].

Lemma example_usable_ok : ranges_ok example_usable.
Proof. repeat constructor; simpl; lia. Qed.

Lemma init_offers_usable_frames_witness :
  exists h a1 a2,
    init_prelim 64 example_usable (Some (new_unchecked 4096)) (mkPhysicalAllocator None) = Ret (h, a1) /\
    init_rest 9 example_usable a1 = Ret a2 /\ pa_inv a2 /\
    (pa_free a2 0x100000 <-> usable_frame example_usable 0x100000 /\ 0 <= 0x100000 < Z.max 8 10 * 2 ^ 30).
Proof.
  destruct (init_offers_usable_frames 64 example_usable 4096 9 example_usable_ok ltac:(lia))
    as (h & a1 & a2 & E1 & E2 & _ & _ & _ & Hi & Hf & _).
  exists h, a1, a2. split; [exact E1|]. split; [exact E2|]. split; [exact Hi|]. apply Hf.
Defined.

(** The allocator after the first stage of initialisation. *)
Definition example_allocator : PhysicalAllocator :=
  match init_prelim 64 example_usable (Some (new_unchecked 4096)) (mkPhysicalAllocator None) with
  | Ret (_, a) => a
  | Stop _ => mkPhysicalAllocator None
  end.

Lemma example_allocator_inv : pa_inv example_allocator.
Proof.
  unfold example_allocator.
  destruct (init_prelim_fresh 64 example_usable 4096) as (ts & -> & Hfr & _).
  by destruct (fresh_slots_spec example_usable 8 ts ltac:(lia) example_usable_ok Hfr).
Qed.

Lemma example_allocator_free x :
  pa_free example_allocator x <-> usable_frame example_usable x /\ 0 <= x < 8 * 2 ^ 30.
Proof.
  unfold example_allocator.
  destruct (init_prelim_fresh 64 example_usable 4096) as (ts & -> & Hfr & _).
  destruct (fresh_slots_spec example_usable 8 ts ltac:(lia) example_usable_ok Hfr) as (_ & Hf & _).
  apply Hf.
Qed.

Lemma allocate_correct_witness :
  exists o a', allocate 300 (fun n => Nat.ltb n 3) 2 example_allocator = Ret (o, a') /\ pa_inv a'.
Proof.
  destruct (allocate_correct 3 300 (fun n => Nat.ltb n 3) example_allocator 2) as (o & a' & E & Hi & _).
  - intros m Hm. apply Nat.ltb_ge. exact Hm.
  - lia.
  - exact example_allocator_inv.
  - lia.
  - exists o, a'. split; [exact E|exact Hi].
Defined.

Lemma allocate_deallocate_roundtrip_witness :
  exists f a' a'', allocate 257 uncontended 0 example_allocator = Ret (Some f, a') /\
    deallocate f 0 a' = Ret (tt, a'') /\ pa_inv a''.
Proof.
  assert (match allocate 257 uncontended 0 example_allocator with
          | Ret (Some _, _) => true | _ => false end = true) as Hs by (vm_compute; reflexivity).
  destruct (allocate 257 uncontended 0 example_allocator) as [[[f|] a']|w] eqn:E;
    [|discriminate Hs..].
  destruct (allocate_deallocate_roundtrip 257 uncontended example_allocator 0 f a'
              example_allocator_inv ltac:(lia) E) as (a'' & E' & Hi & _).
  exists f, a', a''. split; [reflexivity|]. split; [exact E'|exact Hi].
Defined.

End examples.
