(* ===== verification/PagingTheorems.v ===== *)
(** The properties of the page tables and the [Mapper] ([paging.rs],
    [page_map.rs]), and concrete instances of them. *)
From S2P Require Import Prelude Crates Machine FrameAlloc Paging Layout PageMap.
From S2P Require Import AddressSpace PagingLemmas PageMapLemmas MapperLemmas UnmapLemmas.
From S2P Require Import BootstrapHeap Friendly FriendlyExample PhysicalAllocator AllocatorTheorems.

Section theorems.
Context `{B : Build} `{X : X86_64Crate} `{F : BitflagsCrate}.
Context {P : Type} `{FA : FrameAllocator P} `{FS : !FrameAllocatorSpec P}.
Implicit Types s : machine P.

(** C19: the recursive mapping works. For a table reached from the P4 table by the
    indices [p], its virtual address [tva p] is translated by the MMU to the frame
    that holds it, and [next_table_addr] on entry [i] gives the virtual address of
    the next table exactly when the entry is present and not huge. *)
Theorem recursive_window_correct s p f i :
  rec_ok (mem s) (cr3 s) -> Forall idx p -> (length p <= 2)%nat -> idx i ->
  table_at (mem s) (cr3 s) p = Some f ->
  (forall off, 0 <= off < 4096 ->
     fst <$> mmu_walk (mem s) (cr3 s) (tva p + off) = Some (f + off)) /\
  next_table_addr (tva p) i s =
    Ret (if e_present (entry_at (mem s) f i) && negb (e_huge (entry_at (mem s) f i))
         then Some (tva (p ++ [i])) else None, s).
Proof.
  intros Hr Hp Hl Hi Hf. split.
  - intros off Ho. rewrite (mmu_walk_tva _ _ Hr p f off) by (done || lia). done.
  - rewrite (next_table_addr_spec s p f i) by done. unfold next_frame. by destruct (_ && _).
Qed.

(** C16: [walk_page_table] is the translation the MMU performs. It changes nothing,
    computes the reference walk of the physical tables, and whenever it does not
    panic (on a 1 GiB or misaligned 2 MiB page) the physical address it gives for an
    address of the page is the one the MMU uses, with [None] for a page fault. *)
Theorem walk_page_table_correct s va :
  rec_ok (mem s) (cr3 s) -> 0 <= va -> canonical va = true ->
  walk_page_table (containing_address va) s =
    returning (ref_walk (mem s) (cr3 s) (containing_address va)) s /\
  forall r s', walk_page_table (containing_address va) s = Ret (r, s') ->
    s' = s /\ fst <$> mmu_walk (mem s) (cr3 s) va = translation r va.
Proof.
  intros Hr Hva Hc. rewrite walk_page_table_ref by done. split; [done|]. intros r s'.
  destruct (ref_walk _ _ _) as [r'|w] eqn:E; [|done]. intros [= -> <-].
  split; [done|]. by apply ref_walk_mmu.
Qed.

(** C2: [map_to] never panics on a 4 KiB page whose tables hold no huge page. It
    either installs exactly the mapping asked for, changing the translation of no
    other page, keeping the tables well formed and taking at most three new tables
    from free frames; or it reports out of memory, which happens only when fewer than
    three frames are free, and then no translation changed. *)
Theorem map_to_correct s page pa fl inv :
  tables_inv s -> page_ok page -> path_clear s page ->
  pa mod 4096 = 0 -> 0 <= pa < 2 ^ 48 -> flags_ok fl ->
  exists r s', map_to page pa fl inv s = Ret (r, s') /\
    match r with
    | Ok _ => evolves (same_page page) s s' /\
        (forall off, 0 <= off < 4096 ->
           mmu_walk (mem s') (cr3 s') (number page * 4096 + off) = Some (pa + off, e_writable fl)) /\
        small_mapping (mem s') (cr3 s') page (leaf_entry pa fl) /\
        tlb s' = tlb (flushed inv page s) /\ takes 3 s s'
    | Err _ => evolves (fun _ => False) s s' /\ short_of 3 s /\ tlb s' = tlb s
    end.
Proof.
  intros Hinv Hp Hc Hpa Hr Hfl.
  destruct (map_to_spec s page pa fl inv Hinv Hp Hc Hpa Hr Hfl) as (r & s' & E & Hres).
  exists r, s'. split; [done|]. destruct r as [u|u].
  - destruct Hres as (Hev & Hm & Ht & Htk). split_and!; [done| |done|done|done]. intros off Ho.
    rewrite (mmu_small _ _ page (leaf_entry pa fl) off (ti_space _ (ev_inv _ _ _ Hev)) Hp Hm Ho).
    destruct (leaf_entry_facts pa fl Hpa Hr Hfl) as (-> & _ & ->). done.
  - tauto.
Qed.

(** [map] backs a page with a frame of its own: free before, handed out now,
    not a page table, full of zeroes when [ZeroPage::Zero] is asked for, and reached
    by every address of the page; no other page changes and at most four frames are
    taken. It reports out of memory only when fewer than four frames are free, and
    then no page changes. *)
Theorem map_correct s page fl inv z :
  tables_inv s -> page_ok page -> path_clear s page -> flags_ok fl ->
  (z = Zero -> e_writable fl || negb (cr0_wp s) = true) ->
  exists r s', map page fl inv z s = Ret (r, s') /\
    match r with
    | Ok _ => exists f, evolves (same_page page) s s' /\
        fa_free (pmm s) f /\ ~ fa_free (pmm s') f /\ fa_live (pmm s') f 0 /\ ~ is_table s' f /\
        (forall off, 0 <= off < 4096 ->
           mmu_walk (mem s') (cr3 s') (number page * 4096 + off) = Some (f + off, e_writable fl)) /\
        (z = Zero -> forall i, idx i -> entry_at (mem s') f i = 0) /\ takes 4 s s'
    | Err _ => evolves (fun _ => False) s s' /\ short_of 4 s
    end.
Proof.
  intros Hinv Hp Hc Hfl Hz.
  destruct (map_spec s page fl inv z Hinv Hp Hc Hfl Hz) as (r & s' & E & Hres).
  exists r, s'. split; [done|]. destruct r as [u|u].
  - destruct Hres as (f & H1 & H2 & H3 & H4 & Hev & Hm & H5 & _ & Htk). exists f.
    split_and!; try done. intros off Ho.
    rewrite (mmu_small _ _ page _ off (ti_space _ (ev_inv _ _ _ Hev)) Hp Hm Ho).
    destruct (fa_free_range _ _ (ti_fa _ Hinv) H1) as [Hal Hr].
    destruct (leaf_entry_facts f fl Hal ltac:(lia) Hfl) as (-> & _ & ->). done.
  - tauto.
Qed.

(** [map_range] gives every page of the range a frame of its own (no two pages
    share one) and touches no other page; when it runs out of memory, exactly the
    pages below some page [k] have been given frames and stay mapped, and the frames
    that were free are too few for the pages up to [k] and their tables (four each). *)
Theorem map_range_correct s a b fl inv z :
  tables_inv s -> flags_ok fl -> (z = Zero -> e_writable fl || negb (cr0_wp s) = true) ->
  (forall n, a <= n <= b -> page_ok (page_no n) /\ path_clear s (page_no n)) ->
  exists r s', map_range (page_no a) (page_no b) fl inv z s = Ret (r, s') /\
    match r with
    | Ok _ => pages_backed fl z a (Z.max a (b + 1)) s s' /\ takes (4 * Z.max 0 (b + 1 - a)) s s'
    | Err _ => exists k, a <= k <= b /\ pages_backed fl z a k s s' /\ short_of (4 * (k - a + 1)) s
    end.
Proof. apply map_range_spec. Qed.

(** C4: [try_map_user_range] only ever maps pages of the user half up to the page of
    [STACK_BOTTOM]. It answers [InvalidAddress], with the machine unchanged, exactly
    when the range ends above that page or starts beyond the lower half, and names the page that is at fault; otherwise
    it maps the whole range, none of whose pages was mapped before (unless told to
    ignore that), or stops at the first page [k] that is mapped already or for which
    memory runs out (too few free frames for the pages up to [k] and their tables),
    the pages before [k] being mapped. Pages that are to be cleared have to be asked for as writable, unless
    [CR0.WP] is off. *)
Theorem try_map_user_range_correct s a b fl inv ign z :
  tables_inv s -> flags_ok fl -> (z = Zero -> e_writable fl || negb (cr0_wp s) = true) ->
  0 <= a < 2 ^ 52 -> 0 <= b < 2 ^ 52 ->
  (forall n, a <= n <= b -> path_clear s (page_no n)) ->
  exists r s', try_map_user_range (page_no a) (page_no b) fl inv ign z s = Ret (r, s') /\
    match r with
    | Ok _ => user_range_ok a b = true /\ pages_backed fl z a (Z.max a (b + 1)) s s' /\
        takes (4 * Z.max 0 (b + 1 - a)) s s' /\ forall n, a <= n <= b -> user_fresh ign n s
    | Err (InvalidAddress p) => user_range_ok a b = false /\ p = page_no (refused_page a b) /\ s' = s
    | Err (AlreadyMapped p) => user_range_ok a b = true /\ ign = false /\
        exists k, a <= k <= b /\ p = page_no k /\ pages_backed fl z a k s s' /\
          exists e, small_mapping (mem s') (cr3 s') p e
    | Err TryOutOfMemory => user_range_ok a b = true /\
        exists k, a <= k <= b /\ pages_backed fl z a k s s' /\ short_of (4 * (k - a + 1)) s
    end.
Proof. apply try_map_user_range_spec. Qed.

(** [set_flags] on a mapped range keeps every page on its frame, gives each the
    new flags, changes no other page and allocates nothing. *)
Theorem set_flags_correct s a b fl inv (en : Z -> Z) :
  tables_inv s -> flags_ok fl ->
  (forall n, a <= n <= b -> page_ok (page_no n) /\
     small_mapping (mem s) (cr3 s) (page_no n) (en n) /\ e_addr (en n) < 2 ^ 48) ->
  exists s', set_flags (page_no a) (page_no b) fl inv s = Ret (tt, s') /\
    evolves (in_pages a (b + 1)) s s' /\ pmm s' = pmm s /\
    forall n off, a <= n <= b -> 0 <= off < 4096 ->
      mmu_walk (mem s') (cr3 s') (n * 4096 + off) = Some (e_addr (en n) + off, e_writable fl).
Proof.
  intros Hinv Hfl Hp. destruct (set_flags_spec s a b fl inv en Hinv Hfl Hp) as (s' & E & Hev & Hpm & Hm).
  exists s'. split_and!; [done|done|done|]. intros n off Hn Ho. destruct (Hp n Hn) as (Hok & _ & Hr).
  change (n * 4096 + off) with (number (page_no n) * 4096 + off).
  rewrite (mmu_small _ _ (page_no n) _ off (ti_space _ (ev_inv _ _ _ Hev)) Hok (Hm n Hn) Ho).
  destruct (e_addr_range (en n)) as [Hal Hlo].
  destruct (leaf_entry_facts (e_addr (en n)) fl Hal ltac:(lia) Hfl) as (-> & _ & ->). done.
Qed.

(** C14: [unmap] of a mapped 4 KiB page removes that mapping and no other, keeps the
    tables well formed, and with [FreeMemory::Free] gives exactly the page's frame
    back to the allocator; it flushes the page when asked to. *)
Theorem unmap_correct s page free inv e :
  tables_inv s -> page_ok page -> small_mapping (mem s) (cr3 s) page e ->
  (free = Free -> fa_live (pmm s) (e_addr e) 0 /\ ~ is_table s (e_addr e)) ->
  exists s', unmap page free inv s = Ret (tt, s') /\ tables_inv s' /\
    ref_walk (mem s') (cr3 s') page = Ret None /\
    (forall page', p4_index page' <> REC -> ~ same_page page page' ->
       ref_walk (mem s') (cr3 s') page' = ref_walk (mem s) (cr3 s) page') /\
    (forall x, fa_free (pmm s') x <-> fa_free (pmm s) x \/ (free = Free /\ x = e_addr e)) /\
    tlb s' = tlb (flushed inv page s).
Proof.
  intros Hinv Hp Hm Hf. destruct (unmap_spec s page free inv e Hinv Hp Hm Hf) as (s' & E & [] & Ht).
  exists s'. by split_and!.
Qed.

(** [unmap_range] removes the mapping of every page of a mapped range and of no
    other page, and with [FreeMemory::Free] gives back exactly their frames. *)
Theorem unmap_range_correct s a b free inv (en : Z -> Z) :
  tables_inv s ->
  (forall n, a <= n <= b -> page_ok (page_no n) /\ small_mapping (mem s) (cr3 s) (page_no n) (en n) /\
     (free = Free -> fa_live (pmm s) (e_addr (en n)) 0 /\ ~ is_table s (e_addr (en n)))) ->
  (free = Free -> forall n m, a <= n <= b -> a <= m <= b -> e_addr (en n) = e_addr (en m) -> n = m) ->
  exists s', unmap_range (page_no a) (page_no b) free inv s = Ret (tt, s') /\ tables_inv s' /\
    (forall n, a <= n <= b -> ref_walk (mem s') (cr3 s') (page_no n) = Ret None) /\
    (forall page, p4_index page <> REC -> ~ in_pages a (b + 1) page ->
       ref_walk (mem s') (cr3 s') page = ref_walk (mem s) (cr3 s) page) /\
    (forall x, fa_free (pmm s') x <->
       fa_free (pmm s) x \/ (free = Free /\ exists n, a <= n <= b /\ x = e_addr (en n))).
Proof.
  intros Hinv Hp Hi. destruct (unmap_range_spec s a b free inv en Hinv Hp Hi)
    as (s' & E & H1 & H2 & H3 & _ & H4 & _). exists s'. by split_and!.
Qed.

(** mapping a page that was not mapped and unmapping it again (with
    [FreeMemory::Free]) restores every translation, and the frame that backed the
    page is free again. *)
Theorem map_unmap_roundtrip s page fl inv inv' z r s1 :
  tables_inv s -> page_ok page -> path_clear s page -> flags_ok fl ->
  (z = Zero -> e_writable fl || negb (cr0_wp s) = true) ->
  ref_walk (mem s) (cr3 s) page = Ret None ->
  map page fl inv z s = Ret (Ok r, s1) ->
  exists f s2, fa_free (pmm s) f /\ ~ fa_free (pmm s1) f /\
    unmap page Free inv' s1 = Ret (tt, s2) /\ tables_inv s2 /\ fa_free (pmm s2) f /\
    forall page', p4_index page' <> REC ->
      ref_walk (mem s2) (cr3 s2) page' = ref_walk (mem s) (cr3 s) page'.
Proof.
  intros Hinv Hp Hc Hfl Hz Hn E.
  destruct (map_spec s page fl inv z Hinv Hp Hc Hfl Hz) as (r' & s1' & E' & Hres).
  rewrite E in E'. injection E' as <- <-.
  destruct Hres as (f & H1 & H2 & H3 & H4 & Hev & Hm & _ & _).
  destruct (fa_free_range _ _ (ti_fa _ Hinv) H1) as [Hal Hr].
  destruct (leaf_entry_facts f fl Hal ltac:(lia) Hfl) as (Ha & _ & _).
  destruct (unmap_spec s1 page Free inv' (leaf_entry f fl) (ev_inv _ _ _ Hev) Hp Hm) as (s2 & Eu & Hum & _).
  { by rewrite Ha. }
  destruct Hum as [Hi2 Hg Ho Ht Hf2 _ _ _ Hc2 _ _ _]. rewrite Ha in *.
  exists f, s2. split_and!; try done; [apply Hf2; auto|].
  intros page' Hr'. destruct (decide (same_page page page')) as [Hs|Hne].
  { by rewrite <- !(ref_walk_same_page _ _ page page' Hs), Hg. }
  rewrite Ho by done. rewrite (ev_cr3 _ _ _ Hev). by apply (ev_walk _ _ _ Hev).
Qed.

End theorems.

(** * Concrete instances

    A machine whose P4 table, at [0x1000], holds nothing but its recursive entry,
    with the physical allocator after [init_prelim] on two usable ranges. *)
Section examples.
#[local] Existing Instance x86_64_example.
#[local] Existing Instance bit_field_example.
#[local] Existing Instance bitflags_example.
#[local] Existing Instance frames_example.
#[local] Instance debug_build : Build := {| overflow_checks := true |}.

Definition example_machine : machine PhysicalAllocator :=
  Machine {[ 0x1000 + 8 * 510 := 0x1003 ]} 0x1000 0 true [] example_allocator.

Lemma example_rec : rec_ok (mem example_machine) (cr3 example_machine).
Proof. by split. Qed.

Lemma example_empty i : idx i -> i <> REC ->
  entry_at (mem example_machine) (cr3 example_machine) i = 0.
Proof.
  unfold idx, REC. intros Hi Hne. unfold entry_at, word. cbn [mem cr3 example_machine].
  by rewrite lookup_singleton_ne by lia.
Qed.

Lemma example_no_table q : vpath q -> q <> [] ->
  table_at (mem example_machine) (cr3 example_machine) q = None.
Proof.
  intros Hq Hne. apply (root_only_table_at _ _ (fun i Hi Hr => f_equal e_present (example_empty i Hi Hr))
    q Hq Hne).
Qed.

Lemma example_table q f : vpath q -> table_at (mem example_machine) (cr3 example_machine) q = Some f ->
  q = [] /\ f = 0x1000.
Proof.
  intros Hq Hf. destruct q as [|i q]; [by injection Hf as <-|].
  by rewrite example_no_table in Hf.
Qed.

Lemma example_tables : tables_inv example_machine.
Proof.
  split.
  - apply root_only_space_ok; [apply example_rec|]. intros i Hi Hne. by rewrite example_empty.
  - exact example_allocator_inv.
  - intros f (q & Hq & Hf). apply (example_table q f Hq) in Hf as [_ ->].
    cbn [pmm example_machine fa_free pmm_spec]. intros Hc.
    apply example_allocator_free in Hc as [(_ & r & Hr & H1 & _) _].
    unfold example_usable in Hr. apply elem_of_cons in Hr as [->|Hr].
    { destruct H1. simpl in *. lia. }
    apply list_elem_of_singleton in Hr as ->. destruct H1. simpl in *. lia.
Qed.

Lemma example_clear page : p4_index page <> REC -> path_clear example_machine page.
Proof.
  intros Hr. split; intros e He; unfold ent in He.
  - injection He as <-. by rewrite example_empty by auto with wolffia.
  - rewrite (example_no_table [_]) in He; [done|by apply vpath_page_1|done].
  - rewrite (example_no_table [_; _]) in He; [done|by apply vpath_page_2|done].
Qed.

Lemma example_user_clear n : 0 <= n <= 5 -> page_ok (page_no n) /\ path_clear example_machine (page_no n).
Proof.
  intros Hn. assert (page_ok (page_no n)) as Hok by (apply user_page_ok; unfold LAST_USER_PAGE; lia).
  split; [done|]. apply example_clear, Hok.
Qed.

(** The frames from 1 MiB on are free. *)
Lemma example_enough c : c <= 256 -> ~ short_of c example_machine.
Proof.
  intros Hc. apply (not_short c _ ((fun i => 0x100000 + 4096 * i) <$> range_excl 0 256)).
  - apply NoDup_fmap_2_strong; [intros x y _ _ ?; lia|]. apply NoDup_seqZ.
  - rewrite length_fmap. change (Z.of_nat (length (range_excl 0 256))) with 256. done.
  - intros x (i & -> & Hi%elem_of_range_excl)%list_elem_of_fmap.
    cbn [pmm example_machine fa_free pmm_spec]. apply example_allocator_free. split; [|lia].
    split; [Z.to_euclidean_division_equations; lia|].
    exists (0x100000, 0x200000). split; [by left|]. unfold range_has; simpl. lia.
Qed.

Definition rw : Z := Z.lor PRESENT WRITABLE.

Lemma recursive_window_correct_witness :
  next_table_addr (tva []) 510 example_machine = Ret (Some (tva [510]), example_machine).
Proof.
  destruct (recursive_window_correct example_machine [] 0x1000 510 example_rec (Forall_nil_2 _)
              ltac:(simpl; lia) ltac:(unfold idx; lia) eq_refl) as [_ E].
  rewrite E. reflexivity.
Defined.

Lemma walk_page_table_correct_witness :
  exists r, walk_page_table (containing_address (tva [])) example_machine = Ret (r, example_machine) /\
    fst <$> mmu_walk (mem example_machine) (cr3 example_machine) (tva []) = translation r (tva []).
Proof.
  assert (0 <= tva []) as H0 by (vm_compute; congruence).
  assert (canonical (tva []) = true) as Hc by reflexivity.
  destruct (walk_page_table_correct example_machine (tva []) example_rec H0 Hc) as [E Hw].
  eexists. split; [rewrite E; reflexivity|].
  exact (proj2 (Hw _ _ E)).
Defined.

Lemma map_to_correct_witness :
  exists s', map_to (page_no 3) 0x5000 rw Invalidate example_machine = Ret (Ok tt, s') /\
    mmu_walk (mem s') (cr3 s') (3 * 4096 + 0x123) = Some (0x5000 + 0x123, true).
Proof.
  destruct (example_user_clear 3 ltac:(lia)) as [Hok Hcl].
  destruct (map_to_correct example_machine (page_no 3) 0x5000 rw Invalidate example_tables Hok Hcl
              eq_refl ltac:(lia) eq_refl) as ([[]|u] & s' & E & Hr).
  - exists s'. split; [exact E|]. exact (proj1 (proj2 Hr) 0x123 ltac:(lia)).
  - destruct (example_enough 3 ltac:(lia) (proj1 (proj2 Hr))).
Defined.

Lemma map_correct_witness :
  exists f s', map (page_no 3) rw Invalidate Zero example_machine = Ret (Ok tt, s') /\
    mmu_walk (mem s') (cr3 s') (3 * 4096 + 0x123) = Some (f + 0x123, true).
Proof.
  destruct (example_user_clear 3 ltac:(lia)) as [Hok Hcl].
  destruct (map_correct example_machine (page_no 3) rw Invalidate Zero example_tables Hok Hcl
              eq_refl (fun _ => eq_refl)) as ([[]|u] & s' & E & Hr).
  - destruct Hr as (f & _ & _ & _ & _ & _ & Hw & _). exists f, s'. split; [exact E|].
    exact (Hw 0x123 ltac:(lia)).
  - destruct (example_enough 4 ltac:(lia) (proj2 Hr)).
Defined.

Lemma map_range_correct_witness :
  exists s', map_range (page_no 3) (page_no 5) rw NoInvalidate Zero example_machine = Ret (Ok tt, s') /\
    pages_backed rw Zero 3 6 example_machine s'.
Proof.
  destruct (map_range_correct example_machine 3 5 rw NoInvalidate Zero example_tables eq_refl
              (fun _ => eq_refl) (fun n Hn => example_user_clear n ltac:(lia))) as ([[]|u] & s' & E & Hr).
  - exists s'. split; [exact E|exact (proj1 Hr)].
  - destruct Hr as (k & Hk & _ & Hs). destruct (example_enough (4 * (k - 3 + 1)) ltac:(lia) Hs).
Defined.

Lemma try_map_user_range_correct_witness :
  exists r s', try_map_user_range (page_no 3) (page_no 5) rw Invalidate true Zero example_machine
    = Ret (Ok r, s') /\ pages_backed rw Zero 3 6 example_machine s'.
Proof.
  destruct (try_map_user_range_correct example_machine 3 5 rw Invalidate true Zero example_tables
              eq_refl (fun _ => eq_refl) ltac:(lia) ltac:(lia)
              (fun n Hn => proj2 (example_user_clear n ltac:(lia)))) as ([[]|[p|p|]] & s' & E & Hr).
  - exists tt, s'. split; [exact E|exact (proj1 (proj2 Hr))].
  - destruct Hr as [Hr _]. discriminate Hr.
  - destruct Hr as (_ & Hr & _). discriminate Hr.
  - destruct Hr as (_ & k & Hk & _ & Hs). destruct (example_enough (4 * (k - 3 + 1)) ltac:(lia) Hs).
Defined.

(** Page 3 mapped on the example machine. *)
Lemma example_map_ok : exists r s1, map (page_no 3) rw Invalidate Zero example_machine = Ret (Ok r, s1).
Proof.
  assert (match map (page_no 3) rw Invalidate Zero example_machine with
          | Ret (Ok _, _) => true | _ => false end = true) as H by (vm_compute; reflexivity).
  destruct (map (page_no 3) rw Invalidate Zero example_machine) as [[[r|] s1]|]; [|discriminate H..].
  by exists r, s1.
Qed.

Lemma example_mapped : exists s1 f, tables_inv s1 /\
  small_mapping (mem s1) (cr3 s1) (page_no 3) (leaf_entry f rw) /\
  e_addr (leaf_entry f rw) = f /\ 0 <= f < 2 ^ 40 /\ fa_live (pmm s1) f 0 /\ ~ is_table s1 f.
Proof.
  destruct example_map_ok as (r & s1 & E). destruct (example_user_clear 3 ltac:(lia)) as [Hok Hcl].
  destruct (map_spec example_machine (page_no 3) rw Invalidate Zero example_tables Hok Hcl eq_refl
              (fun _ => eq_refl)) as (r' & s1' & E' & Hres).
  rewrite E in E'. apply Ret_inj in E' as [<- <-]. destruct Hres as (f & H1 & _ & H3 & H4 & Hev & Hm & _).
  destruct (fa_free_range _ _ (ti_fa _ example_tables) H1) as [Hal Hr].
  destruct (leaf_entry_facts f rw Hal ltac:(lia) eq_refl) as (Ha & _ & _).
  exists s1, f. split_and!; [apply Hev|exact Hm|exact Ha|lia|lia|exact H3|exact H4].
Qed.

Lemma set_flags_correct_witness :
  exists s1 s', set_flags (page_no 3) (page_no 3) PRESENT Invalidate s1 = Ret (tt, s').
Proof.
  destruct example_mapped as (s1 & f & Hinv & Hm & Ha & Hr & _).
  destruct (example_user_clear 3 ltac:(lia)) as [Hok _].
  destruct (set_flags_correct s1 3 3 PRESENT Invalidate (fun _ => leaf_entry f rw) Hinv eq_refl)
    as (s' & E & _).
  - intros n Hn. replace n with 3 by lia. rewrite Ha. split; [exact Hok|]. split; [exact Hm|lia].
  - exists s1, s'. exact E.
Defined.

Lemma unmap_correct_witness :
  exists s1 s', unmap (page_no 3) Free Invalidate s1 = Ret (tt, s') /\ tables_inv s'.
Proof.
  destruct example_mapped as (s1 & f & Hinv & Hm & Ha & Hr & Hl & Ht).
  destruct (example_user_clear 3 ltac:(lia)) as [Hok _].
  destruct (unmap_correct s1 (page_no 3) Free Invalidate (leaf_entry f rw) Hinv Hok Hm)
    as (s' & E & Hi & _).
  - intros _. rewrite Ha. split; [exact Hl|exact Ht].
  - exists s1, s'. split; [exact E|exact Hi].
Defined.

Lemma unmap_range_correct_witness :
  exists s1 s', unmap_range (page_no 3) (page_no 3) Free Invalidate s1 = Ret (tt, s') /\ tables_inv s'.
Proof.
  destruct example_mapped as (s1 & f & Hinv & Hm & Ha & Hr & Hl & Ht).
  destruct (example_user_clear 3 ltac:(lia)) as [Hok _].
  destruct (unmap_range_correct s1 3 3 Free Invalidate (fun _ => leaf_entry f rw) Hinv)
    as (s' & E & Hi & _).
  - intros n Hn. replace n with 3 by lia. rewrite Ha. split; [exact Hok|]. split; [exact Hm|].
    intros _. split; [exact Hl|exact Ht].
  - intros _ n m Hn Hm' _. lia.
  - exists s1, s'. split; [exact E|exact Hi].
Defined.

Lemma map_unmap_roundtrip_witness :
  exists s1 s2, unmap (page_no 3) Free NoInvalidate s1 = Ret (tt, s2) /\ tables_inv s2.
Proof.
  destruct example_map_ok as (r & s1 & E). destruct (example_user_clear 3 ltac:(lia)) as [Hok Hcl].
  assert (ref_walk (mem example_machine) (cr3 example_machine) (page_no 3) = Ret None) as Hn
    by (vm_compute; reflexivity).
  destruct (map_unmap_roundtrip example_machine (page_no 3) rw Invalidate NoInvalidate Zero r s1
              example_tables Hok Hcl eq_refl (fun _ => eq_refl) Hn E)
    as (f & s2 & _ & _ & E2 & Hi & _).
  exists s1, s2. split; [exact E2|exact Hi].
Defined.

End examples.
