(* ===== verification/Heap.v ===== *)
(** [kernel/src/memory/heap.rs]: the kernel heap, one buddy tree of 64-byte blocks
    over the GiB at [HEAP_START], whose pages are mapped on demand. *)
From S2P Require Import Prelude Crates Machine FrameAlloc Paging Layout PageMap Friendly.

Definition HEAP_BASE_ORDER : Z := 6.
Definition HEAP_LEVELS : Z := 25.

(** The kernel state the heap works on: the machine, and the tree behind
    [Once<Mutex<HeapTree>>]. *)
Record heap_state (P Tr : Type) := mkHeapState {
  mach : machine P;
  htree : option Tr
}.
Arguments mkHeapState {P Tr}.
Arguments mach {P Tr}.
Arguments htree {P Tr}.

(** Calls into [ACTIVE_PAGE_TABLES]. *)
Definition tables {P Tr A} (c : M (machine P) A) : M (heap_state P Tr) A := fun h =>
  match c (mach h) with
  | Ret (a, s) => Ret (a, mkHeapState s (htree h))
  | Stop w => Stop w
  end.

(** ** Orders *)

(** The loop of [log2_floor]; 64 iterations are enough for a [u64]. *)
Fixpoint log2_floor_loop (fuel : nat) (val log2 : Z) : res Z :=
  match fuel with
  | O => Stop OutOfFuel
  | S fuel => if 1 <? val then log2_floor_loop fuel (Z.shiftr val 1) (log2 + 1) else Ret log2
  end.
Definition log2_floor (val : Z) : res Z := log2_floor_loop 64 val 0.

Definition log2_ceil (val : Z) : res Z :=
  let? log2 := log2_floor val in
  if negb (val =? Z.shiftl 1 log2) then Ret (log2 + 1) else Ret log2.

Definition order (val : Z) : res Z :=
  if val =? 0 then Ret 0 else
  let? l := log2_ceil val in
  let log2 := l + 1 in
  if HEAP_BASE_ORDER <? log2 then Ret (log2 - HEAP_BASE_ORDER) else Ret 0.

Section heap.
Context `{B : Build} `{X : X86_64Crate} `{F : BitflagsCrate} {P : Type} `{FA : FrameAllocator P}.
Context `{T : FriendlyTree HEAP_LEVELS HEAP_BASE_ORDER} `{FC : FriendlyCrate}.

#[local] Abbreviation hM := (M (heap_state P tree)).

Definition wait_tree : hM tree := fun h =>
  match htree h with
  | Some t => Ret (t, h)
  | None => Stop (Panic "Heap not initialized!")
  end.
Definition put_tree (t : tree) : hM unit := fun h => Ret (tt, mkHeapState (mach h) (Some t)).

Definition heap_flags : Z := WRITABLE ||| NO_EXECUTE ||| GLOBAL.

(** [mem::size_of::<[Block; BLOCKS_IN_TREE]>()]: a [Block] is one byte. *)
Definition tree_size : Z := blocks_in_tree HEAP_LEVELS.

Definition heap_init (heap_tree_start : Z) : hM Z := fun h =>
  let? next := mul64 (heap_tree_start / 4096 + 1) 4096 in
  match htree h with
  | Some _ => Ret (next, h)
  | None =>
      let tree_size_pages := tree_size / 4096 in
      let page_start := containing_address next in
      let? page_end := page_add page_start tree_size_pages in
      match map_range page_start page_end heap_flags Invalidate Zero (mach h) with
      | Ret (Ok _, s) => Ret (next, mkHeapState s (Some (tree_new [(0, Z.shiftl 1 (30 + 1))])))
      | Ret (Err _, _) => Stop (Panic "Out of physical memory")
      | Stop w => Stop w
      end
  end.

(** The pages of a block: [0..round_up_divide(1u64 << bits, 4096)]. *)
Definition block_pages (bits : Z) : res (list Z) :=
  let? n := round_up_divide (shl64 1 bits) 4096 in Ret (range_excl 0 n).

(** The body of the loop of [alloc]: [Err tt] is [return ptr::null_mut()]. *)
Definition alloc_page (ptr : Z) (page_index : Z) : hM (result unit unit) :=
  let! a := lift (add64 ptr (page_index * 4096)) in
  let page := containing_address a in
  let! w := tables (walk_page_table page) in
  if bool_decide (is_Some w) then ret (Ok tt) else
  let! r := tables (map page heap_flags NoInvalidate Zero) in
  match r with
  | Ok _ => ret (Ok tt)
  | Err _ =>
      do! tables (unmap_range (containing_address ptr) page Free Invalidate) in
      ret (Err tt)
  end.

(** [GlobalAlloc::alloc] for a layout of [size] bytes; [None] is the null pointer. *)
Definition heap_alloc (size : Z) : hM (option Z) :=
  let! t := wait_tree in
  let! ord := lift (order size) in
  if max_order <? ord then ret None else
  let (o, t') := tree_allocate ord t in
  do! put_tree t' in
  match o with
  | None => ret None
  | Some off =>
      let! ptr := lift (add64 off HEAP_START) in
      let! ps := lift (block_pages (ord + HEAP_BASE_ORDER - 1)) in
      let! r := try_each ps (alloc_page ptr) in
      match r with
      | Ok _ => ret (Some ptr)
      | Err _ => ret None
      end
  end.

Definition in_heap (ptr : Z) : bool :=
  (HEAP_START <=? ptr) && (ptr <? HEAP_START + Z.shiftl 1 30).

(** [GlobalAlloc::dealloc]; a null [ptr] returns at once. *)
Definition heap_dealloc (ptr : option Z) (size : Z) : hM unit :=
  match ptr with
  | None => ret tt
  | Some global_ptr =>
      let! ord := lift (order size) in
      do! assert_m (in_heap global_ptr) "Heap object pointer not in heap!" in
      let! ptr := lift (sub64 global_ptr HEAP_START) in
      let! t := wait_tree in
      let! t := lift (tree_deallocate ptr ord t) in
      do! put_tree t in
      let page_order := 12 - HEAP_BASE_ORDER in
      if ord <? page_order then
        let page_base_ptr := Z.land ptr (Z.lnot 0xFFF) in
        let level := max_order - page_order in
        let level_offset := blocks_in_tree level in
        let index := level_offset + Z.shiftr page_base_ptr (page_order + HEAP_BASE_ORDER) + 1 in
        let! t := wait_tree in
        let order_free := tree_order_free (index - 1) t in
        if order_free =? page_order + 1 then
          let! g := lift (add64 page_base_ptr HEAP_START) in
          tables (unmap (containing_address g) Free Invalidate)
        else ret tt
      else
        let! ps := lift (block_pages (ord + HEAP_BASE_ORDER - 1)) in
        for_each ps (fun page =>
          let! page_addr := lift (add64 global_ptr (page * 4096)) in
          tables (unmap (containing_address page_addr) Free Invalidate))
  end.

Definition alloc_specific_page (ptr physical_begin_frame : Z) (page_no : Z)
  : hM (result unit unit) :=
  let! a := lift (add64 ptr (page_no * 4096)) in
  let page := containing_address a in
  let! f := lift (add64 physical_begin_frame page_no) in
  let! f := lift (mul64 f 4096) in
  let! pa := lift (PhysAddr_new f) in
  let! r := tables (map_to page pa heap_flags Invalidate) in
  match r with
  | Ok _ => ret (Ok tt)
  | Err _ =>
      do! tables (unmap_range (containing_address ptr) page Free Invalidate) in
      ret (Err tt)
  end.

Definition alloc_specific (physical_begin_frame frames : Z) : hM (option Z) :=
  let! t := wait_tree in
  let! sz := lift (mul64 frames 4096) in
  let! ord := lift (order sz) in
  if max_order <? ord then ret None else
  let (o, t') := tree_allocate ord t in
  do! put_tree t' in
  match o with
  | None => ret None
  | Some off =>
      let! ptr := lift (add64 off HEAP_START) in
      let! ps := lift (block_pages (ord + HEAP_BASE_ORDER)) in
      let! r := try_each ps (alloc_specific_page ptr physical_begin_frame) in
      match r with
      | Ok _ => ret (Some ptr)
      | Err _ => ret None
      end
  end.

Definition dealloc_specific (ptr : option Z) (frames : Z) : hM unit :=
  match ptr with
  | None => ret tt
  | Some global_ptr =>
      if frames =? 0 then ret tt else
      let! sz := lift (mul64 frames 4096) in
      let! ord := lift (order sz) in
      do! assert_m (in_heap global_ptr) "Heap object pointer not in heap!" in
      let! ptr := lift (sub64 global_ptr HEAP_START) in
      let! t := wait_tree in
      let! t := lift (tree_deallocate ptr ord t) in
      do! put_tree t in
      let! ps := lift (block_pages (ord + HEAP_BASE_ORDER)) in
      for_each ps (fun page =>
        let! page_addr := lift (add64 global_ptr (page * 4096)) in
        tables (unmap (containing_address page_addr) NoFree NoInvalidate))
  end.

End heap.
