(* ===== verification/HeapLemmas.v ===== *)
(** Lemmas on the kernel heap of [Heap.v]: orders, the pages of a block, and the
    invariant that ties the buddy tree to the mapped pages. *)
From S2P Require Import Prelude Crates Machine FrameAlloc Paging Layout PageMap Friendly.
From S2P Require Import AddressSpace PagingLemmas PageMapLemmas MapperLemmas UnmapLemmas Heap.

(** * Orders *)

Lemma log2_floor_loop_spec fuel val acc :
  1 <= val -> Z.log2 val < Z.of_nat fuel -> log2_floor_loop fuel val acc = Ret (acc + Z.log2 val).
Proof.
  revert val acc. induction fuel as [|fuel IH]; intros val acc Hv Hf.
  { pose proof (Z.log2_nonneg val). lia. }
  cbn [log2_floor_loop]. destruct (1 <? val) eqn:E.
  - assert (1 <= Z.log2 val) by (apply Z.log2_le_pow2; lia).
    assert (Z.log2 (Z.shiftr val 1) = Z.log2 val - 1) as El by (rewrite Z.log2_shiftr by lia; lia).
    rewrite IH; [f_equal; lia| |lia].
    rewrite Z.shiftr_div_pow2 by lia. change (2 ^ 1) with 2. Z.to_euclidean_division_equations. lia.
  - replace val with 1 by lia. f_equal. change (Z.log2 1) with 0. lia.
Qed.

Lemma log2_floor_spec val : 1 <= val < 2 ^ 64 -> log2_floor val = Ret (Z.log2 val).
Proof.
  intros Hv. unfold log2_floor. rewrite log2_floor_loop_spec; [done|lia|].
  change (Z.of_nat 64) with 64. apply Z.log2_lt_pow2; lia.
Qed.

(** The order of a size: the least order whose block has room for twice the size. *)
Lemma order_spec size : 1 <= size < 2 ^ 64 ->
  exists k, order size = Ret k /\ 0 <= k /\ size <= 2 ^ (k + 5) /\
    (k = 0 \/ 2 ^ (k + 4) < size).
Proof.
  intros Hs. unfold order, log2_ceil. replace (size =? 0) with false by lia.
  rewrite log2_floor_spec by done. cbn [rbind].
  pose proof (Z.log2_nonneg size) as Hl. pose proof (Z.log2_spec size ltac:(lia)) as [H1 H2].
  rewrite Z.shiftl_1_l. unfold HEAP_BASE_ORDER.
  set (l := Z.log2 size) in *. rewrite Z.pow_succ_r in H2 by done.
  destruct (size =? 2 ^ l) eqn:E; cbn [negb rbind].
  - destruct (6 <? l + 1) eqn:E6; eexists; (split; [done|]).
    + replace (l + 1 - 6 + 5) with l by lia. replace (l + 1 - 6 + 4) with (l - 1) by lia.
      split_and!; [lia|lia|]. right.
      assert (2 ^ l = 2 * 2 ^ (l - 1)) by (rewrite <- Z.pow_succ_r by lia; f_equal; lia).
      assert (0 < 2 ^ (l - 1)) by (apply Z.pow_pos_nonneg; lia). lia.
    + split_and!; [lia| |by left]. change (2 ^ (0 + 5)) with (2 ^ 5).
      assert (2 ^ l <= 2 ^ 5) by (apply Z.pow_le_mono_r; lia). lia.
  - assert (2 ^ l * 2 = 2 ^ (l + 1)) as El by (rewrite Z.pow_add_r by lia; lia).
    destruct (6 <? l + 1 + 1) eqn:E6; eexists; (split; [done|]).
    + replace (l + 1 + 1 - 6 + 5) with (l + 1) by lia. replace (l + 1 + 1 - 6 + 4) with l by lia. lia.
    + split_and!; [lia| |by left]. change (2 ^ (0 + 5)) with (2 ^ 5).
      assert (2 ^ (l + 1) <= 2 ^ 5) by (apply Z.pow_le_mono_r; lia). lia.
Qed.

(** ** Pages of a block *)

(** The number of pages the heap maps for a block of order [k]. *)
Definition used_pages (k : Z) : Z := (2 ^ (k + 5) + 4095) / 4096.

Definition HEAP_PAGE : Z := HEAP_START / 4096.
Definition hpage (i : Z) : Page := page_no (HEAP_PAGE + i).
Definition heap_index (i : Z) : Prop := 0 <= i < 2 ^ 18.

Lemma hpage_ok i : heap_index i -> page_ok (hpage i).
Proof.
  unfold heap_index. intros Hi. apply kernel_page_ok. unfold KERNEL_PAGE. change HEAP_PAGE with 0xffffffff40000 in *. lia.
Qed.

Lemma hpage_inj i j : heap_index i -> heap_index j -> same_page (hpage i) (hpage j) -> i = j.
Proof.
  intros Hi Hj Hs. apply same_page_inj in Hs; [|by apply hpage_ok..]. simpl in Hs. lia.
Qed.

Lemma hpage_address off i : 0 <= off -> containing_address (HEAP_START + off + i * 4096) = hpage (off / 4096 + i).
Proof.
  intros Ho. unfold containing_address, hpage, page_no, HEAP_PAGE. change (bytes Kib4) with 4096.
  f_equal. change (HEAP_START / 4096) with 0xffffffff40000. unfold HEAP_START.
  Z.to_euclidean_division_equations. lia.
Qed.

(** A block of order [k] at offset [f] of the tree. *)
Definition block_ok (f k : Z) : Prop := 0 <= k <= 24 /\ f mod 2 ^ (k + 6) = 0 /\ 0 <= f < 2 ^ 30.

Lemma block_end f k : block_ok f k -> f + 2 ^ (k + 6) <= 2 ^ 30.
Proof.
  intros (Hk & Ha & Hf).
  assert (2 ^ 30 = 2 ^ (24 - k) * 2 ^ (k + 6)) as E by (rewrite <- Z.pow_add_r by lia; f_equal; lia).
  assert (0 < 2 ^ (k + 6)) by (apply Z.pow_pos_nonneg; lia).
  apply Z.mod_divide in Ha as [c ->]; [|lia]. assert (c < 2 ^ (24 - k)) by nia. nia.
Qed.

(** A block of at least a page has whole pages, and one page at least is left over. *)
Lemma block_pages_large f k : block_ok f k -> 6 <= k ->
  f mod 4096 = 0 /\ 4096 * used_pages k <= 2 ^ (k + 6).
Proof.
  intros (Hk & Ha & Hf) Hk6. unfold used_pages.
  assert (2 ^ (k + 6) = 2 ^ (k - 6) * 4096) as E
    by (change 4096 with (2 ^ 12); rewrite <- Z.pow_add_r by lia; f_equal; lia).
  assert (2 ^ (k + 6) = 2 ^ (k + 5) * 2) as E'
    by (change 2 with (2 ^ 1) at 3; rewrite <- Z.pow_add_r by lia; f_equal; lia).
  assert (0 < 2 ^ (k - 6)) by (apply Z.pow_pos_nonneg; lia). split.
  - rewrite E in Ha. apply Z.mod_divide in Ha as [c ->]; [|lia].
    rewrite Z.mul_assoc. apply Z_mod_mult.
  - Z.to_euclidean_division_equations. nia.
Qed.

Lemma used_pages_small k : 0 <= k < 6 -> used_pages k = 1.
Proof.
  intros Hk. unfold used_pages. assert (2 ^ (k + 5) <= 2 ^ 10) by (apply Z.pow_le_mono_r; lia).
  assert (0 < 2 ^ (k + 5)) by (apply Z.pow_pos_nonneg; lia). Z.to_euclidean_division_equations. lia.
Qed.

(** A small block lies in one page. *)
Lemma block_small f k : block_ok f k -> k < 6 -> f mod 4096 + 2 ^ (k + 6) <= 4096.
Proof.
  intros (Hk & Ha & Hf) Hk6.
  assert (4096 = 2 ^ (6 - k) * 2 ^ (k + 6)) as E
    by (change 4096 with (2 ^ 12); rewrite <- Z.pow_add_r by lia; f_equal; lia).
  assert (0 < 2 ^ (k + 6)) by (apply Z.pow_pos_nonneg; lia).
  apply Z.mod_divide in Ha as [c ->]; [|lia]. rewrite E at 1 2.
  rewrite Z.mul_mod_distr_r by lia.
  assert (c mod 2 ^ (6 - k) + 1 <= 2 ^ (6 - k)); [|nia].
  pose proof (Z.mod_pos_bound c (2 ^ (6 - k)) ltac:(apply Z.pow_pos_nonneg; lia)). lia.
Qed.

(** The pages the heap maps for a block. *)
Definition covers (f k i : Z) : Prop := f / 4096 <= i < f / 4096 + used_pages k.

Lemma covers_index f k i : block_ok f k -> covers f k i -> heap_index i.
Proof.
  intros Hb [H1 H2]. pose proof (block_end f k Hb) as He. destruct (Hb) as (Hk & _ & Hf).
  unfold heap_index. split; [Z.to_euclidean_division_equations; lia|].
  destruct (decide (k < 6)).
  - rewrite used_pages_small in H2 by lia. Z.to_euclidean_division_equations. lia.
  - destruct (block_pages_large f k Hb ltac:(lia)) as [Ha Hu]. Z.to_euclidean_division_equations. lia.
Qed.

(** The pages of a whole block of order [k]. *)
Definition region_pages (k : Z) : Z := 2 ^ (k - 6).

Lemma region_pages_bytes k : 6 <= k -> 2 ^ (k + 6) = region_pages k * 4096.
Proof.
  intros Hk. unfold region_pages. change 4096 with (2 ^ 12).
  rewrite <- Z.pow_add_r by lia. f_equal. lia.
Qed.

Lemma region_index f k i : block_ok f k -> 6 <= k -> 0 <= i < region_pages k ->
  heap_index (f / 4096 + i).
Proof.
  intros Hb Hk Hi. pose proof (block_end f k Hb) as He. rewrite region_pages_bytes in He by done.
  destruct (Hb) as (_ & _ & Hf). unfold heap_index. Z.to_euclidean_division_equations. lia.
Qed.

Lemma block_pages_spec `{Build} k : 0 <= k <= 24 ->
  block_pages (k + HEAP_BASE_ORDER - 1) = Ret (range_excl 0 (used_pages k)).
Proof.
  intros Hk. unfold block_pages, round_up_divide, shl64, HEAP_BASE_ORDER.
  replace (k + 6 - 1) with (k + 5) by lia. rewrite Z.shiftl_1_l. unfold wrap.
  assert (0 < 2 ^ (k + 5)) by (apply Z.pow_pos_nonneg; lia).
  assert (2 ^ (k + 5) <= 2 ^ 29) by (apply Z.pow_le_mono_r; lia).
  rewrite Z.mod_small by lia. rewrite add64_small by lia. cbn [rbind].
  rewrite sub64_small by lia. cbn [rbind]. unfold used_pages. do 3 f_equal. lia.
Qed.

(** * The heap's pages *)

Section pages.
Context `{B : Build} `{X : X86_64Crate} `{F : BitflagsCrate}.
Context {P : Type} `{FA : FrameAllocator P} `{FS : !FrameAllocatorSpec P}.
Implicit Types s : machine P.

Lemma heap_flags_ok : flags_ok heap_flags.
Proof. unfold heap_flags. by apply flags_ok_or; [apply flags_ok_or|]. Qed.

Lemma heap_flags_writable : e_writable heap_flags = true.
Proof. unfold heap_flags, e_writable. by rewrite !flags_or_spec. Qed.

Definition page_mapped s (i e : Z) : Prop := small_mapping (mem s) (cr3 s) (hpage i) e.

(** Every mapped page of the heap is writable and has a frame of its own that the
    allocator handed out. *)
Record heap_pages s : Prop := {
  hp_tables : tables_inv s;
  hp_clear i : heap_index i -> path_clear s (hpage i);
  hp_frame i e : heap_index i -> page_mapped s i e ->
    fa_live (pmm s) (e_addr e) 0 /\ ~ is_table s (e_addr e) /\ e_writable e = true;
  hp_inj i j e e' : heap_index i -> heap_index j -> page_mapped s i e -> page_mapped s j e' ->
    e_addr e = e_addr e' -> i = j
}.

Lemma page_mapped_fun s i e e' : page_mapped s i e -> page_mapped s i e' -> e = e'.
Proof. unfold page_mapped, small_mapping. congruence. Qed.

(** Mappings of other pages survive. *)
Lemma page_mapped_evolves T s s' i e :
  evolves T s s' -> heap_index i -> ~ T (hpage i) -> page_mapped s' i e <-> page_mapped s i e.
Proof.
  intros Hev Hi HT. unfold page_mapped, small_mapping.
  rewrite (ev_cr3 _ _ _ Hev), (ev_walk _ _ _ Hev); [done|apply hpage_ok, Hi|done].
Qed.

Lemma heap_pages_evolves s s' :
  heap_pages s -> evolves (fun _ => False) s s' -> heap_pages s'.
Proof.
  intros [Ht Hc Hf Hi] Hev. split.
  - apply Hev.
  - intros i Hidx. apply (path_clear_evolves _ _ _ _ (po_rec _ (hpage_ok i Hidx)) Hev). auto.
  - intros i e Hidx Hm. apply (page_mapped_evolves _ _ _ _ _ Hev Hidx) in Hm; [|tauto].
    destruct (Hf i e Hidx Hm) as (Hl & Hnt & Hw). split_and!; [by apply (ev_live _ _ _ Hev)| |done].
    intros Hx. apply (ev_new _ _ _ Hev) in Hx as [Hx|Hx]; [done|].
    apply (fa_live_not_free _ _ 0 (e_addr e) (ti_fa _ Ht) Hl); [by apply in_block_0|done].
  - intros i j e e' Hi1 Hj1 Hm1 Hm2. apply (page_mapped_evolves _ _ _ _ _ Hev Hi1) in Hm1; [|tauto].
    apply (page_mapped_evolves _ _ _ _ _ Hev Hj1) in Hm2; [|tauto]. eauto.
Qed.

(** A page of the heap that was mapped meanwhile got a frame that was free. *)
Definition pages_fresh s s' : Prop :=
  forall i e, heap_index i -> page_mapped s' i e -> page_mapped s i e \/ fa_free (pmm s) (e_addr e).

Lemma pages_fresh_trans T s1 s2 s3 :
  evolves T s1 s2 -> pages_fresh s1 s2 -> pages_fresh s2 s3 -> pages_fresh s1 s3.
Proof.
  intros Hev H1 H2 i e Hi He. destruct (H2 i e Hi He) as [Hm|Hf]; [by apply H1|right].
  by apply (ev_free _ _ _ Hev).
Qed.

(** Mapping a page of the heap that is not mapped. *)
Lemma heap_map_page s i :
  heap_pages s -> heap_index i -> ref_walk (mem s) (cr3 s) (hpage i) = Ret None ->
  exists r s', map (hpage i) heap_flags NoInvalidate Zero s = Ret (r, s') /\ heap_pages s' /\
    (forall j e, heap_index j -> page_mapped s j e -> page_mapped s' j e) /\
    match r with
    | Ok _ => evolves (same_page (hpage i)) s s' /\ takes 4 s s' /\ pages_fresh s s' /\ exists e, page_mapped s' i e
    | Err _ => evolves (fun _ => False) s s' /\ short_of 4 s
    end.
Proof.
  intros Hhp Hi Hnone. destruct (Hhp) as [Ht Hc Hf Hinj].
  destruct (map_spec s (hpage i) heap_flags NoInvalidate Zero Ht (hpage_ok i Hi) (Hc i Hi)
              heap_flags_ok) as (r & s' & E & Hres); [by rewrite heap_flags_writable|].
  exists r, s'. split; [done|]. destruct r as [u|u].
  2:{ destruct Hres as (Hev & Hex & _). split_and!; [by eapply heap_pages_evolves| |done|done].
      intros j e Hj Hm. apply (page_mapped_evolves _ _ _ _ _ Hev Hj); [tauto|done]. }
  destruct Hres as (f & H1 & H2 & H3 & H4 & Hev & Hm & _ & _ & Htk).
  assert (f mod 4096 = 0 /\ 0 <= f < 2 ^ 40) as [Hal Hr] by (by apply (fa_free_range (pmm s)), H1; apply Ht).
  destruct (leaf_entry_facts f heap_flags Hal ltac:(lia) heap_flags_ok) as (Ha & _ & Hw).
  rewrite heap_flags_writable in Hw.
  assert (forall j e, heap_index j -> j <> i -> page_mapped s' j e <-> page_mapped s j e) as Hoth.
  { intros j e Hj Hne. apply (page_mapped_evolves _ _ _ _ _ Hev Hj).
    intros Hs%hpage_inj; [by subst|done|done]. }
  assert (forall j e, heap_index j -> page_mapped s' j e ->
            (j = i /\ e = leaf_entry f heap_flags) \/ (j <> i /\ page_mapped s j e)) as Hcases.
  { intros j e Hj Hje. destruct (decide (j = i)) as [->|Hne]; [left|right; split; [done|by apply Hoth]].
    split; [done|]. by eapply page_mapped_fun. }
  assert (forall j e, heap_index j -> page_mapped s j e -> e_addr e <> f) as Hfresh.
  { intros j e Hj Hje <-. destruct (Hf j e Hj Hje) as (Hl & _).
    apply (fa_live_not_free _ _ 0 (e_addr e) (ti_fa _ Ht) Hl); [by apply in_block_0|done]. }
  split_and!; [|by intros j e Hj Hje; destruct (decide (j = i)) as [->|];
    [unfold page_mapped, small_mapping in Hje; congruence|apply Hoth]|done|done| |by eexists].
  2:{ intros j e Hj Hje. destruct (Hcases j e Hj Hje) as [[-> ->]|[_ ?]]; [right; by rewrite Ha|by left]. }
  split.
  - apply Hev.
  - intros j Hj. apply (path_clear_evolves _ _ _ _ (po_rec _ (hpage_ok j Hj)) Hev). auto.
  - intros j e Hj Hje'. destruct (Hcases j e Hj Hje') as [[-> ->]|[Hne Hje]]; [by rewrite Ha|].
    destruct (Hf j e Hj Hje) as (Hl & Hnt & Hwr). split_and!; [by apply (ev_live _ _ _ Hev)| |done].
    intros Hx. apply (ev_new _ _ _ Hev) in Hx as [Hx|Hx]; [done|].
    apply (fa_live_not_free _ _ 0 (e_addr e) (ti_fa _ Ht) Hl); [by apply in_block_0|done].
  - intros j j' e e' Hj Hj' He He' Heq.
    destruct (Hcases j e Hj He) as [[-> ->]|[Hne He1]], (Hcases j' e' Hj' He') as [[-> ->]|[Hne' He1']];
      [done|..].
    + rewrite Ha in Heq. by destruct (Hfresh j' e' Hj' He1').
    + rewrite Ha in Heq. by destruct (Hfresh j e Hj He1).
    + by eapply (Hinj j j' e e').
Qed.

(** Unmapping a mapped page of the heap and freeing its frame. *)
Lemma heap_unmap_page s i inv e :
  heap_pages s -> heap_index i -> page_mapped s i e ->
  exists s', unmap (hpage i) Free inv s = Ret (tt, s') /\ heap_pages s' /\
    ref_walk (mem s') (cr3 s') (hpage i) = Ret None /\
    (forall j e', heap_index j -> j <> i -> page_mapped s' j e' <-> page_mapped s j e') /\
    unmapped Free (hpage i) e s s'.
Proof.
  intros [Ht Hc Hf Hinj] Hi Hm. destruct (Hf i e Hi Hm) as (Hl & Hnt & _).
  destruct (unmap_spec s (hpage i) Free inv e Ht (hpage_ok i Hi) Hm) as (s' & E & Hum & _); [done|].
  exists s'. split; [done|]. pose proof Hum as [Hinv Hgone Hoth Htab Hfree Hlive Hclr _ Hcr3 _ _ _].
  assert (forall j e', heap_index j -> j <> i -> page_mapped s' j e' <-> page_mapped s j e') as Ho.
  { intros j e' Hj Hne. unfold page_mapped, small_mapping. rewrite Hoth; [done|apply hpage_ok, Hj|].
    intros Hs%hpage_inj; [by subst|done|done]. }
  assert (forall j e', heap_index j -> page_mapped s' j e' -> j <> i /\ page_mapped s j e') as Hback.
  { intros j e' Hj Hje. destruct (decide (j = i)) as [->|Hne].
    - unfold page_mapped, small_mapping in Hje. congruence.
    - split; [done|by apply Ho]. }
  split_and!; [|done|done|done]. split.
  - done.
  - intros j Hj. apply Hclr; [apply hpage_ok, Hj|auto].
  - intros j e' Hj Hje. destruct (Hback j e' Hj Hje) as [Hne Hm']; destruct (Hf j e' Hj Hm') as (Hl' & Hnt' & Hw').
    split_and!; [|by rewrite Htab|done]. apply Hlive. split; [done|]. intros (_ & Heq & _).
    apply Hne. by apply (Hinj j i e' e).
  - intros j j' e1 e2 Hj Hj' He1 He2. apply (Hback j e1 Hj) in He1 as [_ He1].
    apply (Hback j' e2 Hj') in He2 as [_ He2]. by eapply (Hinj j j' e1 e2).
Qed.

(** Unmapping a page that is not mapped stops the kernel. *)
Lemma unmap_not_mapped s page free inv :
  rec_ok (mem s) (cr3 s) -> page_ok page -> ref_walk (mem s) (cr3 s) page = Ret None ->
  unmap page free inv s = Stop (Panic "Virtual address is not mapped!").
Proof.
  intros Hr Hp Hn. unfold unmap, start_address. destruct (Hp) as [Hsz _ Hrange _]. rewrite Hsz.
  cbn [bytes]. change (4 * 1024) with 4096. rewrite mul64_small by done. cbn [rbind]. msimp.
  assert (walk_page_table page s = Ret (None, s)) as Hw.
  { rewrite walk_page_table_ref by done. by rewrite Hn. }
  by mcall Hw.
Qed.

Lemma unmap_range_panics s a b :
  heap_pages s -> 0 <= a <= b -> b < 2 ^ 18 ->
  (forall i, a <= i < b -> exists e, page_mapped s i e) ->
  ref_walk (mem s) (cr3 s) (hpage b) = Ret None ->
  unmap_range (hpage a) (hpage b) Free Invalidate s = Stop (Panic "Virtual address is not mapped!").
Proof.
  unfold unmap_range. cbn [number size hpage page_no].
  remember (Z.to_nat (b - a)) as n eqn:En. revert a s En.
  induction n as [|n IH]; intros a s En Hhp Ha Hb Hm Hn; rewrite range_incl_cons by lia;
    cbn [for_each]; unfold bind.
  - replace a with b by lia. fold (page_no (HEAP_PAGE + b)). fold (hpage b).
    rewrite unmap_not_mapped; [done|apply Hhp|apply hpage_ok; unfold heap_index; lia|done].
  - destruct (Hm a ltac:(lia)) as [e He]. assert (heap_index a) as Hia by (unfold heap_index; lia).
    assert (heap_index b) as Hib by (unfold heap_index; lia).
    fold (page_no (HEAP_PAGE + a)). fold (hpage a).
    destruct (heap_unmap_page s a Invalidate e Hhp Hia He) as (s' & -> & Hhp' & _ & Hoth & _).
    replace (HEAP_PAGE + a + 1) with (HEAP_PAGE + (a + 1)) by lia.
    apply IH; [lia|done|lia|lia|..].
    + intros i Hi. destruct (Hm i ltac:(lia)) as [e' He']. exists e'.
      apply Hoth; [unfold heap_index; lia|lia|done].
    + destruct (ref_walk_clear s' (hpage b)) as [H|[e' He']]; [by apply (hp_clear _ Hhp')|done|].
      apply (Hoth b e') in He'; [|done|lia]. unfold page_mapped, small_mapping in He'. congruence.
Qed.

End pages.

(** * Allocation and deallocation *)

Section alloc.
Context `{B : Build} `{X : X86_64Crate} `{F : BitflagsCrate}.
Context {P : Type} `{FA : FrameAllocator P} `{FS : !FrameAllocatorSpec P}.
Context `{T : FriendlyTree HEAP_LEVELS HEAP_BASE_ORDER} `{FC : FriendlyCrate}.
Implicit Types h : heap_state P tree.

Lemma tables_ret {A} (c : M (machine P) A) h a s :
  c (mach h) = Ret (a, s) -> tables c h = Ret (a, mkHeapState s (htree h)).
Proof. intros H. unfold tables. by rewrite H. Qed.

Lemma tables_stop {A} (c : M (machine P) A) h w :
  c (mach h) = Stop w -> tables c h = Stop w.
Proof. intros H. unfold tables. by rewrite H. Qed.

(** The panic that ends an allocation when no frame is left. *)
Definition OOM_PANIC : stop := Panic "Virtual address is not mapped!".

Lemma heap_address off i : 0 <= off < 2 ^ 30 -> 0 <= i < 2 ^ 18 ->
  add64 (HEAP_START + off) (i * 4096) = Ret (HEAP_START + off + i * 4096).
Proof. intros. apply add64_small. unfold HEAP_START. lia. Qed.

(** One page of a new block. *)
Lemma alloc_page_spec h off j :
  heap_pages (mach h) -> 0 <= off < 2 ^ 30 -> 0 <= j -> heap_index (off / 4096 + j) ->
  (forall i, 0 <= i < j -> exists e, page_mapped (mach h) (off / 4096 + i) e) ->
  (exists s', alloc_page (HEAP_START + off) j h = Ret (Ok tt, mkHeapState s' (htree h)) /\
     heap_pages s' /\ evolves (same_page (hpage (off / 4096 + j))) (mach h) s' /\ takes 4 (mach h) s' /\
     (forall i e, heap_index i -> page_mapped (mach h) i e -> page_mapped s' i e) /\ pages_fresh (mach h) s' /\
     exists e, page_mapped s' (off / 4096 + j) e) \/
  (alloc_page (HEAP_START + off) j h = Stop OOM_PANIC /\ short_of 4 (mach h)).
Proof.
  intros Hhp Ho Hj Hidx Hprev. unfold alloc_page.
  assert (0 <= off / 4096) by (apply Z.div_pos; lia). unfold heap_index in Hidx.
  rewrite heap_address by lia. msimp. rewrite hpage_address by lia.
  set (b := off / 4096 + j) in *.
  destruct (ref_walk_clear (mach h) (hpage b) (hp_clear _ Hhp b Hidx)) as [Hn|[e He]].
  - assert (walk_page_table (hpage b) (mach h) = Ret (None, mach h)) as Hw.
    { rewrite walk_page_table_ref by apply Hhp. by rewrite Hn. }
    mcall (tables_ret _ h _ _ Hw). rewrite bool_decide_false by (by intros []).
    destruct (heap_map_page (mach h) b Hhp Hidx Hn) as (r & s' & E & Hhp' & Hkeep & Hr).
    set (h' := mkHeapState (mach h) (htree h)).
    mcall (tables_ret (map (hpage b) heap_flags NoInvalidate Zero) h' _ _ E). destruct r as [u|u].
    + left. exists s'. destruct Hr as (Hev & Htk & Hfr & He). by split_and!.
    + right. destruct Hr as [Hev Hex]. split; [|done]. unfold bind.
      rewrite (tables_stop _ _ OOM_PANIC); [done|]. cbn [mach].
      replace (containing_address (HEAP_START + off)) with (hpage (off / 4096)).
      2:{ rewrite <- (Z.add_0_r (off / 4096)), <- hpage_address by lia. f_equal. lia. }
      apply unmap_range_panics; [done|lia|lia|..].
      * intros i Hi. destruct (Hprev (i - off / 4096) ltac:(lia)) as [e He].
        replace (off / 4096 + (i - off / 4096)) with i in He by lia. exists e.
        apply Hkeep; [unfold heap_index; lia|done].
      * rewrite (ev_cr3 _ _ _ Hev), (ev_walk _ _ _ Hev); [done|apply hpage_ok, Hidx|tauto].
  - left. assert (walk_page_table (hpage b) (mach h) = Ret (Some (e, Kib4), mach h)) as Hw.
    { rewrite walk_page_table_ref by apply Hhp. by rewrite He. }
    mcall (tables_ret _ h _ _ Hw). rewrite bool_decide_true by eauto.
    exists (mach h). split_and!; try done; [by apply evolves_refl; apply Hhp|by apply takes_none|by left|by exists e].
Qed.

Lemma alloc_pages_spec h off j n :
  heap_pages (mach h) -> 0 <= off < 2 ^ 30 -> 0 <= j <= n ->
  (forall i, 0 <= i < n -> heap_index (off / 4096 + i)) ->
  (forall i, 0 <= i < j -> exists e, page_mapped (mach h) (off / 4096 + i) e) ->
  let T := in_pages (HEAP_PAGE + off / 4096) (HEAP_PAGE + off / 4096 + n) in
  (exists s', try_each (range_excl j n) (alloc_page (HEAP_START + off)) h =
       Ret (Ok tt, mkHeapState s' (htree h)) /\
     heap_pages s' /\ evolves T (mach h) s' /\ takes (4 * (n - j)) (mach h) s' /\
     (forall i e, heap_index i -> page_mapped (mach h) i e -> page_mapped s' i e) /\ pages_fresh (mach h) s' /\
     (forall i, 0 <= i < n -> exists e, page_mapped s' (off / 4096 + i) e)) \/
  (try_each (range_excl j n) (alloc_page (HEAP_START + off)) h = Stop OOM_PANIC /\
   short_of (4 * (n - j)) (mach h)).
Proof.
  intros Hhp Ho Hj Hidx Hprev T'. remember (Z.to_nat (n - j)) as len eqn:El. revert j h El Hhp Hj Hprev.
  induction len as [|len IH]; intros j h El Hhp Hj Hprev.
  { left. exists (mach h). rewrite range_excl_nil by lia. split; [by destruct h|].
    split_and!; [done|apply evolves_refl, Hhp|by apply takes_none; [lia|]|done|by left|]. intros i Hi. apply Hprev. lia. }
  rewrite range_excl_cons by lia. cbn [try_each].
  assert (forall page, same_page (hpage (off / 4096 + j)) page -> T' page) as HT.
  { intros page Hs. exists (HEAP_PAGE + (off / 4096 + j)). split; [lia|done]. }
  destruct (alloc_page_spec h off j Hhp Ho ltac:(lia) (Hidx j ltac:(lia)) Hprev)
    as [(s1 & E & Hhp1 & Hev1 & Htk1 & Hkeep1 & Hfr1 & He1)|[E Hex]].
  2:{ right. unfold bind. rewrite E. split; [done|]. by apply (short_of_mono 4); [lia|]. }
  rewrite (bind_ret _ _ _ _ _ E).
  destruct (IH (j + 1) (mkHeapState s1 (htree h)) ltac:(lia) Hhp1 ltac:(lia))
    as [(s' & E' & Hhp' & Hev' & Htk' & Hkeep' & Hfr' & He')|[E' Hex]].
  { intros i Hi. cbn [mach]. destruct (decide (i = j)) as [->|Hne]; [done|].
    destruct (Hprev i ltac:(lia)) as [e He]. exists e. apply Hkeep1; [apply Hidx; lia|done]. }
  - left. exists s'. split_and!; [done|done| | | |by eapply pages_fresh_trans|done].
    + eapply evolves_trans; [by eapply evolves_weaken; [|done]|done].
    + apply (takes_mono (4 + 4 * (n - (j + 1)))); [lia|]. by apply (takes_trans _ _ _ s1).
    + intros i e Hi Hm. apply Hkeep'; [done|]. by apply Hkeep1.
  - right. split; [done|]. apply (short_of_mono (4 + 4 * (n - (j + 1)))); [lia|]. by apply (short_of_takes _ _ _ s1).
Qed.

(** ** The heap invariant *)

#[local] Abbreviation hblock := (block_of HEAP_BASE_ORDER).

(** The tree and the pages agree: the pages of every block handed out are mapped,
    no other page of the heap is, blocks do not overlap, and every 64-byte block is
    free or handed out. *)
Record heap_inv h (t : tree) : Prop := {
  hi_tree : htree h = Some t;
  hi_pages : heap_pages (mach h);
  hi_inv : tree_inv t;
  hi_used f k i : tree_live t f k -> covers f k i -> exists e, page_mapped (mach h) i e;
  hi_tight i e : heap_index i -> page_mapped (mach h) i e ->
    exists f k, tree_live t f k /\ covers f k i;
  hi_disjoint f k g j x : tree_live t f k -> tree_live t g j -> hblock f k x -> hblock g j x ->
    f = g /\ k = j;
  hi_complete x : x mod 64 = 0 -> 0 <= x < 2 ^ 30 ->
    tree_free t x \/ exists f k, tree_live t f k /\ hblock f k x
}.

Lemma live_block_ok t f k : tree_inv t -> tree_live t f k -> block_ok f k.
Proof.
  intros Hi Hl. destruct (tree_live_range t f k Hi Hl) as (Hk & Ha & Hf).
  unfold HEAP_LEVELS, HEAP_BASE_ORDER in *.
  change (tree_bytes 25 6) with (2 ^ 30) in Hf. split_and!; (done || lia).
Qed.

Lemma free_range t x : tree_inv t -> tree_free t x -> x mod 64 = 0 /\ 0 <= x < 2 ^ 30.
Proof. intros Hi Hx. by destruct (tree_free_range t x Hi Hx). Qed.

Lemma hblock_alt f k x : hblock f k x <-> exists i, 0 <= i < 2 ^ k /\ x = f + 64 * i.
Proof. done. Qed.

Lemma hblock_iff f k x : 0 <= k -> hblock f k x <-> f <= x < f + 2 ^ (k + 6) /\ (x - f) mod 64 = 0.
Proof.
  intros Hk. rewrite hblock_alt.
  assert (2 ^ (k + 6) = 2 ^ k * 64) as E by (rewrite Z.pow_add_r by lia; done). rewrite E. split.
  - intros (i & Hi & ->). split; [lia|]. replace (f + 64 * i - f) with (i * 64) by lia. apply Z_mod_mult.
  - intros [Hr Hm]. apply Z.mod_divide in Hm as [i Hi]; [|lia]. exists i. lia.
Qed.

(** The pages of a block cover the bytes an allocation of its order may use. *)
Lemma covers_byte f k size a : block_ok f k -> 0 <= a < size -> size <= 2 ^ (k + 5) ->
  covers f k ((f + a) / 4096).
Proof.
  intros Hb Ha Hs. destruct (Hb) as (Hk & _ & Hf). unfold covers.
  split; [apply Z.div_le_mono; lia|]. destruct (decide (k < 6)).
  - pose proof (block_small f k Hb ltac:(lia)) as Hsm. rewrite used_pages_small by lia.
    assert (2 ^ (k + 6) = 2 * 2 ^ (k + 5)) by (rewrite <- Z.pow_succ_r by lia; f_equal; lia).
    Z.to_euclidean_division_equations. lia.
  - destruct (block_pages_large f k Hb ltac:(lia)) as [Hal _]. unfold used_pages.
    set (w := 2 ^ (k + 5)) in *. clearbody w. Z.to_euclidean_division_equations. lia.
Qed.

(** A block that uses a page of another one, which has at least a page, overlaps it. *)
Lemma page_in_block f k g j i : block_ok f k -> block_ok g j -> 6 <= k ->
  f <= i * 4096 -> i * 4096 + 4096 <= f + 2 ^ (k + 6) -> covers g j i -> hblock f k g \/ hblock g j f.
Proof.
  intros Hf Hg Hk6 Hp1 Hp2 [H3 H4].
  destruct (block_pages_large f k Hf Hk6) as [Hal Hu].
  destruct (Hf) as (Hk & Haf & Hfr), (Hg) as (Hj & Hag & Hgr).
  destruct (decide (j < 6)) as [Hj6|Hj6].
  - left. rewrite used_pages_small in H4 by lia. apply hblock_iff; [lia|].
    assert (g / 4096 = i) as Ei by lia. split; [Z.to_euclidean_division_equations; lia|].
    assert (2 ^ (j + 6) = 2 ^ j * 64) as E by (rewrite Z.pow_add_r by lia; done).
    rewrite E in Hag. apply Z.mod_divide in Hag as [c ->]; [|nia].
    apply Z.mod_divide in Hal as [d ->]; [|lia].
    replace (c * (2 ^ j * 64) - d * 4096) with ((c * 2 ^ j - d * 64) * 64) by lia. apply Z_mod_mult.
  - destruct (block_pages_large g j Hg ltac:(lia)) as [Hal' Hu'].
    assert (g <= i * 4096 /\ i * 4096 + 4096 <= g + 2 ^ (j + 6)) as Hpage'.
    { Z.to_euclidean_division_equations. lia. }
    assert ((g - f) mod 64 = 0 /\ (f - g) mod 64 = 0) as [Hm Hm'].
    { Z.to_euclidean_division_equations. lia. }
    destruct (decide (f <= g)); [left|right]; apply hblock_iff; lia.
Qed.

(** Two blocks that share a page of either are equal, unless both are smaller than
    a page. *)
Lemma covers_large f k g j i : block_ok f k -> block_ok g j -> 6 <= k ->
  covers f k i -> covers g j i -> hblock f k g \/ hblock g j f.
Proof.
  intros Hf Hg Hk6 [H1 H2] Hc. destruct (block_pages_large f k Hf Hk6) as [Hal Hu].
  apply (page_in_block f k g j i); try done; Z.to_euclidean_division_equations; lia.
Qed.

#[local] Instance covers_dec f k i : Decision (covers f k i).
Proof. unfold covers. apply _. Defined.

Lemma hblock_dec f k x : 0 <= k -> hblock f k x \/ ~ hblock f k x.
Proof.
  intros Hk. rewrite hblock_iff by done.
  destruct (decide (f <= x < f + 2 ^ (k + 6) /\ (x - f) mod 64 = 0)); auto.
Qed.

Lemma in_pages_covers off k i : heap_index i -> (forall j, covers off k j -> heap_index j) ->
  in_pages (HEAP_PAGE + off / 4096) (HEAP_PAGE + off / 4096 + used_pages k) (hpage i) -> covers off k i.
Proof.
  intros Hi Hc (n & Hn & Hs). assert (covers off k (n - HEAP_PAGE)) as Hcn by (unfold covers; lia).
  assert (n - HEAP_PAGE = i) as <-; [|done]. apply hpage_inj; [by apply Hc|done|].
  unfold hpage. by replace (HEAP_PAGE + (n - HEAP_PAGE)) with n by lia.
Qed.

(** The block [f], [k] was taken from the tree and its pages were mapped. *)
Lemma heap_inv_take h t t' s' f k :
  heap_inv h t -> tree_inv t' -> block_ok f k ->
  (forall x, hblock f k x -> tree_free t x) ->
  (forall x, tree_free t' x <-> tree_free t x /\ ~ hblock f k x) ->
  (forall g j, tree_live t' g j <-> (g = f /\ j = k) \/ tree_live t g j) ->
  heap_pages s' ->
  evolves (in_pages (HEAP_PAGE + f / 4096) (HEAP_PAGE + f / 4096 + used_pages k)) (mach h) s' ->
  (forall i e, heap_index i -> page_mapped (mach h) i e -> page_mapped s' i e) ->
  (forall i, 0 <= i < used_pages k -> exists e, page_mapped s' (f / 4096 + i) e) ->
  heap_inv (mkHeapState s' (Some t')) t'.
Proof.
  intros [Ht Hp Hi Hu Htg Hd Hc] Hi' Hb Hfree Hfree' Hlive' Hp' Hev Hkeep Hnew.
  assert (forall x g j, hblock f k x -> tree_live t g j -> hblock g j x -> False) as Hsep.
  { intros x g j Hx Hl Hg. exact (tree_live_not_free t g j x Hi Hl Hg (Hfree x Hx)). }
  split; cbn [mach htree]; try done.
  - intros g j i Hl Hcov. apply Hlive' in Hl as [[-> ->]|Hl].
    + destruct (Hnew (i - f / 4096)) as [e He]; [unfold covers in Hcov; lia|].
      exists e. by replace (f / 4096 + (i - f / 4096)) with i in He by lia.
    + destruct (Hu g j i Hl Hcov) as [e He]. exists e. apply Hkeep; [|done].
      apply (covers_index g j); [exact (live_block_ok t g j Hi Hl)|done].
  - intros i e Hidx Hm. destruct (decide (covers f k i)) as [Hcov|Hcov].
    + exists f, k. split; [apply Hlive'; auto|done].
    + apply (page_mapped_evolves _ _ _ _ _ Hev Hidx) in Hm.
      * destruct (Htg i e Hidx Hm) as (g & j & Hl & Hg). exists g, j. split; [apply Hlive'; auto|done].
      * intros Hin. apply Hcov. apply in_pages_covers; [done| |done]. intros j. by apply covers_index.
  - intros g j g' j' x Hl Hl' Hx Hx'.
    apply Hlive' in Hl as [[-> ->]|Hl], Hl' as [[-> ->]|Hl'].
    + done.
    + destruct (Hsep x g' j'); done.
    + destruct (Hsep x g j); done.
    + by apply (Hd g j g' j' x).
  - intros x Hx Hr. destruct (hblock_dec f k x (proj1 (proj1 Hb))) as [Hin|Hnin].
    + right. exists f, k. split; [apply Hlive'; auto|done].
    + destruct (Hc x Hx Hr) as [Hfx|(g & j & Hl & Hg)].
      * left. apply Hfree'. done.
      * right. exists g, j. split; [apply Hlive'; auto|done].
Qed.

(** The tree changed in representation only. *)
Lemma heap_inv_same h t t' :
  heap_inv h t -> tree_inv t' -> (forall x, tree_free t' x <-> tree_free t x) ->
  (forall g j, tree_live t' g j <-> tree_live t g j) ->
  heap_inv (mkHeapState (mach h) (Some t')) t'.
Proof.
  intros [Ht Hp Hi Hu Htg Hd Hc] Hi' Hf Hl. split; cbn [mach htree]; try done.
  - intros f k i. rewrite Hl. apply Hu.
  - intros i e Hidx Hm. destruct (Htg i e Hidx Hm) as (f & k & H1 & H2). exists f, k. by rewrite Hl.
  - intros f k g j x. rewrite !Hl. apply Hd.
  - intros x Hx Hr. rewrite Hf. setoid_rewrite Hl. by apply Hc.
Qed.

(** [alloc] up to its loop. *)
Lemma heap_alloc_steps h t size k :
  htree h = Some t -> order size = Ret k -> 0 <= k ->
  (k <= 24 -> forall off t', tree_allocate k t = (Some off, t') -> 0 <= off < 2 ^ 30) ->
  heap_alloc size h =
    if 24 <? k then Ret (None, h) else
    let (o, t') := tree_allocate k t in
    let h' := mkHeapState (mach h) (Some t') in
    match o with
    | None => Ret (None, h')
    | Some off =>
        bind (try_each (range_excl 0 (used_pages k)) (alloc_page (HEAP_START + off)))
          (fun r => match r with
                    | Ok _ => ret (Some (HEAP_START + off))
                    | Err _ => ret None
                    end) h'
    end.
Proof.
  intros Ht Ek Hk Hoff. unfold heap_alloc. unfold wait_tree at 1. unfold bind at 1.
  rewrite Ht, Ek. msimp. rewrite max_order_spec. change (HEAP_LEVELS - 1) with 24.
  destruct (24 <? k) eqn:E24; [done|]. destruct (tree_allocate k t) as [o t'] eqn:Ea.
  unfold put_tree. unfold bind at 1. destruct o as [off|]; [|done].
  specialize (Hoff ltac:(lia) off t' eq_refl). rewrite add64_small by (unfold HEAP_START; lia). msimp.
  rewrite block_pages_spec by lia. msimp. by rewrite (Z.add_comm off HEAP_START).
Qed.

Lemma taken_block t t' k off :
  tree_inv t -> 0 <= k <= 24 -> tree_allocate k t = (Some off, t') -> block_ok off k.
Proof.
  intros Hi Hk Ea.
  destruct (tree_allocate_some t k off t' Hi ltac:(unfold HEAP_LEVELS; lia) Ea) as (Hal & Hfree & _).
  assert (hblock off k off) as Hself.
  { apply hblock_iff; [lia|]. rewrite Z.sub_diag.
    assert (0 < 2 ^ (k + 6)) by (apply Z.pow_pos_nonneg; lia). split; [lia|done]. }
  destruct (free_range t off Hi (Hfree off Hself)) as [_ Hor]. split_and!; (done || lia).
Qed.

Lemma heap_alloc_spec h t size :
  heap_inv h t -> 1 <= size < 2 ^ 64 ->
  exists k, order size = Ret k /\
  ((exists r h' t', heap_alloc size h = Ret (r, h') /\ heap_inv h' t' /\
     match r with
     | Some ptr => exists f, ptr = HEAP_START + f /\ block_ok f k /\
         (forall x, hblock f k x -> tree_free t x) /\
         (forall g j, tree_live t' g j <-> (g = f /\ j = k) \/ tree_live t g j) /\
         evolves (in_pages (HEAP_PAGE + f / 4096) (HEAP_PAGE + f / 4096 + used_pages k)) (mach h) (mach h') /\
         takes (4 * used_pages k) (mach h) (mach h') /\ (forall x, tree_free t' x <-> tree_free t x /\ ~ hblock f k x) /\
         (forall i e, heap_index i -> page_mapped (mach h) i e -> page_mapped (mach h') i e) /\
         pages_fresh (mach h) (mach h')
     | None => mach h' = mach h /\ (forall g j, tree_live t' g j <-> tree_live t g j) /\
         (24 < k \/ forall f, f mod 2 ^ (k + 6) = 0 -> ~ (forall x, hblock f k x -> tree_free t x))
     end) \/
   (heap_alloc size h = Stop OOM_PANIC /\ short_of (4 * used_pages k) (mach h))).
Proof.
  intros Hinv Hs. destruct (Hinv) as [Ht Hp Hi Hu Htg Hd Hc].
  destruct (order_spec size Hs) as (k & Ek & Hk & Hsz & _). exists k. split; [done|].
  assert (k <= 24 -> forall off t', tree_allocate k t = (Some off, t') -> block_ok off k) as Hblk.
  { intros Hk24 off t' Ea. apply (taken_block t t'); [done|lia|done]. }
  rewrite (heap_alloc_steps h t size k Ht Ek Hk).
  2:{ intros Hk24 off t' Ea. by destruct (Hblk Hk24 off t' Ea) as (_ & _ & ?). }
  destruct (24 <? k) eqn:E24.
  { left. exists None, h, t. split_and!; [done|done|done|done|left; lia]. }
  destruct (tree_allocate k t) as [o t'] eqn:Ea.
  assert (0 <= k <= HEAP_LEVELS - 1) as Hk' by (unfold HEAP_LEVELS; lia).
  pose proof (tree_allocate_inv t k Hi Hk') as Hi'. rewrite Ea in Hi'. cbn [snd] in Hi'.
  destruct o as [off|].
  2:{ destruct (tree_allocate_none t k t' Hi Hk' Ea) as (Hf' & Hl' & Hno).
      left. eexists _, _, t'. split; [done|]. split; [by eapply heap_inv_same|].
      split_and!; [done|done|by right]. }
  destruct (tree_allocate_some t k off t' Hi Hk' Ea) as (Hal & Hfree & Hfree' & Hlive').
  pose proof (Hblk ltac:(lia) off t' eq_refl) as Hb. destruct (Hb) as (_ & _ & Hor).
  destruct (alloc_pages_spec (mkHeapState (mach h) (Some t')) off 0 (used_pages k) Hp Hor)
    as [(s' & E & Hp' & Hev & Htk & Hkeep & Hfr & Hnew)|[E Hex]].
  { split; [lia|]. unfold used_pages. apply Z.div_pos; [|lia].
    assert (0 < 2 ^ (k + 5)) by (apply Z.pow_pos_nonneg; lia). lia. }
  { intros i Hir. apply (covers_index off k); [done|]. unfold covers. lia. }
  { intros i Hir. lia. }
  - left. cbv zeta. rewrite (bind_ret _ _ _ _ _ E). eexists _, _, t'. split; [done|].
    cbn [mach htree]. split; [by eapply (heap_inv_take h t t' s' off k)|]. exists off. rewrite Z.sub_0_r in Htk. by split_and!.
  - right. cbv zeta. rewrite (bind_stop _ _ _ _ E). split; [done|]. by rewrite Z.sub_0_r in Hex.
Qed.

(** ** Deallocation *)

(** [x] is the frame of one of the pages [a] to [b - 1] of the heap. *)
Definition backs (a b : Z) (s : machine P) (x : Z) : Prop :=
  exists i e, a <= i < b /\ heap_index i /\ page_mapped s i e /\ x = e_addr e.

(** Pages [a] to [b - 1] of the heap lost their mapping and their frames are free; all other pages,
    frames and contents are as before. *)
Record pages_gone (a b : Z) (s s' : machine P) : Prop := {
  pg_pages : heap_pages s';
  pg_gone i : a <= i < b -> ref_walk (mem s') (cr3 s') (hpage i) = Ret None;
  pg_others page : p4_index page <> REC -> ~ in_pages (HEAP_PAGE + a) (HEAP_PAGE + b) page ->
    ref_walk (mem s') (cr3 s') page = ref_walk (mem s) (cr3 s) page;
  pg_tables x : is_table s' x <-> is_table s x;
  pg_paths q x : vpath q -> table_at (mem s) (cr3 s) q = Some x -> table_at (mem s') (cr3 s') q = Some x;
  pg_free x : fa_free (pmm s') x <-> fa_free (pmm s) x \/ backs a b s x;
  pg_live x k : fa_live (pmm s') x k <-> fa_live (pmm s) x k /\ ~ (k = 0 /\ backs a b s x);
  pg_mem w : ~ is_table s (frame_of w) -> word (mem s') w = word (mem s) w;
  pg_cr3 : cr3 s' = cr3 s;
  pg_cr3_flags : cr3_flags s' = cr3_flags s;
  pg_wp : cr0_wp s' = cr0_wp s
}.

Lemma heap_in_pages a b i : heap_index i -> (forall j, a <= j < b -> heap_index j) ->
  in_pages (HEAP_PAGE + a) (HEAP_PAGE + b) (hpage i) -> a <= i < b.
Proof.
  intros Hi Hab (n & Hn & Hs). assert (n - HEAP_PAGE = i) as <-; [|lia].
  apply hpage_inj; [apply Hab; lia|done|]. unfold hpage. by replace (HEAP_PAGE + (n - HEAP_PAGE)) with n by lia.
Qed.

Lemma pages_gone_mapped a b s s' i e : pages_gone a b s s' -> (forall j, a <= j < b -> heap_index j) -> heap_index i ->
  ~ (a <= i < b) -> page_mapped s' i e <-> page_mapped s i e.
Proof.
  intros Hg Hab Hi Hn. unfold page_mapped, small_mapping. rewrite (pg_others _ _ _ _ Hg); [done|apply hpage_ok, Hi|].
  intros Hin%heap_in_pages; done.
Qed.

Lemma pages_gone_none a s : heap_pages s -> pages_gone a a s s.
Proof.
  intros Hp. assert (forall x, ~ backs a a s x) as Hb by (intros x (i & e & Hi & _); lia).
  split; try done; [intros; lia|..]; intros; naive_solver.
Qed.

(** One page more. *)
Lemma pages_gone_cons a b s s1 s' e : a < b -> (forall i, a <= i < b -> heap_index i) -> page_mapped s a e ->
  unmapped Free (hpage a) e s s1 -> (forall j e', heap_index j -> j <> a -> page_mapped s1 j e' <-> page_mapped s j e') ->
  pages_gone (a + 1) b s1 s' -> pages_gone a b s s'.
Proof.
  intros Hab Hidx He Hum Ho [Hp Hg Hot Htab Hpa Hfr Hlv Hm H3 Hfl Hwp].
  assert (heap_index a) as Ha by (apply Hidx; lia).
  assert (forall x, backs a b s x <-> x = e_addr e \/ backs (a + 1) b s1 x) as Hb.
  { intros x. split.
    - intros (i & e' & Hi & Hii & Hie & ->). destruct (decide (i = a)) as [->|Hne]; [left|right].
      + f_equal. by eapply page_mapped_fun.
      + exists i, e'. split_and!; [lia|lia|apply Hii..| |done]. by apply Ho.
    - intros [->|(i & e' & Hi & Hii & Hie & ->)]; [exists a, e; by split_and!; [lia|lia|apply Ha..| |]|].
      exists i, e'. split_and!; [lia|lia|apply Hii..| |done]. apply Ho; [done|lia|done]. }
  assert (forall page, ~ in_pages (HEAP_PAGE + a) (HEAP_PAGE + b) page ->
    ~ in_pages (HEAP_PAGE + (a + 1)) (HEAP_PAGE + b) page /\ ~ same_page (hpage a) page) as Hout.
  { intros page Hn. split; [intros (n & Hn' & Hs); apply Hn; exists n; split; [lia|done]|].
    intros Hs. apply Hn. exists (HEAP_PAGE + a). split; [lia|done]. }
  split.
  - done.
  - intros i Hi. destruct (decide (i = a)) as [->|Hne]; [|apply Hg; lia].
    rewrite Hot; [apply Hum|apply hpage_ok, Ha|]. intros Hin. apply heap_in_pages in Hin; [lia|done|]. intros j Hj. apply Hidx. lia.
  - intros page Hr Hn. destruct (Hout page Hn) as [H1 H2]. rewrite Hot by done. by apply (um_others _ _ _ _ _ Hum).
  - intros x. rewrite Htab. apply (um_tables _ _ _ _ _ Hum).
  - intros q x Hq Hx. apply Hpa; [done|]. by apply (um_paths _ _ _ _ _ Hum).
  - intros x. rewrite Hfr, (um_free _ _ _ _ _ Hum), Hb. naive_solver.
  - intros x k. rewrite Hlv, (um_live _ _ _ _ _ Hum), Hb. naive_solver.
  - intros w Hw. rewrite Hm; [by apply (um_mem _ _ _ _ _ Hum)|]. by rewrite (um_tables _ _ _ _ _ Hum).
  - by rewrite H3, (um_cr3 _ _ _ _ _ Hum).
  - by rewrite Hfl, (um_cr3_flags _ _ _ _ _ Hum).
  - by rewrite Hwp, (um_wp _ _ _ _ _ Hum).
Qed.

Lemma unmap_pages_spec h f j n :
  heap_pages (mach h) -> 0 <= f < 2 ^ 30 -> 0 <= j <= n ->
  (forall i, j <= i < n -> heap_index (f / 4096 + i) /\ exists e, page_mapped (mach h) (f / 4096 + i) e) ->
  exists s', for_each (range_excl j n) (fun page =>
      let! page_addr := lift (add64 (HEAP_START + f) (page * 4096)) in
      tables (unmap (containing_address page_addr) Free Invalidate)) h =
    Ret (tt, mkHeapState s' (htree h)) /\ pages_gone (f / 4096 + j) (f / 4096 + n) (mach h) s'.
Proof.
  intros Hhp Hf Hj Hm. assert (0 <= f / 4096) as Hf0 by (apply Z.div_pos; lia).
  remember (Z.to_nat (n - j)) as len eqn:El. revert j h El Hhp Hj Hm.
  induction len as [|len IH]; intros j h El Hhp Hj Hm.
  { exists (mach h). rewrite range_excl_nil by lia. split; [by destruct h|].
    replace n with j by lia. by apply pages_gone_none. }
  rewrite range_excl_cons by lia. cbn [for_each].
  destruct (Hm j ltac:(lia)) as (Hidx & e & He).
  destruct (heap_unmap_page (mach h) _ Invalidate e Hhp Hidx He) as (s1 & E1 & Hhp1 & _ & Ho1 & Hum).
  unfold heap_index in Hidx. rewrite heap_address by lia. msimp. rewrite hpage_address by lia.
  rewrite (bind_ret _ _ _ _ _ (tables_ret _ h _ _ E1)).
  destruct (IH (j + 1) (mkHeapState s1 (htree h)) ltac:(lia) Hhp1 ltac:(lia)) as (s' & E & Hg).
  { intros i Hi. destruct (Hm i ltac:(lia)) as (Hii & e' & He'). split; [done|]. exists e'.
    apply Ho1; [done|lia|done]. }
  exists s'. split; [done|]. cbn [mach] in *. apply (pages_gone_cons _ _ _ s1 s' e); try done; [lia|..].
  - intros i Hi. destruct (Hm (i - f / 4096) ltac:(lia)) as (Hii & _). by replace (f / 4096 + (i - f / 4096)) with i in Hii by lia.
  - by rewrite <- Z.add_assoc.
Qed.

(** The block [f], [k] went back to the tree; the pages [a] to [b - 1], which no other
    block needs, were unmapped, and no page is left without a block. *)
Lemma heap_inv_give h t t' s' f k a b :
  heap_inv h t -> tree_inv t' -> block_ok f k -> tree_live t f k ->
  (forall x, tree_free t' x <-> tree_free t x \/ hblock f k x) ->
  (forall g j, tree_live t' g j <-> tree_live t g j /\ ~ (g = f /\ j = k)) ->
  pages_gone a b (mach h) s' -> (forall i, a <= i < b -> heap_index i) ->
  (forall g j i, tree_live t' g j -> covers g j i -> ~ (a <= i < b)) ->
  (forall i e, covers f k i -> ~ (a <= i < b) -> page_mapped (mach h) i e ->
     exists g j, tree_live t' g j /\ covers g j i) ->
  heap_inv (mkHeapState s' (Some t')) t'.
Proof.
  intros [Ht Hp Hi Hu Htg Hd Hc] Hi' Hb Hl Hfree' Hlive' Hpg Hab Hneed Hleft.
  pose proof (pg_pages _ _ _ _ Hpg) as Hp'. pose proof (pg_gone _ _ _ _ Hpg) as Hgone.
  pose proof (fun i e => pages_gone_mapped a b _ _ i e Hpg Hab) as Hoth.
  split; cbn [mach htree]; try done.
  - intros g j i Hg Hcov. pose proof (Hneed g j i Hg Hcov) as Hout.
    apply Hlive' in Hg as [Hg _]. destruct (Hu g j i Hg Hcov) as [e He]. exists e.
    apply Hoth; [|done|done]. exact (covers_index g j i (live_block_ok t g j Hi Hg) Hcov).
  - intros i e Hidx Hm. destruct (decide (a <= i < b)) as [Hin|Hout].
    { unfold page_mapped, small_mapping in Hm. rewrite Hgone in Hm by done. done. }
    apply (Hoth i e Hidx Hout) in Hm. destruct (Htg i e Hidx Hm) as (g & j & Hg & Hcov).
    destruct (decide (g = f /\ j = k)) as [[-> ->]|Hne].
    + by apply (Hleft i e).
    + exists g, j. split; [apply Hlive'; done|done].
  - intros g j g' j' x Hg Hg'. apply Hlive' in Hg as [Hg _], Hg' as [Hg' _]. by apply Hd.
  - intros x Hx Hr. destruct (Hc x Hx Hr) as [Hfx|(g & j & Hg & Hgx)]; [left; apply Hfree'; auto|].
    destruct (decide (g = f /\ j = k)) as [[-> ->]|Hne]; [left; apply Hfree'; auto|].
    right. exists g, j. split; [apply Hlive'; done|done].
Qed.

(** The heap invariant only looks at the heap's pages, their frames and the blocks of
    the tree. *)
Lemma heap_inv_transfer h t h2 t2 :
  heap_inv h t -> htree h2 = Some t2 -> tree_inv t2 ->
  (forall x, tree_free t2 x <-> tree_free t x) -> (forall g j, tree_live t2 g j <-> tree_live t g j) ->
  tables_inv (mach h2) -> (forall i, heap_index i -> path_clear (mach h2) (hpage i)) ->
  (forall i, heap_index i -> ref_walk (mem (mach h2)) (cr3 (mach h2)) (hpage i) =
     ref_walk (mem (mach h)) (cr3 (mach h)) (hpage i)) ->
  (forall i e, heap_index i -> page_mapped (mach h) i e -> fa_live (pmm (mach h2)) (e_addr e) 0) ->
  (forall x, is_table (mach h2) x -> is_table (mach h) x \/ fa_free (pmm (mach h)) x) ->
  heap_inv h2 t2.
Proof.
  intros [Ht [Hpt Hpc Hpf Hpi] Hi Hu Htg Hd Hc] Ht2 Hi2 Hfr Hlv Hinv2 Hcl Hw Hlive Htab.
  assert (forall i e, heap_index i -> page_mapped (mach h2) i e <-> page_mapped (mach h) i e) as Hpm.
  { intros i e Hidx. unfold page_mapped, small_mapping. by rewrite Hw. }
  split; try done; [split|..].
  - done.
  - done.
  - intros i e Hidx Hm. apply Hpm in Hm; [|done]. destruct (Hpf i e Hidx Hm) as (Hl & Hnt & Hwr).
    split_and!; [by apply (Hlive i)| |done]. intros Hx. apply Htab in Hx as [Hx|Hx]; [done|].
    apply (fa_live_not_free _ _ 0 (e_addr e) (ti_fa _ Hpt) Hl); [by apply in_block_0|done].
  - intros i j e e' Hi1 Hj1 Hm1 Hm2. apply Hpm in Hm1, Hm2; eauto.
  - intros g j i Hg Hcov. apply Hlv in Hg. destruct (Hu g j i Hg Hcov) as [e He]. exists e.
    apply Hpm; [|done]. exact (covers_index g j i (live_block_ok t g j Hi Hg) Hcov).
  - intros i e Hidx Hm. apply Hpm in Hm; [|done]. destruct (Htg i e Hidx Hm) as (g & j & Hg & Hcov).
    exists g, j. by rewrite Hlv.
  - intros g j g' j' x. rewrite !Hlv. apply Hd.
  - intros x Hx Hr. rewrite Hfr. setoid_rewrite Hlv. by apply Hc.
Qed.

(** Either the whole page is free or a block other than those of a page or more
    lies in it. *)
Lemma page_free_or_live t i n :
  tree_inv t -> (forall x, x mod 64 = 0 -> 0 <= x < 2 ^ 30 ->
    tree_free t x \/ exists f k, tree_live t f k /\ hblock f k x) ->
  heap_index i -> 0 <= n <= 64 ->
  (forall x, (exists c, 0 <= c < n /\ x = i * 4096 + 64 * c) -> tree_free t x) \/
  exists f k x, tree_live t f k /\ hblock f k x /\ i * 4096 <= x < i * 4096 + 4096.
Proof.
  intros Hi Hc Hidx Hn. unfold heap_index in Hidx.
  remember (Z.to_nat n) as m eqn:Em. revert n Hn Em. induction m as [|m IH]; intros n Hn Em.
  { left. intros x (c & Hcr & _). lia. }
  destruct (IH (n - 1) ltac:(lia) ltac:(lia)) as [Hall|Hex]; [|by right].
  destruct (Hc (i * 4096 + 64 * (n - 1))) as [Hf|(f & k & Hl & Hb)].
  - Z.to_euclidean_division_equations. lia.
  - lia.
  - left. intros x (c & Hcr & ->). destruct (decide (c = n - 1)) as [->|]; [done|].
    apply Hall. exists c. split; [lia|done].
  - right. eexists f, k, _. split_and!; [done|done|lia|lia].
Qed.

Lemma hblock_self f k : 0 <= k -> hblock f k f.
Proof.
  intros Hk. apply hblock_iff; [done|]. rewrite Z.sub_diag.
  assert (0 < 2 ^ (k + 6)) by (apply Z.pow_pos_nonneg; lia). split; [lia|done].
Qed.

Lemma block_ok_64 f k : block_ok f k -> f mod 64 = 0.
Proof.
  intros (Hk & Ha & _). assert (2 ^ (k + 6) = 2 ^ k * 64) as E by (rewrite Z.pow_add_r by lia; done).
  assert (0 < 2 ^ k) by (apply Z.pow_pos_nonneg; lia).
  rewrite E in Ha. apply Z.mod_divide in Ha as [c ->]; [|lia]. rewrite Z.mul_assoc. apply Z_mod_mult.
Qed.

(** A large block that has a 64-byte block of a page has the whole page. *)
Lemma large_has_page g j x y : block_ok g j -> 6 <= j -> hblock g j x -> y mod 64 = 0 ->
  y / 4096 = x / 4096 -> hblock g j y.
Proof.
  intros Hb Hj Hx Hy Hp. destruct (Hb) as (Hk & Ha & Hr).
  destruct (block_pages_large g j Hb Hj) as [Hal _].
  assert (2 ^ (j + 6) = 2 ^ (j - 6) * 4096) as E
    by (change 4096 with (2 ^ 12); rewrite <- Z.pow_add_r by lia; f_equal; lia).
  apply hblock_iff in Hx; [|lia]. apply hblock_iff; [lia|]. rewrite E in *.
  set (w := 2 ^ (j - 6)) in *. clearbody w. Z.to_euclidean_division_equations. lia.
Qed.

Lemma page_base ptr : 0 <= ptr -> Z.land ptr (Z.lnot 0xFFF) = ptr / 4096 * 4096.
Proof.
  intros Hp. change 0xFFF with (Z.ones 12). rewrite <- Z.ldiff_land, Z.ldiff_ones_r by lia.
  by rewrite Z.shiftl_mul_pow2, Z.shiftr_div_pow2 by lia.
Qed.

(** [dealloc] up to the unmapping of pages. *)
Lemma heap_dealloc_steps h t t' f k size :
  htree h = Some t -> order size = Ret k -> block_ok f k -> tree_deallocate f k t = Ret t' ->
  let h' := mkHeapState (mach h) (Some t') in
  heap_dealloc (Some (HEAP_START + f)) size h =
    if k <? 6 then
      if tree_order_free (2 ^ 18 - 1 + f / 4096) t' =? 7 then
        tables (unmap (hpage (f / 4096)) Free Invalidate) h'
      else Ret (tt, h')
    else for_each (range_excl 0 (used_pages k)) (fun page =>
      let! page_addr := lift (add64 (HEAP_START + f) (page * 4096)) in
      tables (unmap (containing_address page_addr) Free Invalidate)) h'.
Proof.
  intros Ht Ek Hb Ed h'. destruct (Hb) as (Hk & _ & Hf).
  assert (0 <= f / 4096) by (apply Z.div_pos; lia).
  unfold heap_dealloc. rewrite Ek. msimp.
  assert (in_heap (HEAP_START + f) = true) as ->.
  { unfold in_heap. change (Z.shiftl 1 30) with (2 ^ 30). lia. }
  msimp. rewrite sub64_small by (unfold HEAP_START; lia). msimp.
  replace (HEAP_START + f - HEAP_START) with f by lia.
  assert (wait_tree h = Ret (t, h)) as Hw by (unfold wait_tree; by rewrite Ht).
  mcall Hw. rewrite Ed. msimp. unfold put_tree at 1. unfold bind at 1. fold h'.
  change (12 - HEAP_BASE_ORDER) with 6. destruct (k <? 6) eqn:E6.
  - assert (wait_tree h' = Ret (t', h')) as Hw' by done. mcall Hw'.
    rewrite max_order_spec. change (HEAP_LEVELS - 1 - 6) with 18.
    rewrite blocks_in_tree_spec by lia. rewrite page_base by lia.
    change (6 + HEAP_BASE_ORDER) with 12. rewrite Z.shiftr_div_pow2 by lia.
    change (2 ^ 12) with 4096. rewrite Z.div_mul by lia.
    replace (2 ^ 18 - 1 + f / 4096 + 1 - 1) with (2 ^ 18 - 1 + f / 4096) by lia.
    change (6 + 1) with 7. destruct (_ =? 7); [|done].
    rewrite add64_small by (unfold HEAP_START; Z.to_euclidean_division_equations; lia). msimp.
    f_equal. f_equal. rewrite <- (Z.add_0_r (f / 4096)) at 2. rewrite <- hpage_address by lia.
    unfold containing_address. f_equal. change (bytes Kib4) with 4096. unfold HEAP_START.
    Z.to_euclidean_division_equations. lia.
  - by rewrite block_pages_spec by lia.
Qed.

Section dealloc.
Context h (t t' : tree) (f k : Z).
Context (Hinv : heap_inv h t) (Hl : tree_live t f k) (Hi' : tree_inv t').
Context (Hfree' : forall x, tree_free t' x <-> tree_free t x \/ hblock f k x).
Context (Hlive' : forall g j, tree_live t' g j <-> tree_live t g j /\ ~ (g = f /\ j = k)).
#[local] Abbreviation h1 := (mkHeapState (mach h) (Some t')).

#[local] Lemma given_ok : block_ok f k.
Proof. exact (live_block_ok t f k (hi_inv _ _ Hinv) Hl). Qed.

(** The pages [a] to [b - 1] are those that no block needs any more. *)
Definition spare_pages (a b : Z) : Prop :=
  (forall g j i, tree_live t' g j -> covers g j i -> ~ (a <= i < b)) /\
  (forall i, a <= i < b -> covers f k i) /\
  (forall i, covers f k i -> ~ (a <= i < b) -> exists g j, tree_live t' g j /\ covers g j i).

Lemma small_covers i : k < 6 -> covers f k i <-> i = f / 4096.
Proof.
  intros Hk. destruct given_ok as (Hk0 & _). unfold covers. rewrite used_pages_small by lia. lia.
Qed.

(** A block that reaches into a page has a 64-byte block of it. *)
Lemma covers_has_block g j i : tree_live t' g j -> covers g j i ->
  exists x, hblock g j x /\ hblock (i * 4096) 6 x.
Proof.
  intros Hg Hcg. pose proof (live_block_ok t' g j Hi' Hg) as Hbg. destruct (Hbg) as (Hj & _ & Hgr).
  destruct (decide (j < 6)).
  - exists g. split; [apply hblock_self; lia|]. pose proof (block_ok_64 g j Hbg).
    unfold covers in Hcg. rewrite used_pages_small in Hcg by lia.
    apply hblock_iff; [lia|]. change (2 ^ (6 + 6)) with 4096. Z.to_euclidean_division_equations. lia.
  - exists (i * 4096). destruct (block_pages_large g j Hbg ltac:(lia)) as [Ha Hus].
    split; [|apply hblock_self; lia]. apply hblock_iff; [lia|]. unfold covers in Hcg.
    Z.to_euclidean_division_equations. lia.
Qed.

Lemma dealloc_page_free : k < 6 ->
  (forall x, hblock (f / 4096 * 4096) 6 x -> tree_free t' x) ->
  exists s', tables (unmap (hpage (f / 4096)) Free Invalidate) h1 = Ret (tt, mkHeapState s' (Some t')) /\
    pages_gone (f / 4096) (f / 4096 + 1) (mach h) s' /\ spare_pages (f / 4096) (f / 4096 + 1).
Proof.
  intros Hk Hall. set (i := f / 4096) in *.
  assert (heap_index i) as Hidx by (apply (covers_index f k); [apply given_ok|by apply small_covers]).
  destruct (hi_used _ _ Hinv f k i Hl (proj2 (small_covers i Hk) eq_refl)) as [e He].
  destruct (heap_unmap_page (mach h) i Invalidate e (hi_pages _ _ Hinv) Hidx He)
    as (s' & E & Hp' & _ & Ho & Hum).
  exists s'. split_and!.
  - exact (tables_ret (unmap (hpage i) Free Invalidate) h1 tt s' E).
  - apply (pages_gone_cons i (i + 1) _ s' s' e); try done; [lia| |by apply pages_gone_none].
    intros i' Hi''. by replace i' with i by lia.
  - split_and!; [|intros i' Hi''; apply small_covers; [done|]; fold i; lia|intros i' Hci%small_covers; [lia|done]]. intros g j i' Hg' Hcg Hin.
    replace i' with i in Hcg by lia. destruct (covers_has_block g j i Hg' Hcg) as (x & Hx & Hxi).
    exact (tree_live_not_free t' g j x Hi' Hg' Hx (Hall x Hxi)).
Qed.

Lemma given_complete x : x mod 64 = 0 -> 0 <= x < 2 ^ 30 ->
  tree_free t' x \/ exists g j, tree_live t' g j /\ hblock g j x.
Proof.
  intros Hxm Hxr. destruct (hi_complete _ _ Hinv x Hxm Hxr) as [Hfx|(g & j & Hg & Hgx)];
    [left; apply Hfree'; auto|].
  destruct (decide (g = f /\ j = k)) as [[-> ->]|Hne]; [left; apply Hfree'; auto|].
  right. exists g, j. split; [apply Hlive'; done|done].
Qed.

Lemma dealloc_page_shared : k < 6 ->
  ~ (forall x, hblock (f / 4096 * 4096) 6 x -> tree_free t' x) ->
  pages_gone (f / 4096) (f / 4096) (mach h) (mach h) /\ spare_pages (f / 4096) (f / 4096).
Proof.
  intros Hk Hnot. destruct (given_ok) as (Hk0 & _ & Hf). set (i := f / 4096) in *.
  assert (heap_index i) as Hidx by (apply (covers_index f k); [apply given_ok|by apply small_covers]).
  split; [apply pages_gone_none, Hinv|]. split_and!; [intros; lia|intros; lia|].
  intros i' Hci%small_covers _; [|done]. subst i'.
  destruct (page_free_or_live t' i 64 Hi' given_complete Hidx ltac:(lia))
    as [Hall|(g & j & x & Hg & Hx & Hxr)].
  { exfalso. apply Hnot. intros x Hx. apply Hall. by apply hblock_alt in Hx. }
  exists g, j. split; [done|]. pose proof (live_block_ok t' g j Hi' Hg) as Hbg.
  destruct (Hbg) as (Hj & _ & Hgr).
  assert (x / 4096 = i) as Hxi by (Z.to_euclidean_division_equations; lia).
  destruct (decide (j < 6)).
  - unfold covers. rewrite used_pages_small by lia. pose proof (block_small g j Hbg ltac:(lia)).
    apply hblock_iff in Hx; [|lia]. Z.to_euclidean_division_equations. lia.
  - exfalso. apply Hlive' in Hg as [Hg Hne]. apply Hne.
    assert (hblock g j f) as Hgf.
    { apply (large_has_page g j x f); [done|lia|done|apply (block_ok_64 f k), given_ok|lia]. }
    apply (hi_disjoint _ _ Hinv g j f k f); [done|done|done|apply hblock_self; lia].
Qed.

Lemma dealloc_large : 6 <= k ->
  exists s', for_each (range_excl 0 (used_pages k)) (fun page =>
      let! page_addr := lift (add64 (HEAP_START + f) (page * 4096)) in
      tables (unmap (containing_address page_addr) Free Invalidate)) h1 =
    Ret (tt, mkHeapState s' (Some t')) /\
    pages_gone (f / 4096) (f / 4096 + used_pages k) (mach h) s' /\
    spare_pages (f / 4096) (f / 4096 + used_pages k).
Proof.
  intros Hk6. pose proof given_ok as Hb. destruct (Hb) as (Hk & _ & Hf).
  destruct (unmap_pages_spec h1 f 0 (used_pages k) (hi_pages _ _ Hinv) Hf) as (s' & E & Hgone).
  { split; [lia|]. unfold used_pages. apply Z.div_pos; [|lia].
    assert (0 < 2 ^ (k + 5)) by (apply Z.pow_pos_nonneg; lia). lia. }
  { intros i Hir. assert (covers f k (f / 4096 + i)) as Hcov by (unfold covers; lia).
    split; [by apply (covers_index f k)|]. by apply (hi_used _ _ Hinv f k). }
  rewrite Z.add_0_r in Hgone. exists s'. split_and!; [exact E|exact Hgone|].
  split_and!; [|done|intros i Hci Hout; by destruct Hout]. intros g j i Hg Hcg Hin.
  apply Hlive' in Hg as [Hg Hne]. apply Hne.
  pose proof (live_block_ok t g j (hi_inv _ _ Hinv) Hg) as Hbg. destruct (Hbg) as (Hj & _ & _).
  destruct (covers_large f k g j i Hb Hbg Hk6 Hin Hcg) as [Hx|Hx].
  - destruct (hi_disjoint _ _ Hinv f k g j g); [done|done|done|apply hblock_self; lia|done].
  - destruct (hi_disjoint _ _ Hinv f k g j f); [done|done|apply hblock_self; lia|done|done].
Qed.

(** The unmapping that [dealloc] does, whichever branch it takes. *)
Lemma dealloc_pages : exists a b s',
  (if k <? 6 then
     if tree_order_free (2 ^ 18 - 1 + f / 4096) t' =? 7 then
       tables (unmap (hpage (f / 4096)) Free Invalidate) h1
     else Ret (tt, h1)
   else for_each (range_excl 0 (used_pages k)) (fun page =>
     let! page_addr := lift (add64 (HEAP_START + f) (page * 4096)) in
     tables (unmap (containing_address page_addr) Free Invalidate)) h1) =
    Ret (tt, mkHeapState s' (Some t')) /\ pages_gone a b (mach h) s' /\ spare_pages a b.
Proof.
  destruct (k <? 6) eqn:E6.
  2:{ destruct dealloc_large as (s' & H); [lia|]. by eexists _, _, s'. }
  pose proof (covers_index f k (f / 4096) given_ok (proj2 (small_covers _ ltac:(lia)) eq_refl)) as Hidx.
  pose proof (tree_order_free_spec t' 18 (f / 4096) Hi' ltac:(unfold HEAP_LEVELS; lia) Hidx) as Hof.
  change (HEAP_LEVELS - 18) with 7 in Hof. change (HEAP_LEVELS - 1 - 18 + HEAP_BASE_ORDER) with 12 in Hof.
  change (HEAP_LEVELS - 1 - 18) with 6 in Hof. change (2 ^ 12) with 4096 in Hof.
  destruct (_ =? 7) eqn:Eof.
  - apply Z.eqb_eq in Eof. rewrite Hof in Eof.
    destruct (dealloc_page_free ltac:(lia) Eof) as (s' & H). by eexists _, _, s'.
  - apply Z.eqb_neq in Eof. exists (f / 4096), (f / 4096), (mach h). split; [done|].
    apply dealloc_page_shared; [lia|]. by rewrite <- Hof.
Qed.

End dealloc.

(** [dealloc] of a live block: it goes back to the tree, and its pages that no other block reaches
    into, [a] to [b - 1], are unmapped and their frames freed. *)
Lemma heap_dealloc_pages h t f k size :
  heap_inv h t -> tree_live t f k -> order size = Ret k ->
  exists h' t' a b, heap_dealloc (Some (HEAP_START + f)) size h = Ret (tt, h') /\ heap_inv h' t' /\
    (forall x, tree_free t' x <-> tree_free t x \/ hblock f k x) /\
    (forall g j, tree_live t' g j <-> tree_live t g j /\ ~ (g = f /\ j = k)) /\
    pages_gone a b (mach h) (mach h') /\ (forall i, a <= i < b -> heap_index i) /\ spare_pages t' f k a b.
Proof.
  intros Hinv Hl Ek. pose proof (live_block_ok t f k (hi_inv _ _ Hinv) Hl) as Hb.
  destruct (tree_deallocate_live t f k (hi_inv _ _ Hinv) Hl) as (t' & Ed & Hi' & Hfree' & Hlive').
  rewrite (heap_dealloc_steps h t t' f k size (hi_tree _ _ Hinv) Ek Hb Ed).
  destruct (dealloc_pages h t t' f k Hinv Hl Hi' Hfree' Hlive') as (a & b & s' & E & Hgone & Hsp).
  pose proof Hsp as (Hneed & Hcov & Hleft).
  assert (forall i, a <= i < b -> heap_index i) as Hab by (intros i Hi; apply (covers_index f k); auto).
  exists (mkHeapState s' (Some t')), t', a, b. split; [exact E|].
  split; [by eapply (heap_inv_give h t t' s' f k a b); eauto|]. by split_and!.
Qed.

(** A page of the heap that the block [f], [k] has and no block of the tree [t'] reaches into. *)
Definition spare_page (t' : tree) (f k i : Z) : Prop := covers f k i /\ forall g j, tree_live t' g j -> ~ covers g j i.

Lemma heap_dealloc_spec h t f k size :
  heap_inv h t -> tree_live t f k -> order size = Ret k ->
  exists h' t', heap_dealloc (Some (HEAP_START + f)) size h = Ret (tt, h') /\ heap_inv h' t' /\
    (forall x, tree_free t' x <-> tree_free t x \/ hblock f k x) /\
    (forall g j, tree_live t' g j <-> tree_live t g j /\ ~ (g = f /\ j = k)) /\
    (forall i, heap_index i -> ref_walk (mem (mach h')) (cr3 (mach h')) (hpage i) = Ret None <->
       ref_walk (mem (mach h)) (cr3 (mach h)) (hpage i) = Ret None \/ spare_page t' f k i) /\
    (forall page, p4_index page <> REC -> (forall i, spare_page t' f k i -> ~ same_page (hpage i) page) ->
       ref_walk (mem (mach h')) (cr3 (mach h')) page = ref_walk (mem (mach h)) (cr3 (mach h)) page) /\
    (forall x, fa_free (pmm (mach h')) x <->
       fa_free (pmm (mach h)) x \/ exists i e, spare_page t' f k i /\ page_mapped (mach h) i e /\ x = e_addr e) /\
    (forall w, ~ is_table (mach h) (frame_of w) -> word (mem (mach h')) w = word (mem (mach h)) w).
Proof.
  intros Hinv Hl Ek. destruct (heap_dealloc_pages h t f k size Hinv Hl Ek)
    as (h' & t' & a & b & E & Hi' & Hfr & Hlv & Hg & Hab & Hneed & Hcov & Hleft).
  assert (forall i, spare_page t' f k i <-> a <= i < b) as Hsp.
  { intros i. split.
    - intros [Hc Hn]. destruct (decide (a <= i < b)) as [|Hout]; [done|].
      destruct (Hleft i Hc Hout) as (g & j & Hgl & Hgc). by destruct (Hn g j Hgl).
    - intros Hin. split; [auto|]. intros g j Hgl Hgc. by apply (Hneed g j i). }
  assert (forall page, (forall i, spare_page t' f k i -> ~ same_page (hpage i) page) ->
    ~ in_pages (HEAP_PAGE + a) (HEAP_PAGE + b) page) as Hout.
  { intros page Hn (n & Hr & Hs). apply (Hn (n - HEAP_PAGE)); [apply Hsp; lia|].
    unfold hpage. by replace (HEAP_PAGE + (n - HEAP_PAGE)) with n by lia. }
  exists h', t'. split_and!; try done.
  - intros i Hi. rewrite Hsp. destruct (decide (a <= i < b)) as [Hin|Hn].
    + rewrite (pg_gone _ _ _ _ Hg) by done. tauto.
    + rewrite (pg_others _ _ _ _ Hg); [tauto|apply hpage_ok, Hi|]. intros Hin%heap_in_pages; done.
  - intros page Hr Hn. apply (pg_others _ _ _ _ Hg); [done|by apply Hout].
  - intros x. rewrite (pg_free _ _ _ _ Hg). unfold backs. setoid_rewrite Hsp.
    split; (intros [?|H]; [by left|right]); [destruct H as (i & e & ? & _ & ?)|destruct H as (i & e & ? & ?)]; exists i, e; auto.
  - apply Hg.
Qed.

(** The pages of a free block of a page or more are not mapped. *)
Lemma region_not_mapped h t f k i :
  heap_inv h t -> block_ok f k -> 6 <= k -> (forall x, hblock f k x -> tree_free t x) ->
  0 <= i < region_pages k -> ref_walk (mem (mach h)) (cr3 (mach h)) (hpage (f / 4096 + i)) = Ret None.
Proof.
  intros Hinv Hb Hk Hfree Hi. pose proof (region_index f k i Hb Hk Hi) as Hidx.
  destruct (ref_walk_clear (mach h) (hpage (f / 4096 + i))) as [Hn|[e He]];
    [by apply (hp_clear _ (hi_pages _ _ Hinv))|done|exfalso].
  destruct (hi_tight _ _ Hinv _ e Hidx He) as (g & j & Hl & Hcov).
  pose proof (live_block_ok t g j (hi_inv _ _ Hinv) Hl) as Hbg.
  destruct (block_pages_large f k Hb Hk) as [Hal _]. pose proof (region_pages_bytes k Hk) as Ek.
  destruct (page_in_block f k g j (f / 4096 + i) Hb Hbg Hk) as [Hin|Hin]; [| |done|..].
  - Z.to_euclidean_division_equations. lia.
  - rewrite Ek. Z.to_euclidean_division_equations. lia.
  - eapply (tree_live_not_free t g j g); [apply Hinv|done|by apply hblock_self; apply Hbg|by apply Hfree].
  - eapply (tree_live_not_free t g j f); [apply Hinv|done|done|]. apply Hfree, hblock_self, Hb.
Qed.

(** ** Initialisation *)

Definition no_heap_page (s : machine P) : Prop :=
  forall i, heap_index i -> ref_walk (mem s) (cr3 s) (hpage i) = Ret None /\ path_clear s (hpage i).

(** A heap with nothing handed out and no page mapped. *)
Lemma heap_inv_empty s t : tables_inv s -> no_heap_page s -> tree_inv t -> (forall f k, ~ tree_live t f k) ->
  (forall x, x mod 64 = 0 -> 0 <= x < 2 ^ 30 -> tree_free t x) -> heap_inv (mkHeapState s (Some t)) t.
Proof.
  intros Ht Hno Hti Hnl Hfree.
  assert (forall i e, heap_index i -> ~ page_mapped s i e) as Hnm.
  { intros i e Hi Hm. destruct (Hno i Hi) as [Hn _]. unfold page_mapped, small_mapping in Hm. congruence. }
  split; cbn [mach htree]; [done| |done|..].
  - split; [done| |intros i e Hi Hm; by destruct (Hnm i e)|].
    + intros i Hi. by apply Hno.
    + intros i j e e' Hi _ Hm. by destruct (Hnm i e).
  - intros f k i Hl. by destruct (Hnl f k).
  - intros i e Hi Hm. by destruct (Hnm i e).
  - intros f k g j x Hl. by destruct (Hnl f k).
  - intros x Hx Hr. left. by apply Hfree.
Qed.

Lemma heap_inv_fresh s : tables_inv s -> no_heap_page s ->
  heap_inv (mkHeapState s (Some (tree_new [(0, Z.shiftl 1 (30 + 1))])))
           (tree_new [(0, Z.shiftl 1 (30 + 1))]).
Proof.
  intros Ht Hno. apply heap_inv_empty; [done|done|apply tree_new_inv|intros f k; apply tree_new_live|].
  intros x Hx Hr. apply tree_new_free. change (2 ^ HEAP_BASE_ORDER) with 64.
  change (tree_bytes HEAP_LEVELS HEAP_BASE_ORDER) with (2 ^ 30). split_and!; [done|lia|lia|].
  exists (0, Z.shiftl 1 (30 + 1)). split; [by apply list_elem_of_singleton|].
  unfold range_has. change (Z.shiftl 1 (30 + 1)) with (2 ^ 31). simpl fst. simpl snd. lia.
Qed.

(** The page after the one of [heap_tree_start], where the tree is put. *)
Definition tree_page (heap_tree_start : Z) : Z := heap_tree_start / 4096 + 1.

Lemma heap_init_spec h a :
  htree h = None -> tables_inv (mach h) -> no_heap_page (mach h) ->
  KERNEL_MAPPING_BEGIN <= a < 2 ^ 64 - 2 ^ 26 ->
  (forall n, tree_page a <= n <= tree_page a + 8191 -> path_clear (mach h) (page_no n)) ->
  (exists s', heap_init a h = Ret (tree_page a * 4096,
        mkHeapState s' (Some (tree_new [(0, Z.shiftl 1 (30 + 1))]))) /\
     heap_inv (mkHeapState s' (Some (tree_new [(0, Z.shiftl 1 (30 + 1))])))
              (tree_new [(0, Z.shiftl 1 (30 + 1))]) /\
     pages_backed heap_flags Zero (tree_page a) (tree_page a + 8192) (mach h) s' /\ takes (4 * 8192) (mach h) s') \/
  (heap_init a h = Stop (Panic "Out of physical memory") /\ short_of (4 * 8192) (mach h)).
Proof.
  unfold KERNEL_MAPPING_BEGIN. intros Hn Ht Hno Ha Hcl. unfold heap_init. fold (tree_page a).
  assert (0xffffffff80000 < tree_page a /\ tree_page a + 8192 < 2 ^ 52) as Htp
    by (unfold tree_page; Z.to_euclidean_division_equations; lia).
  rewrite mul64_small by lia. cbn [rbind]. rewrite Hn. unfold tree_size.
  rewrite blocks_in_tree_spec by (unfold HEAP_LEVELS; lia).
  change ((2 ^ HEAP_LEVELS - 1) / 4096) with 8191.
  assert (containing_address (tree_page a * 4096) = page_no (tree_page a)) as ->.
  { unfold containing_address, page_no. change (bytes Kib4) with 4096. by rewrite Z.div_mul. }
  unfold page_add. cbn [number size page_no]. rewrite add64_small by lia. cbn [rbind].
  fold (page_no (tree_page a + 8191)).
  destruct (map_range_spec (mach h) (tree_page a) (tree_page a + 8191) heap_flags Invalidate Zero Ht
              heap_flags_ok) as (r & s' & E & Hr).
  { by rewrite heap_flags_writable. }
  { intros n Hnr. split; [|by apply Hcl]. apply kernel_page_ok. unfold KERNEL_PAGE. change HEAP_PAGE with 0xffffffff40000 in *. lia. }
  rewrite E. destruct r as [u|u]; [left|right].
  2:{ destruct Hr as (k & Hk & _ & Hex). split; [done|]. by apply (short_of_mono (4 * (k - tree_page a + 1))); [lia|]. }
  destruct Hr as [Hr Htk].
  replace (Z.max (tree_page a) (tree_page a + 8191 + 1)) with (tree_page a + 8192) in Hr by lia.
  replace (4 * Z.max 0 (tree_page a + 8191 + 1 - tree_page a)) with (4 * 8192) in Htk by lia.
  destruct (Hr) as [Hev _].
  exists s'. split; [done|]. split; [|done]. apply heap_inv_fresh; [apply Hev|].
  intros i Hi. destruct (Hno i Hi) as [Hnone Hclr]. split.
  - rewrite (ev_cr3 _ _ _ Hev), (ev_walk _ _ _ Hev); [done|apply hpage_ok, Hi|].
    intros (n & Hnr & Hs). apply same_page_inj in Hs; [|apply kernel_page_ok|by apply hpage_ok].
    + simpl in Hs. change HEAP_PAGE with 0xffffffff40000 in Hs. unfold heap_index in Hi. lia.
    + unfold KERNEL_PAGE. lia.
  - by apply (path_clear_evolves _ _ _ _ (po_rec _ (hpage_ok i Hi)) Hev).
Qed.

End alloc.
