(* ===== verification/HeapTheorems.v ===== *)
(** The properties of the kernel heap ([heap.rs]) and concrete instances. *)
From S2P Require Import Prelude Crates Machine FrameAlloc Paging Layout PageMap Friendly.
From S2P Require Import AddressSpace PagingLemmas PageMapLemmas MapperLemmas UnmapLemmas.
From S2P Require Import FriendlyExample PhysicalAllocator AllocatorTheorems PagingTheorems.
From S2P Require Import Heap HeapLemmas.

(** [order] terminates on every [u64] size and gives the least order [k] for which
    half a block ([2^(k + 5)] bytes) has room for the size. *)
Theorem order_correct size : 1 <= size < 2 ^ 64 ->
  exists k, order size = Ret k /\ 0 <= k /\ size <= 2 ^ (k + 5) /\
    forall j, 0 <= j < k -> 2 ^ (j + 5) < size.
Proof.
  intros Hs. destruct (order_spec size Hs) as (k & E & Hk & Hsz & Hmin). exists k.
  split_and!; [done|done|done|]. intros j Hj. destruct Hmin as [->|Hmin]; [lia|].
  assert (2 ^ (j + 5) <= 2 ^ (k + 4)) by (apply Z.pow_le_mono_r; lia). lia.
Qed.

Section theorems.
Context `{B : Build} `{X : X86_64Crate} `{F : BitflagsCrate}.
Context {P : Type} `{FA : FrameAllocator P} `{FS : !FrameAllocatorSpec P}.
Context `{T : FriendlyTree HEAP_LEVELS HEAP_BASE_ORDER} `{FC : FriendlyCrate}.
Implicit Types h : heap_state P tree.

(** [Heap::init] on an address space with no heap page mapped gives a heap that
    satisfies the invariant, with the 8192 pages of the tree backed by cleared
    frames of their own; it returns the page after [heap_tree_start]. The only other
    outcome is the panic for want of physical memory, when fewer than four frames for
    each of those pages are free. *)
Theorem heap_init_correct h a :
  htree h = None -> tables_inv (mach h) -> no_heap_page (mach h) ->
  KERNEL_MAPPING_BEGIN <= a < 2 ^ 64 - 2 ^ 26 ->
  (forall n, tree_page a <= n <= tree_page a + 8191 -> path_clear (mach h) (page_no n)) ->
  (exists h' t, heap_init a h = Ret ((a / 4096 + 1) * 4096, h') /\ heap_inv h' t /\
     (forall f k, ~ tree_live t f k) /\
     pages_backed heap_flags Zero (tree_page a) (tree_page a + 8192) (mach h) (mach h')) \/
  (heap_init a h = Stop (Panic "Out of physical memory") /\ short_of (4 * 8192) (mach h)).
Proof.
  intros H1 H2 H3 H4 H5. destruct (heap_init_spec h a H1 H2 H3 H4 H5) as [(s' & E & Hi & Hb & _)|H]; [left|by right].
  eexists _, _. split; [exact E|]. split_and!; [exact Hi| |done]. intros f k. apply tree_new_live.
Qed.

(** C7: [alloc] keeps the heap invariant and returns a pointer to [size] bytes of the
    heap that belong to no other allocation, lie in a block aligned to twice the
    size class, and are all mapped writable; every block handed out before keeps its
    pages and their contents. It returns null only for sizes beyond the largest
    order or when the tree has no free block, and then nothing is mapped. When
    physical memory runs out (fewer than four frames for each page of the block are
    free) it does not return null: it panics in the clean-up. *)
Theorem heap_alloc_correct h t size :
  heap_inv h t -> 1 <= size < 2 ^ 64 ->
  exists k, order size = Ret k /\
  ((exists r h' t', heap_alloc size h = Ret (r, h') /\ heap_inv h' t' /\
     match r with
     | Some ptr => exists f, ptr = HEAP_START + f /\ f mod 2 ^ (k + 6) = 0 /\
         0 <= f /\ f + size <= 2 ^ 30 /\
         (forall x, block_of HEAP_BASE_ORDER f k x -> tree_free t x) /\
         (forall g j, tree_live t' g j <-> (g = f /\ j = k) \/ tree_live t g j) /\
         (forall a, 0 <= a < size -> exists pa,
            mmu_walk (mem (mach h')) (cr3 (mach h')) (ptr + a) = Some (pa, true)) /\
         (forall i e w, heap_index i -> page_mapped (mach h) i e -> 0 <= w < 512 ->
            page_mapped (mach h') i e /\
            entry_at (mem (mach h')) (e_addr e) w = entry_at (mem (mach h)) (e_addr e) w)
     | None => mach h' = mach h /\
         (24 < k \/ forall f, f mod 2 ^ (k + 6) = 0 ->
            ~ (forall x, block_of HEAP_BASE_ORDER f k x -> tree_free t x))
     end) \/
   (heap_alloc size h = Stop OOM_PANIC /\ short_of (4 * used_pages k) (mach h))).
Proof.
  intros Hinv Hs. destruct (heap_alloc_spec h t size Hinv Hs) as (k & Ek & Hres). exists k.
  split; [done|]. destruct (order_spec size Hs) as (k' & Ek' & _ & Hsz & _).
  rewrite Ek in Ek'. injection Ek' as <-.
  destruct Hres as [(r & h' & t' & E & Hinv' & Hr)|Hr]; [left|by right].
  exists r, h', t'. split_and!; [done|done|]. destruct r as [ptr|]; [|tauto].
  destruct Hr as (f & -> & Hb & Hfree & Hlive & Hev & _ & _ & Hkeep & _). exists f.
  pose proof (block_end f k Hb) as Hend. destruct (Hb) as (Hk & Hal & Hf).
  assert (2 ^ (k + 5) <= 2 ^ (k + 6)) by (apply Z.pow_le_mono_r; lia).
  split_and!; [done|done|lia|lia|done|done|..].
  - intros a Ha. pose proof (covers_byte f k size a Hb Ha Hsz) as Hcov.
    pose proof (covers_index f k _ Hb Hcov) as Hidx.
    destruct (hi_used _ _ Hinv' f k _ (proj2 (Hlive f k) (or_introl (conj eq_refl eq_refl))) Hcov) as [e He].
    destruct (hp_frame _ (hi_pages _ _ Hinv') _ e Hidx He) as (_ & _ & Hw).
    exists (e_addr e + (f + a) mod 4096). rewrite <- Hw.
    replace (HEAP_START + f + a) with (number (hpage ((f + a) / 4096)) * 4096 + (f + a) mod 4096).
    2:{ cbn. unfold HEAP_PAGE, HEAP_START. Z.to_euclidean_division_equations. lia. }
    apply mmu_small; [apply (hi_pages _ _ Hinv')|by apply hpage_ok|done|by apply Z.mod_pos_bound].
  - intros i e w Hi He Hw. split; [by apply Hkeep|].
    destruct (hp_frame _ (hi_pages _ _ Hinv) i e Hi He) as (Hl & Hnt & _).
    assert (frame_of (e_addr e + 8 * w) = e_addr e) as Efr by (apply frame_of_entry; [apply e_addr_range|done]).
    apply (ev_mem _ _ _ Hev); rewrite Efr; [done|].
    apply (fa_live_not_free _ _ 0 _ (ti_fa _ (hp_tables _ (hi_pages _ _ Hinv))) Hl). by apply in_block_0.
Qed.

(** C6: [dealloc] of a block that is handed out never panics. It gives the block back and keeps the
    heap invariant; it unmaps exactly the pages of the block that no remaining block reaches into,
    and the frames that then are free are those that were and those of these pages, so that no
    frame leaks; every other page, of the heap or not, is translated as before, and memory other than
    page tables keeps its contents. *)
Theorem heap_dealloc_correct h t f k size :
  heap_inv h t -> tree_live t f k -> order size = Ret k ->
  exists h' t', heap_dealloc (Some (HEAP_START + f)) size h = Ret (tt, h') /\ heap_inv h' t' /\
    (forall x, tree_free t' x <-> tree_free t x \/ block_of HEAP_BASE_ORDER f k x) /\
    (forall g j, tree_live t' g j <-> tree_live t g j /\ ~ (g = f /\ j = k)) /\
    (forall i, heap_index i -> ref_walk (mem (mach h')) (cr3 (mach h')) (hpage i) = Ret None <->
       ref_walk (mem (mach h)) (cr3 (mach h)) (hpage i) = Ret None \/ spare_page t' f k i) /\
    (forall page, p4_index page <> REC -> (forall i, spare_page t' f k i -> ~ same_page (hpage i) page) ->
       ref_walk (mem (mach h')) (cr3 (mach h')) page = ref_walk (mem (mach h)) (cr3 (mach h)) page) /\
    (forall x, fa_free (pmm (mach h')) x <->
       fa_free (pmm (mach h)) x \/ exists i e, spare_page t' f k i /\ page_mapped (mach h) i e /\ x = e_addr e) /\
    (forall w, ~ is_table (mach h) (frame_of w) -> word (mem (mach h')) w = word (mem (mach h)) w).
Proof. apply heap_dealloc_spec. Qed.

(** Under the heap invariant, two live blocks never overlap and every mapped page
    of the heap is used by a live block: no page is leaked. *)
Theorem heap_no_overlap_no_leak h t :
  heap_inv h t ->
  (forall f k g j, tree_live t f k -> tree_live t g j -> (f, k) <> (g, j) ->
     f + 2 ^ (k + 6) <= g \/ g + 2 ^ (j + 6) <= f) /\
  (forall i pa b, heap_index i ->
     mmu_walk (mem (mach h)) (cr3 (mach h)) ((HEAP_PAGE + i) * 4096) = Some (pa, b) ->
     exists f k, tree_live t f k /\ covers f k i).
Proof.
  intros Hinv. split.
  - intros f k g j Hf Hg Hne.
    pose proof (live_block_ok t f k (hi_inv _ _ Hinv) Hf) as Hbf.
    pose proof (live_block_ok t g j (hi_inv _ _ Hinv) Hg) as Hbg.
    destruct (Hbf) as (Hk & _), (Hbg) as (Hj & _).
    pose proof (block_ok_64 f k Hbf). pose proof (block_ok_64 g j Hbg).
    destruct (Z.le_gt_cases (f + 2 ^ (k + 6)) g); [auto|].
    destruct (Z.le_gt_cases (g + 2 ^ (j + 6)) f); [auto|]. exfalso.
    set (x := Z.max f g).
    destruct (hi_disjoint _ _ Hinv f k g j x Hf Hg) as [-> ->]; [| |done].
    + apply hblock_iff; [lia|]. unfold x. Z.to_euclidean_division_equations. lia.
    + apply hblock_iff; [lia|]. unfold x. Z.to_euclidean_division_equations. lia.
  - intros i pa b Hi Hm.
    pose proof (hpage_ok i Hi) as Hok.
    destruct (ref_walk_clear (mach h) (hpage i)) as [Hn|[e He]].
    + by apply (hp_clear _ (hi_pages _ _ Hinv)).
    + assert (containing_address ((HEAP_PAGE + i) * 4096) = hpage i) as Ec.
      { unfold containing_address, hpage, page_no. change (bytes Kib4) with 4096. by rewrite Z.div_mul. }
      rewrite <- Ec in Hn. apply ref_walk_mmu in Hn; [|apply Hok|apply Hok].
      rewrite Hm in Hn. discriminate Hn.
    + by apply (hi_tight _ _ Hinv i e).
Qed.

End theorems.

(** * Concrete instances *)

Section examples.
#[local] Existing Instance x86_64_example.
#[local] Existing Instance bit_field_example.
#[local] Existing Instance bitflags_example.
#[local] Existing Instance frames_example.
#[local] Existing Instance debug_build.
#[local] Instance heap_tree_example : FriendlyTree HEAP_LEVELS HEAP_BASE_ORDER :=
  friendly_example 25 6 ltac:(lia) ltac:(lia).
#[local] Program Instance blocks_example : FriendlyCrate := {| blocks_in_tree n := 2 ^ n - 1 |}.
Solve All Obligations with done.

Lemma order_correct_witness : exists k, order 4096 = Ret k /\ 4096 <= 2 ^ (k + 5).
Proof.
  destruct (order_correct 4096 ltac:(lia)) as (k & E & _ & H & _). exists k. split; [exact E|exact H].
Defined.

Lemma example_no_heap : no_heap_page example_machine.
Proof.
  intros i Hi. pose proof (hpage_ok i Hi) as Hok. split; [|apply example_clear, Hok].
  unfold ref_walk, huge_walk, ent.
  rewrite (example_no_table [_; _; _]) by (done || by apply vpath_page_3; apply Hok).
  by rewrite (example_no_table [_]) by (done || by apply vpath_page_1; apply Hok).
Qed.

Definition example_heap : heap_state PhysicalAllocator tree :=
  mkHeapState example_machine (Some (tree_new [(0, Z.shiftl 1 (30 + 1))])).

Lemma heap_init_correct_witness :
  (exists h' t, heap_init 0xffffffff80200000 (mkHeapState example_machine None) =
     Ret (0xffffffff80201000, h') /\ heap_inv h' t) \/
  heap_init 0xffffffff80200000 (mkHeapState example_machine None) =
    Stop (Panic "Out of physical memory").
Proof.
  assert (forall n, tree_page 0xffffffff80200000 <= n <= tree_page 0xffffffff80200000 + 8191 ->
            path_clear example_machine (page_no n)) as Hcl.
  { change (tree_page 0xffffffff80200000) with 0xffffffff80201. intros n Hn.
    apply example_clear. apply kernel_page_ok. unfold KERNEL_PAGE. lia. }
  destruct (heap_init_correct (mkHeapState example_machine None) 0xffffffff80200000 eq_refl
              example_tables example_no_heap ltac:(unfold KERNEL_MAPPING_BEGIN; lia) Hcl)
    as [(h' & t & E & Hi & _)|[E _]].
  - left. exists h', t. split; [exact E|exact Hi].
  - right. exact E.
Defined.

Lemma example_heap_inv : heap_inv example_heap (tree_new [(0, Z.shiftl 1 (30 + 1))]).
Proof. exact (heap_inv_fresh example_machine example_tables example_no_heap). Qed.

Lemma heap_alloc_correct_witness :
  exists r h' t', heap_alloc 32 example_heap = Ret (r, h') /\ heap_inv h' t'.
Proof.
  destruct (heap_alloc_correct example_heap _ 32 example_heap_inv ltac:(lia))
    as (k & Ek & [(r & h' & t' & E & Hi & _)|[_ H]]).
  - exists r, h', t'. split; [exact E|exact Hi].
  - injection Ek as <-. destruct (example_enough 4 ltac:(lia) H).
Defined.

(** A heap with one block of 32 bytes handed out: page 0 of the heap is mapped. *)
Lemma example_heap_page : exists r s1, map (hpage 0) heap_flags NoInvalidate Zero example_machine = Ret (Ok r, s1).
Proof.
  assert (match map (hpage 0) heap_flags NoInvalidate Zero example_machine with
          | Ret (Ok _, _) => true | _ => false end = true) as H by (vm_compute; reflexivity).
  destruct (map (hpage 0) heap_flags NoInvalidate Zero example_machine) as [[[r|] s1]|];
    [|discriminate H..]. by exists r, s1.
Qed.

Lemma example_heap_used : exists h t, heap_inv h t /\ tree_live t 0 0 /\ forall g j, tree_live t g j -> g = 0 /\ j = 0.
Proof.
  set (t0 := tree_new [(0, Z.shiftl 1 (30 + 1))]).
  assert (tree_inv t0) as Hi0 by apply tree_new_inv.
  assert (forall g j, ~ tree_live t0 g j) as Hn0 by (intros g j; apply tree_new_live).
  assert (ex_fits 6 0 t0 0 = true) as Hfit.
  { apply ex_fits_spec. split; [reflexivity|]. intros x (i & Hi & ->).
    replace (0 + 2 ^ 6 * i) with 0 by lia.
    apply (proj2 (tree_new_free (FriendlyTree := heap_tree_example) [(0, Z.shiftl 1 (30 + 1))] 0)).
    split_and!; [reflexivity|reflexivity|reflexivity|].
    exists (0, Z.shiftl 1 (30 + 1)). split; [by apply list_elem_of_singleton|].
    split; split; reflexivity || (simpl; discriminate). }
  assert ((tree_allocate 0 t0).1 = Some 0) as Ho by exact (ex_allocate_first 6 t0 0 Hfit).
  destruct (tree_allocate 0 t0) as [o t1] eqn:Ea. cbn [fst] in Ho. subst o.
  destruct (tree_allocate_some t0 0 0 t1 Hi0 ltac:(unfold HEAP_LEVELS; lia) Ea) as (Hal & Hfr & Hfr' & Hl').
  pose proof (tree_allocate_inv t0 0 Hi0 ltac:(unfold HEAP_LEVELS; lia)) as Hi1. rewrite Ea in Hi1.
  assert (heap_index 0) as H0 by (unfold heap_index; lia).
  destruct (heap_map_page example_machine 0 (hi_pages _ _ example_heap_inv) H0 (proj1 (example_no_heap 0 H0)))
    as (r & s1 & E & Hp & Hkeep & Hr).
  destruct example_heap_page as (r' & s1' & E'). rewrite E' in E. apply Ret_inj in E as [<- <-].
  destruct Hr as (Hev & _ & _ & He). exists (mkHeapState s1' (Some t1)), t1.
  split; [|split; [apply Hl'; auto|]].
  2:{ intros g j Hg. destruct (proj1 (Hl' g j) Hg) as [Hx|Hx]; [exact Hx|destruct (Hn0 g j Hx)]. }
  apply (heap_inv_take example_heap t0 t1 s1' 0 0 example_heap_inv Hi1); try assumption.
  - split_and!; [lia|lia|exact Hal|lia|lia].
  - eapply evolves_weaken; [|exact Hev]. intros page Hs. exists (HEAP_PAGE + 0). split; [|exact Hs].
    change (used_pages 0) with 1. change (0 / 4096) with 0. lia.
  - intros i Hir. change (used_pages 0) with 1 in Hir. replace i with 0 by lia. exact He.
Qed.

Lemma heap_dealloc_correct_witness :
  exists h h' t' x, heap_dealloc (Some (HEAP_START + 0)) 32 h = Ret (tt, h') /\ heap_inv h' t' /\
    ~ fa_free (pmm (mach h)) x /\ fa_free (pmm (mach h')) x.
Proof.
  destruct example_heap_used as (h & t & Hinv & Hl & Honly).
  destruct (heap_dealloc_correct h t 0 0 32 Hinv Hl eq_refl) as (h' & t' & E & Hi & _ & Hlv & _ & _ & Hfr & _).
  assert (covers 0 0 0) as Hc by (split; reflexivity || done).
  assert (heap_index 0) as H0 by (unfold heap_index; lia).
  destruct (hi_used _ _ Hinv 0 0 0 Hl Hc) as [e He]. exists h, h', t', (e_addr e). split_and!; [exact E|exact Hi|..].
  - destruct (hp_frame _ (hi_pages _ _ Hinv) 0 e H0 He) as (Hlive & _).
    apply (fa_live_not_free _ _ 0 _ (ti_fa _ (hp_tables _ (hi_pages _ _ Hinv))) Hlive). by apply in_block_0.
  - apply Hfr. right. exists 0, e. split_and!; [|exact He|reflexivity]. split; [exact Hc|].
    intros g j [Hg Hn]%Hlv _. apply Hn, Honly, Hg.
Defined.

Lemma heap_no_overlap_no_leak_witness :
  exists h t, heap_inv h t /\ tree_live t 0 0 /\
    forall g j, tree_live t g j -> (0, 0) <> (g, j) -> 0 + 2 ^ 6 <= g \/ g + 2 ^ (j + 6) <= 0.
Proof.
  destruct example_heap_used as (h & t & Hinv & Hl & _). exists h, t. split; [exact Hinv|]. split; [exact Hl|].
  intros g j Hg Hne. exact (proj1 (heap_no_overlap_no_leak h t Hinv) 0 0 g j Hl Hg Hne).
Defined.

End examples.
