(* ===== verification/Storage.v ===== *)
(** What the containers of other crates ([Vec], [Box], [DashMap]) do with the global allocator
    ([memory/heap.rs]): blocks they ask for and give back. The values they hold are part of the
    state that the kernel's functions work on; here is the memory behind them. *)
From S2P Require Import Prelude Crates Machine FrameAlloc Paging Layout PageMap Friendly Heap.

(** A request for [size] bytes, or the end of the [i]th block that the container has. *)
Inductive storage_op := Acquire (size : Z) | Release (i : nat).

Section storage.
Context `{B : Build} `{X : X86_64Crate} `{F : BitflagsCrate} {P : Type} `{FA : FrameAllocator P}.
Context `{T : FriendlyTree HEAP_LEVELS HEAP_BASE_ORDER} `{FC : FriendlyCrate}.

#[local] Abbreviation hM := (M (heap_state P tree)).

(** A null pointer goes to the allocation error handler, [oom] of [lang.rs], which panics. *)
Definition acquire (size : Z) : hM Z :=
  let! ptr := heap_alloc size in
  match ptr with
  | Some ptr => ret ptr
  | None => panic "Ran out of kernel heap memory"
  end.

(** The operations in order, from a container that has the given blocks (address and size): the
    blocks it has then. *)
Fixpoint use_storage (ops : list storage_op) (blocks : list (Z * Z)) : hM (list (Z * Z)) :=
  match ops with
  | [] => ret blocks
  | Acquire size :: ops =>
      let! ptr := acquire size in
      use_storage ops (blocks ++ [(ptr, size)])
  | Release i :: ops =>
      match blocks !! i with
      | Some (ptr, size) =>
          do! heap_dealloc (Some ptr) size in
          use_storage ops (delete i blocks)
      | None => use_storage ops blocks
      end
  end.

(** The container is dropped. *)
Definition release_storage (blocks : list (Z * Z)) : hM unit :=
  for_each blocks (fun b => heap_dealloc (Some b.1) b.2).

End storage.
