(* ===== verification/StorageLemmas.v ===== *)
(** Sequences of allocations and deallocations on the kernel heap ([Storage.v]): what they do to the
    machine, which blocks are live afterwards, and when they have room. *)
From S2P Require Import Prelude Crates Machine FrameAlloc Paging Layout PageMap Friendly.
From S2P Require Import AddressSpace PagingLemmas PageMapLemmas MapperLemmas UnmapLemmas Heap HeapLemmas Storage.

(** A list does not have all the numbers up to its length. *)
Lemma some_missing (l : list Z) : exists i, 0 <= i <= Z.of_nat (length l) /\ i ∉ l.
Proof.
  destruct (decide (Forall (fun i => i ∈ l) (range_incl 0 (Z.of_nat (length l))))) as [H|H].
  - exfalso. rewrite list.Forall_forall in H.
    assert (range_incl 0 (Z.of_nat (length l)) ⊆+ l) as Hs by (apply NoDup_submseteq; [apply NoDup_seqZ|exact H]).
    apply submseteq_length in Hs. unfold range_incl in Hs. rewrite length_seqZ in Hs. lia.
  - apply not_Forall_Exists in H; [|apply _]. apply list.Exists_exists in H as (i & Hi%elem_of_range_incl & Hn). exists i. auto.
Qed.

(** * The machine *)

Section moves.
Context `{B : Build} `{X : X86_64Crate} `{F : BitflagsCrate}.
Context {P : Type} `{FA : FrameAllocator P} `{FS : !FrameAllocatorSpec P}.
Implicit Types s : machine P.

(** The frames behind the heap, and those it may use. *)
Definition heap_frame s (x : Z) : Prop := exists i e, heap_index i /\ page_mapped s i e /\ x = e_addr e.
Definition loose s (x : Z) : Prop := fa_free (pmm s) x \/ heap_frame s x.

Definition heap_area : Page -> Prop := in_pages HEAP_PAGE (HEAP_PAGE + 2 ^ 18).

(** Pages of the heap were mapped and unmapped, with frames that were free or behind the heap. *)
Record heap_moves s s' : Prop := {
  hm_cr3 : cr3 s' = cr3 s;
  hm_cr3_flags : cr3_flags s' = cr3_flags s;
  hm_wp : cr0_wp s' = cr0_wp s;
  hm_paths q x : vpath q -> table_at (mem s) (cr3 s) q = Some x -> table_at (mem s') (cr3 s') q = Some x;
  hm_new x : is_table s' x -> is_table s x \/ loose s x;
  hm_walk page : p4_index page <> REC -> ~ heap_area page ->
    ref_walk (mem s') (cr3 s') page = ref_walk (mem s) (cr3 s) page;
  hm_loose x : loose s' x -> loose s x;
  hm_live x : fa_live (pmm s) x 0 -> ~ heap_frame s x -> fa_live (pmm s') x 0;
  hm_mem a : ~ is_table s (frame_of a) -> ~ loose s (frame_of a) -> word (mem s') a = word (mem s) a
}.

Lemma heap_moves_refl s : heap_moves s s.
Proof. by split; auto. Qed.

Lemma heap_moves_trans s1 s2 s3 : fa_inv (pmm s1) -> heap_moves s1 s2 -> heap_moves s2 s3 -> heap_moves s1 s3.
Proof.
  intros Hfa [] []. split; try congruence; auto.
  - intros x [Hx|Hx]%hm_new1; auto.
  - intros page H1 H2. rewrite hm_walk1, hm_walk0; auto.
  - intros x Hx Hn. apply hm_live1; [auto|]. intros Hh.
    destruct (hm_loose0 x (or_intror Hh)) as [Hf|]; [|done].
    apply (fa_live_not_free _ _ 0 x Hfa Hx); [by apply in_block_0|done].
  - intros a H1 H2. rewrite hm_mem1; [auto| |].
    + intros [|]%hm_new0; auto.
    + auto.
Qed.

Lemma heap_moves_alloc T s s' : evolves T s s' -> (forall page, T page -> heap_area page) -> pages_fresh s s' -> heap_moves s s'.
Proof.
  intros Hev HT Hfr. pose proof (ev_cr3 _ _ _ Hev) as Hc. split.
  - done.
  - apply Hev.
  - apply Hev.
  - rewrite Hc. apply Hev.
  - intros x [?|?]%(ev_new _ _ _ Hev); [by left|right; by left].
  - intros page H1 H2. rewrite Hc. apply (ev_walk _ _ _ Hev); auto.
  - intros x [Hx|(i & e & Hi & He & ->)]; [left; by apply (ev_free _ _ _ Hev)|].
    destruct (Hfr i e Hi He) as [He'|Hf]; [right; by exists i, e|by left].
  - intros x Hx _. by apply (ev_live _ _ _ Hev).
  - intros a H1 H2. apply (ev_mem _ _ _ Hev); [done|]. intros Hf. apply H2. by left.
Qed.

Lemma heap_moves_gone a b s s' : pages_gone a b s s' -> (forall i, a <= i < b -> heap_index i) -> heap_moves s s'.
Proof.
  intros Hg Hab. assert (forall x, backs a b s x -> heap_frame s x) as Hb.
  { intros x (i & e & _ & Hi & He & ->). by exists i, e. }
  split; try apply Hg.
  - intros x Hx%(pg_tables _ _ _ _ Hg). by left.
  - intros page H1 H2. apply (pg_others _ _ _ _ Hg); [done|]. intros (n & Hn & Hs). apply H2. exists n. split; [|done].
    destruct (Hab (n - HEAP_PAGE) ltac:(lia)). lia.
  - intros x [[Hx|Hx]%(pg_free _ _ _ _ Hg)|(i & e & Hi & He & ->)]; [by left|right; auto|].
    destruct (decide (a <= i < b)) as [Hin|Hout].
    + unfold page_mapped, small_mapping in He. by rewrite (pg_gone _ _ _ _ Hg) in He.
    + right. exists i, e. split_and!; [apply Hi..| |done]. by apply (pages_gone_mapped a b s s').
  - intros x Hx Hn. apply (pg_live _ _ _ _ Hg). split; [done|]. intros [_ H]. auto.
  - intros w H1 _. by apply (pg_mem _ _ _ _ Hg).
Qed.

End moves.

(** * Blocks *)

Section blocks.
Context `{B : Build} `{X : X86_64Crate} `{F : BitflagsCrate}.
Context {P : Type} `{FA : FrameAllocator P} `{FS : !FrameAllocatorSpec P}.
Context `{T : FriendlyTree HEAP_LEVELS HEAP_BASE_ORDER} `{FC : FriendlyCrate}.
Implicit Types (h : heap_state P tree) (bs : list (Z * Z)).
#[local] Abbreviation hblock := (block_of HEAP_BASE_ORDER).

(** Few blocks are live, none larger than the order 12 (of 128 KiB). *)
Definition few_blocks (n : nat) (t : tree) : Prop :=
  exists l : list (Z * Z), (length l <= n)%nat /\ forall g j, tree_live t g j -> (g, j) ∈ l /\ j <= 12.

Lemma few_blocks_mono n n' t : (n <= n')%nat -> few_blocks n t -> few_blocks n' t.
Proof. intros Hn (l & Hl & H). exists l. split; [lia|done]. Qed.

Lemma few_blocks_sub n t t' : (forall g j, tree_live t' g j -> tree_live t g j) -> few_blocks n t -> few_blocks n t'.
Proof. intros Hs (l & Hl & H). exists l. split; [done|]. auto. Qed.

(** A block lies in one of the 4096 parts of the heap that the largest blocks make up. *)
Lemma block_part g j x : block_ok g j -> j <= 12 -> hblock g j x -> x / 2 ^ 18 = g / 2 ^ 18.
Proof.
  intros (Hj & Ha & Hg) Hj12 Hx%hblock_iff; [|lia].
  assert (2 ^ 18 = 2 ^ (12 - j) * 2 ^ (j + 6)) as E by (rewrite <- Z.pow_add_r by lia; f_equal; lia).
  assert (0 < 2 ^ (j + 6)) as Hp by (apply Z.pow_pos_nonneg; lia).
  apply Z.mod_divide in Ha as [c ->]; [|lia]. rewrite E.
  rewrite (Z.div_mul_cancel_r c) by (try apply Z.pow_nonzero; lia).
  symmetry. rewrite (Z.mul_comm (2 ^ (12 - j))), <- Z.div_div by (try apply Z.pow_nonzero; lia || (apply Z.pow_pos_nonneg; lia)).
  f_equal. apply Z.div_unique with (x - c * 2 ^ (j + 6)); lia.
Qed.

Lemma few_blocks_room h t n k : heap_inv h t -> few_blocks n t -> Z.of_nat n < 4096 -> 0 <= k <= 12 ->
  exists f, f mod 2 ^ (k + 6) = 0 /\ forall x, hblock f k x -> tree_free t x.
Proof.
  intros Hinv (l & Hl & Hlive) Hn Hk.
  destruct (some_missing ((fun b => b.1 / 2 ^ 18) <$> l)) as (i & Hi & Hm). rewrite length_fmap in Hi.
  assert (2 ^ 18 = 2 ^ (12 - k) * 2 ^ (k + 6)) as E by (rewrite <- Z.pow_add_r by lia; f_equal; lia).
  assert (0 < 2 ^ (k + 6)) as Hp by (apply Z.pow_pos_nonneg; lia).
  assert (2 ^ (k + 6) <= 2 ^ 18) as Hle by (apply Z.pow_le_mono_r; lia).
  exists (i * 2 ^ 18). split; [rewrite E, Z.mul_assoc; apply Z.mod_mul; lia|].
  intros x (Hx & Hxm)%hblock_iff; [|lia]. assert (x / 2 ^ 18 = i) as Hxi.
  { symmetry. apply Z.div_unique with (x - i * 2 ^ 18); lia. }
  destruct (hi_complete _ _ Hinv x) as [?|(g & j & Hg & Hb)]; [|lia|done|].
  - change (2 ^ 18) with (4096 * 64) in Hxm. Z.to_euclidean_division_equations. lia.
  - exfalso. destruct (Hlive g j Hg) as [Hin Hj]. apply Hm, list_elem_of_fmap. exists (g, j). split; [|done]. cbn [fst].
    rewrite <- Hxi. apply (block_part g j); [|done|done]. exact (live_block_ok t g j (hi_inv _ _ Hinv) Hg).
Qed.

(** The block [f], [k] of the tree is that of the address and size [b]. *)
Definition is_block (b : Z * Z) (f k : Z) : Prop := b.1 = HEAP_START + f /\ order b.2 = Ret k.
Definition block_of_list bs (f k : Z) : Prop := exists b, b ∈ bs /\ is_block b f k.

(** The blocks of a container are live and no two are the same. *)
Record owns (t : tree) bs : Prop := {
  ow_nodup : NoDup bs.*1;
  ow_live b : b ∈ bs -> exists f k, is_block b f k /\ tree_live t f k
}.

Lemma owns_sub t bs bs' : bs' `sublist_of` bs -> owns t bs -> owns t bs'.
Proof.
  intros Hs [Hn Hl]. split.
  - eapply sublist_NoDup; [exact Hn|]. by apply fmap_sublist.
  - intros b Hb. apply Hl. by eapply elem_of_submseteq, sublist_submseteq.
Qed.

Lemma is_block_fun b f k f' k' : is_block b f k -> is_block b f' k' -> f = f' /\ k = k'.
Proof. intros [H1 H2] [H3 H4]. rewrite H2 in H4. injection H4 as ->. split; [lia|done]. Qed.

(** Two live blocks at the same address are one. *)
Lemma live_at_one h t f k k' : heap_inv h t -> tree_live t f k -> tree_live t f k' -> k = k'.
Proof.
  intros Hinv H1 H2. pose proof (live_block_ok t f k (hi_inv _ _ Hinv) H1) as (Hk & _).
  pose proof (live_block_ok t f k' (hi_inv _ _ Hinv) H2) as (Hk' & _).
  by destruct (hi_disjoint _ _ Hinv f k f k' f H1 H2 (hblock_self f k (proj1 Hk)) (hblock_self f k' (proj1 Hk'))).
Qed.

(** The size of a block that a container may ask for. *)
Definition size_ok (size : Z) : Prop := 1 <= size <= 2 ^ 17.
Definition op_ok (o : storage_op) : Prop := match o with Acquire size => size_ok size | Release _ => True end.

Lemma size_order size : size_ok size -> exists k, order size = Ret k /\ 0 <= k <= 12.
Proof.
  intros [H1 H2]. destruct (order_spec size ltac:(lia)) as (k & E & Hk & _ & Hm). exists k. split; [done|]. split; [done|].
  destruct Hm as [->|Hm]; [lia|]. assert (2 ^ (k + 4) < 2 ^ 17) as Hl by lia. apply Z.pow_lt_mono_r_iff in Hl; lia.
Qed.

(** The frames that the operations may take, and the blocks they ask for. *)
Definition op_frames (o : storage_op) : Z :=
  match o with
  | Acquire size => match order size with Ret k => 4 * used_pages k | Stop _ => 0 end
  | Release _ => 0
  end.
Fixpoint storage_frames (ops : list storage_op) : Z :=
  match ops with [] => 0 | o :: ops => op_frames o + storage_frames ops end.
Fixpoint acquired (ops : list storage_op) : nat :=
  match ops with [] => 0 | Acquire _ :: ops => S (acquired ops) | Release _ :: ops => acquired ops end.

Lemma used_pages_nonneg k : 0 <= k -> 0 <= used_pages k.
Proof. intros Hk. unfold used_pages. apply Z.div_pos; [|lia]. assert (0 < 2 ^ (k + 5)) by (apply Z.pow_pos_nonneg; lia). lia. Qed.

Lemma op_frames_nonneg o : op_ok o -> 0 <= op_frames o.
Proof.
  destruct o as [size|]; cbn [op_ok op_frames]; [|lia]. intros Hs. destruct (size_order size Hs) as (k & -> & Hk).
  pose proof (used_pages_nonneg k ltac:(lia)). lia.
Qed.

Lemma storage_frames_nonneg ops : Forall op_ok ops -> 0 <= storage_frames ops.
Proof. induction 1 as [|o ops Ho _ IH]; cbn [storage_frames]; [lia|]. pose proof (op_frames_nonneg o Ho). lia. Qed.

(** Operations of a container, from the heap [h] (with tree [t] and the container's blocks [bs]) to [h']:
    the live blocks are the container's and those that were live and not the container's, whose pages are mapped
    as before. *)
Record storage_moved h (t : tree) bs h' (t' : tree) bs' : Prop := {
  sm_inv : heap_inv h' t';
  sm_owns : owns t' bs';
  sm_live f k : tree_live t' f k <-> block_of_list bs' f k \/ (tree_live t f k /\ ~ block_of_list bs f k);
  sm_moves : heap_moves (mach h) (mach h');
  sm_kept f k i e : tree_live t f k -> ~ block_of_list bs f k -> covers f k i ->
    page_mapped (mach h) i e -> page_mapped (mach h') i e
}.

Lemma storage_moved_refl h t bs : heap_inv h t -> owns t bs -> storage_moved h t bs h t bs.
Proof.
  intros Hinv Ho. split; [done|done| |apply heap_moves_refl|done]. intros f k. split.
  - intros Hl. destruct (decide ((HEAP_START + f) ∈ bs.*1)) as [Hin|Hn].
    + left. apply list_elem_of_fmap in Hin as (b & Eb & Hb). destruct (ow_live _ _ Ho b Hb) as (f' & k' & Hib & Hl').
      assert (f' = f) as -> by (destruct Hib; lia). rewrite (live_at_one h t f k k') by done. by exists b.
    + right. split; [done|]. intros (b & Hb & Hf & _). apply Hn. rewrite <- Hf. by apply list_elem_of_fmap_2.
  - intros [(b & Hb & Hib)|[? _]]; [|done]. destruct (ow_live _ _ Ho b Hb) as (f' & k' & Hib' & Hl').
    by destruct (is_block_fun b f k f' k' Hib Hib') as [-> ->].
Qed.

(** A live block is a container's or not. *)
Lemma live_dec h t bs f k : heap_inv h t -> owns t bs -> tree_live t f k -> block_of_list bs f k \/ ~ block_of_list bs f k.
Proof.
  intros Hinv Ho Hl. destruct (proj1 (sm_live _ _ _ _ _ _ (storage_moved_refl h t bs Hinv Ho) f k) Hl) as [|[]]; auto.
Qed.

Lemma storage_moved_trans h t bs h1 t1 bs1 h2 t2 bs2 : heap_inv h t ->
  storage_moved h t bs h1 t1 bs1 -> storage_moved h1 t1 bs1 h2 t2 bs2 ->
  (forall f k, tree_live t f k -> ~ block_of_list bs f k -> ~ block_of_list bs1 f k) -> storage_moved h t bs h2 t2 bs2.
Proof.
  intros Hinv [I1 O1 L1 M1 K1] [I2 O2 L2 M2 K2] Hs. split; try done.
  - intros f k. rewrite L2, L1. split; [|naive_solver]. intros [?|[[?|[]] ?]]; auto. done.
  - eapply heap_moves_trans; [|done|done]. apply (ti_fa _ (hp_tables _ (hi_pages _ _ Hinv))).
  - intros f k i e Hl Hn Hc He. apply (K2 f k); [apply L1; by right|by apply Hs|done|]. by apply (K1 f k).
Qed.

(** Other code ran, and left the heap alone. *)
Lemma storage_moved_neutral h t bs h' t' : heap_inv h t -> owns t bs -> heap_inv h' t' ->
  (forall f k, tree_live t' f k <-> tree_live t f k) -> heap_moves (mach h) (mach h') ->
  (forall i, heap_index i -> ref_walk (mem (mach h')) (cr3 (mach h')) (hpage i) = ref_walk (mem (mach h)) (cr3 (mach h)) (hpage i)) ->
  storage_moved h t bs h' t' bs.
Proof.
  intros Hinv Ho Hi' Hl Hm Hw. pose proof (storage_moved_refl h t bs Hinv Ho) as Hr. split; [done| | |done|].
  - destruct Ho as [Hn Hlv]. split; [done|]. intros b Hb. destruct (Hlv b Hb) as (f & k & ? & ?). exists f, k. by rewrite Hl.
  - intros f k. rewrite Hl. apply (sm_live _ _ _ _ _ _ Hr).
  - intros f k i e Hf _ Hc He. unfold page_mapped, small_mapping. rewrite Hw; [done|].
    apply (covers_index f k); [|done]. exact (live_block_ok t f k (hi_inv _ _ Hinv) Hf).
Qed.

(** New blocks of a container are not those that others have. *)
Definition apart_from (t : tree) bs bs' : Prop :=
  forall f k, tree_live t f k -> ~ block_of_list bs f k -> ~ block_of_list bs' f k.

Lemma block_of_app bs rest f k : block_of_list (bs ++ rest) f k <-> block_of_list bs f k \/ block_of_list rest f k.
Proof. unfold block_of_list. setoid_rewrite elem_of_app. naive_solver. Qed.

(** A container changes while others stay. *)
Lemma storage_moved_frame h t bs h' t' bs' rest : heap_inv h t -> owns t (bs ++ rest) ->
  storage_moved h t bs h' t' bs' -> apart_from t bs bs' ->
  storage_moved h t (bs ++ rest) h' t' (bs' ++ rest) /\ apart_from t (bs ++ rest) (bs' ++ rest).
Proof.
  intros Hinv Ho [I1 O1 L1 M1 K1] Hap.
  assert (owns t rest) as Hor by (apply (owns_sub t (bs ++ rest)); [by apply sublist_inserts_l|done]).
  assert (forall f k, block_of_list rest f k -> tree_live t f k /\ ~ block_of_list bs f k) as Hrest.
  { intros f k (b & Hb & Hib). destruct (ow_live _ _ Hor b Hb) as (f' & k' & Hib' & Hl).
    destruct (is_block_fun _ _ _ _ _ Hib Hib') as [-> ->]. split; [done|]. intros (b' & Hb' & Hib'').
    pose proof (ow_nodup _ _ Ho) as Hnd. rewrite fmap_app in Hnd. apply list.NoDup_app in Hnd as (_ & Hd & _).
    apply (Hd b'.1); [by apply list_elem_of_fmap_2|]. replace b'.1 with b.1 by (destruct Hib, Hib''; lia). by apply list_elem_of_fmap_2. }
  split.
  - split; [done| | |done|].
    + split.
      * rewrite fmap_app. apply list.NoDup_app. split_and!; [apply O1| |apply Hor].
        intros x (b & -> & Hb)%list_elem_of_fmap (b2 & Eb & Hb2)%list_elem_of_fmap.
        destruct (ow_live _ _ O1 b Hb) as (f & k & Hib & Hl), (ow_live _ _ Hor b2 Hb2) as (f2 & k2 & Hib2 & Hl2).
        assert (block_of_list rest f2 k2) as Hr2 by (by exists b2). destruct (Hrest f2 k2 Hr2) as [_ Hn2].
        assert (f2 = f) as -> by (destruct Hib, Hib2; lia).
        assert (tree_live t' f k2) as Hl2' by (apply L1; by right).
        rewrite (live_at_one h' t' f k2 k I1 Hl2' Hl) in *. apply (Hap f k Hl2 Hn2). by exists b.
      * intros b [Hb|Hb]%elem_of_app; [by apply O1|]. destruct (ow_live _ _ Hor b Hb) as (f & k & Hib & Hl). exists f, k.
        split; [done|]. apply L1. right. split; [done|]. apply Hrest. by exists b.
    + intros f k. rewrite L1, !block_of_app. split.
      * intros [?|[Hl Hn]]; [auto|]. destruct (live_dec h t rest f k Hinv Hor Hl); tauto.
      * intros [[?|Hr]|[Hl Hn]]; [auto| |tauto]. right. by apply Hrest.
    + intros f k i e Hl Hn. rewrite block_of_app in Hn. apply K1; tauto.
  - intros f k Hl Hn. rewrite block_of_app in *. intros [Hb|Hb]; [|tauto]. apply (Hap f k); tauto.
Qed.

(** The order of the blocks does not matter. *)
#[export] Instance block_of_list_proper : Proper ((≡ₚ) ==> eq ==> eq ==> iff) block_of_list.
Proof. intros l l' Hl f ? <- k ? <-. unfold block_of_list. by setoid_rewrite Hl. Qed.

#[export] Instance owns_proper t : Proper ((≡ₚ) ==> iff) (owns t).
Proof.
  assert (forall l l', l ≡ₚ l' -> owns t l -> owns t l') as H; [|intros l l' Hl; split; by apply H].
  intros l l' Hl [Hn Hv]. split; [by rewrite <- Hl|]. intros b Hb. apply Hv. by rewrite Hl.
Qed.

#[export] Instance storage_moved_proper h t : Proper ((≡ₚ) ==> eq ==> eq ==> (≡ₚ) ==> iff) (storage_moved h t).
Proof.
  assert (forall l l' h' t' m m', l ≡ₚ l' -> m ≡ₚ m' -> storage_moved h t l h' t' m -> storage_moved h t l' h' t' m') as H.
  { intros l l' h' t' m m' Hl Hm [I O L M K]. split; [done|by rewrite <- Hm| |done|].
    - intros f k. by rewrite L, Hl, Hm.
    - intros f k i e Hf Hn. rewrite <- Hl in Hn. by apply (K f k). }
  intros l l' Hl h' ? <- t' ? <- m m' Hm. split; by apply H.
Qed.

(** Operations of a container, none of whose new blocks belonged to others. *)
Definition storage_steps h t bs h' t' bs' : Prop := storage_moved h t bs h' t' bs' /\ apart_from t bs bs'.

#[export] Instance storage_steps_proper h t : Proper ((≡ₚ) ==> eq ==> eq ==> (≡ₚ) ==> iff) (storage_steps h t).
Proof.
  intros l l' Hl h' ? <- t' ? <- m m' Hm. unfold storage_steps, apart_from. rewrite Hl, Hm.
  by setoid_rewrite Hl; setoid_rewrite Hm.
Qed.

Lemma storage_steps_trans h t bs h1 t1 bs1 h2 t2 bs2 : heap_inv h t ->
  storage_steps h t bs h1 t1 bs1 -> storage_steps h1 t1 bs1 h2 t2 bs2 -> storage_steps h t bs h2 t2 bs2.
Proof.
  intros Hinv [M1 A1] [M2 A2]. split; [by apply (storage_moved_trans h t bs h1 t1 bs1)|].
  intros f k Hl Hn. apply A2; [apply (sm_live _ _ _ _ _ _ M1); by right|by apply A1].
Qed.

Lemma storage_steps_frame h t bs h' t' bs' rest : heap_inv h t -> owns t (bs ++ rest) ->
  storage_steps h t bs h' t' bs' -> storage_steps h t (bs ++ rest) h' t' (bs' ++ rest).
Proof. intros Hinv Ho [M A]. by apply storage_moved_frame. Qed.

(** ** One operation *)

Lemma acquire_spec h t bs size n : heap_inv h t -> owns t bs -> few_blocks n t -> Z.of_nat n < 4096 -> size_ok size ->
  (exists ptr h' t', acquire size h = Ret (ptr, h') /\ storage_moved h t bs h' t' (bs ++ [(ptr, size)]) /\
     (forall f k, tree_live t f k -> ~ is_block (ptr, size) f k) /\
     few_blocks (S n) t' /\ takes (op_frames (Acquire size)) (mach h) (mach h')) \/
  (exists msg, acquire size h = Stop (Panic msg) /\ short_of (op_frames (Acquire size)) (mach h)).
Proof.
  intros Hinv Ho Hfew Hn Hs. destruct (size_order size Hs) as (k & Ek & Hk). cbn [op_frames]. rewrite Ek.
  destruct (heap_alloc_spec h t size Hinv ltac:(unfold size_ok in Hs; lia)) as (k' & Ek' & Hres).
  rewrite Ek in Ek'. injection Ek' as <-. unfold acquire.
  destruct Hres as [([ptr|] & h' & t' & E & Hi' & Hr)|[E Hsh]].
  3:{ right. eexists. rewrite (bind_stop _ _ _ _ E). done. }
  2:{ exfalso. destruct Hr as (_ & _ & [H|H]); [lia|].
      destruct (few_blocks_room h t n k Hinv Hfew Hn Hk) as (f & Hf & Hfree). by apply (H f Hf). }
  left. exists ptr, h', t'. rewrite (bind_ret _ _ _ _ _ E).
  destruct Hr as (f & -> & Hb & Hfree & Hlive & Hev & Htk & _ & Hkeep & Hfr).
  assert (forall j, ~ tree_live t f j) as Hnl.
  { intros j Hl. pose proof (live_block_ok t f j (hi_inv _ _ Hinv) Hl) as ((? & _) & _).
    apply (tree_live_not_free t f j f (hi_inv _ _ Hinv) Hl); [by apply hblock_self|apply Hfree, hblock_self; lia]. }
  assert (HEAP_START + f ∉ bs.*1) as Hnew.
  { intros (b & Eb & Hb')%list_elem_of_fmap. destruct (ow_live _ _ Ho b Hb') as (f' & j & [Hf' _] & Hl).
    assert (f' = f) as -> by lia. by apply (Hnl j). }
  assert (is_block (HEAP_START + f, size) f k) as Hib by done.
  split_and!; [done| | | |done].
  - split; [done|..].
    + split.
      * rewrite fmap_app. apply list.NoDup_app. split_and!; [apply Ho| |apply NoDup_singleton].
        intros x Hx Hx'%list_elem_of_singleton. by subst x.
      * intros b [Hb'|Hb'%list_elem_of_singleton]%elem_of_app; [|subst b].
        -- destruct (ow_live _ _ Ho b Hb') as (f' & j & Hfj & Hl). exists f', j. split; [done|]. apply Hlive. by right.
        -- exists f, k. split; [done|]. apply Hlive. by left.
    + intros g j. rewrite Hlive. split.
      * intros [[-> ->]|Hl]; [left; exists (HEAP_START + f, size); split; [set_solver|done]|].
        destruct (live_dec h t bs g j Hinv Ho Hl) as [(b & Hb' & Hib')|]; [|by right].
        left. exists b. split; [set_solver|done].
      * intros [(b & [Hb'|Hb'%list_elem_of_singleton]%elem_of_app & Hib')|[? _]]; [|subst b|by right].
        -- right. destruct (ow_live _ _ Ho b Hb') as (f' & j' & Hfj & Hl). by destruct (is_block_fun b g j f' j' Hib' Hfj) as [-> ->].
        -- left. by destruct (is_block_fun _ _ _ _ _ Hib' Hib).
    + eapply heap_moves_alloc; [exact Hev| |exact Hfr]. intros page (m & Hm & Hsm). exists m. split; [|done].
      assert (covers f k (m - HEAP_PAGE)) as Hc by (unfold covers; lia). destruct (covers_index f k _ Hb Hc). lia.
    + intros g j i e Hl _ Hc He. apply Hkeep; [|done]. apply (covers_index g j); [|done].
      exact (live_block_ok t g j (hi_inv _ _ Hinv) Hl).
  - intros g j Hl Hib'. destruct (is_block_fun _ _ _ _ _ Hib' Hib) as [-> ->]. by apply (Hnl k).
  - destruct Hfew as (l & Hl & Hll). exists ((f, k) :: l). split; [cbn [length]; lia|].
    intros g j [[-> ->]|Hg]%Hlive; [split; [set_solver|lia]|]. destruct (Hll g j Hg). split; [set_solver|done].
Qed.

Lemma release_spec h t bs1 bs2 ptr size : heap_inv h t -> owns t (bs1 ++ (ptr, size) :: bs2) ->
  exists h' t', heap_dealloc (Some ptr) size h = Ret (tt, h') /\
    storage_moved h t (bs1 ++ (ptr, size) :: bs2) h' t' (bs1 ++ bs2) /\
    (forall f k, tree_live t' f k -> tree_live t f k) /\ takes 0 (mach h) (mach h').
Proof.
  intros Hinv Ho. set (bs := bs1 ++ (ptr, size) :: bs2) in *.
  assert ((ptr, size) ∈ bs) as Hin by (unfold bs; set_solver).
  destruct (ow_live _ _ Ho _ Hin) as (f & k & Hib & Hl). pose proof Hib as [Ep Ek]. cbn [fst snd] in Ep, Ek. subst ptr.
  destruct (heap_dealloc_pages h t f k size Hinv Hl Ek) as (h' & t' & a & b & E & Hi' & _ & Hlv & Hg & Hab & Hneed & Hcov & _).
  assert (forall x, x ∈ bs1 ++ bs2 -> x ∈ bs /\ x.1 <> HEAP_START + f) as Hrest.
  { pose proof (ow_nodup _ _ Ho) as Hnd. unfold bs in Hnd. rewrite fmap_app, fmap_cons in Hnd. cbn [fst] in Hnd.
    apply list.NoDup_app in Hnd as (_ & Hd & [Hd2 _]%list.NoDup_cons). intros x [Hx|Hx]%elem_of_app; (split; [unfold bs; set_solver|]).
    - intros Ex. apply (Hd (HEAP_START + f)); [rewrite <- Ex; by apply list_elem_of_fmap_2|set_solver].
    - intros Ex. apply Hd2. rewrite <- Ex. by apply list_elem_of_fmap_2. }
  exists h', t'. split_and!; [done| |intros g j [? _]%Hlv; done|].
  - split; [done|..].
    + split.
      * eapply sublist_NoDup; [apply (ow_nodup _ _ Ho)|]. apply fmap_sublist. unfold bs. apply sublist_app; [done|]. by apply sublist_cons.
      * intros x Hx. destruct (Hrest x Hx) as [Hx' Hne]. destruct (ow_live _ _ Ho x Hx') as (g & j & Hg' & Hgl).
        exists g, j. split; [done|]. apply Hlv. split; [done|]. intros [-> _]. by destruct Hg'.
    + intros g j. rewrite Hlv. split.
      * intros [Hgl Hne]. destruct (live_dec h t bs g j Hinv Ho Hgl) as [(x & Hx & Hix)|]; [left|by right].
        exists x. split; [|done]. unfold bs in Hx. apply elem_of_app in Hx as [|[Ex|]%elem_of_cons]; [set_solver|subst x|set_solver].
        exfalso. apply Hne. by destruct (is_block_fun _ _ _ _ _ Hix Hib).
      * intros [(x & Hx & Hix)|[Hgl Hn]].
        -- destruct (Hrest x Hx) as [Hx' Hne]. destruct (ow_live _ _ Ho x Hx') as (g' & j' & Hg' & Hgl).
           destruct (is_block_fun _ _ _ _ _ Hix Hg') as [-> ->]. split; [done|]. intros [-> _]. by destruct Hix.
        -- split; [done|]. intros [-> ->]. apply Hn. by exists (HEAP_START + f, size).
    + by eapply heap_moves_gone.
    + intros g j i e Hgl Hn Hc He. apply (pages_gone_mapped a b (mach h)); [done|done| | |done].
      * apply (covers_index g j); [|done]. exact (live_block_ok t g j (hi_inv _ _ Hinv) Hgl).
      * apply (Hneed g j); [|done]. apply Hlv. split; [done|]. intros [-> ->]. apply Hn. by exists (HEAP_START + f, size).
  - apply takes_none; [done|]. intros x Hx. apply (pg_free _ _ _ _ Hg). by left.
Qed.

(** ** Sequences *)

Lemma use_storage_spec ops bs h t n : heap_inv h t -> owns t bs -> few_blocks n t -> Forall op_ok ops ->
  Z.of_nat (n + acquired ops) < 4096 ->
  (exists bs' h' t', use_storage ops bs h = Ret (bs', h') /\ storage_moved h t bs h' t' bs' /\
     (forall f k, tree_live t f k -> ~ block_of_list bs f k -> ~ block_of_list bs' f k) /\
     few_blocks (n + acquired ops) t' /\ takes (storage_frames ops) (mach h) (mach h')) \/
  (exists msg, use_storage ops bs h = Stop (Panic msg) /\ short_of (storage_frames ops) (mach h)).
Proof.
  intros Hinv Ho Hfew Hops. revert bs h t n Hinv Ho Hfew.
  induction Hops as [|o ops Hop Hops IH]; intros bs h t n Hinv Ho Hfew Hn; cbn [acquired storage_frames use_storage] in *.
  { left. exists bs, h, t. split_and!; [done|by apply storage_moved_refl|done|by rewrite Nat.add_0_r|by apply takes_refl]. }
  pose proof (storage_frames_nonneg ops Hops) as Hnn. pose proof (op_frames_nonneg o Hop) as Hnn'.
  destruct o as [size|i]; cbn [op_ok op_frames] in *.
  - destruct (acquire_spec h t bs size n Hinv Ho Hfew ltac:(lia) Hop) as [(ptr & h1 & t1 & E1 & Hm1 & Hnb & Hf1 & Ht1)|(msg & E1 & Hsh)].
    2:{ right. exists msg. rewrite (bind_stop _ _ _ _ E1). split; [done|]. by eapply short_of_mono; [|exact Hsh]; cbn [op_frames]; lia. }
    rewrite (bind_ret _ _ _ _ _ E1).
    assert (forall f k, tree_live t f k -> ~ block_of_list bs f k -> ~ block_of_list (bs ++ [(ptr, size)]) f k) as Hs1.
    { intros f k Hl Hb (b & [Hb'|Hb'%list_elem_of_singleton]%elem_of_app & Hib); [apply Hb; by exists b|subst b; by apply (Hnb f k)]. }
    destruct (IH _ h1 t1 (S n) (sm_inv _ _ _ _ _ _ Hm1) (sm_owns _ _ _ _ _ _ Hm1) Hf1 ltac:(lia))
      as [(bs' & h' & t' & E & Hm & Hs & Hf & Ht)|(msg & E & Hsh)].
    + left. exists bs', h', t'. split_and!; [done| | | |by eapply takes_trans].
      * by eapply storage_moved_trans.
      * intros f k Hl Hb. apply Hs; [apply (sm_live _ _ _ _ _ _ Hm1); by right|by apply Hs1].
      * by replace (n + S (acquired ops))%nat with (S n + acquired ops)%nat by lia.
    + right. exists msg. split; [done|]. by eapply short_of_takes.
  - destruct (bs !! i) as [[ptr size]|] eqn:Ei; [|by apply IH].
    pose proof (take_drop_middle _ _ _ Ei) as Emid. rewrite <- Emid in Ho.
    destruct (release_spec h t _ _ ptr size Hinv Ho) as (h1 & t1 & E1 & Hm1 & Hsub & Ht1).
    rewrite (bind_ret _ _ _ _ _ E1). rewrite <- delete_take_drop in Hm1. rewrite Emid in Hm1.
    assert (forall f k, tree_live t f k -> ~ block_of_list bs f k -> ~ block_of_list (delete i bs) f k) as Hs1.
    { intros f k _ Hb (b & Hb' & Hib). apply Hb. exists b. split; [|done]. by eapply elem_of_submseteq, submseteq_delete. }
    destruct (IH _ h1 t1 n (sm_inv _ _ _ _ _ _ Hm1) (sm_owns _ _ _ _ _ _ Hm1) (few_blocks_sub n t t1 Hsub Hfew) ltac:(lia))
      as [(bs' & h' & t' & E & Hm & Hs & Hf & Ht)|(msg & E & Hsh)].
    + left. exists bs', h', t'. split_and!; [done|by eapply storage_moved_trans| |done|by eapply takes_trans].
      intros f k Hl Hb. apply Hs; [apply (sm_live _ _ _ _ _ _ Hm1); by right|by apply Hs1].
    + right. exists msg. split; [done|]. by eapply short_of_takes.
Qed.

(** A container [bs] is dropped while others [rest] stay. *)
Lemma release_storage_spec bs h t : heap_inv h t -> owns t bs ->
  exists h' t', release_storage bs h = Ret (tt, h') /\ storage_moved h t bs h' t' [] /\
    (forall f k, tree_live t' f k -> tree_live t f k) /\ takes 0 (mach h) (mach h').
Proof.
  revert h t. induction bs as [|[ptr size] bs IH]; intros h t Hinv Ho.
  { exists h, t. split_and!; [done|by apply storage_moved_refl|done|by apply takes_none]. }
  destruct (release_spec h t [] bs ptr size Hinv Ho) as (h1 & t1 & E1 & Hm1 & Hs1 & Ht1).
  unfold release_storage. cbn [for_each fst snd]. rewrite (bind_ret _ _ _ _ _ E1).
  destruct (IH h1 t1 (sm_inv _ _ _ _ _ _ Hm1) (sm_owns _ _ _ _ _ _ Hm1)) as (h' & t' & E & Hm & Hs & Ht).
  exists h', t'. split_and!; [exact E| |auto|by apply (takes_trans 0 0 _ (mach h1))].
  eapply storage_moved_trans; [done|exact Hm1|exact Hm|]. intros f k _ Hb (b & Hb' & Hib). apply Hb. exists b. split; [|done].
  cbn [app] in *. set_solver.
Qed.

End blocks.
