(* ===== verification/ActivePageMap.v ===== *)
(** The rest of [kernel/src/memory/paging/page_map.rs] ([TemporaryPage],
    [ActivePageMap], [InactivePageMap]) and [kernel/src/memory/paging/remap.rs].
    The storage of [Vec]s is not modelled: a [Vec] is the list it holds. *)
From S2P Require Import Prelude Crates Machine FrameAlloc Paging Layout PageMap Friendly Heap.

Record TemporaryPage := mkTemporaryPage { tp_page : Page; tp_frame_addr : Z }.

Record InactivePageMap := mkInactivePageMap { p4_frame : Z; im_flags : Z }.

(** [Default for InactivePageMap] *)
Definition InactivePageMap_default : InactivePageMap := mkInactivePageMap 0 0.

(** [ElfSection] of the [multiboot2] crate, as the values its accessors give. *)
Record ElfSection := mkElfSection {
  sec_start : Z;
  sec_end : Z;
  sec_allocated : bool;
  sec_writable : bool;
  sec_executable : bool
}.

Section active.
Context `{B : Build} `{X : X86_64Crate} `{F : BitflagsCrate} {P : Type} `{FA : FrameAllocator P}.
Context `{T : FriendlyTree HEAP_LEVELS HEAP_BASE_ORDER} `{FC : FriendlyCrate}.

#[local] Abbreviation mM := (M (machine P)).
#[local] Abbreviation hM := (M (heap_state P tree)).

(** ** [TemporaryPage] *)

Definition TemporaryPage_new : hM TemporaryPage :=
  let! page_addr := heap_alloc 0x1000 in
  let page := containing_address (default 0 page_addr) in
  let! w := tables (walk_page_table page) in
  let! w := expect w "unwrap" in
  let! frame_addr := lift (physical_address w.1) in
  let! frame_addr := expect frame_addr "unwrap" in
  do! tables (unmap page NoFree Invalidate) in
  ret (mkTemporaryPage page frame_addr).

Definition tp_map (t : TemporaryPage) (frame : Z) : mM Z :=
  let! page_addr := page_start (tp_page t) "Temporary page requires size" in
  let! w := walk_page_table (tp_page t) in
  do! assert_m (negb (bool_decide (is_Some w))) "Temporary page is already mapped" in
  let! r := map_to (tp_page t) frame WRITABLE Invalidate in
  do! expect_ok r "Out of physical memory" in
  let! a := page_start (tp_page t) "Page in TemporaryPage requires size" in
  lift (VirtAddr_new a).

Definition tp_unmap (t : TemporaryPage) : mM unit := unmap (tp_page t) NoFree Invalidate.

(** The table is known by its virtual address. *)
Definition map_table_frame (t : TemporaryPage) (frame : Z) : mM Z := tp_map t frame.

(** [Drop for TemporaryPage] *)
Definition drop_temporary_page (t : TemporaryPage) : hM unit :=
  let! r := tables (map_to (tp_page t) (tp_frame_addr t)
                      (from_bits_truncate EntryFlags_all 0) Invalidate) in
  do! expect_ok r "Out of physical memory" in
  let! a := tables (page_start (tp_page t) "unwrap") in
  heap_dealloc (Some a) 0x1000.

(** ** [ActivePageMap] *)

Definition recursive_flags : Z := PRESENT ||| WRITABLE ||| NO_EXECUTE ||| GLOBAL.

(** [Cr3::read], [Cr3::write] *)
Definition read_cr3 : mM (Z * Z) := gets (fun s => (cr3 s, cr3_flags s)).
Definition write_cr3 (f fl : Z) : mM unit := modify (set_cr3 f fl).

Definition with_inactive_p4 {R} (table : InactivePageMap) (tp : TemporaryPage) (f : mM R) : mM R :=
  let! c := read_cr3 in
  let! backup := lift (PhysAddr_new c.1) in
  let! p4_table := map_table_frame tp backup in
  do! table_set P4 510 (p4_frame table) recursive_flags in
  do! tlb_flush_all in
  let! r := f in
  do! table_set p4_table 510 backup recursive_flags in
  do! tlb_flush_all in
  do! tp_unmap tp in
  ret r.

(** The frames of the pages [l]. *)
Fixpoint collect_frames (l : list Z) : mM (list Z) :=
  match l with
  | [] => ret []
  | n :: l =>
      let! a := lift (mul64 n 4096) in
      let! w := walk_page_table (containing_address a) in
      let! w := expect w "unwrap" in
      let! pa := lift (physical_address w.1) in
      let! pa := expect pa "unwrap" in
      let! rest := collect_frames l in
      ret (pa :: rest)
  end.

Definition remap_range (new_table : InactivePageMap) (tp : TemporaryPage) (first last flags : Z)
  : mM unit :=
  let! num_pages := lift (sub64 last first) in
  let! frames := collect_frames ((fun i => i + first) <$> range_incl 0 num_pages) in
  with_inactive_p4 new_table tp
    (for_each (range_incl first last) (fun page_no =>
       let! a := lift (mul64 page_no 4096) in
       let! phys_addr := expect (frames !! Z.to_nat (page_no - first)) "index out of bounds" in
       let! r := map_to (containing_address a) phys_addr flags NoInvalidate in
       expect_ok r "Out of physical memory")).

Definition switch (new_table : InactivePageMap) : mM InactivePageMap :=
  let! c := read_cr3 in
  do! write_cr3 (p4_frame new_table) (im_flags new_table) in
  ret (mkInactivePageMap c.1 c.2).

Definition with_inactive {E} (new_table : InactivePageMap) (f : mM (result unit E))
  : mM (result InactivePageMap E) :=
  let! old := switch new_table in
  let! res := f in
  let! new := switch old in
  match res with
  | Ok _ => ret (Ok new)
  | Err e => ret (Err e)
  end.

(** ** [InactivePageMap] *)

Definition InactivePageMap_new (frame flags : Z) (tp : TemporaryPage) : mM InactivePageMap :=
  let! table := map_table_frame tp frame in
  do! zero table in
  do! table_set table 510 frame recursive_flags in
  do! tp_unmap tp in
  ret (mkInactivePageMap frame flags).

(** ** [remap_kernel] *)

Definition section_flags (s : ElfSection) : Z :=
  let flags := GLOBAL in
  let flags := if sec_writable s then flags ||| WRITABLE else flags in
  if negb (sec_executable s) then flags ||| NO_EXECUTE else flags.

Definition remap_section (s : ElfSection) : mM unit :=
  if negb (sec_allocated s) then ret tt else
  do! assert_m (sec_start s mod 4096 =? 0) "Section needs to be page aligned!" in
  higher_half_map_range (sec_start s) (sec_end s) (section_flags s) NoInvalidate.

(** The closure run on the new tables. *)
Definition remap_sections (elf_sections : option (list ElfSection)) : mM unit :=
  let! sections := expect elf_sections "Memory map tag required" in
  let! e := table_read P4 511 in
  do! table_write P4 511 (entry_add_flags e GLOBAL) in
  do! for_each sections remap_section in
  let! pa := lift (PhysAddr_new 0xb8000) in
  let! r := map_to (containing_address VIRTUAL_VGA_PTR) pa
              (WRITABLE ||| NO_EXECUTE ||| USER_ACCESSIBLE) NoInvalidate in
  expect_ok r "Out of physical memory".

(** [heap_start] and [heap_end] are [BOOTSTRAP_HEAP.start()] and [.end()]. *)
Definition remap_kernel (elf_sections : option (list ElfSection)) (boot_start boot_end : Z)
    (heap_tree_start_virt : Z) : hM unit :=
  let! tp := TemporaryPage_new in
  let! frame := tables (allocate_frame 0) in
  let! frame := expect frame "no more frames" in
  let! c := tables read_cr3 in
  let! new_table := tables (InactivePageMap_new frame c.2 tp) in
  do! tables (with_inactive_p4 new_table tp (remap_sections elf_sections)) in
  let data_flags := NO_EXECUTE ||| WRITABLE ||| GLOBAL in
  let! bootstrap_heap_end_page := lift (round_up_divide boot_end 4096) in
  do! tables (remap_range new_table tp (boot_start / 4096) bootstrap_heap_end_page data_flags) in
  let! tree_end := lift (add64 heap_tree_start_virt tree_size) in
  let! heap_tree_end_page := lift (round_up_divide tree_end 4096) in
  do! tables (remap_range new_table tp (heap_tree_start_virt / 4096) heap_tree_end_page data_flags) in
  do! tables (switch new_table) in
  do! tables (modify (set_wp true)) in
  drop_temporary_page tp.

End active.
