(* ===== verification/ActivePageMapLemmas.v ===== *)
(** Lemmas on [ActivePageMap.v]: temporary pages, what using one leaves unchanged, and
    the construction of a new P4 table through one. *)
From S2P Require Import Prelude Crates Machine FrameAlloc Paging Layout PageMap.
From S2P Require Import AddressSpace PagingLemmas PageMapLemmas MapperLemmas UnmapLemmas.
From S2P Require Import Friendly Heap ActivePageMap.

Section temporary.
Context `{B : Build} `{X : X86_64Crate} `{F : BitflagsCrate}.
Context {P : Type} `{FA : FrameAllocator P} `{FS : !FrameAllocatorSpec P}.
Implicit Types s : machine P.

(** A temporary page that can be mapped. *)
Record tp_ready (tp : TemporaryPage) s : Prop := {
  tr_page : page_ok (tp_page tp);
  tr_clear : path_clear s (tp_page tp);
  tr_unmapped : ref_walk (mem s) (cr3 s) (tp_page tp) = Ret None
}.

Lemma tp_map_spec s tp f :
  tables_inv s -> tp_ready tp s -> f mod 4096 = 0 -> 0 <= f < 2 ^ 48 ->
  (exists s', tp_map tp f s = Ret (number (tp_page tp) * 4096, s') /\
     evolves (same_page (tp_page tp)) s s' /\
     small_mapping (mem s') (cr3 s') (tp_page tp) (leaf_entry f WRITABLE) /\ takes 3 s s') \/
  (tp_map tp f s = Stop (Panic "Out of physical memory") /\ short_of 3 s).
Proof.
  intros Hinv [Hp Hc Hn] Hf Hr. unfold tp_map. mcall (page_start_ok _ "Temporary page requires size" s Hp).
  assert (walk_page_table (tp_page tp) s = Ret (None, s)) as Hw.
  { rewrite walk_page_table_ref by apply Hinv. by rewrite Hn. }
  mcall Hw.
  destruct (map_to_spec s (tp_page tp) f WRITABLE Invalidate Hinv Hp Hc Hf Hr eq_refl) as (r & s' & E & Hres).
  rewrite (bind_ret _ _ _ _ _ E). destruct r as [u|u].
  - left. destruct Hres as (Hev & Hm & _ & Htk). exists s'. msimp.
    mcall (page_start_ok _ "Page in TemporaryPage requires size" s' Hp).
    rewrite VirtAddr_new_canonical by apply Hp. done.
  - right. destruct Hres as (Hev & Hex & _). by split.
Qed.

Lemma table_write_va va i v s : idx i -> table_write va i v s = vwrite64 (va + 8 * i) v s.
Proof.
  unfold idx. intros Hi. unfold table_write, assert_m, PAGE_TABLE_ENTRIES.
  by replace ((0 <=? i) && (i <? 512)) with true by lia.
Qed.

(** Clearing a table through a temporary mapping of its frame. *)
Lemma zero_mapped s page e :
  space_ok (mem s) (cr3 s) -> page_ok page -> small_mapping (mem s) (cr3 s) page e ->
  ~ is_table s (e_addr e) -> e_writable e = true ->
  zero (number page * 4096) s = Ret (tt, set_mem (zero_frame (mem s) (e_addr e)) s) /\
  same_tables (mem s) (zero_frame (mem s) (e_addr e)) (cr3 s).
Proof.
  intros Hok Hp Hm Hnt Hw. unfold zero.
  assert (Forall idx (range_excl 0 512)) as Hl
    by (apply list.Forall_forall; intros i Hi%elem_of_range_excl; done).
  rewrite (for_each_ext _ _ (fun i => vwrite64 (number page * 4096 + 8 * i) 0)).
  - apply memset_steps; try done. by rewrite Hw.
  - intros i s' Hi%elem_of_range_excl. by apply table_write_va.
Qed.

Lemma recursive_flags_ok : flags_ok recursive_flags.
Proof. unfold recursive_flags. by repeat (apply flags_ok_or; [|done]). Qed.

Lemma recursive_entry f : f mod 4096 = 0 -> 0 <= f < 2 ^ 48 ->
  let e := Z.lor f recursive_flags in
  e_present e = true /\ e_huge e = false /\ e_writable e = true /\ e_addr e = f.
Proof.
  intros Hf Hr e. unfold e.
  rewrite new_entry_present, new_entry_huge, new_entry_writable by done.
  rewrite new_entry_addr by (done || apply recursive_flags_ok).
  unfold recursive_flags. by rewrite !flags_or_spec.
Qed.

(** The memory of the new P4 table, before the temporary page goes away. *)
Lemma fill_new_table s page f :
  tables_inv s -> page_ok page -> small_mapping (mem s) (cr3 s) page (leaf_entry f WRITABLE) ->
  f mod 4096 = 0 -> 0 <= f < 2 ^ 48 -> ~ is_table s f ->
  exists m', bind (zero (number page * 4096))
      (fun _ => table_set (number page * 4096) 510 f recursive_flags) s = Ret (tt, set_mem m' s) /\
    same_tables (mem s) m' (cr3 s) /\ (forall a, frame_of a <> f -> word m' a = word (mem s) a) /\
    (forall i, idx i -> entry_at m' f i = if decide (i = REC) then Z.lor f recursive_flags else 0).
Proof.
  intros Hinv Hp Hm Hf Hr Hnt.
  destruct (leaf_entry_facts f WRITABLE Hf Hr eq_refl) as (Ha & _ & Hw).
  assert (e_writable (leaf_entry f WRITABLE) = true) as Hw' by (rewrite Hw; done).
  destruct (zero_mapped s page _ (ti_space _ Hinv) Hp Hm ltac:(by rewrite Ha) Hw') as [Ez Hst].
  rewrite Ha in *. set (m1 := zero_frame (mem s) f) in *.
  assert (idx 510) as Hi by (unfold idx; lia).
  assert (vwrite64 (number page * 4096 + 8 * 510) (Z.lor f recursive_flags) (set_mem m1 s) =
          Ret (tt, set_mem (<[f + 8 * 510 := Z.lor f recursive_flags]> m1) s)) as Hv.
  { unfold vwrite64. cbn [mem cr3 set_mem].
    rewrite (mmu_small m1 (cr3 s) page (leaf_entry f WRITABLE)); [|by eapply same_space_ok, Hinv|done| |lia].
    - by rewrite Ha, Hw'.
    - unfold small_mapping. rewrite (same_ref_walk _ _ _ Hst); [done|apply Hp]. }
  eexists. split_and!.
  - rewrite (bind_ret _ _ _ _ _ Ez). unfold table_set. rewrite entry_set_ok by done. msimp.
    rewrite table_write_va by done. exact Hv.
  - eapply same_tables_trans; [done|]. apply same_tables_write; [by eapply same_space_ok, Hinv|done|done|].
    intros q Hq. rewrite (same_table_at _ _ _ Hst) by done. intros Hc. apply Hnt. by exists q.
  - intros a Hne. rewrite word_insert, decide_False.
    + apply word_zero_frame_other. intros i Hii ->. apply Hne. by apply frame_of_entry.
    + intros <-. apply Hne. by apply frame_of_entry.
  - intros i Hii. rewrite entry_at_write by done. destruct (decide (i = REC)) as [->|Hne].
    + by rewrite decide_True.
    + rewrite decide_False by (intros [_ <-]; done). by apply entry_at_zero_frame_same.
Qed.

(** What every use of a temporary page keeps: all translations but that of the page
    itself, the tables that exist, the frames that are in use, and what they hold,
    except for the frames [D]. *)
Record tp_keeps (page : Page) (D : Z -> Prop) s s' : Prop := {
  tk_inv : tables_inv s';
  tk_cr3 : cr3 s' = cr3 s;
  tk_flags : cr3_flags s' = cr3_flags s;
  tk_wp : cr0_wp s' = cr0_wp s;
  tk_walk page' : p4_index page' <> REC -> ~ same_page page page' ->
    ref_walk (mem s') (cr3 s') page' = ref_walk (mem s) (cr3 s) page';
  tk_paths q f : vpath q -> table_at (mem s) (cr3 s) q = Some f -> table_at (mem s') (cr3 s') q = Some f;
  tk_new f : is_table s' f -> is_table s f \/ fa_free (pmm s) f;
  tk_free f : fa_free (pmm s') f -> fa_free (pmm s) f;
  tk_live f k : fa_live (pmm s) f k -> fa_live (pmm s') f k;
  tk_clear page' : p4_index page' <> REC -> path_clear s page' -> path_clear s' page';
  tk_mem a : ~ D (frame_of a) -> ~ is_table s (frame_of a) -> ~ fa_free (pmm s) (frame_of a) ->
    word (mem s') a = word (mem s) a
}.

Lemma tp_keeps_trans page D s1 s2 s3 :
  tp_keeps page D s1 s2 -> tp_keeps page D s2 s3 -> tp_keeps page D s1 s3.
Proof.
  intros [] []. split; try congruence; auto.
  - intros page' Hr Hs. rewrite tk_walk1, tk_walk0; done.
  - intros f Hf. destruct (tk_new1 f Hf); auto.
  - intros a Hd Ht Hf. rewrite tk_mem1, tk_mem0; auto. intros Hx. destruct (tk_new0 _ Hx); auto.
Qed.

Lemma tp_keeps_weaken page (D D' : Z -> Prop) s s' :
  (forall x, D x -> D' x \/ fa_free (pmm s) x) -> tp_keeps page D s s' -> tp_keeps page D' s s'.
Proof. intros Hd []. split; try done. intros a H1 H2 H3. apply tk_mem0; [|done|done]. intros []%Hd; done. Qed.

Lemma tp_keeps_evolves page D s s' : evolves (same_page page) s s' -> tp_keeps page D s s'.
Proof.
  intros Hev. split; try apply Hev.
  - intros page' Hr Hs. rewrite (ev_cr3 _ _ _ Hev). by apply (ev_walk _ _ _ Hev).
  - intros q f Hq Hf. rewrite (ev_cr3 _ _ _ Hev). by apply (ev_tables _ _ _ Hev).
  - intros page' Hr. by apply (path_clear_evolves _ _ _ _ Hr Hev).
  - intros a _. apply (ev_mem _ _ _ Hev).
Qed.

Lemma tp_keeps_unmapped page D e s s' : unmapped NoFree page e s s' -> tp_keeps page D s s'.
Proof.
  intros Hum. split; try apply Hum.
  - intros f Hf. left. by apply (um_tables _ _ _ _ _ Hum).
  - intros f Hf. apply (um_free _ _ _ _ _ Hum) in Hf as [?|[? _]]; done.
  - intros f k Hf. apply (um_live _ _ _ _ _ Hum). split; [done|]. by intros [? _].
  - intros a _ Ht _. by apply (um_mem _ _ _ _ _ Hum).
Qed.

(** A frame that holds no table was written. *)
Lemma tp_keeps_data page f m' s : tables_inv s -> same_tables (mem s) m' (cr3 s) ->
  (forall a, frame_of a <> f -> word m' a = word (mem s) a) -> tp_keeps page (.= f) s (set_mem m' s).
Proof.
  intros Hinv Hst Hw. assert (forall x, is_table (set_mem m' s) x -> is_table s x) as Hit.
  { intros x (q & Hq & Hx). exists q. split; [done|]. by rewrite <- (same_table_at _ _ _ Hst). }
  split; try done.
  - destruct Hinv as [Hsp Hfa Hfr]. split; [by eapply same_space_ok|done|auto].
  - intros page' Hr _. by apply (same_ref_walk _ _ _ Hst).
  - intros q x Hq Hf. cbn [mem cr3 set_mem]. by rewrite (same_table_at _ _ _ Hst).
  - auto.
  - intros page' Hr [H4 H3 H2]. assert (forall p i, vpath p -> idx i -> clear_entry s p i -> clear_entry (set_mem m' s) p i) as Hc.
    { intros p i Hp Hi Hc e He. apply Hc. by rewrite <- (same_ent _ _ _ Hst). }
    split; apply Hc; auto with wolffia.
  - intros a Ha _ _. by apply Hw.
Qed.

(** A frame was taken from the allocator. *)
Lemma tp_keeps_allocated page D s p g : tables_inv s -> fa_inv p -> fa_allocate 0 (pmm s) = Ret (Some g, p) ->
  tp_keeps page D s (set_pmm p s).
Proof.
  intros Hinv Hp E. destruct (allocate_frame_0_some _ _ _ (ti_fa _ Hinv) E) as (_ & _ & _ & Hf & Hl).
  apply tp_keeps_evolves. eapply evolves_weaken; [|apply evolves_pmm]; [done|done|done|..].
  - intros x Hx. by apply Hf.
  - intros x k Hx. apply Hl. by right.
Qed.

(** A frame in use that holds no table never comes to hold one. *)
Lemma tp_keeps_data_frame page D s s' x : tables_inv s -> tp_keeps page D s s' ->
  fa_live (pmm s) x 0 -> ~ is_table s x -> ~ is_table s' x.
Proof.
  intros Hinv Hk Hl Hnt Hx. apply (tk_new _ _ _ _ Hk) in Hx as [Hx|Hx]; [done|].
  apply (fa_live_not_free _ _ 0 x (ti_fa _ Hinv) Hl); [by apply in_block_0|done].
Qed.

(** [InactivePageMap::new]: the frame holds a P4 table with nothing but its recursive
    entry, and the temporary page can be used again. *)
Lemma inactive_page_map_new_spec s tp f fl :
  tables_inv s -> tp_ready tp s -> f mod 4096 = 0 -> 0 <= f < 2 ^ 48 ->
  ~ is_table s f -> ~ fa_free (pmm s) f ->
  (exists s', InactivePageMap_new f fl tp s = Ret (mkInactivePageMap f fl, s') /\
     tp_keeps (tp_page tp) (.= f) s s' /\ tp_ready tp s' /\ takes 3 s s' /\
     (forall i, idx i -> entry_at (mem s') f i = if decide (i = REC) then Z.lor f recursive_flags else 0)) \/
  (InactivePageMap_new f fl tp s = Stop (Panic "Out of physical memory") /\ short_of 3 s).
Proof.
  intros Hinv Htp Hf Hr Hnt Hnf. unfold InactivePageMap_new, map_table_frame.
  destruct (tp_map_spec s tp f Hinv Htp Hf Hr) as [(s1 & E1 & Hev & Hm & Htk)|[E Hex]].
  2:{ right. by rewrite (bind_stop _ _ _ _ E). }
  left. destruct (Htp) as [Hp Hc Hn]. pose proof (tp_keeps_evolves _ (.= f) _ _ Hev) as Hk1.
  assert (~ is_table s1 f) as Hnt1 by (intros [|]%(ev_new _ _ _ Hev); done).
  destruct (fill_new_table s1 (tp_page tp) f (ev_inv _ _ _ Hev) Hp Hm Hf Hr Hnt1) as (m' & E2 & Hst & Hoth & Hent).
  set (s2 := set_mem m' s1) in *.
  pose proof (tp_keeps_data (tp_page tp) f m' s1 (ev_inv _ _ _ Hev) Hst Hoth) as Hk2. fold s2 in Hk2.
  assert (small_mapping (mem s2) (cr3 s2) (tp_page tp) (leaf_entry f WRITABLE)) as Hm2.
  { unfold small_mapping. rewrite (same_ref_walk _ _ _ Hst); [done|apply Hp]. }
  assert (~ is_table s2 f) as Hnt2.
  { intros (q & Hq & Hx). apply Hnt1. exists q. split; [done|]. by rewrite <- (same_table_at _ _ _ Hst). }
  destruct (unmap_spec s2 (tp_page tp) NoFree Invalidate _ (tk_inv _ _ _ _ Hk2) Hp Hm2) as (s3 & E3 & Hum & _); [done|].
  exists s3. rewrite (bind_ret _ _ _ _ _ E1). cbv beta.
  rewrite <- bind_assoc, (bind_ret _ _ _ _ _ E2). unfold tp_unmap. rewrite (bind_ret _ _ _ _ _ E3).
  pose proof (tp_keeps_unmapped _ (.= f) _ _ _ Hum) as Hk3.
  pose proof (tp_keeps_trans _ _ _ _ _ Hk1 (tp_keeps_trans _ _ _ _ _ Hk2 Hk3)) as Hk.
  split_and!; [done|done| | |].
  - split; [done| |apply Hum]. apply (tk_clear _ _ _ _ Hk); [apply Hp|done].
  - apply (takes_trans 3 0 _ s1); [done|]. apply takes_none; [done|]. intros x Hx.
    apply (um_free _ _ _ _ _ Hum). by left.
  - intros i Hi. rewrite <- Hent by done. apply (um_mem _ _ _ _ _ Hum). by rewrite frame_of_entry.
Qed.

(** A frame is allocated and made a P4 table. *)
Record new_root (tp : TemporaryPage) g s s' : Prop := {
  nr_was_free : fa_free (pmm s) g;
  nr_aligned : g mod 4096 = 0;
  nr_range : 0 <= g < 2 ^ 40;
  nr_live : fa_live (pmm s') g 0;
  nr_not_table : ~ is_table s' g;
  nr_keeps : tp_keeps (tp_page tp) (.= g) s s';
  nr_ready : tp_ready tp s';
  nr_takes : takes 4 s s';
  nr_entries i : idx i -> entry_at (mem s') g i = if decide (i = REC) then Z.lor g recursive_flags else 0
}.

Lemma new_root_spec s tp fl : tables_inv s -> tp_ready tp s ->
  (exists g s1 s', allocate_frame 0 s = Ret (Some g, s1) /\ cr3_flags s1 = cr3_flags s /\
     InactivePageMap_new g fl tp s1 = Ret (mkInactivePageMap g fl, s') /\ new_root tp g s s') \/
  (exists g s1 msg, allocate_frame 0 s = Ret (Some g, s1) /\ cr3_flags s1 = cr3_flags s /\
     InactivePageMap_new g fl tp s1 = Stop (Panic msg) /\ short_of 4 s) \/
  (exists s1, allocate_frame 0 s = Ret (None, s1) /\ short_of 1 s).
Proof.
  intros Hinv Htp. destruct (allocate_frame_spec s 0 (ti_fa _ Hinv) ltac:(lia)) as (o & p & Ea & Ef & Hp).
  destruct o as [g|].
  2:{ right. right. eexists. split; [exact Ea|]. by apply (allocate_frame_0_none _ _ (ti_fa _ Hinv) Ef). }
  destruct (allocate_frame_0_some _ _ _ (ti_fa _ Hinv) Ef) as (Hgf & Hg & Hr & Hfree & Hlive).
  set (s1 := set_pmm p s) in *. pose proof (tp_keeps_allocated (tp_page tp) (.= g) s p g Hinv Hp Ef) as Hk1. fold s1 in Hk1.
  assert (takes 1 s s1) as Ht1 by (apply (takes_one g); intros x Hx Hne; apply Hfree; by split).
  assert (fa_live (pmm s1) g 0) as Hl1 by (apply Hlive; by left).
  assert (~ is_table s1 g) as Hnt1 by (intros Hx; by apply (ti_free _ Hinv g)).
  assert (tp_ready tp s1) as Htp1 by (by destruct Htp as [? [] ?]; split).
  assert (~ fa_free (pmm s1) g) as Hnf1 by (by intros [_ ?]%Hfree).
  destruct (inactive_page_map_new_spec s1 tp g fl (tk_inv _ _ _ _ Hk1) Htp1 Hg ltac:(lia) Hnt1 Hnf1)
    as [(s2 & E2 & Hk2 & Htp2 & Ht2 & Hent2)|[E2 Hsh]].
  - left. exists g, s1, s2. split_and!; [done|done|done|]. split; try done.
    + by apply (tk_live _ _ _ _ Hk2).
    + by apply (tp_keeps_data_frame _ _ _ _ _ (tk_inv _ _ _ _ Hk1) Hk2).
    + by eapply tp_keeps_trans.
    + by apply (takes_trans 1 3 _ s1).
  - right. left. exists g, s1. eexists. split_and!; [done|done|exact E2|]. by apply (short_of_takes 1 3 _ s1).
Qed.

Lemma new_root_not_free tp g s s' : new_root tp g s s' -> ~ fa_free (pmm s') g.
Proof.
  intros H. apply (fa_live_not_free _ _ 0 g (ti_fa _ (tk_inv _ _ _ _ (nr_keeps _ _ _ _ H))) (nr_live _ _ _ _ H)).
  by apply in_block_0.
Qed.

(** A table with nothing but its recursive entry is a well-formed address space. *)
Lemma new_table_space_ok m f : f mod 4096 = 0 -> 0 <= f < 2 ^ 48 ->
  (forall i, idx i -> entry_at m f i = if decide (i = REC) then Z.lor f recursive_flags else 0) ->
  space_ok m f.
Proof.
  intros Hf Hr Hent. destruct (recursive_entry f Hf Hr) as (R1 & R2 & R3 & R4).
  assert (idx REC) as HR by (unfold idx, REC; lia). apply root_only_space_ok.
  - split; rewrite Hent, decide_True by done; done.
  - intros i Hi Hne. by rewrite Hent, decide_False by done.
Qed.

(** [with_inactive] runs its argument on the new address space and comes back. *)
Lemma with_inactive_ret {E} s new_table (f : M (machine P) (result unit E)) r s' :
  f (set_cr3 (p4_frame new_table) (im_flags new_table) s) = Ret (r, s') ->
  cr3 s' = p4_frame new_table -> cr3_flags s' = im_flags new_table ->
  with_inactive new_table f s =
    Ret (match r with Ok _ => Ok new_table | Err e => Err e end, set_cr3 (cr3 s) (cr3_flags s) s').
Proof.
  intros Ef Hc Hfl. unfold with_inactive, switch, read_cr3, write_cr3, gets, modify.
  unfold bind at 1 2 3. cbn [fst snd]. unfold ret at 1. cbv beta iota.
  rewrite (bind_ret _ _ _ _ _ Ef). unfold bind, ret. cbn [p4_frame im_flags fst snd].
  rewrite Hc, Hfl. destruct new_table. by destruct r as [u|e].
Qed.

End temporary.
