(* ===== verification/Redirect.v ===== *)
(** The recursive entry of the active P4 table led to another P4 table, as
    [with_inactive_p4] ([page_map.rs]) does it: what the mapper then does is what it would
    do if that other table were the active one. *)
From S2P Require Import Prelude Crates Machine FrameAlloc Paging Layout PageMap.
From S2P Require Import AddressSpace PagingLemmas PageMapLemmas MapperLemmas UnmapLemmas.

Lemma tva_window p off : Forall idx p -> (length p <= 3)%nat -> 0 <= off < 4096 -> va_p4 (tva p + off) = REC.
Proof.
  intros Hp Hl Ho. assert (idx REC) by (unfold idx, REC; lia).
  destruct p as [|a [|b [|c [|d p]]]]; simpl in Hl; try lia; repeat apply list.Forall_cons in Hp as [? Hp];
    by apply va4_p4.
Qed.

Section redirect.
Context `{B : Build} `{X : X86_64Crate} `{F : BitflagsCrate}.
Context {P : Type} `{FA : FrameAllocator P} `{FS : !FrameAllocatorSpec P}.
(** CR3 is [R]; its recursive entry leads to [g]. *)
Context (R flR g fl : Z).
Implicit Types s t : machine P.

Record redirected (m : gmap Z Z) : Prop := {
  rd_rec : rec_ok m g;
  rd_present : e_present (entry_at m R REC) = true;
  rd_not_huge : e_huge (entry_at m R REC) = false;
  rd_writable : e_writable (entry_at m R REC) = true;
  rd_addr : e_addr (entry_at m R REC) = g
}.

(** The window shows the tables of [g]. *)
Lemma redirected_walk m va : redirected m -> va_p4 va = REC -> mmu_walk m R va = mmu_walk m g va.
Proof.
  intros [[R1 R2 R3 R4] H1 H2 H3 H4] Hva. unfold mmu_walk. rewrite Hva.
  by rewrite R1, R2, R3, R4, H1, H2, H3, H4.
Qed.

(** The machine with [g] as its P4 table, and the real one. *)
Definition rooted t : Prop := cr3 t = g /\ cr3_flags t = fl /\ redirected (mem t).
Definition real t : machine P := set_cr3 R flR t.

(** The real machine does what the machine with [g] as its P4 table does. *)
Definition follows {A} (c : M (machine P) A) t : Prop :=
  match c t with
  | Ret (a, t') => c (real t) = Ret (a, real t') /\ rooted t'
  | Stop w => c (real t) = Stop w
  end.

Lemma follows_bind {A A'} (c : M (machine P) A) (k : A -> M (machine P) A') t :
  follows c t -> (forall a t', c t = Ret (a, t') -> rooted t' -> follows (k a) t') -> follows (bind c k) t.
Proof.
  unfold follows, bind. intros Hc Hk. destruct (c t) as [[a t']|w].
  - destruct Hc as [-> Hr]. by apply Hk.
  - by rewrite Hc.
Qed.

Lemma follows_pure {A} (c : M (machine P) A) t : rooted t ->
  (exists a, forall s, c s = Ret (a, s)) \/ (exists w, forall s, c s = Stop w) -> follows c t.
Proof. intros Hr [[a H]|[w H]]; unfold follows; by rewrite !H. Qed.

Lemma follows_ret {A} (a : A) t : rooted t -> follows (ret a) t.
Proof. intros Hr. apply follows_pure; [done|left]. by exists a. Qed.
Lemma follows_lift {A} (r : res A) t : rooted t -> follows (lift r) t.
Proof. intros Hr. apply follows_pure; [done|]. destruct r as [a|w]; [left; by exists a|right; by exists w]. Qed.
Lemma follows_assert b msg t : rooted t -> follows (assert_m b msg) t.
Proof. intros Hr. apply follows_pure; [done|]. destruct b; [left; by exists tt|right; by eexists]. Qed.
Lemma follows_expect {A} (o : option A) msg t : rooted t -> follows (expect o msg) t.
Proof. intros Hr. apply follows_pure; [done|]. destruct o as [a|]; [left; by exists a|right; by eexists]. Qed.
Lemma follows_expect_ok {A E} (r : result A E) msg t : rooted t -> follows (expect_ok r msg) t.
Proof. intros Hr. apply follows_pure; [done|]. destruct r as [a|]; [left; by exists a|right; by eexists]. Qed.
Lemma follows_panic {A} msg t : rooted t -> follows (panic msg : M _ A) t.
Proof. intros Hr. apply follows_pure; [done|]. right. by eexists. Qed.
Lemma follows_flush va t : rooted t -> follows (tlb_flush va) t.
Proof. by intros (H1 & H2 & H3). Qed.

Lemma follows_allocate k t : rooted t -> follows (allocate_frame k) t.
Proof.
  intros (H1 & H2 & H3). unfold follows, allocate_frame. cbn [pmm real set_cr3].
  by destruct (fa_allocate k (pmm t)) as [[o p]|].
Qed.

Lemma follows_read p i t : rooted t -> Forall idx p -> (length p <= 3)%nat -> follows (table_read (tva p) i) t.
Proof.
  intros Hr Hp Hl. unfold table_read. apply follows_bind; [by apply follows_assert|].
  intros [] t' E Hr'. assert (idx i) as Hi.
  { unfold assert_m in E. destruct (_ && _) eqn:Ei; [|done]. unfold idx, PAGE_TABLE_ENTRIES in *. lia. }
  destruct Hr' as (H1 & H2 & H3). unfold follows, vread64. cbn [mem cr3 real set_cr3].
  rewrite redirected_walk, H1 by (done || (apply tva_window; try done; unfold idx in Hi; lia)).
  by destruct (mmu_walk _ _ _) as [[pa w]|].
Qed.

Lemma follows_next p i t : rooted t -> Forall idx p -> (length p <= 3)%nat -> follows (next_table_addr (tva p) i) t.
Proof.
  intros Hr Hp Hl. unfold next_table_addr. apply follows_bind; [by apply follows_read|].
  intros e t' _ Hr'. cbv zeta. destruct (_ && _); by apply follows_ret.
Qed.

(** A write to a table keeps the redirection if it is neither to [R] nor to the
    recursive entry of [g]. *)
Lemma redirected_insert m f i v : redirected m -> f mod 4096 = 0 -> R mod 4096 = 0 -> f <> R -> ~ (f = g /\ i = REC) ->
  idx i -> redirected (<[f + 8 * i := v]> m).
Proof.
  intros [[R1 R2 R3 R4] H1 H2 H3 H4] Hf HR Hne Hg Hi.
  assert (g mod 4096 = 0) as Hg0 by (rewrite <- R4; apply e_addr_range).
  assert (idx REC) as Hrec by (unfold idx, REC; lia).
  assert (entry_at (<[f + 8 * i := v]> m) g REC = entry_at m g REC) as Eg.
  { rewrite entry_at_write by done. rewrite decide_False; [done|]. naive_solver. }
  assert (entry_at (<[f + 8 * i := v]> m) R REC = entry_at m R REC) as ER.
  { rewrite entry_at_write by done. rewrite decide_False; [done|]. naive_solver. }
  split; [split|..]; by rewrite ?Eg, ?ER.
Qed.

Lemma follows_write p f i v t :
  rooted t -> Forall idx p -> (length p <= 3)%nat -> table_at (mem t) g p = Some f -> path_writable (mem t) g p = true ->
  idx i -> R mod 4096 = 0 -> f <> R -> ~ (f = g /\ i = REC) ->
  follows (table_write (tva p) i v) t.
Proof.
  intros (H1 & H2 & H3) Hp Hl Hf Hw Hi HR Hne Hg. unfold follows, table_write, assert_m, PAGE_TABLE_ENTRIES.
  unfold idx in Hi. replace ((0 <=? i) && (i <? 512)) with true by lia. unfold bind, ret, vwrite64.
  cbn [mem cr3 cr0_wp real set_cr3]. rewrite redirected_walk by (done || (apply tva_window; try done; lia)).
  rewrite H1, (mmu_walk_tva _ _ (rd_rec _ H3) p f) by (done || lia). rewrite Hw. cbn [orb].
  split; [done|]. split_and!; [done|done|]. apply redirected_insert; try done.
  by apply (table_at_range _ _ (rd_rec _ H3) p).
Qed.

(** ** New tables *)

(** The tables of [g] are apart from the table [R]. *)
Record apart_root t : Prop := {
  ap_inv : tables_inv t;
  ap_table : ~ is_table t R;
  ap_free : ~ fa_free (pmm t) R;
  ap_aligned : R mod 4096 = 0
}.

Lemma apart_root_evolves T t t' : apart_root t -> evolves T t t' -> apart_root t'.
Proof.
  intros [H1 H2 H3 H4] Hev. split; [apply Hev| | |done].
  - intros [|]%(ev_new _ _ _ Hev); done.
  - by intros ?%(ev_free _ _ _ Hev).
Qed.

Lemma follows_zero q n t :
  rooted t -> Forall idx q -> q <> [] -> (length q <= 3)%nat -> table_at (mem t) g q = Some n ->
  path_writable (mem t) g q = true -> (forall q' j r, q = q' ++ j :: r -> table_at (mem t) g q' <> Some n) ->
  R mod 4096 = 0 -> n <> R -> n <> g -> follows (zero (tva q)) t.
Proof.
  intros Hr Hq Hne Hl Hn Hw Hoff HR Hn1 Hn2. unfold zero.
  assert (Forall idx (range_excl 0 PAGE_TABLE_ENTRIES)) as Hidx
    by (apply list.Forall_forall; by intros i Hi%elem_of_range_excl).
  revert t Hr Hn Hw Hoff. induction Hidx as [|k l Hk _ IH]; intros t Hr Hn Hw Hoff; cbn [for_each];
    [by apply follows_ret|].
  apply follows_bind; [apply (follows_write q n); try done; naive_solver|]. intros [] t' E Hr'.
  assert (mem t' = <[n + 8 * k := 0]> (mem t)) as Em.
  { destruct Hr as (H1 & _ & H3). unfold table_write, assert_m, PAGE_TABLE_ENTRIES in E. unfold idx in Hk.
    replace ((0 <=? k) && (k <? 512)) with true in E by lia. unfold bind, ret, vwrite64 in E.
    rewrite H1, (mmu_walk_tva _ _ (rd_rec _ H3) q n) in E by (done || lia). rewrite Hw in E.
    by injection E as <-. }
  destruct Hr as (_ & _ & H3).
  destruct (fresh_write_keeps _ _ q n (rd_rec _ H3) Hq Hne Hn Hw Hoff k 0 Hk) as (_ & W2 & W3 & W4).
  apply IH; rewrite ?Em; done.
Qed.

Lemma follows_create l p i f t :
  rooted t -> apart_root t -> vpath (p ++ [i]) -> table_at (mem t) g p = Some f ->
  follows (next_table_create l (tva p) i) t.
Proof.
  intros Hr [Hinv HtR HfR HR] Hp Hf. destruct (Hr) as (Hc & Hfl & Hrd). destruct (Hinv) as [Hsp Hfa Htf].
  rewrite Hc in Hsp. pose proof (vpath_app _ _ Hp) as Hp'. destruct (Hp') as (Hidx & Hlen & _).
  unfold next_table_create, next_page_table, next_page_table_mut.
  assert (forall t, rooted t -> follows (bind (next_table_addr (tva p) i) (fun next => ret (option_map (Ok (E := OutOfMemory)) next))) t) as Hfin.
  { intros t0 Ht0. apply follows_bind; [by apply follows_next|]. intros. by apply follows_ret. }
  apply follows_bind; [by apply follows_next|]. intros next t1 E1 Hr1.
  assert (rec_ok (mem t) (cr3 t)) as Hrec by (rewrite Hc; apply Hrd).
  pose proof Hf as Hf'. rewrite <- Hc in Hf'. pose proof (vpath_idx _ _ Hp) as Hi.
  rewrite (next_table_addr_spec t p f i Hrec Hidx (vpath_len _ _ Hp) Hf' Hi) in E1. injection E1 as <- <-.
  destruct (next_frame (mem t) f i) as [n0|] eqn:En; cbn [fmap option_fmap option_map].
  { by apply Hfin. }
  assert (table_read (tva p) i t = Ret (entry_at (mem t) f i, t)) as Erd.
  { by apply table_read_spec. }
  apply follows_bind; [by apply follows_read|]. intros e t1 E2 _. rewrite Erd in E2. injection E2 as <- <-.
  rewrite contains_huge. destruct (e_huge _) eqn:Eh.
  { apply follows_bind; [by apply follows_assert|]. intros. by apply Hfin. }
  assert (e_present (entry_at (mem t) f i) = false) as Enp.
  { unfold next_frame in En. rewrite Eh in En. by destruct (e_present _). }
  apply follows_bind; [by apply follows_allocate|]. intros o t1 E2 Hr2.
  destruct (allocate_frame_spec t 0 Hfa ltac:(lia)) as (o' & p' & Ea & Ef & Hp1).
  rewrite Ea in E2. injection E2 as <- <-. destruct o' as [n|]; [|by apply follows_ret].
  destruct (create_steps t p i f n p' Hinv Hp Hf' Enp Ef) as (S1 & S2 & _).
  destruct (linked_table t p i f n p' Hinv Hp Hf' Enp Ef) as (_ & _ & _ & L1 & L2 & L3).
  unfold table_flags in S1, S2, L1, L2, L3.
  destruct (allocate_frame_0_some _ _ _ Hfa Ef) as (Hnf & Hna & Hnr & _).
  assert (n <> R) as HnR by (by intros ->).
  assert (n <> g) as Hng.
  { intros ->. apply (Htf g); [|done]. exists []. split; [apply vpath_nil|by rewrite Hc]. }
  assert (f <> R) as HfR' by (intros ->; apply HtR; by exists p).
  assert (~ (f = g /\ i = REC)) as HfREC.
  { intros [-> ->]. assert (p = []) as -> by exact (so_inj _ _ Hsp p [] g Hp' vpath_nil Hf eq_refl). by apply (vpath_rec [] REC). }
  apply follows_bind.
  { unfold table_set. apply follows_bind; [by apply follows_lift|]. intros v t1 E3 Hr3.
    assert (t1 = set_pmm p' t) as -> by (unfold lift in E3; destruct (entry_set _ _); by simplify_eq).
    apply (follows_write p f); eauto with wolffia. by eapply path_writable_ok. }
  intros [] t1 E3 Hr3. rewrite S1 in E3. injection E3 as <-.
  apply follows_bind; [by apply follows_next|]. intros nx t1 E3 Hr4.
  unfold next_page_table_mut in S2. rewrite S2 in E3. injection E3 as <- <-.
  apply follows_bind; [by apply follows_expect|]. intros nx t1 E3 _. injection E3 as <- <-.
  apply follows_bind; [|intros [] t1 _ Hr5; by apply Hfin].
  rewrite Hc in L1, L2, L3. apply (follows_zero (p ++ [i]) n); try done; [apply Hp|by destruct p|apply Hp].
Qed.

(** One table on the way to a page, with what the mapper knows afterwards. *)
Lemma follows_descend {A} l p i f t (k : option (result Z OutOfMemory) -> M (machine P) A) :
  rooted t -> apart_root t -> vpath (p ++ [i]) -> table_at (mem t) g p = Some f -> clear_entry t p i ->
  (forall o t', next_table_create l (tva p) i t = Ret (Some o, t') -> rooted t' -> apart_root t' ->
     evolves (fun _ => False) t t' ->
     match o with
     | Ok a => a = tva (p ++ [i]) /\ (exists n, table_at (mem t') g (p ++ [i]) = Some n) /\
         (t' = t \/ forall j, idx j -> ent (mem t') (cr3 t') (p ++ [i]) j = Some 0)
     | Err _ => True
     end -> follows (k (Some o)) t') ->
  follows (bind (next_table_create l (tva p) i) k) t.
Proof.
  intros Hr Hap Hp Hf Hcl Hk. apply follows_bind; [by apply (follows_create l p i f)|]. intros o t' E Hr'.
  destruct (Hr) as (Hc & _). pose proof Hf as Hf'. rewrite <- Hc in Hf'.
  destruct (descend t l p i f (ap_inv _ Hap) Hp Hf' Hcl) as (o' & s' & E' & Hev & _ & _ & Ho).
  rewrite E' in E. injection E as <- <-. apply Hk; try done; [by eapply apart_root_evolves|].
  destruct o' as [a|]; [|done]. destruct Ho as (H1 & H2 & H3). destruct Hr' as (Hc' & _). rewrite Hc' in H2. done.
Qed.

Lemma follows_map_to page pa flags inv t :
  rooted t -> apart_root t -> page_ok page -> path_clear t page -> follows (map_to page pa flags inv) t.
Proof.
  intros Hr Hap Hpage [Hc4 Hc3 Hc2]. destruct (Hpage) as [Hsz Hpr Hrange Hcan]. unfold map_to. rewrite P4_tva.
  apply (follows_descend _ [] _ g); [done|done|by apply vpath_page_1|done|done|]. intros o3 t1 _ Hr1 Hap1 Hev1 H1.
  apply follows_bind; [by apply follows_expect|]. intros o3' t1' E _. injection E as <- <-.
  destruct o3 as [a3|]; [|by apply follows_ret]. destruct H1 as (-> & [g1 Hg1] & Hz1). simpl app in *.
  assert (clear_entry t1 [p4_index page] (p3_index page)) as Hc3' by (eapply clear_next; eauto with wolffia).
  assert (clear_entry t1 ([p4_index page] ++ [p3_index page]) (p2_index page)) as Hc2'
    by (eapply clear_below; eauto with wolffia).
  apply (follows_descend _ [p4_index page] _ g1); [done|done|by apply vpath_page_2|done|done|].
  intros o2 t2 _ Hr2 Hap2 Hev2 H2. simpl app in *.
  apply follows_bind; [by apply follows_expect|]. intros o2' t2' E _. injection E as <- <-.
  destruct o2 as [a2|]; [|by apply follows_ret]. destruct H2 as (-> & [g2 Hg2] & Hz2).
  apply follows_bind; [by apply follows_assert|]. intros [] t2' E _.
  unfold assert_m in E. rewrite Hsz in *. rewrite bool_decide_true in E by eauto. injection E as <-.
  rewrite bool_decide_true by done.
  assert (clear_entry t2 [p4_index page; p3_index page] (p2_index page)) as Hc2'' by (eapply clear_next; eauto with wolffia).
  apply (follows_descend _ [p4_index page; p3_index page] _ g2); [done|done|by apply vpath_page_3|done|done|].
  intros o1 t3 _ Hr3 Hap3 Hev3 H3. simpl app in *.
  destruct o1 as [a1|]; [|by apply follows_ret]. destruct H3 as (-> & [g3 Hg3] & _).
  assert (vpath [p4_index page; p3_index page; p2_index page]) as Hv by (by apply vpath_page_3).
  destruct (Hr3) as (Hcr & _ & Hrd). pose proof (ti_space _ (ap_inv _ Hap3)) as Hsp. rewrite Hcr in Hsp.
  assert (g3 <> R) as H3R.
  { intros ->. apply (ap_table _ Hap3). eexists. split; [exact Hv|]. by rewrite Hcr. }
  assert (g3 <> g) as H3g.
  { intros ->. by pose proof (so_inj _ _ Hsp _ [] g Hv vpath_nil Hg3 eq_refl). }
  apply follows_bind.
  { unfold table_set. apply follows_bind; [by apply follows_lift|]. intros v t3' E Hr3'.
    assert (t3' = t3) as -> by (unfold lift in E; destruct (entry_set _ _); by simplify_eq).
    apply (follows_write _ g3); [done|apply Hv|apply Hv|done|by eapply path_writable_ok|apply p1_index_range|apply Hap3|done|].
    naive_solver. }
  intros [] t4 _ Hr4. apply follows_bind; [|intros; by apply follows_ret].
  destruct (decide _); [|by apply follows_ret]. apply follows_bind; [|intros a t4' E Hr4'].
  { unfold page_start. apply follows_bind; [by apply follows_lift|]. intros. by apply follows_expect. }
  apply follows_bind; [by apply follows_lift|]. intros. by apply follows_flush.
Qed.

End redirect.
