(* ===== verification/RemapLemmas.v ===== *)
(** Lemmas on [remap_kernel] ([remap.rs]): lists of mappings made one after the other, and
    [with_inactive_p4] and [remap_range] ([page_map.rs]) on two address spaces. *)
From S2P Require Import Prelude Crates Machine FrameAlloc Paging Layout PageMap.
From S2P Require Import AddressSpace PagingLemmas PageMapLemmas MapperLemmas UnmapLemmas Friendly Heap.
From S2P Require Import ActivePageMap ActivePageMapLemmas Redirect.

(** * Requests *)

(** One call of [map_to]: the page, the frame, the flags. *)
Record request := mkRequest { rq_page : Z; rq_frame : Z; rq_flags : Z }.

Record request_ok (r : request) : Prop := {
  ro_page : page_ok (page_no (rq_page r));
  ro_aligned : rq_frame r mod 4096 = 0;
  ro_range : 0 <= rq_frame r < 2 ^ 48;
  ro_flags : flags_ok (rq_flags r)
}.

(** The request for [page] that counts: the last one. *)
Fixpoint last_request (l : list request) (page : Page) : option request :=
  match l with
  | [] => None
  | r :: l =>
      match last_request l page with
      | Some r' => Some r'
      | None => if decide (same_page (page_no (rq_page r)) page) then Some r else None
      end
  end.

Definition requested (l : list request) (page : Page) : Prop := is_Some (last_request l page).

Lemma last_request_app l1 l2 page :
  last_request (l1 ++ l2) page =
    match last_request l2 page with Some r => Some r | None => last_request l1 page end.
Proof.
  induction l1 as [|r l1 IH]; cbn [app last_request]; [by destruct (last_request l2 page)|].
  rewrite IH. by destruct (last_request l2 page).
Qed.

Lemma last_request_in l page r : last_request l page = Some r -> r ∈ l /\ same_page (page_no (rq_page r)) page.
Proof.
  induction l as [|r' l IH]; cbn [last_request]; [done|]. destruct (last_request l page) as [x|].
  - intros [= ->]. destruct (IH eq_refl). split; [by right|done].
  - destruct (decide _); [|done]. intros [= ->]. split; [by left|done].
Qed.

Section requests.
Context `{B : Build} `{X : X86_64Crate} `{F : BitflagsCrate}.
Context {P : Type} `{FA : FrameAllocator P} `{FS : !FrameAllocatorSpec P}.
Implicit Types s t : machine P.

Definition issue (msg : string) (r : request) : M (machine P) unit :=
  let! x := map_to (page_no (rq_page r)) (rq_frame r) (rq_flags r) NoInvalidate in expect_ok x msg.

(** The tables show the requests on top of what was there. *)
Definition granted (l : list request) (m m' : gmap Z Z) (root : Z) : Prop :=
  forall page, p4_index page <> REC -> ref_walk m' root page =
    match last_request l page with
    | Some r => Ret (Some (leaf_entry (rq_frame r) (rq_flags r), Kib4))
    | None => ref_walk m root page
    end.

Lemma requests_spec (l : list (string * request)) t :
  tables_inv t -> Forall (fun x => request_ok x.2 /\ path_clear t (page_no (rq_page x.2))) l ->
  (exists t', for_each l (fun x => issue x.1 x.2) t = Ret (tt, t') /\
     evolves (requested l.*2) t t' /\ takes (3 * Z.of_nat (length l)) t t' /\ granted l.*2 (mem t) (mem t') (cr3 t)) \/
  (exists msg, for_each l (fun x => issue x.1 x.2) t = Stop (Panic msg) /\ short_of (3 * Z.of_nat (length l)) t).
Proof.
  revert t. induction l as [|[msg r] l IH]; intros t Hinv Hl.
  { left. exists t. split; [done|]. split_and!; [by apply evolves_refl|by apply takes_refl|done]. }
  apply list.Forall_cons in Hl as [[[Hpg Hal Hrg Hfl] Hcl] Hl]. cbn [snd] in *. cbn [for_each]. unfold issue at 1 3. cbn [fst snd].
  destruct (map_to_spec t (page_no (rq_page r)) (rq_frame r) (rq_flags r) NoInvalidate Hinv Hpg Hcl Hal Hrg Hfl)
    as (x & t1 & E & Hx).
  rewrite !bind_assoc, !(bind_ret _ _ _ _ _ E). destruct x as [[]|u].
  2:{ right. exists msg. msimp. split; [done|]. cbn [length]. apply (short_of_mono 3); [lia|]. apply Hx. }
  msimp. destruct Hx as (Hev & Hm & _ & Htk).
  destruct (IH t1 (ev_inv _ _ _ Hev)) as [(t' & E' & Hev' & Htk' & Hg)|(msg' & E' & Hsh)].
  { eapply list.Forall_impl; [exact Hl|]. intros y [Hy1 Hy2]. split; [done|].
    apply (path_clear_evolves _ _ _ _ (po_rec _ (ro_page _ Hy1)) Hev Hy2). }
  - left. exists t'. split; [done|]. split_and!.
    + eapply evolves_trans; (eapply evolves_weaken; [|done]); intros page Hp; unfold requested in *; cbn [fmap list_fmap last_request snd].
      * destruct (last_request _ page); [by eexists|]. rewrite decide_True by done. by eexists.
      * destruct Hp as [y ->]. by eexists.
    + cbn [length]. apply (takes_mono (3 + 3 * Z.of_nat (length l))); [lia|]. by apply (takes_trans _ _ _ t1).
    + intros page Hp. rewrite <- (ev_cr3 _ _ _ Hev). rewrite (Hg page Hp). cbn [fmap list_fmap last_request snd]. destruct (last_request l.*2 page) as [y|]; [done|].
      rewrite (ev_cr3 _ _ _ Hev). destruct (decide _) as [Hs|Hs]; [|by apply (ev_walk _ _ _ Hev)].
      rewrite (ev_cr3 _ _ _ Hev) in Hm. by rewrite <- (ref_walk_same_page _ _ _ _ Hs).
  - right. exists msg'. split; [done|]. cbn [length]. apply (short_of_mono (3 + 3 * Z.of_nat (length l))); [lia|].
    by apply (short_of_takes _ _ _ t1).
Qed.

(** With the window on another P4 table, requests are granted there. *)
Lemma requests_follow R flR g fl (l : list (string * request)) t :
  rooted R g fl t -> apart_root R t -> Forall (fun x => request_ok x.2 /\ path_clear t (page_no (rq_page x.2))) l ->
  follows R flR g fl (for_each l (fun x => issue x.1 x.2)) t.
Proof.
  revert t. induction l as [|[msg r] l IH]; intros t Hr Hap Hl; cbn [for_each]; [by apply follows_ret|].
  apply list.Forall_cons in Hl as [[[Hpg Hal Hrg Hfl] Hcl] Hl]. cbn [fst snd] in *.
  destruct (map_to_spec t (page_no (rq_page r)) (rq_frame r) (rq_flags r) NoInvalidate (ap_inv _ _ Hap) Hpg Hcl Hal Hrg Hfl)
    as (x & t1 & E & Hx).
  apply follows_bind.
  { unfold issue. apply follows_bind; [by apply follows_map_to|]. intros. by apply follows_expect_ok. }
  intros [] t' Ei Hr'. unfold issue in Ei. rewrite (bind_ret _ _ _ _ _ E) in Ei. destruct x as [[]|u]; [|done].
  injection Ei as <-. destruct Hx as (Hev & _). apply IH; [done|by eapply apart_root_evolves|].
  eapply list.Forall_impl; [exact Hl|]. intros y [Hy1 Hy2]. split; [done|].
  apply (path_clear_evolves _ _ _ _ (po_rec _ (ro_page _ Hy1)) Hev Hy2).
Qed.

End requests.

(** * The recursive entry *)

(** The tables of [R] are the same but for the recursive entry. *)
Definition same_but_rec (m m' : gmap Z Z) (R : Z) : Prop :=
  forall q h j, vpath q -> table_at m R q = Some h -> idx j -> ~ (q = [] /\ j = REC) ->
    entry_at m' h j = entry_at m h j.

Section but_rec.
Context (m m' : gmap Z Z) (R : Z) (Hs : same_but_rec m m' R).

Lemma but_rec_table_at q : vpath q -> table_at m' R q = table_at m R q.
Proof.
  intros Hq. apply table_at_ext. intros q' j h r -> Hh.
  assert (vpath (q' ++ [j])) as Hj by (apply (vpath_app _ r); by rewrite <- app_assoc).
  apply (Hs q'); eauto with wolffia. intros [-> ->]. by apply (vpath_rec [] REC).
Qed.

Lemma but_rec_ent p i : vpath p -> idx i -> ~ (p = [] /\ i = REC) -> ent m' R p i = ent m R p i.
Proof.
  intros Hp Hi Hn. unfold ent. rewrite but_rec_table_at by done.
  destruct (table_at m R p) as [f|] eqn:E; [|done]. cbn. f_equal. by apply (Hs p).
Qed.

Lemma but_rec_walk page : p4_index page <> REC -> ref_walk m' R page = ref_walk m R page.
Proof.
  intros Hr. unfold ref_walk, huge_walk. rewrite !but_rec_ent by (auto with wolffia; naive_solver). done.
Qed.

Lemma but_rec_space : space_ok m R -> rec_ok m' R -> space_ok m' R.
Proof.
  intros [_ Hw Hi] Hrec. split; [done|..].
  - intros p f i g Hp Hf Hn. rewrite but_rec_table_at in Hf by (by eapply vpath_app).
    assert (entry_at m' f i = entry_at m f i) as E.
    { apply (Hs p); [by eapply vpath_app|done|by eapply vpath_idx|]. intros [-> ->]. by apply (vpath_rec [] REC). }
    unfold next_frame in Hn. rewrite E in *. by apply (Hw p f i g).
  - intros p q f Hp Hq. rewrite !but_rec_table_at by done. by apply Hi.
Qed.

Lemma window_path i l : i <> REC -> Forall idx (i :: l) -> (length l <= 2)%nat -> vpath (i :: l).
Proof. intros Hi Hl Hn. split_and!; [done|simpl; lia|simpl; congruence]. Qed.

(** Addresses outside the recursive window are translated alike. *)
Lemma but_rec_mmu va : va_p4 va <> REC -> mmu_walk m' R va = mmu_walk m R va.
Proof.
  intros Hva. unfold mmu_walk. destruct (canonical va); [|done]. cbn [negb].
  assert (idx (va_p4 va) /\ idx (va_p3 va) /\ idx (va_p2 va) /\ idx (va_p1 va)) as (I4 & I3 & I2 & I1).
  { split_and!; apply index_range. }
  rewrite (Hs [] R (va_p4 va)) by (apply vpath_nil || done || naive_solver).
  set (e4 := entry_at m R (va_p4 va)). destruct (negb (e_present e4) || e_huge e4) eqn:C4; [done|].
  apply orb_false_elim in C4 as [P4%negb_false_iff N4].
  assert (vpath [va_p4 va]) as V1 by (by apply window_path; [|auto|simpl; lia]).
  assert (table_at m R [va_p4 va] = Some (e_addr e4)) as T1.
  { cbn [table_at]. unfold next_frame. fold e4. by rewrite P4, N4. }
  rewrite (Hs _ _ (va_p3 va) V1 T1 I3) by naive_solver. set (e3 := entry_at m (e_addr e4) (va_p3 va)).
  destruct (negb (e_present e3)) eqn:P3; [done|]. apply negb_false_iff in P3. destruct (e_huge e3) eqn:N3; [done|].
  assert (vpath [va_p4 va; va_p3 va]) as V2 by (by apply window_path; [|auto|simpl; lia]).
  assert (table_at m R [va_p4 va; va_p3 va] = Some (e_addr e3)) as T2.
  { change [va_p4 va; va_p3 va] with ([va_p4 va] ++ [va_p3 va]). rewrite table_at_snoc, T1. cbn.
    unfold next_frame. fold e3. by rewrite P3, N3. }
  rewrite (Hs _ _ (va_p2 va) V2 T2 I2) by naive_solver. set (e2 := entry_at m (e_addr e3) (va_p2 va)).
  destruct (negb (e_present e2)) eqn:P2; [done|]. apply negb_false_iff in P2. destruct (e_huge e2) eqn:N2; [done|].
  assert (vpath [va_p4 va; va_p3 va; va_p2 va]) as V3 by (by apply window_path; [|auto|simpl; lia]).
  assert (table_at m R [va_p4 va; va_p3 va; va_p2 va] = Some (e_addr e2)) as T3.
  { change [va_p4 va; va_p3 va; va_p2 va] with ([va_p4 va; va_p3 va] ++ [va_p2 va]). rewrite table_at_snoc, T2. cbn.
    unfold next_frame. fold e2. by rewrite P2, N2. }
  by rewrite (Hs _ _ (va_p1 va) V3 T3 I1) by naive_solver.
Qed.

End but_rec.

(** * Two address spaces *)

Section two_spaces.
Context `{B : Build} `{X : X86_64Crate} `{F : BitflagsCrate}.
Context {P : Type} `{FA : FrameAllocator P} `{FS : !FrameAllocatorSpec P}.
Context (g fl : Z).
Implicit Types s t : machine P.

#[local] Abbreviation other s := (set_cr3 g fl s).

(** The active address space and the one with the P4 table [g] have no table in common. *)
Record two_spaces s : Prop := {
  ts_active : tables_inv s;
  ts_other : tables_inv (other s);
  ts_apart x : is_table s x -> is_table (other s) x -> False
}.

(** The other address space is not touched. *)
Lemma other_kept s s' :
  two_spaces s -> (forall x, is_table (other s) x -> forall i, idx i -> entry_at (mem s') x i = entry_at (mem s) x i) ->
  same_tables (mem s) (mem s') g.
Proof. intros Hts Hw q h j Hq Hh Hj. apply Hw; [by exists q|done]. Qed.

Lemma same_other_tables s s' x : same_tables (mem s) (mem s') g -> is_table (other s') x <-> is_table (other s) x.
Proof.
  intros Hs. split; intros (q & Hq & Hx); exists q; (split; [done|]); cbn [mem cr3 set_cr3] in *;
    [by rewrite <- (same_table_at _ _ _ Hs)|by rewrite (same_table_at _ _ _ Hs)].
Qed.

Lemma table_aligned s x : tables_inv s -> is_table s x -> x mod 4096 = 0.
Proof.
  intros Hi (q & Hq & Hx). by apply (table_at_range _ _ (so_rec _ _ (ti_space _ Hi)) q).
Qed.

(** What happens in the active address space leaves the other one alone. *)
Lemma two_spaces_step s s' :
  two_spaces s -> tables_inv s' ->
  (forall x, is_table s' x -> is_table s x \/ fa_free (pmm s) x) ->
  (forall x, fa_free (pmm s') x -> fa_free (pmm s) x) ->
  (forall a, ~ is_table s (frame_of a) -> ~ fa_free (pmm s) (frame_of a) -> word (mem s') a = word (mem s) a) ->
  two_spaces s' /\ same_tables (mem s) (mem s') g.
Proof.
  intros [Ha Ho Hap] Hinv' Hnew Hfree Hmem.
  assert (same_tables (mem s) (mem s') g) as Hs.
  { apply other_kept; [done|]. intros x Hx i Hi. apply Hmem.
    all: rewrite frame_of_entry by (done || by apply (table_aligned _ _ Ho)).
    - intros Hx'. by apply (Hap x).
    - by apply (ti_free _ Ho). }
  split; [|done]. split; [done|..].
  - destruct Ho as [Hsp Hfa Hfr]. split; [by eapply same_space_ok|apply Hinv'|].
    intros x Hx Hf. apply (Hfr x); [by apply (same_other_tables s s' x)|]. cbn. by apply Hfree.
  - intros x Hx Hy. apply (same_other_tables s s' x Hs) in Hy. destruct (Hnew x Hx) as [Ht|Hf].
    + by apply (Hap x).
    + by apply (ti_free _ Ho x).
Qed.

Lemma two_spaces_keeps page D s s' :
  (forall x, D x -> fa_free (pmm s) x) -> two_spaces s -> tp_keeps page D s s' ->
  two_spaces s' /\ same_tables (mem s) (mem s') g.
Proof.
  intros HD Hts []. apply two_spaces_step; try done. intros a Ht Hf. apply tk_mem; [|done|done]. by intros ?%HD.
Qed.

(** ** The window moved to the other address space *)

Section moved.
Context (s : machine P) (Hts : two_spaces s).
#[local] Abbreviation R := (cr3 s).

Lemma root_table : is_table s R.
Proof. exists []. split; [apply vpath_nil|done]. Qed.
Lemma other_root : is_table (other s) g.
Proof. exists []. split; [apply vpath_nil|done]. Qed.
Lemma roots_differ : g <> R.
Proof. intros E. apply (ts_apart _ Hts g); [rewrite E; apply root_table|apply other_root]. Qed.

Definition moved : machine P := push_tlb FlushAll (set_mem (<[R + 8 * 510 := Z.lor g recursive_flags]> (mem s)) s).

Lemma root_aligned : R mod 4096 = 0.
Proof. by apply (table_aligned _ _ (ts_active _ Hts)), root_table. Qed.
Lemma other_aligned : g mod 4096 = 0.
Proof. by apply (table_aligned _ _ (ts_other _ Hts)), other_root. Qed.

Lemma moved_other : same_tables (mem s) (mem moved) g.
Proof.
  apply other_kept; [done|]. intros x Hx i Hi. cbn [mem moved set_mem push_tlb].
  rewrite entry_at_write; [|apply root_aligned|by apply (table_aligned _ _ (ts_other _ Hts))|unfold idx; lia|done].
  rewrite decide_False; [done|]. intros [E _]. apply (ts_apart _ Hts x); [rewrite <- E; apply root_table|done].
Qed.

(** The code that moves the window. *)
Lemma move_window : 0 <= g < 2 ^ 48 ->
  bind (table_set P4 510 g recursive_flags) (fun _ => tlb_flush_all) s = Ret (tt, moved).
Proof.
  intros Hr. unfold table_set. rewrite entry_set_ok by (done || apply other_aligned). msimp.
  rewrite P4_tva. destruct (ts_active _ Hts) as [Hsp _ _].
  by rewrite (bind_ret _ _ _ _ _ (table_write_spec s [] R 510 _ Hsp vpath_nil eq_refl ltac:(unfold idx; lia))).
Qed.

Lemma moved_rooted : 0 <= g < 2 ^ 48 -> rooted R g fl (other moved).
Proof.
  intros Hr. split_and!; [done|done|]. destruct (recursive_entry g other_aligned Hr) as (H1 & H2 & H3 & H4).
  assert (entry_at (mem moved) R REC = Z.lor g recursive_flags) as E.
  { cbn [mem moved set_mem push_tlb].
    rewrite entry_at_write; [|apply root_aligned|apply root_aligned|unfold idx; lia|unfold idx, REC; lia].
    by rewrite decide_True. }
  split; cbn [mem set_cr3]; rewrite ?E; try done. apply (same_space_ok _ _ _ moved_other), (ts_other _ Hts).
Qed.

Lemma moved_apart : apart_root R (other moved).
Proof.
  assert (forall x, is_table (other moved) x <-> is_table (other s) x) as Ht.
  { intros x. apply (same_other_tables s moved). apply moved_other. }
  pose proof (ts_other _ Hts) as Ho. split.
  - destruct Ho as [Hsp Hfa Hfr]. split; [by apply (same_space_ok _ _ _ moved_other)|done|].
    intros x Hx. apply (Hfr x). by apply Ht.
  - intros Hx%Ht. apply (ts_apart _ Hts R); [apply root_table|done].
  - apply (ti_free _ (ts_active _ Hts)), root_table.
  - apply root_aligned.
Qed.

End moved.

(** The window moved back, after the code on the other address space has run. *)
Section closed.
Context (s t : machine P) (T : Page -> Prop) (Hts : two_spaces s).
Context (Hr : 0 <= cr3 s < 2 ^ 48) (Hev : evolves T (other (moved s)) t).
#[local] Abbreviation R := (cr3 s).
#[local] Abbreviation back v := (push_tlb FlushAll (set_mem (<[R + 8 * 510 := v]> (mem t)) (real R (cr3_flags s) t))).

Lemma moved_kept q h j : vpath q -> table_at (mem s) R q = Some h -> idx j -> ~ (q = [] /\ j = REC) ->
  entry_at (mem t) h j = entry_at (mem s) h j.
Proof.
  intros Hq Hh Hj Hn. assert (is_table s h) as Ht by (by exists q).
  pose proof (table_aligned _ _ (ts_active _ Hts) Ht) as Ha.
  transitivity (entry_at (mem (moved s)) h j).
  - apply (ev_mem _ _ _ Hev); rewrite frame_of_entry by done.
    + intros Hx. apply (ts_apart _ Hts h); [done|].
      by apply (same_other_tables s (moved s) h (moved_other s Hts)).
    + by apply (ti_free _ (ts_active _ Hts)).
  - cbn [mem moved set_mem push_tlb]. rewrite entry_at_write; [|by apply root_aligned|done|unfold idx; lia|done].
    rewrite decide_False; [done|]. intros [<- <-]. apply Hn. split; [|done].
    by apply (so_inj _ _ (ti_space _ (ts_active _ Hts)) q [] R); [|apply vpath_nil|..].
Qed.

Lemma back_but_rec v : same_but_rec (mem s) (mem (back v)) R.
Proof.
  intros q h j Hq Hh Hj Hn. rewrite <- (moved_kept q) by done. cbn [mem set_mem push_tlb].
  rewrite entry_at_write; [|by apply root_aligned| |unfold idx; lia|done].
  2:{ apply (table_aligned s); [apply Hts|]. by exists q. }
  rewrite decide_False; [done|]. intros [<- <-]. apply Hn. split; [|done].
  by apply (so_inj _ _ (ti_space _ (ts_active _ Hts)) q [] R); [|apply vpath_nil|..].
Qed.

Lemma moved_but_rec : same_but_rec (mem s) (mem t) R.
Proof. intros q h j. apply moved_kept. Qed.

Lemma back_rec : rec_ok (mem (back (Z.lor R recursive_flags))) R.
Proof.
  destruct (recursive_entry R (root_aligned s Hts) Hr) as (H1 & H2 & H3 & H4).
  assert (entry_at (mem (back (Z.lor R recursive_flags))) R REC = Z.lor R recursive_flags) as E.
  { cbn [mem set_mem push_tlb]. rewrite entry_at_write by (unfold idx, REC; lia || by apply root_aligned).
    by rewrite decide_True. }
  by split; rewrite E.
Qed.

Lemma back_other v : same_tables (mem t) (mem (back v)) g.
Proof.
  pose proof (apart_root_evolves _ _ _ _ (moved_apart s Hts) Hev) as [Hi Hn _ _].
  assert (cr3 t = g) as Hc by (by rewrite (ev_cr3 _ _ _ Hev)).
  apply same_tables_write; [|by apply root_aligned|unfold idx; lia|].
  - rewrite <- Hc. apply Hi.
  - intros q Hq Hx. apply Hn. exists q. by rewrite Hc.
Qed.

Lemma back_tables v x : is_table (back v) x <-> is_table s x.
Proof.
  split; intros (q & Hq & Hx); exists q; (split; [done|]); cbn [mem cr3 set_mem set_cr3 real push_tlb] in *.
  - by rewrite <- (but_rec_table_at _ _ _ (back_but_rec v)).
  - by rewrite (but_rec_table_at _ _ _ (back_but_rec v)).
Qed.

Lemma back_other_tables v x : is_table (other (back v)) x <-> is_table t x.
Proof.
  rewrite (same_other_tables t (back v) x (back_other v)).
  assert (cr3 t = g) as Hc by (by rewrite (ev_cr3 _ _ _ Hev)).
  unfold is_table. cbn [mem cr3 set_cr3]. by rewrite Hc.
Qed.

Lemma back_inv : tables_inv (back (Z.lor R recursive_flags)).
Proof.
  pose proof (ts_active _ Hts) as Ha. split.
  - apply (but_rec_space (mem s)); [apply back_but_rec|apply Ha|apply back_rec].
  - apply (ev_inv _ _ _ Hev).
  - intros x Hx%back_tables Hf. apply (ti_free _ Ha x Hx). by apply (ev_free _ _ _ Hev) in Hf.
Qed.

Lemma back_two_spaces : two_spaces (back (Z.lor R recursive_flags)).
Proof.
  pose proof (ev_inv _ _ _ Hev) as Hi. assert (cr3 t = g) as Hc by (by rewrite (ev_cr3 _ _ _ Hev)).
  split; [apply back_inv|split|].
  - apply (same_space_ok _ _ _ (back_other _)). rewrite <- Hc. apply Hi.
  - apply Hi.
  - intros x Hx%back_other_tables. by apply (ti_free _ Hi x).
  - intros x Hx%back_tables Hy%back_other_tables. apply (ev_new _ _ _ Hev) in Hy as [Hy|Hy].
    + apply (ts_apart _ Hts x Hx). by apply (same_other_tables s (moved s) x (moved_other s Hts)).
    + by apply (ti_free _ (ts_active _ Hts) x Hx).
Qed.

Lemma back_clear v page : p4_index page <> REC -> path_clear s page -> path_clear (back v) page.
Proof.
  intros Hp [H4 H3 H2]. assert (forall p i, vpath p -> idx i -> ~ (p = [] /\ i = REC) -> clear_entry s p i -> clear_entry (back v) p i) as Hc.
  { intros p i Hq Hi Hn Hc e He. apply Hc. rewrite <- (but_rec_ent _ _ _ (back_but_rec v)) by done. exact He. }
  split; apply Hc; auto with wolffia; naive_solver.
Qed.

Lemma back_keeps page : tp_keeps page (is_table (other s)) s (back (Z.lor R recursive_flags)).
Proof.
  split; cbn [cr3 cr3_flags cr0_wp pmm set_mem set_cr3 real push_tlb]; try done.
  - apply back_inv.
  - by rewrite (ev_wp _ _ _ Hev).
  - intros page' Hp _. by apply (but_rec_walk _ _ _ (back_but_rec _)).
  - intros q f Hq Hf. by rewrite (but_rec_table_at _ _ _ (back_but_rec _)).
  - intros f Hf%back_tables. by left.
  - apply (ev_free _ _ _ Hev).
  - apply (ev_live _ _ _ Hev).
  - intros page' Hp. by apply back_clear.
  - intros a Hd Ht Hf. assert (forall v m, word (<[R + 8 * 510 := v]> m) a = word m a) as Hw.
    { intros v m. rewrite word_insert, decide_False; [done|]. intros <-. apply Ht.
      rewrite frame_of_entry by (unfold idx; lia || by apply root_aligned). apply root_table. }
    cbn [mem set_mem push_tlb]. rewrite Hw, (ev_mem _ _ _ Hev a); [apply Hw| |done].
    intros Hx. apply Hd. by apply (same_other_tables s (moved s) _ (moved_other s Hts)).
Qed.

End closed.

(** ** Code run on the other address space *)

(** What [with_inactive_p4] does, when the code it runs uses [c] frames and leaves [Q] in
    the tables of [g]. *)
Record other_step (tp : TemporaryPage) (c : Z) (Q : gmap Z Z -> Prop) s s' : Prop := {
  os_keeps : tp_keeps (tp_page tp) (is_table (other s)) s s';
  os_ready : tp_ready tp s';
  os_two : two_spaces s';
  os_takes : takes c s s';
  os_clear page : p4_index page <> REC -> path_clear (other s) page -> path_clear (other s') page;
  os_new x : is_table (other s') x -> is_table (other s) x \/ fa_free (pmm s) x;
  os_result : exists m, Q m /\ same_tables m (mem s') g
}.

(** The code [f] runs on [g] as it would with [g] active. *)
Definition runs_on {A} (f : M (machine P) A) T c (Q : gmap Z Z -> Prop) s : Prop :=
  forall t, rooted (cr3 s) g fl t -> apart_root (cr3 s) t -> same_tables (mem s) (mem t) g ->
    follows (cr3 s) (cr3_flags s) g fl f t /\
    ((exists a t', f t = Ret (a, t') /\ evolves T t t' /\ takes c t t' /\ Q (mem t')) \/
     (exists msg, f t = Stop (Panic msg) /\ short_of c t)).

Lemma same_path_clear s s' page : same_tables (mem s) (mem s') (cr3 s) -> cr3 s' = cr3 s -> p4_index page <> REC ->
  path_clear s page -> path_clear s' page.
Proof.
  intros Hst Hc Hr [H4 H3 H2].
  assert (forall p i, vpath p -> idx i -> clear_entry s p i -> clear_entry s' p i) as Hcl.
  { intros p i Hp Hi Hcl e He. apply Hcl. rewrite Hc in He. by rewrite <- (same_ent _ _ _ Hst). }
  split; apply Hcl; auto with wolffia.
Qed.

(** The entry is put back through the temporary page. *)
Lemma restore_window s t T tp :
  two_spaces s -> 0 <= cr3 s < 2 ^ 48 -> evolves T (other (moved s)) t -> page_ok (tp_page tp) ->
  small_mapping (mem s) (cr3 s) (tp_page tp) (leaf_entry (cr3 s) WRITABLE) ->
  bind (table_set (number (tp_page tp) * 4096) 510 (cr3 s) recursive_flags) (fun _ => tlb_flush_all)
    (real (cr3 s) (cr3_flags s) t) =
  Ret (tt, push_tlb FlushAll (set_mem (<[cr3 s + 8 * 510 := Z.lor (cr3 s) recursive_flags]> (mem t))
             (real (cr3 s) (cr3_flags s) t))).
Proof.
  intros Hts Hr Hev Hp Hm. pose proof (root_aligned s Hts) as Ha.
  unfold table_set. rewrite entry_set_ok by done. msimp.
  assert (idx 510) as Hi by (unfold idx; lia). unfold bind at 1. rewrite table_write_va by done. unfold vwrite64.
  cbn [mem cr3 cr0_wp real set_cr3]. rewrite (but_rec_mmu (mem s)); [|by eapply moved_but_rec|].
  - rewrite (mmu_small _ _ (tp_page tp) _ _ (ti_space _ (ts_active _ Hts)) Hp Hm) by lia.
    destruct (leaf_entry_facts (cr3 s) WRITABLE Ha Hr eq_refl) as (-> & _ & ->). done.
  - destruct Hp as [_ Hrec Hrange _]. rewrite <- page_p4 by lia.
    unfold p4_index. replace (number _) with (number (tp_page tp)); [exact Hrec|].
    cbn. change (4 * 1024) with 4096. Z.to_euclidean_division_equations. lia.
Qed.

Lemma tp_keeps_chain page (D D' : Z -> Prop) s1 s2 s3 :
  tp_keeps page D s1 s2 -> tp_keeps page D' s2 s3 -> (forall x, D' x -> D x \/ fa_free (pmm s1) x) ->
  tp_keeps page D s1 s3.
Proof.
  intros H1 H2 Hd. set (E x := D x \/ fa_free (pmm s1) x).
  apply (tp_keeps_weaken _ E); [done|]. apply (tp_keeps_trans _ _ _ s2).
  - eapply tp_keeps_weaken; [|exact H1]. intros x Hx. left. by left.
  - eapply tp_keeps_weaken; [|exact H2]. intros x Hx. left. by apply Hd.
Qed.

Lemma with_inactive_p4_steps {A} (f : M (machine P) A) tp s : 0 <= cr3 s < 2 ^ 48 ->
  with_inactive_p4 (mkInactivePageMap g fl) tp f s =
  bind (tp_map tp (cr3 s)) (fun p4_table =>
    bind (bind (table_set P4 510 g recursive_flags) (fun _ => tlb_flush_all)) (fun _ =>
    bind f (fun r =>
    bind (bind (table_set p4_table 510 (cr3 s) recursive_flags) (fun _ => tlb_flush_all)) (fun _ =>
    bind (tp_unmap tp) (fun _ => ret r))))) s.
Proof.
  intros Hr. unfold with_inactive_p4, read_cr3, gets, map_table_frame. cbn [p4_frame]. unfold bind at 1. cbn [fst].
  rewrite (PhysAddr_new_ok (cr3 s)) by lia. msimp.
  apply bind_cong. intros va s1. rewrite bind_assoc. do 2 (apply bind_cong; intros [] ?). apply bind_cong. intros r s4.
  by rewrite bind_assoc.
Qed.

Lemma with_inactive_p4_spec {A} (f : M (machine P) A) T c Q tp s :
  two_spaces s -> tp_ready tp s -> 0 <= cr3 s < 2 ^ 48 -> 0 <= g < 2 ^ 48 -> 0 <= c ->
  (forall s1, same_tables (mem s) (mem s1) g -> cr3 s1 = cr3 s -> cr3_flags s1 = cr3_flags s -> runs_on f T c Q s1) ->
  (exists a s', with_inactive_p4 (mkInactivePageMap g fl) tp f s = Ret (a, s') /\ other_step tp (3 + c) Q s s') \/
  (exists msg, with_inactive_p4 (mkInactivePageMap g fl) tp f s = Stop (Panic msg) /\ short_of (3 + c) s).
Proof.
  intros Hts Htp Hr Hg Hc0 Hf. pose proof (root_aligned s Hts) as Ha. pose proof (ts_active _ Hts) as Hinv.
  rewrite with_inactive_p4_steps by done.
  destruct (tp_map_spec s tp (cr3 s) Hinv Htp Ha Hr) as [(s1 & E1 & Hev & Hm & Htk)|[E Hex]].
  2:{ right. eexists. rewrite (bind_stop _ _ _ _ E). split; [done|]. by apply (short_of_mono 3); [lia|]. }
  rewrite (bind_ret _ _ _ _ _ E1).
  pose proof (tp_keeps_evolves _ (fun _ => False) _ _ Hev) as Hk1.
  destruct (two_spaces_keeps _ (fun _ => False) s s1 ltac:(done) Hts Hk1) as [Hts1 Hst1].
  pose proof (ev_cr3 _ _ _ Hev) as Ec. rewrite (bind_ret _ _ _ _ _ (move_window s1 Hts1 Hg)).
  destruct (Hf s1 Hst1 Ec (ev_cr3_flags _ _ _ Hev) _ (moved_rooted s1 Hts1 Hg) (moved_apart s1 Hts1) (moved_other s1 Hts1))
    as [Hfo Hres].
  assert (real (cr3 s1) (cr3_flags s1) (other (moved s1)) = moved s1) as Er by (by destruct s1).
  unfold follows in Hfo. destruct Hres as [(a & t & Ef & Hev2 & Htk2 & HQ)|(msg & Ef & Hsh)]; rewrite Ef, Er in Hfo.
  2:{ right. exists msg. rewrite (bind_stop _ _ _ _ Hfo). split; [done|].
      apply (short_of_takes 3 c _ s1); [done|]. exact Hsh. }
  destruct Hfo as [Hfo Hrt]. left. rewrite (bind_ret _ _ _ _ _ Hfo), <- Ec.
  assert (0 <= cr3 s1 < 2 ^ 48) as Hr1 by (by rewrite Ec).
  rewrite <- Ec in Hm. pose proof (tr_page _ _ Htp) as Hp.
  rewrite (bind_ret _ _ _ _ _ (restore_window s1 t T tp Hts1 Hr1 Hev2 Hp Hm)).
  set (s4 := push_tlb FlushAll _).
  pose proof (back_two_spaces s1 t T Hts1 Hr1 Hev2) as Hts4. fold s4 in Hts4.
  pose proof (back_keeps s1 t T Hts1 Hr1 Hev2 (tp_page tp)) as Hk4. fold s4 in Hk4.
  assert (small_mapping (mem s4) (cr3 s4) (tp_page tp) (leaf_entry (cr3 s1) WRITABLE)) as Hm4.
  { unfold small_mapping. rewrite <- Hm. apply (but_rec_walk _ _ _ (back_but_rec s1 t T Hts1 Hev2 _)), Hp. }
  destruct (unmap_spec s4 (tp_page tp) NoFree Invalidate _ (ts_active _ Hts4) Hp Hm4) as (s5 & E5 & Hum & _); [done|].
  unfold tp_unmap. rewrite (bind_ret _ _ _ _ _ E5). exists a, s5. split; [done|].
  pose proof (tp_keeps_unmapped _ (fun _ => False) _ _ _ Hum) as Hk5.
  destruct (two_spaces_keeps _ (fun _ => False) s4 s5 ltac:(done) Hts4 Hk5) as [Hts5 Hst5].
  pose proof (back_other s1 t T Hts1 Hev2 (Z.lor (cr3 s1) recursive_flags)) as Hsto.
  assert (same_tables (mem t) (mem s5) g) as Hst45 by (by apply (same_tables_trans _ (mem s4))).
  assert (forall x, is_table (other s1) x -> is_table (other s) x) as Ht1 by (intros x Hx; by apply (same_other_tables s s1 x Hst1)).
  assert (tp_keeps (tp_page tp) (is_table (other s)) s s5) as Hk.
  { apply (tp_keeps_trans _ _ _ s1); [by apply tp_keeps_evolves|]. apply (tp_keeps_trans _ _ _ s4).
    - eapply tp_keeps_weaken; [|exact Hk4]. intros x Hx. left. auto.
    - by eapply tp_keeps_unmapped. }
  assert (cr3 t = g) as Hct3 by (by rewrite (ev_cr3 _ _ _ Hev2)).
  split; [done| |done|..].
  - split; [done| |apply Hum]. apply (tk_clear _ _ _ _ Hk); [apply Hp|apply Htp].
  - apply (takes_trans 3 c _ s1); [done|]. rewrite <- (Z.add_0_r c). apply (takes_trans c 0 _ s4); [exact Htk2|].
    apply takes_none; [done|]. intros x Hx. apply (um_free _ _ _ _ _ Hum). by left.
  - intros page Hpg Hcl. assert (path_clear t page) as Hct.
    { apply (path_clear_evolves _ _ _ _ Hpg Hev2). apply (same_path_clear (other s)); try done.
      apply (same_tables_trans _ (mem s1)); [done|]. by apply moved_other. }
    apply (same_path_clear t); rewrite ?Hct3; done.
  - intros x Hx. apply (same_other_tables t s5 x Hst45) in Hx.
    assert (is_table t x) as Hx' by (unfold is_table in *; cbn [mem cr3 set_cr3] in Hx; by rewrite Hct3).
    apply (ev_new _ _ _ Hev2) in Hx' as [Hx'|Hx']; [left|right; by apply (ev_free _ _ _ Hev)].
    by apply Ht1, (same_other_tables s1 (moved s1) x (moved_other s1 Hts1)).
  - by exists (mem t).
Qed.

End two_spaces.
