(* ===== verification/Text.v ===== *)
(** The formatting of numbers that the kernel's messages use: [{}] and [{:x}] of unsigned integers
    and [{:.3}] of an [f64] that is an integer divided by a power of two. *)
From S2P Require Import Prelude.

(** * Integers *)

(** The character of a digit, and back. *)
Definition digit_char (d : Z) : Z := if d <? 10 then 48 + d else 87 + d.
Definition char_digit (c : Z) : option Z :=
  if (48 <=? c) && (c <=? 57) then Some (c - 48) else
  if (97 <=? c) && (c <=? 102) then Some (c - 87) else None.

Fixpoint digits_loop (fuel : nat) (b n : Z) (acc : list Z) : list Z :=
  match fuel with
  | O => acc
  | S fuel =>
      let acc := digit_char (n mod b) :: acc in
      if n / b =? 0 then acc else digits_loop fuel b (n / b) acc
  end.

(** A [u64] has at most 64 digits in any base. *)
Definition to_base (b n : Z) : list Z := digits_loop 64 b n [].
Definition decimal (n : Z) : list Z := to_base 10 n.
Definition hexadecimal (n : Z) : list Z := to_base 16 n.

(** Reading a number, most significant digit first. *)
Fixpoint read_from (b : Z) (l : list Z) (acc : Z) : option Z :=
  match l with
  | [] => Some acc
  | c :: l => match char_digit c with Some d => if d <? b then read_from b l (acc * b + d) else None | None => None end
  end.
Definition of_base (b : Z) (l : list Z) : option Z := match l with [] => None | _ => read_from b l 0 end.

Lemma char_digit_char d : 0 <= d < 16 -> char_digit (digit_char d) = Some d.
Proof.
  intros Hd. unfold char_digit, digit_char. destruct (d <? 10) eqn:E.
  - replace ((48 <=? 48 + d) && (48 + d <=? 57)) with true by lia. f_equal. lia.
  - replace ((48 <=? 87 + d) && (87 + d <=? 57)) with false by lia.
    replace ((97 <=? 87 + d) && (87 + d <=? 102)) with true by lia. f_equal. lia.
Qed.

Section base.
Context (b : Z) (Hb : 2 <= b <= 16).

Lemma digits_loop_spec fuel n acc : (0 < fuel)%nat -> 0 <= n < b ^ Z.of_nat fuel ->
  exists l, digits_loop fuel b n acc = l ++ acc /\ l <> [] /\ (forall r a, read_from b (l ++ r) a = read_from b r (a * b ^ Z.of_nat (length l) + n)) /\
    (0 < n -> head l <> Some 48).
Proof.
  revert n acc. induction fuel as [|fuel IH]; intros n acc Hf Hn; [lia|].
  pose proof (Z.mod_pos_bound n b ltac:(lia)) as Hm. pose proof (Z.div_mod n b ltac:(lia)) as Hd.
  assert (forall r a, read_from b (digit_char (n mod b) :: r) a = read_from b r (a * b + n mod b)) as Hone.
  { intros r a. cbn [read_from]. rewrite char_digit_char by lia. by replace (n mod b <? b) with true by lia. }
  cbn [digits_loop]. destruct (Z.eqb_spec (n / b) 0) as [E|E].
  - exists [digit_char (n mod b)]. split_and!; [done|done| |].
    + intros r a. change ([?x] ++ r) with (x :: r). rewrite Hone. cbn [length]. f_equal. rewrite E in Hd. lia.
    + intros Hp [= H]. unfold digit_char in H. rewrite E in Hd. destruct (n mod b <? 10); lia.
  - assert (0 < n / b) by (pose proof (Z.div_pos n b ltac:(lia) ltac:(lia)); lia).
    assert (n / b < b ^ Z.of_nat fuel) as Hlt.
    { rewrite Nat2Z.inj_succ, Z.pow_succ_r in Hn by lia. apply Z.div_lt_upper_bound; lia. }
    assert (0 < fuel)%nat as Hf' by (destruct fuel; [cbn in Hlt; lia|lia]).
    destruct (IH (n / b) (digit_char (n mod b) :: acc) Hf' ltac:(lia)) as (l & El & Hne & Hr & Hh).
    exists (l ++ [digit_char (n mod b)]). split_and!.
    + by rewrite El, <- app_assoc.
    + by destruct l.
    + intros r a. rewrite <- app_assoc, Hr. change ([?x] ++ r) with (x :: r). rewrite Hone.
      rewrite length_app. cbn [length]. f_equal. rewrite Nat2Z.inj_add, Z.pow_add_r by lia.
      change (Z.of_nat 1) with 1. rewrite Z.pow_1_r. nia.
    + intros _. specialize (Hh ltac:(lia)). by destruct l.
Qed.

Lemma to_base_spec n : 0 <= n < 2 ^ 64 ->
  to_base b n <> [] /\ of_base b (to_base b n) = Some n /\ (0 < n -> head (to_base b n) <> Some 48).
Proof.
  intros Hn. assert (2 ^ 64 <= b ^ 64) by (apply Z.pow_le_mono_l; lia).
  destruct (digits_loop_spec 64 n [] ltac:(lia) ltac:(change (Z.of_nat 64) with 64; lia)) as (l & E & Hne & Hr & Hh).
  unfold to_base. rewrite E, app_nil_r. split_and!; [done| |done].
  unfold of_base. specialize (Hr [] 0). rewrite app_nil_r in Hr. destruct l; [done|]. rewrite Hr. cbn [read_from]. f_equal.
Qed.

End base.

(** * Floating point *)

(** [n / d] rounded to the nearest integer, ties to even. *)
Definition round_half_even (n d : Z) : Z :=
  let q := n / d in
  match 2 * (n mod d) ?= d with
  | Lt => q
  | Gt => q + 1
  | Eq => if Z.even q then q else q + 1
  end.

Lemma round_half_even_spec n d : 0 < d -> - d <= 2 * (d * round_half_even n d - n) <= d.
Proof.
  intros Hd. pose proof (Z.div_mod n d ltac:(lia)). pose proof (Z.mod_pos_bound n d Hd). unfold round_half_even.
  destruct (Z.compare_spec (2 * (n mod d)) d); [destruct (Z.even (n / d))|..]; lia.
Qed.

Lemma round_half_even_exact n d : 0 < d -> n mod d = 0 -> round_half_even n d = n / d.
Proof. intros Hd Hm. unfold round_half_even. rewrite Hm. by destruct (Z.compare_spec (2 * 0) d); [lia| |lia]. Qed.

Lemma round_half_even_nonneg n d : 0 < d -> 0 <= n -> 0 <= round_half_even n d <= n / d + 1.
Proof.
  intros Hd Hn. pose proof (Z.div_pos n d Hn Hd). unfold round_half_even.
  destruct (Z.compare_spec (2 * (n mod d)) d); [destruct (Z.even (n / d))|..]; lia.
Qed.

(** A finite [f64] that is not negative: [significand * 2 ^ exponent]. *)
Record f64 := mkF64 { significand : Z; exponent : Z }.

(** [as f64] of a [u64]: 53 bits are kept. *)
Definition f64_from (n : Z) : f64 := let e := Z.max 0 (Z.log2 n - 52) in mkF64 (round_half_even n (2 ^ e)) e.

(** Division by [2 ^ k] is exact. *)
Definition f64_div_pow2 (x : f64) (k : Z) : f64 := mkF64 (significand x) (exponent x - k).

Definition f64_gt (x : f64) (n : Z) : bool :=
  n * 2 ^ Z.max 0 (- exponent x) <? significand x * 2 ^ Z.max 0 (exponent x).

(** [{:.3}]: the exact value, rounded to thousandths. *)
Definition thousandths (x : f64) : Z :=
  round_half_even (1000 * (significand x * 2 ^ Z.max 0 (exponent x))) (2 ^ Z.max 0 (- exponent x)).

Definition three_digits (n : Z) : list Z := [digit_char (n / 100); digit_char (n / 10 mod 10); digit_char (n mod 10)].
Definition fixed_3 (x : f64) : list Z := let t := thousandths x in decimal (t / 1000) ++ [46] ++ three_digits (t mod 1000).

(** A number of at most 53 bits is kept as it is. *)
Lemma f64_from_exact n : 0 <= n < 2 ^ 53 -> f64_from n = mkF64 n 0.
Proof.
  intros Hn. unfold f64_from. assert (Z.max 0 (Z.log2 n - 52) = 0) as ->.
  { destruct (decide (n = 0)) as [->|]; [done|]. pose proof (Z.log2_lt_pow2 n 53 ltac:(lia)). lia. }
  cbv zeta. rewrite Z.pow_0_r. rewrite round_half_even_exact by (lia || apply Z.mod_1_r). by rewrite Z.div_1_r.
Qed.

Lemma three_digits_spec n : 0 <= n < 1000 -> of_base 10 (three_digits n) = Some n.
Proof.
  intros Hn. assert (0 <= n / 100 < 10) by (Z.to_euclidean_division_equations; lia).
  pose proof (Z.mod_pos_bound (n / 10) 10 ltac:(lia)). pose proof (Z.mod_pos_bound n 10 ltac:(lia)).
  unfold of_base, three_digits. cbn [read_from]. rewrite !char_digit_char by lia.
  replace (n / 100 <? 10) with true by lia. replace (n / 10 mod 10 <? 10) with true by lia. replace (n mod 10 <? 10) with true by lia.
  f_equal. Z.to_euclidean_division_equations. lia.
Qed.

(** A fraction [n / 2 ^ k]. *)
Lemma fixed_3_spec n k : 0 <= n < 2 ^ 53 -> 0 <= k -> let x := f64_div_pow2 (f64_from n) k in
  (forall c, f64_gt x c = (c * 2 ^ k <? n)) /\
  exists w d, fixed_3 x = decimal w ++ [46] ++ three_digits d /\ 0 <= d < 1000 /\ 0 <= w <= n /\
    - 2 ^ k <= 2 * (2 ^ k * (1000 * w + d) - 1000 * n) <= 2 ^ k.
Proof.
  intros Hn Hk x. assert (x = mkF64 n (- k)) as -> by (unfold x; by rewrite f64_from_exact).
  unfold f64_gt, fixed_3, thousandths. cbn [significand exponent]. cbv zeta.
  assert (Z.max 0 (- k) = 0) as -> by lia. assert (Z.max 0 (- - k) = k) as -> by lia. rewrite Z.pow_0_r, !Z.mul_1_r.
  split; [done|]. assert (0 < 2 ^ k) as Hp by (apply Z.pow_pos_nonneg; lia).
  set (t := round_half_even (1000 * n) (2 ^ k)). pose proof (round_half_even_spec (1000 * n) _ Hp) as Hs. fold t in Hs.
  pose proof (round_half_even_nonneg (1000 * n) _ Hp ltac:(lia)) as Ht. fold t in Ht.
  pose proof (Z.div_le_upper_bound (1000 * n) (2 ^ k) (1000 * n) Hp ltac:(nia)) as Hu.
  exists (t / 1000), (t mod 1000). pose proof (Z.div_mod t 1000 ltac:(lia)) as Hd. pose proof (Z.mod_pos_bound t 1000 ltac:(lia)).
  split_and!; try lia; done.
Qed.
