(* ===== verification/Vga.v ===== *)
(** [kernel/src/vga.rs]: the text-mode screen and its writer, and
    [kernel/src/log.rs], which writes to it. *)
From S2P Require Import Prelude.

(** * [vga.rs] *)

Inductive Colour :=
| Black | Blue | Green | Cyan | Red | Magenta | Brown | LightGray
| DarkGray | LightBlue | LightGreen | LightCyan | LightRed | Pink | Yellow | White.

Definition colour_as_u8 (c : Colour) : Z :=
  match c with
  | Black => 0 | Blue => 1 | Green => 2 | Cyan => 3 | Red => 4 | Magenta => 5 | Brown => 6
  | LightGray => 7 | DarkGray => 8 | LightBlue => 9 | LightGreen => 10 | LightCyan => 11
  | LightRed => 12 | Pink => 13 | Yellow => 14 | White => 15
  end.

Record ColourPair := mkColourPair { foreground : Colour; background : Colour }.

(** [Default for ColourPair] *)
Definition ColourPair_default : ColourPair := mkColourPair White Black.

(** [RESOLUTION] *)
Definition RESOLUTION_x : Z := 80.
Definition RESOLUTION_y : Z := 25.

Record VgaChar := mkVgaChar { character : Z; char_colour : Z }.

(** [VgaColour::new] *)
Definition VgaColour_new (fg bg : Colour) : Z :=
  Z.lor (wrap 8 (Z.shiftl (colour_as_u8 bg) 4)) (colour_as_u8 fg).

(** [From<ColourPair> for VgaColour] *)
Definition VgaColour_from (c : ColourPair) : Z := VgaColour_new (foreground c) (background c).

(** The writer with the screen behind its [buffer] pointer: 25 rows of 80. *)
Record VgaWriter := mkVgaWriter {
  buffer : list (list VgaChar);
  cursor : Z * Z;
  colour : ColourPair
}.

(** [VgaWriter::new], which finds the screen as it is. *)
Definition VgaWriter_new (screen : list (list VgaChar)) : VgaWriter :=
  mkVgaWriter screen (0, RESOLUTION_y - 1) (mkColourPair White Black).

Definition set_buffer (b : list (list VgaChar)) : M VgaWriter unit :=
  modify (fun w => mkVgaWriter b (cursor w) (colour w)).
Definition set_cursor (c : Z * Z) : M VgaWriter unit :=
  modify (fun w => mkVgaWriter (buffer w) c (colour w)).

(** [VgaBuffer::set_char]: indices are checked. *)
Definition buffer_set_char (x y : Z) (value : VgaChar) : M VgaWriter unit :=
  let! b := gets buffer in
  match b !! Z.to_nat y with
  | None => panic "index out of bounds"
  | Some row =>
      if x <? Z.of_nat (length row)
      then set_buffer (<[Z.to_nat y := <[Z.to_nat x := value]> row]> b)
      else panic "index out of bounds"
  end.

(** [VgaBuffer::clear_row] *)
Definition clear_row (y : Z) (c : Colour) : M VgaWriter unit :=
  let blank := mkVgaChar 32 (VgaColour_new Black c) in
  for_each (range_excl 0 RESOLUTION_x) (fun x => buffer_set_char x y blank).

Section vga.
Context `{B : Build}.

(** [VgaBuffer::scroll_down] *)
Definition buffer_scroll_down (amount : Z) (background_colour : Colour) : M VgaWriter unit :=
  do! (if Z.min amount RESOLUTION_y <? RESOLUTION_y then
         let! b := gets buffer in
         set_buffer (drop (Z.to_nat amount) b ++ take (Z.to_nat amount) b)
       else ret tt) in
  for_each (range_excl 0 amount) (fun row =>
    let! y := lift (sub64 (RESOLUTION_y - 1) row) in
    clear_row y background_colour).

Definition scroll_down (amount : Z) : M VgaWriter unit :=
  let! c := gets colour in
  buffer_scroll_down amount (background c).

Definition clear : M VgaWriter unit :=
  let! c := gets colour in
  for_each (range_excl 0 RESOLUTION_y) (fun line => clear_row line (background c)).

Definition set_char (c : Z) (col : ColourPair) (point : Z * Z) : M VgaWriter unit :=
  let! y := lift (sub64 (RESOLUTION_y - 1) point.2) in
  buffer_set_char point.1 y (mkVgaChar (wrap 8 c) (VgaColour_from col)).

Definition new_line : M VgaWriter unit :=
  let! cur := gets cursor in
  do! set_cursor (0, cur.2) in
  if 0 <? cur.2 then set_cursor (0, cur.2 - 1) else scroll_down 1.

(** A [char] is its code point. *)
Definition write_coloured (c : Z) (col : ColourPair) : M VgaWriter unit :=
  if c =? 10 then new_line else
  let! cur := gets cursor in
  do! set_char c col cur in
  let! x := lift (add64 cur.1 1) in
  do! set_cursor (x, cur.2) in
  if RESOLUTION_x <=? x then new_line else ret tt.

Definition write_str_coloured (txt : list Z) (col : ColourPair) : M VgaWriter unit :=
  for_each txt (fun c => write_coloured c col).

Definition write_str (txt : list Z) : M VgaWriter unit :=
  let! c := gets colour in write_str_coloured txt c.

End vga.

(** * [log.rs] *)

(** The levels of the [log] crate, most severe first, and the cargo features that
    [log_level] looks at. *)
Inductive log_Level := Error_ | Warn | Info_ | Debug_ | Trace.

Definition level_no (l : log_Level) : Z :=
  match l with Error_ => 1 | Warn => 2 | Info_ => 3 | Debug_ => 4 | Trace => 5 end.

Record features := mkFeatures { feature_trace : bool; feature_debug : bool }.
Existing Class features.

Definition log_level (f : features) : log_Level :=
  if feature_trace f then Trace else if feature_debug f then Debug_ else Info_.

(** [Logger::enabled] *)
Definition enabled (f : features) (l : log_Level) : bool := level_no l <=? level_no (log_level f).

Definition chars (s : string) : list Z := (fun a => Z.of_N (Ascii.N_of_ascii a)) <$> String.list_ascii_of_string s.

Definition log_label (l : log_Level) : list Z * ColourPair :=
  match l with
  | Trace => (chars "[trace] ", mkColourPair White Black)
  | Debug_ => (chars "[debug] ", mkColourPair Cyan Black)
  | Info_ => (chars "[info]  ", mkColourPair LightBlue Black)
  | Warn => (chars "[warn]  ", mkColourPair LightRed Black)
  | Error_ => (chars "[error] ", mkColourPair Red Black)
  end.

(** The screen and what has been sent to the serial port. *)
Record console := mkConsole { vga : VgaWriter; serial : list Z }.

Definition on_vga {A} (c : M VgaWriter A) : M console A := fun s =>
  match c (vga s) with
  | Ret (a, w) => Ret (a, mkConsole w (serial s))
  | Stop w => Stop w
  end.
Definition serial_write (txt : list Z) : M console unit :=
  modify (fun s => mkConsole (vga s) (serial s ++ txt)).

(** [Logger::log] of a record with the given target and formatted arguments. *)
Definition log `{Build} (f : features) (l : log_Level) (target args : list Z) : M console unit :=
  if enabled f l then
    let '(label, col) := log_label l in
    let message := target ++ chars ": " ++ args ++ [10] in
    do! on_vga (write_str_coloured label col) in
    do! on_vga (write_str message) in
    do! serial_write label in
    serial_write message
  else ret tt.

(** The macros [error!], [warn!], [info!] write whatever the features are, [debug!] and
    [trace!] only with theirs. *)
Definition log_macro `{Build} (f : features) (l : log_Level) (text : list Z) : M console unit :=
  let on := match l with Debug_ => feature_debug f | Trace => feature_trace f | _ => true end in
  if on then
    let '(label, col) := log_label l in
    do! on_vga (write_str_coloured label col) in
    do! on_vga (write_str (text ++ [10])) in
    do! serial_write label in
    do! serial_write text in
    serial_write [10]
  else ret tt.
