(* ===== verification/MemoryInit.v ===== *)
(** [kernel/src/memory.rs] and [kernel/src/memory/stack_allocator.rs]: which memory
    is usable, and the order in which the memory managers come up. The boot
    information is that of the [multiboot2] crate, as the values its accessors
    give. *)
From S2P Require Import Prelude Crates Machine FrameAlloc Paging Layout PageMap.
From S2P Require Import BootstrapHeap Friendly PhysicalAllocator Heap ActivePageMap Text Vga.

(** ** [StackAllocator] *)

Record StackAllocator := mkStackAllocator {
  sa_base : Page;
  sa_capacity : Z;
  sa_stack_size_pages : Z;
  sa_current : Z
}.

Section stacks.
Context `{B : Build}.

Definition StackAllocator_new (base : Page) (capacity stack_size : Z) : res StackAllocator :=
  let? a := start_address base in
  match a with
  | None => Stop (Panic "Page requires size")
  | Some _ => Ret (mkStackAllocator base capacity stack_size 0)
  end.

Definition stack_alloc : M StackAllocator (option Z) := fun a =>
  if sa_capacity a <=? sa_current a then Ret (None, a) else
  let? base := start_address (sa_base a) in
  match base with
  | None => Stop (Panic "unwrap")
  | Some base =>
      let? off := mul64 (sa_current a) (shl64 (sa_stack_size_pages a) 12) in
      let? addr := add64 base off in
      let? current := add64 (sa_current a) 1 in
      Ret (Some addr, mkStackAllocator (sa_base a) (sa_capacity a) (sa_stack_size_pages a) current)
  end.

End stacks.

(** ** Usable memory *)

(** [range_sub]: [main] without [sub], as at most two ranges. *)
Definition range_sub (main sub : Z * Z) : option (Z * Z) * option (Z * Z) :=
  if sub.1 <=? main.1 then
    if sub.2 <? main.2 then (None, Some (sub.2, main.2)) else (None, None)
  else if sub.1 <? main.2 then
    if main.2 <=? sub.2 then (Some (main.1, sub.1), None)
    else (Some (main.1, sub.1), Some (sub.2, main.2))
  else (Some (main.1, main.2), None).

(** [iter::once(first).chain(iter::once(second)).filter_map(|i| i)] *)
Definition range_list (p : option (Z * Z) * option (Z * Z)) : list (Z * Z) :=
  omap id [p.1; p.2].

(** One step of [constant_unroll!]; [used] is an inclusive range. *)
Definition remove_used `{Build} (areas : list (Z * Z)) (used : Z * Z) : res (list (Z * Z)) :=
  match areas with
  | [] => Ret []
  | _ =>
      let? last := add64 used.2 1 in
      Ret (areas ≫= fun free_area => range_list (range_sub free_area (used.1, last)))
  end.

Record BootInformation := mkBootInformation {
  mb_start : Z;
  mb_end : Z;
  mb_memory_areas : option (list (Z * Z));
  mb_elf_sections : option (list ElfSection);
  mb_modules : list (Z * Z)
}.

Definition list_min (l : list Z) : option Z :=
  match l with [] => None | x :: l => Some (foldr Z.min x l) end.
Definition list_max (l : list Z) : option Z :=
  match l with [] => None | x :: l => Some (foldr Z.max x l) end.

(** [begin..=end] of what the kernel image and the modules take. *)
Definition kernel_area (mb : BootInformation) : res (Z * Z) :=
  match mb_elf_sections mb with
  | None => Stop (Panic "Expected a multiboot2 elf sections tag, but it is not present!")
  | Some sections =>
      let used_areas := ((fun s => (sec_start s, sec_end s)) <$> filter (fun s => sec_allocated s = true) sections)
                        ++ mb_modules mb in
      match list_min (fst <$> used_areas), list_max (snd <$> used_areas) with
      | Some first, Some last => Ret (first, last)
      | _, _ => Stop (Panic "unwrap")
      end
  end.

(** [ArrayVec<[_; 256]>] *)
Definition collect_256 {A} (l : list A) : res (list A) :=
  if (length l <=? 256)%nat then Ret l else Stop (Panic "ArrayVec::push> capacity overflow").

Fixpoint sub_ones `{Build} (l : list Z) : res (list Z) :=
  match l with
  | [] => Ret []
  | x :: l => let? y := sub64 x 1 in let? ys := sub_ones l in Ret (y :: ys)
  end.

(** The number of trees and the usable areas that
    [setup_physical_allocator_prelim] computes. *)
Definition usable_memory `{Build} (mb : BootInformation) (mb_info_phys bootstrap_heap_phys kernel_area : Z * Z)
  : res (Z * list (Z * Z)) :=
  match mb_memory_areas mb with
  | None => Stop (Panic "Expected a multiboot2 memory map tag, but it is not present!")
  | Some areas =>
      let? lasts := sub_ones (snd <$> areas) in
      match list_max lasts with
      | None => Stop (Panic "No usable physical memory available!")
      | Some highest_address =>
          let? n := round_up_divide highest_address (Z.shiftl 1 30) in
          let trees := wrap 8 n in
          let? kernel_end := sub64 kernel_area.2 KERNEL_MAPPING_BEGIN in
          let? usable := remove_used areas (0, kernel_end) in
          let? usable := remove_used usable mb_info_phys in
          let? usable := remove_used usable bootstrap_heap_phys in
          let? usable := collect_256 usable in
          Ret (trees, usable)
      end
  end.

(** ** [print_memory_info] *)

(** The bytes of all areas; a subtraction or the sum can overflow. *)
Fixpoint bytes_available `{Build} (areas : list (Z * Z)) (sum : Z) : res Z :=
  match areas with
  | [] => Ret sum
  | area :: areas =>
      let? bytes := sub64 area.2 area.1 in
      let? sum := add64 sum bytes in
      bytes_available areas sum
  end.

(** The lines it logs. *)
Definition print_memory_info `{Build} (areas : list (Z * Z)) : res (list (log_Level * list Z)) :=
  let? bytes := bytes_available areas 0 in
  let gibbibytes_available := f64_div_pow2 (f64_from bytes) 30 in
  let available :=
    if f64_gt gibbibytes_available 1 then fixed_3 gibbibytes_available ++ chars " GiB of RAM available"
    else fixed_3 (f64_div_pow2 (f64_from bytes) 20) ++ chars " MiB of RAM available" in
  Ret ([(Trace, chars "mem: Usable memory areas: ")] ++
       ((fun area => (Trace, chars " - 0x" ++ hexadecimal area.1 ++ chars " to 0x" ++ hexadecimal area.2)) <$> areas) ++
       [(Info_, available)]).

(** ** Interrupt stacks *)

(** The entries of the [TaskStateSegment] that [setup_ist] fills. *)
Record TssStacks := mkTssStacks { interrupt_stack_table : list Z; privilege_stack_0 : Z }.

Section init.
Context `{B : Build} `{X : X86_64Crate} `{F : BitflagsCrate}.

(** The closure [alloc] of [setup_ist], and the seven or eight calls of it. *)
Definition ist_alloc : M StackAllocator Z :=
  let! stack_start := stack_alloc in
  let! stack_start := expect stack_start "unwrap" in
  lift (add64 stack_start (IST_STACK_SIZE_PAGES * 4096)).

Fixpoint ist_stacks (n : nat) : M StackAllocator (list Z) :=
  match n with
  | O => ret []
  | S n =>
      let! a := ist_alloc in
      let! a := lift (VirtAddr_new a) in
      let! rest := ist_stacks n in
      ret (a :: rest)
  end.

Definition new_tss : M StackAllocator TssStacks :=
  let! ist := ist_stacks 7 in
  let! a := ist_alloc in
  let! a := lift (VirtAddr_new a) in
  ret (mkTssStacks ist a).

Section ist.
Context {P : Type} `{FA : FrameAllocator P}.

Definition data_flags : Z := WRITABLE ||| NO_EXECUTE ||| GLOBAL.

(** [tss::TSS] is a [Once]: a second call keeps the first value. *)
Definition setup_ist (begin : Page) (tss : option TssStacks) : M (machine P) TssStacks :=
  let! allocator := lift (StackAllocator_new begin 8 IST_STACK_SIZE_PAGES) in
  let pages := IST_STACK_SIZE_PAGES * 8 in
  do! for_each (range_excl 0 pages) (fun page =>
    if page mod IST_STACK_SIZE_PAGES =? 0 then ret tt else
    let! a := page_start begin "unwrap" in
    let! a := lift (add64 a (page * 4096)) in
    let! r := map (containing_address a) data_flags Invalidate Zero in
    expect_ok r "Out of physical memory") in
  match tss with
  | Some t => ret t
  | None => lift (let? r := new_tss allocator in Ret r.1)
  end.

Definition setup_guard_page (addr : Z) : M (machine P) unit :=
  let page := containing_address addr in
  let! w := walk_page_table page in
  let! w := expect w "Guard page must be mapped!" in
  do! assert_m (bool_decide (w.2 = Kib4)) "Guard page must be on a 4kib page!" in
  unmap page NoFree Invalidate.

(** The bootstrap heap's box size is [sz]: [size_of::<[Block; total_blocks()]>()]. *)
Definition setup_bootstrap_heap (sz virtual_start physical_start : Z) (boot : option BootstrapAllocator)
  : M (machine P) ((Z * Z) * (Z * Z) * option BootstrapAllocator) :=
  let heap_start := virtual_start in
  let! start_page := lift (page_add (containing_address heap_start) 1) in
  let start_frame := physical_start / 4096 + 1 in
  let! mapping := lift (PageRangeMapping_new start_page start_frame (space_taken sz / 4096)) in
  let! r := map_page_range mapping NoInvalidate data_flags in
  do! expect_ok r "Out of physical memory for page tables" in
  let! virtual_start := lift (mul64 (number start_page) 4096) in
  let boot := init_unchecked virtual_start boot in
  let! physical_start := lift (mul64 start_frame 4096) in
  let! physical_end := lift (add64 physical_start (space_taken sz)) in
  let! virtual_end := lift (add64 virtual_start (space_taken sz)) in
  ret ((physical_start, physical_end), (virtual_start, virtual_end), boot).

End ist.
End init.

(** ** [init_memory] *)

(** The last steps of [init_memory]: the new tables, the guard page of the boot stack, and
    the interrupt stacks behind the heap's tree. *)
Definition enter_kernel_space `{B : Build} `{X : X86_64Crate} `{F : BitflagsCrate} {P : Type} `{FA : FrameAllocator P}
    `{HT : FriendlyTree HEAP_LEVELS HEAP_BASE_ORDER} `{FC : FriendlyCrate}
    (elf_sections : option (list ElfSection)) (boot_start boot_end heap_tree_start heap_tree_end guard_page_addr : Z)
    (tss : option TssStacks) : M (heap_state P tree) TssStacks :=
  do! remap_kernel elf_sections boot_start boot_end heap_tree_start in
  do! tables (setup_guard_page guard_page_addr) in
  let! n := lift (round_up_divide heap_tree_end 4096) in
  let! a := lift (mul64 n 4096) in
  tables (setup_ist (containing_address a) tss).

Section init_memory.
Context `{B : Build} `{X : X86_64Crate} `{F : BitflagsCrate} `{BF : BitFieldCrate}.
Context `{T : FriendlyTree LEVEL_COUNT PHYS_BASE_ORDER} `{HT : FriendlyTree HEAP_LEVELS HEAP_BASE_ORDER}.
Context `{FC : FriendlyCrate}.

(** The kernel's statics that [init_memory] sets up. *)
Record kernel := mkKernel {
  k_heap : heap_state PhysicalAllocator (tree (FriendlyTree := HT));
  k_boot : option BootstrapAllocator;
  k_tss : option TssStacks
}.

Definition on_heap {A} (c : M (heap_state PhysicalAllocator (tree (FriendlyTree := HT))) A) : M kernel A :=
  fun k => match c (k_heap k) with
           | Ret (a, h) => Ret (a, mkKernel h (k_boot k) (k_tss k))
           | Stop w => Stop w
           end.
Definition on_mach {A} (c : M (machine PhysicalAllocator) A) : M kernel A := on_heap (tables c).
Definition set_boot (b : option BootstrapAllocator) : M kernel unit :=
  modify (fun k => mkKernel (k_heap k) b (k_tss k)).
Definition set_tss (t : TssStacks) : M kernel unit :=
  modify (fun k => mkKernel (k_heap k) (k_boot k) (Some t)).

Definition setup_physical_allocator_prelim (mb : BootInformation)
    (mb_info_phys bootstrap_heap_phys kernel_area : Z * Z) : M kernel (Z * list (Z * Z)) :=
  let! u := lift (usable_memory mb mb_info_phys bootstrap_heap_phys kernel_area) in
  let! boot := gets k_boot in
  let! a := gets (fun k => pmm (mach (k_heap k))) in
  let! ba := lift (init_prelim (total_blocks (FriendlyTree := T)) u.2 boot a) in
  do! set_boot ba.1 in
  do! on_mach (modify (set_pmm ba.2)) in
  ret u.

Definition setup_physical_allocator_rest (gibbibytes : Z) (usable : list (Z * Z)) : M kernel unit :=
  let! a := gets (fun k => pmm (mach (k_heap k))) in
  let! a := lift (init_rest gibbibytes usable a) in
  on_mach (modify (set_pmm a)).

(** What is logged on the way, given the lines of [print_memory_info] and the number of trees. *)
Definition memory_log (info : list (log_Level * list Z)) (trees : Z) : list (log_Level * list Z) :=
  [(Info_, chars "mem: initialising")] ++ info ++
  [(Debug_, chars "mem: initialising bootstrap heap");
   (Debug_, chars "mem: initialising pmm (1/2)");
   (Trace, chars "Allocating " ++ decimal trees ++ chars " trees");
   (Debug_, chars "mem: setting up kernel heap");
   (Debug_, chars "mem: initialising pmm (2/2)");
   (Debug_, chars "mem: remapping kernel");
   (Trace, chars "Creating new page tables");
   (Trace, chars "Mapping new page tables");
   (Trace, chars "mem: switching page tables");
   (Trace, chars "mem: enabling write protection");
   (Trace, chars "mem: setting up guard page");
   (Debug_, chars "mem: setting up ist");
   (Info_, chars "mem: initialised")].

(** The result is what was logged: nothing below writes to the console. *)
Definition init_memory (mb : BootInformation) (guard_page_addr : Z) : M kernel (list (log_Level * list Z)) :=
  let! kernel_area := lift (kernel_area mb) in
  let mb_info_phys := (mb_start mb, mb_end mb) in
  let! memory_map := expect (mb_memory_areas mb) "Expected a multiboot2 memory map tag, but it is not present!" in
  let! info := lift (print_memory_info memory_map) in
  let! physical_start := lift (add64 (mb_end mb) 1) in
  let! physical_start := lift (PhysAddr_new physical_start) in
  let! virtual_start := lift (add64 kernel_area.2 1) in
  let! virtual_start := lift (VirtAddr_new virtual_start) in
  let sz := total_blocks (FriendlyTree := T) in
  let! boot := gets k_boot in
  let! sb := on_mach (setup_bootstrap_heap sz virtual_start physical_start boot) in
  let '(bootstrap_heap_phys, bootstrap_heap_virtual, boot) := sb in
  do! set_boot boot in
  let! gu := setup_physical_allocator_prelim mb mb_info_phys bootstrap_heap_phys kernel_area in
  let! heap_tree_start := lift (add64 bootstrap_heap_virtual.2 1) in
  let! heap_tree_start := on_heap (heap_init heap_tree_start) in
  let! heap_tree_end := lift (add64 heap_tree_start tree_size) in
  do! setup_physical_allocator_rest gu.1 gu.2 in
  let! boot := gets k_boot in
  let! boot_start := lift (heap_start boot) in
  let! boot_end := lift (heap_end sz boot) in
  let! tss := gets k_tss in
  let! tss := on_heap (enter_kernel_space (mb_elf_sections mb) boot_start boot_end heap_tree_start heap_tree_end
                         guard_page_addr tss) in
  do! set_tss tss in
  ret (memory_log info gu.1).

End init_memory.
