(* ===== verification/MemoryTheorems.v ===== *)
(** The properties of [memory.rs] and [stack_allocator.rs], and concrete
    instances. *)
From S2P Require Import Prelude Crates Machine FrameAlloc Paging Layout PageMap.
From S2P Require Import AddressSpace PagingLemmas PageMapLemmas MapperLemmas UnmapLemmas.
From S2P Require Import BootstrapHeap Friendly FriendlyExample PhysicalAllocator AllocatorTheorems.
From S2P Require Import PagingTheorems Heap ActivePageMap MemoryInit.

(** * Subtracting ranges *)

(** [x] lies in one of the ranges. *)
Definition in_ranges (l : list (Z * Z)) (x : Z) : Prop := exists r, r ∈ l /\ range_has r x.

Definition range_ok (r : Z * Z) : Prop := r.1 <= r.2.

(** The hole does not end below the range. *)
Definition reaches (main sub : Z * Z) : Prop := main.1 <= sub.2.

Lemma range_list_elem p r : r ∈ range_list p <-> p.1 = Some r \/ p.2 = Some r.
Proof.
  unfold range_list. rewrite list_elem_of_omap. split.
  - intros (o & Ho & E). unfold id in E. subst o.
    apply elem_of_cons in Ho as [->|Ho]; [auto|]. apply list_elem_of_singleton in Ho as ->. auto.
  - intros [E|E]; [exists p.1|exists p.2]; rewrite E; (split; [|done]); set_solver.
Qed.

Lemma in_ranges_app l k x : in_ranges (l ++ k) x <-> in_ranges l x \/ in_ranges k x.
Proof. unfold in_ranges. setoid_rewrite elem_of_app. naive_solver. Qed.
Lemma in_ranges_cons r l x : in_ranges (r :: l) x <-> range_has r x \/ in_ranges l x.
Proof. unfold in_ranges. setoid_rewrite elem_of_cons. naive_solver. Qed.

Lemma range_sub_spec main sub :
  range_ok main -> range_ok sub -> reaches main sub ->
  (forall x, in_ranges (range_list (range_sub main sub)) x <-> range_has main x /\ ~ range_has sub x) /\
  (forall r, r ∈ range_list (range_sub main sub) -> range_ok r /\ (r.1 = main.1 \/ r.1 = sub.2)) /\
  (length (range_list (range_sub main sub)) <= 2)%nat.
Proof.
  unfold range_ok, reaches, in_ranges, range_has. intros Hm Hs Hr.
  setoid_rewrite range_list_elem. unfold range_sub.
  repeat case_match; simpl; (split_and!; [|intros r [|]; simplify_eq/=; lia|lia]);
    intros x; (split; [intros (r & [|] & Hx); simplify_eq/=; lia|intros [Hin Hnot]]);
    first [ lia
          | destruct (Z.lt_ge_cases x sub.1);
            first [ (eexists; split; [left; reflexivity|simpl; lia])
                  | (eexists; split; [right; reflexivity|simpl; lia]) ] ].
Qed.

(** [range_sub] is set difference, as long as the hole does not end below the
    range: an address is in one of the resulting ranges exactly when it is in the
    range and not in the hole, and the resulting ranges are well formed. *)
Theorem range_sub_correct main sub :
  main.1 <= main.2 -> sub.1 <= sub.2 -> main.1 <= sub.2 ->
  (forall x, in_ranges (range_list (range_sub main sub)) x <-> range_has main x /\ ~ range_has sub x) /\
  (forall r, r ∈ range_list (range_sub main sub) -> r.1 <= r.2).
Proof.
  intros Hm Hs Hr. destruct (range_sub_spec main sub Hm Hs Hr) as (H1 & H2 & _).
  split; [done|]. intros r Hin. by apply H2.
Qed.

(** when the hole lies below the range, [range_sub] does not return the range: it
    returns one that begins where the hole ends, and so contains every address
    between the hole and the range, none of which is in the range. *)
Theorem range_sub_hole_below main sub :
  sub.1 <= sub.2 -> sub.2 < main.1 -> main.1 <= main.2 ->
  range_sub main sub = (None, Some (sub.2, main.2)) /\
  forall x, sub.2 <= x < main.1 ->
    in_ranges (range_list (range_sub main sub)) x /\ ~ range_has main x.
Proof.
  intros Hs Hlt Hm. unfold range_sub.
  replace (sub.1 <=? main.1) with true by lia. replace (sub.2 <? main.2) with true by lia.
  split; [done|]. intros x Hx. unfold in_ranges, range_has. split; [|lia].
  exists (sub.2, main.2). split; [apply range_list_elem; auto|simpl; lia].
Qed.

(** * Usable memory *)

Section usable.
Context `{B : Build}.

Definition areas_ok (areas : list (Z * Z)) (bound : Z) : Prop :=
  Forall (fun r => range_ok r /\ 0 <= r.1 <= bound) areas.

Lemma remove_used_spec areas used bound :
  0 <= used.2 + 1 < two64 -> used.1 <= used.2 + 1 -> areas_ok areas bound -> bound <= used.2 + 1 ->
  exists l, remove_used areas used = Ret l /\ areas_ok l (used.2 + 1) /\
    (length l <= 2 * length areas)%nat /\
    forall x, in_ranges l x <-> in_ranges areas x /\ ~ used.1 <= x <= used.2.
Proof.
  intros Hu Hus Hok Hb. unfold remove_used.
  assert (exists l, areas ≫= (fun a => range_list (range_sub a (used.1, used.2 + 1))) = l /\
    areas_ok l (used.2 + 1) /\ (length l <= 2 * length areas)%nat /\
    forall x, in_ranges l x <-> in_ranges areas x /\ ~ used.1 <= x <= used.2) as (l & El & Hl & Hlen & Hx).
  { eexists. split; [done|]. induction Hok as [|r areas [Hr Hr1] Hok IH].
    { split_and!; [constructor|done|]. unfold in_ranges. intros x. split.
      - intros (r & Hr & _). by apply not_elem_of_nil in Hr.
      - intros [(r & Hr & _) _]. by apply not_elem_of_nil in Hr. }
    destruct IH as (IH1 & IH2 & IH3).
    destruct (range_sub_spec r (used.1, used.2 + 1) Hr) as (H1 & H2 & H3); [done|unfold reaches; simpl; lia|].
    rewrite bind_cons. split_and!.
    - apply Forall_app. split; [|done]. apply list.Forall_forall. intros r' Hr'.
      destruct (H2 r' Hr') as [Hok' Hst]. simpl in Hst. split; [done|lia].
    - rewrite length_app. cbn [length]. lia.
    - intros x. rewrite in_ranges_app, in_ranges_cons, IH3, H1.
      assert (range_has (used.1, used.2 + 1) x <-> used.1 <= x <= used.2) as ->
        by (unfold range_has; simpl; lia).
      tauto. }
  destruct areas as [|r areas].
  { exists []. split; [done|]. cbn in El. subst l. done. }
  rewrite add64_small by lia. cbn [rbind]. exists l. by rewrite El.
Qed.

Lemma sub_ones_spec l : Forall (fun x => 1 <= x < two64) l -> sub_ones l = Ret ((fun x => x - 1) <$> l).
Proof.
  induction 1 as [|x l Hx Hl IH]; [done|]. cbn [sub_ones fmap list_fmap].
  rewrite sub64_small by lia. cbn [rbind]. rewrite IH. done.
Qed.

Lemma list_max_spec l m : list_max l = Some m -> m ∈ l /\ forall x, x ∈ l -> x <= m.
Proof.
  destruct l as [|y l]; [done|]. intros [= <-].
  induction l as [|z l IH]; simpl; [set_solver by lia|]. destruct IH as [H1 H2].
  split.
  - destruct (Z.max_spec z (foldr Z.max y l)) as [[_ ->]|[_ ->]]; [|set_solver].
    apply elem_of_cons in H1 as [->|H1]; set_solver.
  - intros x Hx. assert (x = z \/ x ∈ y :: l) as [->|Hx'] by set_solver; [lia|].
    specialize (H2 x Hx'). lia.
Qed.

(** The memory map and the areas in use, as the boot code hands them over: the holes
    end in this order, and no area begins above the first. *)
Record boot_layout (areas : list (Z * Z)) (kernel_end : Z) (mb bh : Z * Z) : Prop := {
  bl_areas : Forall (fun r => 0 <= r.1 <= r.2 /\ 1 <= r.2 < 2 ^ 40) areas;
  bl_some : areas <> [];
  bl_count : (length areas <= 32)%nat;
  bl_low : Forall (fun r => r.1 <= kernel_end + 1) areas;
  bl_kernel : 0 <= kernel_end <= mb.2;
  bl_mb : mb.1 <= mb.2 /\ mb.2 <= bh.2;
  bl_bh : bh.1 <= bh.2 /\ bh.2 < 2 ^ 40
}.

Lemma usable_memory_spec mb mbp bh ka areas :
  mb_memory_areas mb = Some areas -> KERNEL_MAPPING_BEGIN <= ka.2 ->
  boot_layout areas (ka.2 - KERNEL_MAPPING_BEGIN) mbp bh ->
  exists trees usable, usable_memory mb mbp bh ka = Ret (trees, usable) /\
    0 <= trees < 256 /\ ranges_ok usable /\
    (forall x, in_ranges usable x <-> in_ranges areas x /\
       ~ 0 <= x <= ka.2 - KERNEL_MAPPING_BEGIN /\ ~ mbp.1 <= x <= mbp.2 /\ ~ bh.1 <= x <= bh.2).
Proof.
  intros Ea Hka [Hareas Hne Hcnt Hlow Hk Hmb Hbh]. set (ke := ka.2 - KERNEL_MAPPING_BEGIN) in *.
  unfold usable_memory. rewrite Ea. rewrite sub_ones_spec.
  2:{ apply Forall_fmap. rewrite list.Forall_forall in *. intros r Hr. specialize (Hareas r Hr). simpl. lia. }
  cbn [rbind]. destruct (list_max _) as [hi|] eqn:Ehi.
  2:{ destruct areas; done. }
  apply list_max_spec in Ehi as [Hhi _].
  apply list_elem_of_fmap in Hhi as (e & -> & He). apply list_elem_of_fmap in He as (r & -> & Hr).
  rewrite list.Forall_forall in Hareas. destruct (Hareas r Hr) as [_ Hr2].
  unfold round_up_divide. change (Z.shiftl 1 30) with (2 ^ 30).
  rewrite add64_small by lia. cbn [rbind]. rewrite sub64_small by lia. cbn [rbind].
  rewrite sub64_small by (unfold ke in *; unfold KERNEL_MAPPING_BEGIN in *; lia). fold ke. cbn [rbind].
  destruct (remove_used_spec areas (0, ke) (ke + 1)) as (l1 & E1 & Hok1 & Hl1 & H1); [simpl; lia..| |simpl; lia|].
  { apply list.Forall_forall. intros a Ha. rewrite list.Forall_forall in Hlow.
    specialize (Hlow a Ha). destruct (Hareas a Ha). split; [unfold range_ok; lia|simpl; lia]. }
  rewrite E1. cbn [rbind fst snd] in *.
  destruct (remove_used_spec l1 mbp (ke + 1)) as (l2 & E2 & Hok2 & Hl2 & H2); [lia|lia|done|lia|].
  rewrite E2. cbn [rbind].
  destruct (remove_used_spec l2 bh (mbp.2 + 1)) as (l3 & E3 & Hok3 & Hl3 & H3); [lia|lia|done|lia|].
  rewrite E3. cbn [rbind]. unfold collect_256.
  replace (length l3 <=? 256)%nat with true by (symmetry; apply Nat.leb_le; lia). cbn [rbind].
  eexists _, l3. split; [done|]. split_and!.
  - unfold wrap. by apply Z.mod_pos_bound.
  - unfold wrap. by apply Z.mod_pos_bound.
  - apply list.Forall_forall. intros r' Hr'.
    unfold areas_ok in Hok3. rewrite list.Forall_forall in Hok3. by destruct (Hok3 r' Hr') as [_ [Hro _]].
  - intros x. rewrite H3, H2, H1. tauto.
Qed.

End usable.

(** under the usual boot layout (at most 32 memory areas below 1 TiB, none of which
    begins above the kernel's end; kernel, boot information and bootstrap heap ending
    in this order), [setup_physical_allocator_prelim] computes exactly the memory
    that the memory map offers and that neither the kernel, nor the boot information,
    nor the bootstrap heap uses. *)
Theorem usable_memory_correct `{B : Build} mb mbp bh ka areas :
  mb_memory_areas mb = Some areas -> KERNEL_MAPPING_BEGIN <= ka.2 ->
  boot_layout areas (ka.2 - KERNEL_MAPPING_BEGIN) mbp bh ->
  exists trees usable, usable_memory mb mbp bh ka = Ret (trees, usable) /\
    0 <= trees < 256 /\
    (forall x, in_ranges usable x <-> in_ranges areas x /\
       ~ 0 <= x <= ka.2 - KERNEL_MAPPING_BEGIN /\ ~ mbp.1 <= x <= mbp.2 /\ ~ bh.1 <= x <= bh.2).
Proof.
  intros H1 H2 H3. destruct (usable_memory_spec mb mbp bh ka areas H1 H2 H3) as (n & u & E & Hn & _ & Hx).
  by exists n, u.
Qed.

(** C15: with that memory, every frame the physical allocator offers after
    [init_prelim] and [init_rest] consists of memory of the memory map, and has no
    byte of the kernel, the boot information or the bootstrap heap. *)
Theorem offered_frames_unused `{B : Build} `{X : X86_64Crate} `{BF : BitFieldCrate}
    `{T : FriendlyTree LEVEL_COUNT PHYS_BASE_ORDER} mb mbp bh ka areas sz addr trees usable h a1 a2 :
  mb_memory_areas mb = Some areas -> KERNEL_MAPPING_BEGIN <= ka.2 ->
  boot_layout areas (ka.2 - KERNEL_MAPPING_BEGIN) mbp bh ->
  usable_memory mb mbp bh ka = Ret (trees, usable) ->
  init_prelim sz usable (Some (new_unchecked addr)) (mkPhysicalAllocator None) = Ret (h, a1) ->
  init_rest trees usable a1 = Ret a2 ->
  forall f b, pa_free a2 f -> f <= b < f + 4096 ->
    in_ranges areas b /\ ~ 0 <= b <= ka.2 - KERNEL_MAPPING_BEGIN /\
    ~ mbp.1 <= b <= mbp.2 /\ ~ bh.1 <= b <= bh.2.
Proof.
  intros H1 H2 H3 Eu E1 E2 f b Hf Hb.
  destruct (usable_memory_spec mb mbp bh ka areas H1 H2 H3) as (n & u & E & Hn & Hro & Hx).
  rewrite Eu in E. injection E as -> ->. apply Hx.
  destruct (init_prelim_fresh sz u addr) as (ts & E1' & Hfr & _). rewrite E1' in E1. injection E1 as <- <-.
  destruct (init_rest_fresh n u ts Hn Hfr) as (ts' & E2' & Hfr'). rewrite E2' in E2. injection E2 as <-.
  destruct (fresh_slots_spec u (Z.max 8 (n + 1)) ts' ltac:(lia) Hro Hfr') as (_ & Hfree & _).
  apply Hfree in Hf as [(_ & r & Hr & Hf1 & Hf2) _]. exists r. split; [done|].
  unfold range_has in *. lia.
Qed.

(** * Stacks *)

Section stacks.
Context `{B : Build}.

(** The allocator after [n] stacks. *)
Definition stack_state (base capacity sz n : Z) : StackAllocator :=
  mkStackAllocator (page_no base) capacity sz n.

Lemma stack_alloc_spec base capacity sz n :
  0 <= base < 2 ^ 52 -> 0 <= sz < 2 ^ 32 -> 0 <= n < 2 ^ 16 ->
  base * 4096 + (n + 1) * (sz * 4096) < two64 ->
  stack_alloc (stack_state base capacity sz n) =
    Ret (if n <? capacity then (Some ((base + n * sz) * 4096), stack_state base capacity sz (n + 1))
         else (None, stack_state base capacity sz n)).
Proof.
  intros Hb Hs Hn Hr. unfold stack_alloc. cbn [sa_capacity sa_current stack_state].
  destruct (n <? capacity) eqn:E.
  - replace (capacity <=? n) with false by lia. unfold start_address. cbn [sa_base stack_state size number page_no bytes].
    change (4 * 1024) with 4096. rewrite mul64_small by lia. cbn [rbind].
    unfold shl64, wrap. rewrite Z.shiftl_mul_pow2 by lia. cbn [sa_stack_size_pages stack_state].
    change (2 ^ 12) with 4096. rewrite (Z.mod_small (sz * 4096)) by lia.
    rewrite mul64_small by nia. cbn [rbind]. rewrite add64_small by nia. cbn [rbind].
    rewrite add64_small by lia. cbn [rbind]. unfold stack_state. do 3 f_equal. lia.
  - by replace (capacity <=? n) with true by lia.
Qed.

(** The addresses of the next [k] stacks. *)
Fixpoint alloc_stacks (k : nat) : M StackAllocator (list (option Z)) :=
  match k with
  | O => ret []
  | S k => let! a := stack_alloc in let! rest := alloc_stacks k in ret (a :: rest)
  end.

(** a new [StackAllocator] hands out its stacks one after the other, [stack_size]
    pages apart so that no two overlap, and [None] once [capacity] are out. *)
Theorem stack_allocator_correct base capacity sz k :
  0 <= base < 2 ^ 52 -> 0 <= sz < 2 ^ 32 -> 0 <= capacity -> Z.of_nat k < 2 ^ 16 ->
  base * 4096 + Z.of_nat k * (sz * 4096) < two64 ->
  exists a a', StackAllocator_new (page_no base) capacity sz = Ret a /\
    alloc_stacks k a =
      Ret ((fun i => if i <? capacity then Some ((base + i * sz) * 4096) else None)
             <$> range_excl 0 (Z.of_nat k), a').
Proof.
  intros Hb Hs Hc Hk Hr. unfold StackAllocator_new, start_address. cbn [size number page_no bytes].
  change (4 * 1024) with 4096. rewrite mul64_small by lia. cbn [rbind].
  eexists. fold (stack_state base capacity sz 0).
  assert (forall n, 0 <= n -> n + Z.of_nat k <= Z.of_nat k + n -> n + Z.of_nat k < 2 ^ 16 ->
    base * 4096 + (n + Z.of_nat k) * (sz * 4096) < two64 ->
    exists a', alloc_stacks k (stack_state base capacity sz (Z.min n capacity)) =
      Ret ((fun i => if i <? capacity then Some ((base + i * sz) * 4096) else None)
             <$> range_excl n (n + Z.of_nat k), a')) as Hgen.
  { clear Hk Hr. induction k as [|k IH]; intros n Hn _ Hk Hr.
    { eexists. rewrite range_excl_nil by lia. done. }
    rewrite range_excl_cons by lia. cbn [alloc_stacks fmap list_fmap].
    pose proof (stack_alloc_spec base capacity sz (Z.min n capacity) Hb Hs ltac:(lia) ltac:(nia)) as E.
    destruct (IH (n + 1) ltac:(lia) ltac:(lia) ltac:(lia) ltac:(nia)) as (a' & E').
    exists a'. destruct (n <? capacity) eqn:Ec.
    - replace (Z.min n capacity) with n in * by lia. rewrite Ec in E.
      rewrite (bind_ret _ _ _ _ _ E). replace (Z.min (n + 1) capacity) with (n + 1) in E' by lia.
      rewrite (bind_ret _ _ _ _ _ E'). by replace (n + 1 + Z.of_nat k) with (n + Z.of_nat (S k)) by lia.
    - replace (Z.min n capacity) with capacity in * by lia.
      replace (capacity <? capacity) with false in E by lia.
      rewrite (bind_ret _ _ _ _ _ E). replace (Z.min (n + 1) capacity) with capacity in E' by lia.
      rewrite (bind_ret _ _ _ _ _ E'). by replace (n + 1 + Z.of_nat k) with (n + Z.of_nat (S k)) by lia. }
  destruct (Hgen 0) as (a' & E); [lia|lia|lia|lia|].
  replace (Z.min 0 capacity) with 0 in E by lia. exists a'. split; [done|exact E].
Qed.

End stacks.

(** * Interrupt stacks *)

Section ist.
Context `{B : Build} `{X : X86_64Crate} `{F : BitflagsCrate}.
Context {P : Type} `{FA : FrameAllocator P} `{FS : !FrameAllocatorSpec P}.
Implicit Types s : machine P.

Lemma data_flags_ok : flags_ok data_flags /\ e_writable data_flags = true.
Proof.
  unfold data_flags. split; [by apply flags_ok_or; [apply flags_ok_or|]|].
  unfold e_writable. by rewrite !flags_or_spec.
Qed.

Lemma ist_alloc_spec b n :
  KERNEL_PAGE <= b -> b + 32 < 2 ^ 52 -> 0 <= n < 8 ->
  ist_alloc (stack_state b 8 4 n) = Ret ((b + 4 * (n + 1)) * 4096, stack_state b 8 4 (n + 1)).
Proof.
  unfold KERNEL_PAGE. intros Hb Hb' Hn. unfold ist_alloc.
  pose proof (stack_alloc_spec b 8 4 n ltac:(lia) ltac:(lia) ltac:(lia) ltac:(lia)) as E.
  replace (n <? 8) with true in E by lia. mcall E.
  change (IST_STACK_SIZE_PAGES * 4096) with 16384. rewrite add64_small by lia. cbn [lift]. f_equal. f_equal. lia.
Qed.

Lemma ist_stacks_spec b n k :
  KERNEL_PAGE <= b -> b + 32 < 2 ^ 52 -> 0 <= n -> n + Z.of_nat k <= 8 ->
  ist_stacks k (stack_state b 8 4 n) =
    Ret ((fun i => (b + 4 * (i + 1)) * 4096) <$> range_excl n (n + Z.of_nat k),
         stack_state b 8 4 (n + Z.of_nat k)).
Proof.
  intros Hb Hb'. revert n. induction k as [|k IH]; intros n Hn Hk.
  { rewrite range_excl_nil by lia. cbn [ist_stacks]. by replace (n + Z.of_nat 0) with n by lia. }
  rewrite range_excl_cons by lia. cbn [ist_stacks fmap list_fmap].
  mcall (ist_alloc_spec b n Hb Hb' ltac:(lia)).
  unfold KERNEL_PAGE in Hb.
  destruct (kernel_page_ok (b + 4 * (n + 1)) ltac:(unfold KERNEL_PAGE; lia)) as [_ _ Hr Hc].
  cbn [number page_no] in Hr, Hc. rewrite VirtAddr_new_canonical by done. msimp.
  specialize (IH (n + 1) ltac:(lia) ltac:(lia)).
  replace (n + 1 + Z.of_nat k) with (n + Z.of_nat (S k)) in IH by lia. by mcall IH.
Qed.

(** The pages that [setup_ist] maps: all but the first of each stack. *)
Definition ist_pages (b : Z) (page : Page) : Prop :=
  exists n, b <= n < b + 32 /\ (n - b) mod 4 <> 0 /\ same_page (page_no n) page.

(** [setup_ist] gives each of the seven interrupt stacks and the system call stack
    its three mapped, cleared pages below the address in the TSS, and leaves the
    fourth page of each, the guard page below them, as it was. The only other
    outcome is the panic for want of physical memory, when fewer than four frames for
    each of the 24 pages are free. *)
Lemma setup_ist_spec s b :
  tables_inv s -> KERNEL_PAGE <= b -> b + 32 < 2 ^ 52 ->
  (forall n, b <= n < b + 32 -> path_clear s (page_no n)) ->
  (exists t s', setup_ist (page_no b) None s = Ret (t, s') /\ evolves (ist_pages b) s s' /\ takes (4 * 24) s s' /\
     interrupt_stack_table t = (fun i => (b + 4 * (i + 1)) * 4096) <$> range_excl 0 7 /\
     privilege_stack_0 t = (b + 4 * (7 + 1)) * 4096 /\
     forall i j, 0 <= i < 8 -> 1 <= j <= 3 -> exists f, backed s s' data_flags Zero (b + 4 * i + j) f) \/
  (setup_ist (page_no b) None s = Stop (Panic "Out of physical memory") /\
   short_of (4 * 24) s).
Proof.
  intros Hinv Hb Hb' Hcl. pose proof Hb as Hb0. unfold KERNEL_PAGE in Hb0. unfold setup_ist.
  assert (StackAllocator_new (page_no b) 8 IST_STACK_SIZE_PAGES = Ret (stack_state b 8 4 0)) as Esa.
  { unfold StackAllocator_new, start_address. cbn [size number page_no bytes].
    change (4 * 1024) with 4096. by rewrite mul64_small by lia. }
  rewrite Esa. msimp. change (IST_STACK_SIZE_PAGES * 8) with 32.
  set (l := (fun i => b + i) <$> filter (fun x => (x mod IST_STACK_SIZE_PAGES =? 0) = false) (range_excl 0 32)).
  assert (forall n, n ∈ l <-> b <= n < b + 32 /\ (n - b) mod 4 <> 0) as Hl.
  { intros n. unfold l. rewrite list_elem_of_fmap. setoid_rewrite list_elem_of_filter.
    setoid_rewrite elem_of_range_excl. unfold IST_STACK_SIZE_PAGES. split.
    - intros (i & -> & Hi & Hr). replace (b + i - b) with i by lia. lia.
    - intros [Hr Hm]. exists (n - b). lia. }
  assert (NoDup l) as Hnd.
  { apply NoDup_fmap_2_strong; [intros x y _ _ ?; lia|]. apply list.NoDup_filter, NoDup_seqZ. }
  rewrite (bind_ext _ (for_each l (fun n => let! r := map (page_no n) data_flags Invalidate Zero in
                        expect_ok r "Out of physical memory"))).
  2:{ intros s1. rewrite (for_each_skip (fun page => page mod IST_STACK_SIZE_PAGES =? 0)).
      unfold l. rewrite for_each_fmap. apply for_each_ext. intros i s2 [_ Hi]%list_elem_of_filter.
      apply elem_of_range_excl in Hi.
      mcall (page_start_no b "unwrap" s2 ltac:(lia)). rewrite add64_small by lia. msimp.
      replace (containing_address (b * 4096 + i * 4096)) with (page_no (b + i)); [done|].
      unfold containing_address, page_no. change (bytes Kib4) with 4096. f_equal.
      Z.to_euclidean_division_equations. lia. }
  destruct data_flags_ok as [Hfo Hfw].
  destruct (map_list_spec s l data_flags Invalidate Zero "Out of physical memory" Hinv Hfo) as
    [(s' & E & Hev & Hbk & Htk)|[E Hex]]; [by rewrite Hfw|done| |..].
  all: replace (length l) with 24%nat in * by (unfold l; rewrite length_fmap; vm_compute; reflexivity).
  { intros n [Hn _]%Hl. split; [apply kernel_page_ok; lia|by apply Hcl]. }
  2:{ right. by rewrite (bind_stop _ _ _ _ E). }
  left. rewrite (bind_ret _ _ _ _ _ E).
  assert (new_tss (stack_state b 8 4 0) =
    Ret (mkTssStacks ((fun i => (b + 4 * (i + 1)) * 4096) <$> range_excl 0 7) ((b + 4 * (7 + 1)) * 4096),
         stack_state b 8 4 8)) as ->.
  { unfold new_tss. mcall (ist_stacks_spec b 0 7 Hb Hb' ltac:(lia) ltac:(lia)).
    change (0 + Z.of_nat 7) with 7. mcall (ist_alloc_spec b 7 Hb Hb' ltac:(lia)).
    destruct (kernel_page_ok (b + 4 * (7 + 1)) ltac:(unfold KERNEL_PAGE; lia)) as [_ _ Hr Hc].
    cbn [number page_no] in Hr, Hc. by rewrite VirtAddr_new_canonical by done. }
  eexists _, s'. split; [done|]. split_and!; [|done|done|done|].
  - eapply evolves_weaken; [|exact Hev]. intros page (n & [Hn Hm]%Hl & Hs). by exists n.
  - intros i j Hi Hj. apply Hbk, Hl. split; [lia|]. replace (b + 4 * i + j - b) with (i * 4 + j) by lia.
    Z.to_euclidean_division_equations. lia.
Qed.

End ist.

(** * Concrete instances *)

Section examples.
#[local] Existing Instance x86_64_example.
#[local] Existing Instance bit_field_example.
#[local] Existing Instance bitflags_example.
#[local] Existing Instance frames_example.
#[local] Existing Instance debug_build.

Lemma range_sub_correct_witness :
  in_ranges (range_list (range_sub (0, 100) (20, 30))) 10 /\
  ~ in_ranges (range_list (range_sub (0, 100) (20, 30))) 25.
Proof.
  destruct (range_sub_correct (0, 100) (20, 30) ltac:(simpl; lia) ltac:(simpl; lia) ltac:(simpl; lia))
    as [H _].
  split; [apply H|rewrite H]; unfold range_has; simpl; lia.
Defined.

(** The kernel's memory as the hole, memory above 4 GiB as the range. *)
Lemma range_sub_hole_below_witness :
  range_sub (0x100000000, 0x140000000) (0, 0x400000) = (None, Some (0x400000, 0x140000000)).
Proof.
  exact (proj1 (range_sub_hole_below (0x100000000, 0x140000000) (0, 0x400000)
    ltac:(simpl; lia) ltac:(simpl; lia) ltac:(simpl; lia))).
Defined.

(** 128 MiB of memory in two areas, the kernel in the first four of them. *)
Definition example_boot : BootInformation :=
  mkBootInformation 0x410000 0x411fff (Some [(0, 0x9fc00); (0x100000, 0x7fe0000)]) None [].

Lemma example_layout :
  boot_layout [(0, 0x9fc00); (0x100000, 0x7fe0000)] (0xffffffff803fffff - KERNEL_MAPPING_BEGIN)
    (0x410000, 0x411fff) (0x412000, 0x812000).
Proof.
  unfold KERNEL_MAPPING_BEGIN. split; simpl; try lia; [|done|]; repeat constructor; simpl; lia.
Qed.

Lemma usable_memory_correct_witness :
  exists trees usable, usable_memory example_boot (0x410000, 0x411fff) (0x412000, 0x812000)
    (0xffffffff80100000, 0xffffffff803fffff) = Ret (trees, usable).
Proof.
  destruct (usable_memory_correct example_boot (0x410000, 0x411fff) (0x412000, 0x812000)
    (0xffffffff80100000, 0xffffffff803fffff) _ eq_refl ltac:(unfold KERNEL_MAPPING_BEGIN; simpl; lia) example_layout)
    as (n & u & E & _).
  exists n, u. exact E.
Defined.

Lemma offered_frames_unused_witness :
  exists trees usable h a1 a2,
    usable_memory example_boot (0x410000, 0x411fff) (0x412000, 0x812000)
      (0xffffffff80100000, 0xffffffff803fffff) = Ret (trees, usable) /\
    init_prelim 64 usable (Some (new_unchecked 4096)) (mkPhysicalAllocator None) = Ret (h, a1) /\
    init_rest trees usable a1 = Ret a2 /\
    forall f, pa_free a2 f -> in_ranges [(0, 0x9fc00); (0x100000, 0x7fe0000)] f.
Proof.
  destruct (usable_memory_spec example_boot (0x410000, 0x411fff) (0x412000, 0x812000)
    (0xffffffff80100000, 0xffffffff803fffff) _ eq_refl ltac:(unfold KERNEL_MAPPING_BEGIN; simpl; lia) example_layout)
    as (n & u & E & Hn & _).
  destruct (init_prelim_fresh 64 u 4096) as (ts & E1 & Hfr & _).
  destruct (init_rest_fresh n u ts Hn Hfr) as (ts' & E2 & _).
  eexists n, u, _, _, _. split; [exact E|]. split; [exact E1|]. split; [exact E2|].
  intros f Hf.
  destruct (offered_frames_unused example_boot (0x410000, 0x411fff) (0x412000, 0x812000)
    (0xffffffff80100000, 0xffffffff803fffff) _ 64 4096 n u _ _ _ eq_refl
    ltac:(unfold KERNEL_MAPPING_BEGIN; simpl; lia) example_layout E E1 E2 f f Hf ltac:(lia)) as [H _].
  exact H.
Defined.

Lemma stack_allocator_correct_witness :
  exists a a', StackAllocator_new (page_no 16) 2 4 = Ret a /\
    alloc_stacks 3 a = Ret ([Some 0x10000; Some 0x14000; None], a').
Proof.
  exact (stack_allocator_correct 16 2 4 3 ltac:(lia) ltac:(lia) ltac:(lia) ltac:(lia) ltac:(lia)).
Defined.

End examples.
