(* ===== verification/MemoryInfoTheorems.v ===== *)
(** What [print_memory_info] ([memory.rs]) reports. *)
From S2P Require Import Prelude Text Vga MemoryInit.

Section info.
Context `{B : Build}.

Definition memory_total (areas : list (Z * Z)) : Z := foldr (fun area sum => area.2 - area.1 + sum) 0 areas.

Definition areas_ok (areas : list (Z * Z)) : Prop := Forall (fun area => 0 <= area.1 <= area.2 /\ area.2 < 2 ^ 64) areas.

Lemma memory_total_nonneg areas : areas_ok areas -> 0 <= memory_total areas.
Proof. induction 1 as [|a l Ha _ IH]; cbn [memory_total foldr]; [done|]. fold (memory_total l). lia. Qed.

Lemma bytes_available_spec areas sum : areas_ok areas -> 0 <= sum -> sum + memory_total areas < 2 ^ 64 ->
  bytes_available areas sum = Ret (sum + memory_total areas).
Proof.
  intros Ha. revert sum. induction Ha as [|a l Ha Hl IH]; intros sum Hs Hlt; cbn [bytes_available memory_total foldr] in *.
  - f_equal. lia.
  - fold (memory_total l) in *. pose proof (memory_total_nonneg l Hl).
    rewrite sub64_small by lia. cbn [rbind]. rewrite add64_small by lia. cbn [rbind]. rewrite IH by lia. f_equal. lia.
Qed.

Lemma bytes_available_overflow areas sum : overflow_checks = true -> areas_ok areas -> 0 <= sum < 2 ^ 64 ->
  2 ^ 64 <= sum + memory_total areas -> bytes_available areas sum = Stop Overflow.
Proof.
  intros Hc Ha. revert sum. induction Ha as [|a l Ha Hl IH]; intros sum Hs Hlt; cbn [bytes_available memory_total foldr] in *; [lia|].
  fold (memory_total l) in *. rewrite sub64_small by lia. cbn [rbind].
  destruct (decide (sum + (a.2 - a.1) < 2 ^ 64)) as [Hlt'|Hge].
  - rewrite add64_small by lia. cbn [rbind]. apply IH; lia.
  - assert (add64 sum (a.2 - a.1) = Stop Overflow) as ->; [|done].
    unfold add64, checked. rewrite Hc. case_match; [lia|done].
Qed.

(** C35: the report of [print_memory_info]. For areas that do not end before they start and up to 8 PiB
    of memory it does not panic and logs a heading, one line for each area whose two hexadecimal
    numbers read back as the ends of the area, and the amount: in GiB if there is more than one,
    else in MiB, as a decimal number with three places that is as close to the sum of the areas
    as such a number can be. If the areas make up 2^64 bytes or more, a build with overflow checks panics. *)
Theorem print_memory_info_correct areas : areas_ok areas ->
  (memory_total areas < 2 ^ 53 -> exists lines whole places k unit,
     print_memory_info areas =
       Ret ([(Trace, chars "mem: Usable memory areas: ")] ++ lines ++
            [(Info_, whole ++ chars "." ++ places ++ chars " " ++ chars unit ++ chars " of RAM available")]) /\
     (forall i line, lines !! i = Some line -> exists area first last, areas !! i = Some area /\
        line = (Trace, chars " - 0x" ++ first ++ chars " to 0x" ++ last) /\
        of_base 16 first = Some area.1 /\ of_base 16 last = Some area.2) /\
     length lines = length areas /\
     (k, unit) = (if 2 ^ 30 <? memory_total areas then (30, "GiB"%string) else (20, "MiB"%string)) /\
     length places = 3%nat /\
     exists w d, of_base 10 whole = Some w /\ of_base 10 places = Some d /\
       - 2 ^ k <= 2 * (2 ^ k * (1000 * w + d) - 1000 * memory_total areas) <= 2 ^ k) /\
  (overflow_checks = true -> 2 ^ 64 <= memory_total areas -> print_memory_info areas = Stop Overflow).
Proof.
  intros Ha. pose proof (memory_total_nonneg areas Ha) as Hn. unfold print_memory_info. split.
  2:{ intros Hc Ht. by rewrite bytes_available_overflow by (done || lia). }
  intros Ht. rewrite bytes_available_spec by (done || lia). cbn [rbind]. rewrite Z.add_0_l.
  destruct (fixed_3_spec (memory_total areas) 30 ltac:(lia) ltac:(lia)) as [Hg (w1 & d1 & E1 & Hd1 & Hw1 & Hb1)].
  destruct (fixed_3_spec (memory_total areas) 20 ltac:(lia) ltac:(lia)) as [_ (w2 & d2 & E2 & Hd2 & Hw2 & Hb2)].
  rewrite Hg, Z.mul_1_l.
  set (k := if 2 ^ 30 <? memory_total areas then 30 else 20).
  set (w := if 2 ^ 30 <? memory_total areas then w1 else w2). set (d := if 2 ^ 30 <? memory_total areas then d1 else d2).
  set (unit := if 2 ^ 30 <? memory_total areas then "GiB"%string else "MiB"%string).
  exists ((fun area => (Trace, chars " - 0x" ++ hexadecimal area.1 ++ chars " to 0x" ++ hexadecimal area.2)) <$> areas),
    (decimal w), (three_digits d), k, unit. split_and!.
  - rewrite E1, E2. unfold w, d, unit. destruct (2 ^ 30 <? memory_total areas); by rewrite <- !app_assoc.
  - intros i line (area & -> & Hi)%list_lookup_fmap_Some.
    pose proof (Forall_lookup_1 _ _ _ _ Ha Hi) as Har. cbn beta in Har.
    exists area, (hexadecimal area.1), (hexadecimal area.2). split_and!; [done|done|..]; apply to_base_spec; lia.
  - apply length_fmap.
  - unfold k, unit. by destruct (2 ^ 30 <? memory_total areas).
  - done.
  - exists w, d. unfold w, d, k. destruct (2 ^ 30 <? memory_total areas).
    + split_and!; [apply to_base_spec; lia|by apply three_digits_spec|lia|lia].
    + split_and!; [apply to_base_spec; lia|by apply three_digits_spec|lia|lia].
Qed.

Lemma print_memory_info_ok areas : areas_ok areas -> memory_total areas < 2 ^ 64 -> exists lines, print_memory_info areas = Ret lines.
Proof.
  intros Ha Ht. unfold print_memory_info. pose proof (memory_total_nonneg areas Ha).
  rewrite bytes_available_spec by (done || lia). by eexists.
Qed.

End info.

Definition info_build : Build := {| overflow_checks := true |}.

Lemma print_memory_info_correct_witness :
  print_memory_info (H := info_build) [(0x100000, 0x60100000)] =
    Ret [(Trace, chars "mem: Usable memory areas: "); (Trace, chars " - 0x100000 to 0x60100000"); (Info_, chars "1.500 GiB of RAM available")] /\
  exists lines whole places k unit,
    print_memory_info (H := info_build) [(0x100000, 0x60100000)] =
      Ret ([(Trace, chars "mem: Usable memory areas: ")] ++ lines ++
           [(Info_, whole ++ chars "." ++ places ++ chars " " ++ chars unit ++ chars " of RAM available")]) /\ k = 30.
Proof.
  split; [by vm_compute|].
  destruct (print_memory_info_correct (B := info_build) [(0x100000, 0x60100000)]) as [H _].
  - repeat constructor; simpl; lia.
  - destruct H as (lines & whole & places & k & unit & E & _ & _ & Hk & _); [by vm_compute|].
    exists lines, whole, places, k, unit. split; [exact E|]. by injection Hk.
Defined.
