(* ===== verification/Ports.v ===== *)
(** The hardware behind the I/O ports the kernel uses: the two chained 8259
    interrupt controllers and channel 0 of the 8254 timer, as their data sheets
    describe them, and the port accesses ([Port::read], [Port::write]) that reach
    them. A port value is a byte. *)
From S2P Require Import Prelude.

(** What the next write to an 8259's data port is: an interrupt mask, or one of the
    initialisation words that follow [ICW1]. *)
Inductive icw_stage := Ready | ExpectIcw2 | ExpectIcw3 | ExpectIcw4.

#[export] Instance icw_stage_eq_dec : EqDecision icw_stage.
Proof. solve_decision. Defined.

Record pic8259 := mkPic8259 {
  vector_base : Z;      (** vector of its line 0 *)
  cascade : Z;          (** [ICW3] *)
  mode_8086 : bool;
  imr : Z;              (** interrupt mask register *)
  irr : Z;              (** interrupt request register *)
  isr : Z;              (** in-service register *)
  read_isr : bool;      (** what a read of the command port gives *)
  stage : icw_stage
}.

Record pit8254 := mkPit8254 {
  pit_access : Z;
  pit_mode : Z;
  pit_reload : Z;
  pit_low : option Z    (** low byte already written, in access mode 3 *)
}.

Record hw := mkHw { master8259 : pic8259; slave8259 : pic8259; pit : pit8254 }.

(** ** 8259 *)

(** Non-specific end of interrupt: the in-service line of highest priority, that is
    the lowest set bit, is cleared. *)
Definition lowest_cleared (x : Z) : Z := Z.land x (x - 1).

Definition pic_command (v : Z) (p : pic8259) : pic8259 :=
  if Z.testbit v 4 then
    mkPic8259 (vector_base p) (cascade p) false 0 (irr p) (isr p) false ExpectIcw2
  else if Z.testbit v 3 then
    mkPic8259 (vector_base p) (cascade p) (mode_8086 p) (imr p) (irr p) (isr p)
      (if Z.testbit v 1 then Z.testbit v 0 else read_isr p) (stage p)
  else if v =? 0x20 then
    mkPic8259 (vector_base p) (cascade p) (mode_8086 p) (imr p) (irr p)
      (lowest_cleared (isr p)) (read_isr p) (stage p)
  else p.

Definition pic_data (v : Z) (p : pic8259) : pic8259 :=
  match stage p with
  | ExpectIcw2 => mkPic8259 (Z.land v 0xF8) (cascade p) (mode_8086 p) (imr p) (irr p) (isr p)
                    (read_isr p) ExpectIcw3
  | ExpectIcw3 => mkPic8259 (vector_base p) v (mode_8086 p) (imr p) (irr p) (isr p)
                    (read_isr p) ExpectIcw4
  | ExpectIcw4 => mkPic8259 (vector_base p) (cascade p) (Z.testbit v 0) (imr p) (irr p) (isr p)
                    (read_isr p) Ready
  | Ready => mkPic8259 (vector_base p) (cascade p) (mode_8086 p) v (irr p) (isr p) (read_isr p) Ready
  end.

(** Fully nested mode: a line is accepted when it is not masked and no line of the
    same or a higher priority is in service. *)
Definition pic_accepts (p : pic8259) (i : Z) : bool :=
  negb (Z.testbit (imr p) i) && (Z.land (isr p) (Z.ones (i + 1)) =? 0).

Definition pic_serve (i : Z) (p : pic8259) : pic8259 :=
  mkPic8259 (vector_base p) (cascade p) (mode_8086 p) (imr p) (Z.clearbit (irr p) i)
    (Z.setbit (isr p) i) (read_isr p) (stage p).

(** ** 8254 *)

Definition pit_command (v : Z) (t : pit8254) : pit8254 :=
  if Z.shiftr v 6 =? 0 then
    mkPit8254 (Z.land (Z.shiftr v 4) 3) (Z.land (Z.shiftr v 1) 7) (pit_reload t) None
  else t.

Definition pit_data (v : Z) (t : pit8254) : pit8254 :=
  if pit_access t =? 1 then mkPit8254 (pit_access t) (pit_mode t) v None
  else if pit_access t =? 2 then mkPit8254 (pit_access t) (pit_mode t) (v * 256) None
  else match pit_low t with
       | None => mkPit8254 (pit_access t) (pit_mode t) (pit_reload t) (Some v)
       | Some low => mkPit8254 (pit_access t) (pit_mode t) (v * 256 + low) None
       end.

(** ** Port accesses *)

Definition with_master (f : pic8259 -> pic8259) (h : hw) : hw :=
  mkHw (f (master8259 h)) (slave8259 h) (pit h).
Definition with_slave (f : pic8259 -> pic8259) (h : hw) : hw :=
  mkHw (master8259 h) (f (slave8259 h)) (pit h).
Definition with_pit (f : pit8254 -> pit8254) (h : hw) : hw :=
  mkHw (master8259 h) (slave8259 h) (f (pit h)).

(** Port [0x80], written to pass time, and every other port have no effect here. *)
Definition port_write (port v : Z) : M hw unit := modify (fun h =>
  if port =? 0x20 then with_master (pic_command v) h else
  if port =? 0x21 then with_master (pic_data v) h else
  if port =? 0xA0 then with_slave (pic_command v) h else
  if port =? 0xA1 then with_slave (pic_data v) h else
  if port =? 0x43 then with_pit (pit_command v) h else
  if port =? 0x40 then with_pit (pit_data v) h else h).

Definition pic_read (p : pic8259) : Z := if read_isr p then isr p else irr p.

Definition port_read (port : Z) : M hw Z := gets (fun h =>
  if port =? 0x20 then pic_read (master8259 h) else
  if port =? 0x21 then imr (master8259 h) else
  if port =? 0xA0 then pic_read (slave8259 h) else
  if port =? 0xA1 then imr (slave8259 h) else 0xFF).

(** The processor acknowledges the request of a line: the controller marks it in
    service and gives its vector. The slave's requests pass through the master's
    line 2. *)
Definition cpu_accept (irq : Z) (h : hw) : option (Z * hw) :=
  if irq <? 8 then
    if pic_accepts (master8259 h) irq then
      Some (vector_base (master8259 h) + irq, with_master (pic_serve irq) h)
    else None
  else
    if pic_accepts (slave8259 h) (irq - 8) && pic_accepts (master8259 h) 2 then
      Some (vector_base (slave8259 h) + (irq - 8),
            with_slave (pic_serve (irq - 8)) (with_master (pic_serve 2) h))
    else None.
