(* ===== verification/Interrupts.v ===== *)
(** [kernel/src/interrupts.rs], [interrupts/pic.rs], [interrupts/exceptions.rs] and
    [pit.rs]: the interrupt descriptor table, the controllers' driver, the IRQ
    listeners and the timer. *)
From S2P Require Import Prelude Ports.

(** * [pic.rs] *)

Definition COMMAND_INIT : Z := 0x11.
Definition COMMAND_END_OF_INTERRUPT : Z := 0x20.
Definition COMMAND_READ_IRR : Z := 0x0A.
Definition COMMAND_READ_ISR : Z := 0x0B.
Definition IO_WAIT_PORT : Z := 0x80.

Record Pic := mkPic { offset : Z; command_port : Z; data_port : Z }.

Record ChainedPics := mkChainedPics { master : Pic; slave : Pic }.

Inductive IrqDestination := Master (local_irq : Z) | Slave (local_irq : Z).

Definition write_command (p : Pic) (command : Z) : M hw unit :=
  do! port_write (command_port p) command in
  port_write IO_WAIT_PORT 0.

Definition write_data (p : Pic) (value : Z) : M hw unit :=
  do! port_write (data_port p) value in
  port_write IO_WAIT_PORT 0.

Definition read_data (p : Pic) : M hw Z :=
  let! value := port_read (data_port p) in
  do! port_write IO_WAIT_PORT 0 in
  ret value.

(** [Pic::initialize] *)
Definition pic_initialize (p : Pic) : M hw unit :=
  do! write_command p COMMAND_INIT in
  write_data p (offset p).

Definition end_of_interrupt (p : Pic) : M hw unit := write_command p COMMAND_END_OF_INTERRUPT.

(** [Pic::irr], [Pic::isr] *)
Definition pic_irr (p : Pic) : M hw Z :=
  do! write_command p COMMAND_READ_IRR in port_read (command_port p).
Definition pic_isr (p : Pic) : M hw Z :=
  do! write_command p COMMAND_READ_ISR in port_read (command_port p).

Section pic.
Context `{B : Build}.

(** [Pic::enable_line], [Pic::disable_line] *)
Definition pic_enable_line (p : Pic) (irq : Z) : M hw unit :=
  let! mask := read_data p in
  let! bit := lift (shl8 1 irq) in
  write_data p (Z.land mask (Z.lxor 0xFF bit)).

Definition pic_disable_line (p : Pic) (irq : Z) : M hw unit :=
  let! mask := read_data p in
  let! bit := lift (shl8 1 irq) in
  write_data p (Z.lor mask bit).

Definition is_spurious (p : Pic) (irq : Z) : M hw bool :=
  let! r := pic_isr p in
  let! bit := lift (shl8 1 irq) in
  ret (Z.land r bit =? 0).

(** [ChainedPics::new], the value of [CHAINED_PICS] *)
Definition CHAINED_PICS : ChainedPics :=
  mkChainedPics (mkPic 0x20 0x20 0x21) (mkPic 0x28 0xA0 0xA1).

Definition destination {St} (irq : Z) : M St IrqDestination :=
  if irq <? 8 then ret (Master (Z.land irq 7))
  else if irq <? 16 then ret (Slave (Z.land irq 7))
  else panic "irq out of bounds, expected range 0-15".

Definition init_and_remap (c : ChainedPics) : M hw unit :=
  let! master_mask := read_data (master c) in
  let! slave_mask := read_data (slave c) in
  do! port_write IO_WAIT_PORT 0 in
  do! pic_initialize (master c) in
  do! pic_initialize (slave c) in
  do! write_data (master c) 4 in
  do! write_data (slave c) 2 in
  do! write_data (master c) 1 in
  do! write_data (slave c) 1 in
  do! write_data (master c) master_mask in
  write_data (slave c) slave_mask.

(** [ChainedPics::disable] *)
Definition pics_disable (c : ChainedPics) : M hw unit :=
  do! write_data (master c) 0xFF in
  write_data (slave c) 0xFF.

Definition enable_line (c : ChainedPics) (irq : Z) : M hw unit :=
  let! d := destination irq in
  match d with
  | Master local_irq => pic_enable_line (master c) local_irq
  | Slave local_irq => pic_enable_line (slave c) local_irq
  end.

Definition disable_line (c : ChainedPics) (irq : Z) : M hw unit :=
  let! d := destination irq in
  match d with
  | Master local_irq => pic_disable_line (master c) local_irq
  | Slave local_irq => pic_disable_line (slave c) local_irq
  end.

End pic.

(** * [exceptions.rs] *)

Inductive exception :=
| divide_by_zero | debug | nmi | breakpoint | overflow | out_of_bounds | invalid_opcode
| device_not_available | double_fault | invalid_tss | segment_not_present
| stack_segment_fault | general_protection_fault | page_fault | x87_floating_point
| alignment_check | machine_check | simd_floating_point | virtualization | security_exception.

#[export] Instance exception_eq_dec : EqDecision exception.
Proof. solve_decision. Defined.

(** Every handler panics; the message is given without the stack frame and the
    error code that follow it. *)
Definition cpuex (e : exception) : stop :=
  Panic match e with
  | divide_by_zero => "cpuex: divide by zero"
  | debug => "cpuex: debug"
  | nmi => "cpuex: nmi"
  | breakpoint => "cpuex: breakpoint"
  | overflow => "cpuex: overflow"
  | out_of_bounds => "cpuex: out of bounds"
  | invalid_opcode => "cpuex: invalid opcode"
  | device_not_available => "cpuex: device not available"
  | double_fault => "cpuex: double fault"
  | invalid_tss => "cpuex: invalid tss"
  | segment_not_present => "cpuex: segment not present"
  | stack_segment_fault => "cpuex: stack segment fault"
  | general_protection_fault => "cpuex: general protection fault"
  | page_fault => "cpuex: page fault"
  | x87_floating_point => "cpuex: x87 floating point"
  | alignment_check => "cpuex: alignment check"
  | machine_check => "cpuex: machine check"
  | simd_floating_point => "cpuex: simd floating point"
  | virtualization => "cpuex: virtualization"
  | security_exception => "cpuex: security exception"
  end.

(** * [interrupts.rs] *)

(** The stack indices of [gdt.rs]. *)
Definition DOUBLE_FAULT_IST_INDEX : Z := 0.
Definition PANICKING_EXCEPTION_IST_INDEX : Z := 1.
Definition IRQ_IST_INDEX : Z := 2.
Definition NMI_IST_INDEX : Z := 3.

Inductive idt_handler := OnException (e : exception) | HandleIrq (irq : Z).

Record idt_entry := mkIdtEntry { handler_fn : idt_handler; stack_index : option Z }.

Definition set_handler (vector : Z) (e : exception) (ist : Z) (idt : gmap Z idt_entry)
  : gmap Z idt_entry := <[vector := mkIdtEntry (OnException e) (Some ist)]> idt.

(** The vectors are those of the processor's exceptions, which the fields of
    [InterruptDescriptorTable] are named after. *)
Definition init_exception_handlers (idt : gmap Z idt_entry) : gmap Z idt_entry :=
  foldl (fun idt '(v, e, ist) => set_handler v e ist idt) idt
    [ (0, divide_by_zero, PANICKING_EXCEPTION_IST_INDEX);
      (1, debug, PANICKING_EXCEPTION_IST_INDEX);
      (2, nmi, NMI_IST_INDEX);
      (3, breakpoint, PANICKING_EXCEPTION_IST_INDEX);
      (4, overflow, PANICKING_EXCEPTION_IST_INDEX);
      (5, out_of_bounds, PANICKING_EXCEPTION_IST_INDEX);
      (6, invalid_opcode, PANICKING_EXCEPTION_IST_INDEX);
      (7, device_not_available, PANICKING_EXCEPTION_IST_INDEX);
      (8, double_fault, DOUBLE_FAULT_IST_INDEX);
      (10, invalid_tss, PANICKING_EXCEPTION_IST_INDEX);
      (11, segment_not_present, PANICKING_EXCEPTION_IST_INDEX);
      (12, stack_segment_fault, PANICKING_EXCEPTION_IST_INDEX);
      (13, general_protection_fault, PANICKING_EXCEPTION_IST_INDEX);
      (14, page_fault, PANICKING_EXCEPTION_IST_INDEX);
      (16, x87_floating_point, PANICKING_EXCEPTION_IST_INDEX);
      (17, alignment_check, PANICKING_EXCEPTION_IST_INDEX);
      (18, machine_check, PANICKING_EXCEPTION_IST_INDEX);
      (19, simd_floating_point, PANICKING_EXCEPTION_IST_INDEX);
      (20, virtualization, PANICKING_EXCEPTION_IST_INDEX);
      (30, security_exception, PANICKING_EXCEPTION_IST_INDEX) ].

(** [init_irq_handlers!]: no stack index. *)
Definition init_irq_handlers (irqs : list Z) (idt : gmap Z idt_entry) : gmap Z idt_entry :=
  foldl (fun idt irq => <[irq + 32 := mkIdtEntry (HandleIrq irq) None]> idt) idt irqs.

Definition init_interrupt_handlers (idt : gmap Z idt_entry) : gmap Z idt_entry :=
  init_irq_handlers [0; 1; 2; 3; 4; 5; 6; 7; 8; 9; 10; 11; 12; 13; 14; 15]
    (init_exception_handlers idt).

Definition IDT : gmap Z idt_entry := init_interrupt_handlers ∅.

Inductive Irq := IrqPit | Ps2Keyboard | Ps2Mouse.

(** [Into<u8> for Irq] *)
Definition irq_into (i : Irq) : Z :=
  match i with
  | IrqPit => 0
  | Ps2Keyboard => 1
  | Ps2Mouse => 12
  end.

(** The state interrupt handling works on. A listener is a function pointer, [L]:
    what calling it does is the parameter [call]. [LISTENERS] has 16 lists;
    [idt_loaded] says that [lidt] was executed. *)
Record intr (L : Type) := mkIntr {
  i_hw : hw;
  LISTENERS : list (list L);
  COUNTER : Z;
  idt_loaded : bool;
  int_flag : bool
}.
Arguments mkIntr {L}.
Arguments i_hw {L}.
Arguments LISTENERS {L}.
Arguments COUNTER {L}.
Arguments idt_loaded {L}.
Arguments int_flag {L}.

Section interrupts.
Context `{B : Build} {L : Type}.

Definition on_hw {A} (c : M hw A) : M (intr L) A := fun s =>
  match c (i_hw s) with
  | Ret (a, h) => Ret (a, mkIntr h (LISTENERS s) (COUNTER s) (idt_loaded s) (int_flag s))
  | Stop w => Stop w
  end.

Definition set_counter (c : Z) : M (intr L) unit :=
  modify (fun s => mkIntr (i_hw s) (LISTENERS s) c (idt_loaded s) (int_flag s)).

Definition listen (irq : Z) (listener : L) : M (intr L) unit := fun s =>
  match LISTENERS s !! Z.to_nat irq with
  | Some ls => Ret (tt, mkIntr (i_hw s) (<[Z.to_nat irq := ls ++ [listener]]> (LISTENERS s))
                          (COUNTER s) (idt_loaded s) (int_flag s))
  | None => Stop (Panic "index out of bounds")
  end.

(** [interrupts::init], [enable], [disable], [enable_irq], [disable_irq] *)
Definition interrupts_init : M (intr L) unit :=
  do! modify (fun s => mkIntr (i_hw s) (LISTENERS s) (COUNTER s) true (int_flag s)) in
  on_hw (init_and_remap CHAINED_PICS).

Definition set_int_flag (b : bool) : M (intr L) unit :=
  modify (fun s => mkIntr (i_hw s) (LISTENERS s) (COUNTER s) (idt_loaded s) b).
Definition interrupts_enable : M (intr L) unit := set_int_flag true.
Definition interrupts_disable : M (intr L) unit := set_int_flag false.

Definition enable_irq (irq : Z) : M (intr L) unit := on_hw (enable_line CHAINED_PICS irq).
Definition disable_irq (irq : Z) : M (intr L) unit := on_hw (disable_line CHAINED_PICS irq).

(** ** [pit.rs]: the counter *)

(** [COUNTER.fetch_add(1)] wraps. *)
Definition tick : M (intr L) unit := let! c := gets COUNTER in set_counter (wrap 64 (c + 1)).

Definition time_ms : M (intr L) Z := gets COUNTER.

Section handling.
Context (call : L -> M (intr L) unit).

Definition dispatch_irq (irq : Z) : M (intr L) unit := fun s =>
  match LISTENERS s !! Z.to_nat irq with
  | Some ls => for_each ls call s
  | None => Stop (Panic "index out of bounds")
  end.

Definition handle_interrupt (c : ChainedPics) (irq : Z) (handler : M (intr L) unit)
  : M (intr L) unit :=
  let! d := destination irq in
  match d with
  | Master _ =>
      let! spurious := on_hw (is_spurious (master c) irq) in
      if negb spurious then
        do! handler in
        on_hw (end_of_interrupt (master c))
      else ret tt
  | Slave _ =>
      let! spurious := on_hw (is_spurious (slave c) irq) in
      if negb spurious then
        do! handler in
        on_hw (end_of_interrupt (slave c))
      else on_hw (end_of_interrupt (master c))
  end.

(** [handle_irq] of [init_irq_handlers!] *)
Definition handle_irq (irq : Z) : M (intr L) unit :=
  handle_interrupt CHAINED_PICS irq (dispatch_irq irq).

(** What the processor does on a vector: run the handler of the table. Without one
    it raises a double fault. *)
Definition run_vector (v : Z) : M (intr L) unit :=
  match IDT !! v with
  | Some (mkIdtEntry (OnException e) _) => stop_with (cpuex e)
  | Some (mkIdtEntry (HandleIrq irq) _) => handle_irq irq
  | None => stop_with (cpuex double_fault)
  end.

(** A device raises a line. With interrupts disabled, or when the controllers do not
    accept the line, the processor does not notice. *)
Definition interrupt (irq : Z) : M (intr L) unit := fun s =>
  if int_flag s then
    match cpu_accept irq (i_hw s) with
    | Some (v, h) =>
        run_vector v (mkIntr h (LISTENERS s) (COUNTER s) (idt_loaded s) (int_flag s))
    | None => Ret (tt, s)
    end
  else Ret (tt, s).

(** The loop of [sleep]: each [hlt] waits for the next line that a device raises,
    the next element of [irqs]; when they run out the processor is still asleep. *)
Fixpoint sleep_loop (irqs : list Z) (wake_time : Z) : M (intr L) unit := fun s =>
  if COUNTER s <? wake_time then
    match irqs with
    | [] => Stop OutOfFuel
    | irq :: irqs => (do! interrupt irq in sleep_loop irqs wake_time) s
    end
  else Ret (tt, s).

Definition sleep (irqs : list Z) (ms : Z) : M (intr L) unit :=
  let! c := gets COUNTER in
  let! wake_time := lift (add64 c ms) in
  sleep_loop irqs wake_time.

End handling.

(** ** [pit.rs]: the controller *)

Definition BASE_FREQUENCY_HZ : Z := 1193182.
Definition FREQUENCY_HZ : Z := 1000.
Definition compute_reload (frequency : Z) : Z := wrap 16 (BASE_FREQUENCY_HZ / frequency).
Definition RELOAD_VALUE : Z := compute_reload FREQUENCY_HZ.

Inductive OperatingMode :=
| InterruptOnTerminalCount | HardwareReTriggerableOneShot | RateGenerator
| SquareWaveGenerator | SoftwareTriggeredStrobe | HardwareTriggeredStrobe.

Definition mode_as_u8 (m : OperatingMode) : Z :=
  match m with
  | InterruptOnTerminalCount => 0
  | HardwareReTriggerableOneShot => 1
  | RateGenerator => 2
  | SquareWaveGenerator => 3
  | SoftwareTriggeredStrobe => 4
  | HardwareTriggeredStrobe => 5
  end.

Inductive AccessMode := LobyteOnly | HibyteOnly | LobyteHibyte.

Definition access_as_u8 (m : AccessMode) : Z :=
  match m with
  | LobyteOnly => 1
  | HibyteOnly => 2
  | LobyteHibyte => 3
  end.

Record Controller := mkController { configure_port : Z; channel_0 : Z }.
(** [Controller::new] *)
Definition CONTROLLER : Controller := mkController 0x43 0x40.

Definition configure (c : Controller) (channel : Z) (om : OperatingMode) (am : AccessMode)
  : M hw unit :=
  let! ch := lift (shl8 channel 6) in
  let! a := lift (shl8 (access_as_u8 am) 4) in
  let! o := lift (shl8 (mode_as_u8 om) 1) in
  port_write (configure_port c) (Z.lor (Z.lor ch a) o).

(** [Channel::set_reload_value] *)
Definition set_reload_value (port reload_value : Z) : M hw unit :=
  let lower := wrap 8 (Z.land reload_value 0xFF) in
  let upper := wrap 8 (Z.land (Z.shiftr reload_value 8) 0xFF) in
  do! port_write port lower in
  port_write port upper.

(** [Controller::initialize]; [tick_fn] is the pointer to [tick]. *)
Definition pit_initialize (tick_fn : L) (c : Controller) : M (intr L) unit :=
  do! on_hw (configure c 0 RateGenerator LobyteHibyte) in
  do! set_counter 0 in
  do! listen (irq_into IrqPit) tick_fn in
  on_hw (set_reload_value (channel_0 c) RELOAD_VALUE).

End interrupts.
