(* ===== verification/InterruptTheorems.v ===== *)
(** The properties of interrupt handling: the remapped controllers and the
    descriptor table, masking of lines, the life of an interrupt from the device's
    request to the end-of-interrupt command, and the timer. *)
From S2P Require Import Prelude Ports Interrupts.

(** * Bits *)

(** [EOI] right after a line was put in service takes exactly that line out. *)
Lemma lowest_cleared_setbit x i :
  0 <= i -> Z.land x (Z.ones (i + 1)) = 0 -> lowest_cleared (Z.setbit x i) = x.
Proof.
  intros Hi Hx. unfold lowest_cleared.
  assert (forall k, 0 <= k <= i -> Z.testbit x k = false) as Hlow.
  { intros k Hk. apply (f_equal (fun z => Z.testbit z k)) in Hx.
    rewrite Z.land_spec, Z.bits_0, Z.ones_spec_low, andb_true_r in Hx by lia. done. }
  assert (forall m, Z.land x m = 0 -> x + m = Z.lor x m) as Hadd.
  { intros m Hm. by rewrite <- Z.lxor_lor, <- Z.add_nocarry_lxor. }
  assert (Z.setbit x i - 1 = Z.lor x (Z.ones i)) as ->.
  { unfold Z.setbit. rewrite Z.shiftl_1_l, <- Hadd.
    - rewrite <- Hadd; [rewrite Z.ones_equiv; lia|].
      apply Z.bits_inj'. intros k Hk. rewrite Z.land_spec, Z.bits_0.
      destruct (Z.lt_ge_cases k i); [by rewrite Hlow by lia|].
      by rewrite Z.ones_spec_high, andb_false_r by lia.
    - apply Z.bits_inj'. intros k Hk. rewrite Z.land_spec, Z.bits_0, Z.pow2_bits_eqb by done.
      destruct (Z.eqb_spec i k); [by rewrite Hlow by lia|by rewrite andb_false_r]. }
  apply Z.bits_inj'. intros k Hk. rewrite Z.land_spec, Z.setbit_eqb, Z.lor_spec by done.
  destruct (Z.eqb_spec i k) as [<-|Hne].
  - by rewrite Hlow, Z.ones_spec_high by lia.
  - simpl. destruct (Z.testbit x k); [done|]. done.
Qed.

Lemma setbit_test x i : 0 <= i -> (Z.land (Z.setbit x i) (2 ^ i) =? 0) = false.
Proof.
  intros Hi. apply Z.eqb_neq. intros H. apply (f_equal (fun z => Z.testbit z i)) in H.
  by rewrite Z.land_spec, Z.setbit_eq, Z.pow2_bits_true, Z.bits_0 in H by done.
Qed.

Lemma shl8_1 `{Build} i : 0 <= i < 8 -> shl8 1 i = Ret (2 ^ i).
Proof.
  intros Hi. unfold shl8, wrap. replace (i <? 8) with true by lia.
  rewrite Z.shiftl_1_l, Z.mod_small; [done|].
  assert (2 ^ i < 2 ^ 8) by (apply Z.pow_lt_mono_r; lia). lia.
Qed.

Lemma range_cases (P : Z -> Prop) n : Forall P (range_excl 0 n) -> forall i, 0 <= i < n -> P i.
Proof. intros H i Hi. rewrite list.Forall_forall in H. apply H, elem_of_range_excl. lia. Qed.

(** * The controllers and the descriptor table *)

(** Both controllers answer with the vectors from 32 on, and the next write to a data
    port is a mask. *)
Definition remapped (h : hw) : Prop :=
  vector_base (master8259 h) = 0x20 /\ vector_base (slave8259 h) = 0x28 /\
  stage (master8259 h) = Ready /\ stage (slave8259 h) = Ready.

Lemma irq_entries : Forall (fun irq =>
  IDT !! (32 + irq) = Some (mkIdtEntry (HandleIrq irq) None)) (range_excl 0 16).
Proof. repeat constructor. Qed.

Lemma accept_vector h irq v h' :
  remapped h -> 0 <= irq < 16 -> cpu_accept irq h = Some (v, h') ->
  v = 32 + irq /\ IDT !! v = Some (mkIdtEntry (HandleIrq irq) None) /\ remapped h'.
Proof.
  intros (H1 & H2 & H3 & H4) Hi Ha. unfold cpu_accept in Ha. rewrite H1, H2 in Ha.
  assert (v = 32 + irq /\ remapped h') as [-> Hr].
  { destruct (irq <? 8); destruct (pic_accepts _ _) in Ha; simpl in Ha; try done;
      [|destruct (pic_accepts _ _) in Ha; try done]; injection Ha as <- <-;
      (split; [lia|by repeat split]). }
  split_and!; [done| |done]. by apply (range_cases _ 16 irq_entries).
Qed.

Lemma init_and_remap_spec h : exists h',
  init_and_remap CHAINED_PICS h = Ret (tt, h') /\ remapped h' /\
  (mode_8086 (master8259 h') && mode_8086 (slave8259 h') = true) /\
  cascade (master8259 h') = 2 ^ 2 /\ cascade (slave8259 h') = 2 /\
  imr (master8259 h') = imr (master8259 h) /\ imr (slave8259 h') = imr (slave8259 h) /\
  isr (master8259 h') = isr (master8259 h) /\ isr (slave8259 h') = isr (slave8259 h) /\
  pit h' = pit h /\
  forall irq v h'', 0 <= irq < 16 -> cpu_accept irq h' = Some (v, h'') ->
    IDT !! v = Some (mkIdtEntry (HandleIrq irq) None).
Proof.
  destruct h as [[mv mc mm mi mr ms mq mst] [sv sc sm si sr ss sq sst] t].
  eexists. split; [vm_compute; reflexivity|].
  assert (forall h', remapped h' -> forall irq v h'', 0 <= irq < 16 ->
    cpu_accept irq h' = Some (v, h'') -> IDT !! v = Some (mkIdtEntry (HandleIrq irq) None)) as Hv.
  { intros h' Hr irq v h'' Hi Ha. by destruct (accept_vector h' irq v h'' Hr Hi Ha) as (_ & ? & _). }
  do 9 (split; [done|]). by apply Hv.
Qed.

(** C36: whatever the controllers' state, [init_and_remap] leaves them initialised
    (8086 mode, slave on the master's line 2) with their masks and in-service
    registers as they were and the vectors moved to 32 to 47, and the IDT has, for
    the vector of every line they then accept, the handler of that very line. *)
Theorem init_and_remap_correct h : exists h',
  init_and_remap CHAINED_PICS h = Ret (tt, h') /\ remapped h' /\
  (mode_8086 (master8259 h') && mode_8086 (slave8259 h') = true) /\
  cascade (master8259 h') = 2 ^ 2 /\ cascade (slave8259 h') = 2 /\
  imr (master8259 h') = imr (master8259 h) /\ imr (slave8259 h') = imr (slave8259 h) /\
  isr (master8259 h') = isr (master8259 h) /\ isr (slave8259 h') = isr (slave8259 h) /\
  pit h' = pit h /\
  forall irq v h'', 0 <= irq < 16 -> cpu_accept irq h' = Some (v, h'') ->
    IDT !! v = Some (mkIdtEntry (HandleIrq irq) None).
Proof. apply init_and_remap_spec. Qed.

Lemma exception_entries : Forall (fun v =>
  match IDT !! v with
  | Some (mkIdtEntry (OnException e) (Some i)) =>
      i = (if decide (e = double_fault) then 0 else if decide (e = nmi) then 3 else 1)
  | Some _ => False
  | None => v ∈ [9; 15; 21; 22; 23; 24; 25; 26; 27; 28; 29; 31]
  end) (range_excl 0 32).
Proof.
  let l := eval vm_compute in (range_excl 0 32) in change (range_excl 0 32) with l.
  repeat (apply list.Forall_cons; split); [vm_compute; first [reflexivity|repeat constructor]..|].
  constructor.
Qed.

(** every processor exception has a handler that runs on an interrupt stack of its
    own kind (0 for a double fault, 3 for an NMI, 1 otherwise) among the seven that
    [setup_ist] fills, and panics; the vectors 9, 15, 21 to 29 and 31 have none, and
    taking one of those is a double fault. *)
Theorem exceptions_panic `{Build} {L} (call : L -> M (intr L) unit) v s : 0 <= v < 32 ->
  exists e, run_vector call v s = Stop (cpuex e) /\
    (v ∈ [9; 15; 21; 22; 23; 24; 25; 26; 27; 28; 29; 31] /\ e = double_fault \/
     exists i, IDT !! v = Some (mkIdtEntry (OnException e) (Some i)) /\ 0 <= i < 7 /\
       i = (if decide (e = double_fault) then DOUBLE_FAULT_IST_INDEX
            else if decide (e = nmi) then NMI_IST_INDEX else PANICKING_EXCEPTION_IST_INDEX)).
Proof.
  intros Hv. pose proof (range_cases _ 32 exception_entries v Hv) as He. cbv beta in He.
  unfold run_vector. destruct (IDT !! v) as [[[e|] [i|]]|]; try done.
  - exists e. split; [done|]. right. exists i. split; [done|]. split; [|done].
    subst i. repeat case_decide; lia.
  - exists double_fault. auto.
Qed.

(** * Masking *)

Section lines.
Context `{B : Build}.

Definition mask_of (h : hw) (irq : Z) : bool :=
  if irq <? 8 then Z.testbit (imr (master8259 h)) irq
  else Z.testbit (imr (slave8259 h)) (irq - 8).

(** The same hardware but for the masks. *)
Definition same_but_masks (h h' : hw) : Prop :=
  (exists m, master8259 h' = pic_data m (master8259 h)) /\
  (exists m, slave8259 h' = pic_data m (slave8259 h)) /\ pit h' = pit h.

Lemma pic_data_self p : stage p = Ready -> pic_data (imr p) p = p.
Proof. intros H. unfold pic_data. rewrite H. destruct p. simpl in *. by subst. Qed.

Lemma pic_data_imr p m : stage p = Ready -> imr (pic_data m p) = m.
Proof. intros H. unfold pic_data. by rewrite H. Qed.

(** The new mask of the controller that [irq] goes to. *)
Definition masked (f : Z -> Z -> Z) (irq : Z) (h : hw) : hw :=
  if irq <? 8 then with_master (fun p => pic_data (f (imr p) (2 ^ irq)) p) h
  else with_slave (fun p => pic_data (f (imr p) (2 ^ (irq - 8))) p) h.

Lemma local_irq irq : 8 <= irq < 16 -> Z.land irq 7 = irq - 8.
Proof.
  intros Hi. change 7 with (2 ^ 3 - 1). rewrite land_ones_mod by done.
  rewrite <- (Z_mod_plus_full _ (-1)). apply Z.mod_small. simpl. lia.
Qed.

Lemma enable_line_steps irq h : 0 <= irq < 16 ->
  enable_line CHAINED_PICS irq h = Ret (tt, masked (fun m b => Z.land m (Z.lxor 0xFF b)) irq h).
Proof.
  intros Hi. unfold enable_line, destination, masked. destruct (irq <? 8) eqn:E; msimp.
  - change 7 with (2 ^ 3 - 1). rewrite land_ones_mod, Z.mod_small by (try done; simpl; lia).
    unfold pic_enable_line, bind. simpl. by rewrite shl8_1 by lia.
  - replace (irq <? 16) with true by lia. msimp. rewrite local_irq by lia.
    unfold pic_enable_line, bind. simpl. by rewrite shl8_1 by lia.
Qed.

Lemma disable_line_steps irq h : 0 <= irq < 16 ->
  disable_line CHAINED_PICS irq h = Ret (tt, masked Z.lor irq h).
Proof.
  intros Hi. unfold disable_line, destination, masked. destruct (irq <? 8) eqn:E; msimp.
  - change 7 with (2 ^ 3 - 1). rewrite land_ones_mod, Z.mod_small by (try done; simpl; lia).
    unfold pic_disable_line, bind. simpl. by rewrite shl8_1 by lia.
  - replace (irq <? 16) with true by lia. msimp. rewrite local_irq by lia.
    unfold pic_disable_line, bind. simpl. by rewrite shl8_1 by lia.
Qed.

(** A one-line change of a mask changes the line it names. *)
Lemma masked_lines f v irq h :
  remapped h -> 0 <= irq < 16 ->
  (forall m i k, 0 <= i < 8 -> 0 <= k < 8 ->
     Z.testbit (f m (2 ^ i)) k = if k =? i then v else Z.testbit m k) ->
  same_but_masks h (masked f irq h) /\
  forall j, 0 <= j < 16 -> mask_of (masked f irq h) j = if j =? irq then v else mask_of h j.
Proof.
  intros (_ & _ & Hm & Hs) Hi Hf. unfold same_but_masks, masked, mask_of.
  destruct (irq <? 8) eqn:E; simpl.
  - split; [split_and!; [by eexists| |done]; eexists; symmetry; by apply pic_data_self|].
    intros j Hj. rewrite pic_data_imr by done. destruct (j <? 8) eqn:Ej; [apply Hf; lia|].
    by replace (j =? irq) with false by lia.
  - split; [split_and!; [|by eexists|done]; eexists; symmetry; by apply pic_data_self|].
    intros j Hj. rewrite pic_data_imr by done. destruct (j <? 8) eqn:Ej.
    { by replace (j =? irq) with false by lia. }
    rewrite Hf by lia. by replace (j - 8 =? irq - 8) with (j =? irq) by lia.
Qed.

(** [enable_irq] unmasks and [disable_irq] masks exactly the line given, on the
    controller it belongs to, and changes nothing else; a line beyond 15 panics. *)
Theorem line_masking_correct h irq :
  remapped h -> 0 <= irq ->
  (irq < 16 -> exists he hd,
     enable_line CHAINED_PICS irq h = Ret (tt, he) /\ disable_line CHAINED_PICS irq h = Ret (tt, hd) /\
     same_but_masks h he /\ same_but_masks h hd /\
     forall j, 0 <= j < 16 ->
       mask_of he j = (if j =? irq then false else mask_of h j) /\
       mask_of hd j = (if j =? irq then true else mask_of h j)) /\
  (16 <= irq -> exists m, enable_line CHAINED_PICS irq h = Stop (Panic m) /\
     disable_line CHAINED_PICS irq h = Stop (Panic m)).
Proof.
  intros Hr Hi. split.
  - intros Hi'.
    destruct (masked_lines (fun m b => Z.land m (Z.lxor 0xFF b)) false irq h Hr ltac:(lia)) as [He1 He2].
    { intros m i k H1 H2. rewrite Z.land_spec, Z.lxor_spec, Z.pow2_bits_eqb by lia.
      change 0xFF with (Z.ones 8). rewrite Z.ones_spec_low, (Z.eqb_sym k) by lia.
      destruct (i =? k); simpl; [apply andb_false_r|apply andb_true_r]. }
    destruct (masked_lines Z.lor true irq h Hr ltac:(lia)) as [Hd1 Hd2].
    { intros m i k H1 H2. rewrite Z.lor_spec, Z.pow2_bits_eqb, (Z.eqb_sym k) by lia.
      destruct (i =? k); [apply orb_true_r|apply orb_false_r]. }
    eexists _, _. rewrite enable_line_steps, disable_line_steps by lia.
    split_and!; [done|done|done|done|]. intros j Hj. by rewrite He2, Hd2.
  - intros Hi'. unfold enable_line, disable_line, destination.
    replace (irq <? 8) with false by lia. replace (irq <? 16) with false by lia. by eexists.
Qed.

End lines.

(** * From the request to the end of interrupt *)

Section life.
Context `{B : Build} {L : Type} (call : L -> M (intr L) unit).

Definition with_hw (h : hw) (s : intr L) : intr L :=
  mkIntr h (LISTENERS s) (COUNTER s) (idt_loaded s) (int_flag s).

(** Reads of the command port give the in-service register from now on. *)
Definition reading_isr (p : pic8259) : pic8259 :=
  mkPic8259 (vector_base p) (cascade p) (mode_8086 p) (imr p) (irr p) (isr p) true (stage p).
Definition ended (p : pic8259) : pic8259 :=
  mkPic8259 (vector_base p) (cascade p) (mode_8086 p) (imr p) (irr p) (lowest_cleared (isr p))
    (read_isr p) (stage p).

Lemma master_spurious irq (s : intr L) : 0 <= irq < 8 ->
  on_hw (is_spurious (master CHAINED_PICS) irq) s =
    Ret (Z.land (isr (master8259 (i_hw s))) (2 ^ irq) =? 0, with_hw (with_master reading_isr (i_hw s)) s).
Proof. intros Hi. unfold on_hw, is_spurious, bind. simpl. by rewrite shl8_1. Qed.

Lemma slave_spurious irq (s : intr L) : 0 <= irq ->
  on_hw (is_spurious (slave CHAINED_PICS) irq) s =
    match shl8 1 irq with
    | Ret b => Ret (Z.land (isr (slave8259 (i_hw s))) b =? 0, with_hw (with_slave reading_isr (i_hw s)) s)
    | Stop w => Stop w
    end.
Proof. intros Hi. unfold on_hw, is_spurious, bind. simpl. by destruct (shl8 1 irq). Qed.

Lemma master_eoi (s : intr L) :
  on_hw (end_of_interrupt (master CHAINED_PICS)) s = Ret (tt, with_hw (with_master ended (i_hw s)) s).
Proof. done. Qed.
Lemma slave_eoi (s : intr L) :
  on_hw (end_of_interrupt (slave CHAINED_PICS)) s = Ret (tt, with_hw (with_slave ended (i_hw s)) s).
Proof. done. Qed.

Lemma interrupt_accepted irq v h (s : intr L) :
  remapped (i_hw s) -> int_flag s = true -> 0 <= irq < 16 ->
  cpu_accept irq (i_hw s) = Some (v, h) ->
  interrupt call irq s = handle_irq call irq (with_hw h s).
Proof.
  intros Hr Hf Hi Ha. destruct (accept_vector _ _ _ _ Hr Hi Ha) as (_ & Hv & _).
  unfold interrupt. rewrite Hf at 1. rewrite Ha. unfold run_vector. by rewrite Hv.
Qed.

(** What the listeners find when [irq] is handled, for a line of the master. *)
Definition in_service (irq : Z) (s : intr L) : intr L :=
  with_hw (with_master (fun p => reading_isr (pic_serve irq p)) (i_hw s)) s.

Definition slave_in_service (irq : Z) (s : intr L) : intr L :=
  with_hw (with_slave (fun p => reading_isr (pic_serve (irq - 8) p))
             (with_master (pic_serve 2) (i_hw s))) s.

Lemma master_irq_spec irq ls (s s2 : intr L) :
  remapped (i_hw s) -> int_flag s = true -> 0 <= irq < 8 ->
  pic_accepts (master8259 (i_hw s)) irq = true ->
  LISTENERS s !! Z.to_nat irq = Some ls ->
  for_each ls call (in_service irq s) = Ret (tt, s2) -> i_hw s2 = i_hw (in_service irq s) ->
  exists h, interrupt call irq s = Ret (tt, with_hw h s2) /\ remapped h /\
    isr (master8259 h) = isr (master8259 (i_hw s)) /\ imr (master8259 h) = imr (master8259 (i_hw s)) /\
    slave8259 h = slave8259 (i_hw s) /\ pit h = pit (i_hw s).
Proof.
  intros Hr Hf Hi Ha Hl Hc Hhw.
  assert (Z.land (isr (master8259 (i_hw s))) (Z.ones (irq + 1)) = 0) as Hz.
  { unfold pic_accepts in Ha. apply andb_prop in Ha as [_ Ha]. by apply Z.eqb_eq. }
  rewrite (interrupt_accepted irq (vector_base (master8259 (i_hw s)) + irq)
             (with_master (pic_serve irq) (i_hw s))); [|done|done|lia|].
  2: { unfold cpu_accept. replace (irq <? 8) with true by lia. by rewrite Ha. }
  unfold handle_irq, handle_interrupt, destination. replace (irq <? 8) with true by lia. msimp.
  rewrite (bind_ret _ _ _ _ _ (master_spurious irq _ Hi)). cbn [i_hw with_hw with_master master8259 isr pic_serve].
  rewrite setbit_test by lia. cbn [negb].
  assert (dispatch_irq call irq (in_service irq s) = Ret (tt, s2)) as Hd.
  { unfold dispatch_irq. cbn [in_service with_hw LISTENERS]. by rewrite Hl. }
  change (with_hw _ (with_hw _ s)) with (in_service irq s).
  rewrite (bind_ret _ _ _ _ _ Hd), master_eoi, Hhw. eexists. split; [reflexivity|].
  destruct Hr as (H1 & H2 & H3 & H4). cbn. split_and!; try done.
  by apply lowest_cleared_setbit; [lia|].
Qed.

(** C17: an interrupt of the master that the controller accepts runs the listeners of
    its line, all of them and in the order of registration, exactly once, with the
    line in service; when they leave the controllers alone, the end of interrupt
    takes exactly that line out of service again. *)
Theorem master_irq_completed irq ls s s2 :
  remapped (i_hw s) -> int_flag s = true -> 0 <= irq < 8 ->
  pic_accepts (master8259 (i_hw s)) irq = true ->
  LISTENERS s !! Z.to_nat irq = Some ls ->
  for_each ls call (in_service irq s) = Ret (tt, s2) -> i_hw s2 = i_hw (in_service irq s) ->
  Z.testbit (isr (master8259 (i_hw (in_service irq s)))) irq = true /\
  exists h, interrupt call irq s = Ret (tt, with_hw h s2) /\ remapped h /\
    isr (master8259 h) = isr (master8259 (i_hw s)) /\ imr (master8259 h) = imr (master8259 (i_hw s)) /\
    slave8259 h = slave8259 (i_hw s) /\ pit h = pit (i_hw s).
Proof.
  intros. split; [cbn; apply Z.setbit_eq; lia|]. by eapply master_irq_spec.
Qed.

(** C38: an interrupt of the slave is not completed. A build with overflow checks stops
    on [1 << irq]. Without them the listeners run and the slave's line ends, but the
    master never gets its end of interrupt: its line 2 stays in service, and from
    then on it accepts no line from 2 on, so none of the slave's. *)
Theorem slave_irq_not_completed irq ls s s2 :
  remapped (i_hw s) -> int_flag s = true -> 8 <= irq < 16 ->
  pic_accepts (slave8259 (i_hw s)) (irq - 8) = true -> pic_accepts (master8259 (i_hw s)) 2 = true ->
  LISTENERS s !! Z.to_nat irq = Some ls ->
  for_each ls call (slave_in_service irq s) = Ret (tt, s2) -> i_hw s2 = i_hw (slave_in_service irq s) ->
  if overflow_checks then interrupt call irq s = Stop Overflow
  else exists h, interrupt call irq s = Ret (tt, with_hw h s2) /\
    isr (slave8259 h) = isr (slave8259 (i_hw s)) /\ Z.testbit (isr (master8259 h)) 2 = true /\
    forall j, 2 <= j < 16 -> cpu_accept j h = None.
Proof.
  intros Hr Hf Hi Ha1 Ha2 Hl Hc Hhw.
  assert (Z.land (isr (slave8259 (i_hw s))) (Z.ones (irq - 8 + 1)) = 0) as Hz.
  { unfold pic_accepts in Ha1. apply andb_prop in Ha1 as [_ Ha]. by apply Z.eqb_eq. }
  rewrite (interrupt_accepted irq (vector_base (slave8259 (i_hw s)) + (irq - 8))
    (with_slave (pic_serve (irq - 8)) (with_master (pic_serve 2) (i_hw s)))); [|done|done|lia|].
  2: { unfold cpu_accept. replace (irq <? 8) with false by lia. by rewrite Ha1, Ha2. }
  unfold handle_irq, handle_interrupt, destination. replace (irq <? 8) with false by lia.
  replace (irq <? 16) with true by lia. msimp.
  assert (shl8 1 irq = if overflow_checks then Stop Overflow else Ret (2 ^ (irq - 8))) as Hs.
  { unfold shl8. replace (irq <? 8) with false by lia. destruct overflow_checks; [done|].
    replace (irq mod 8) with (irq - 8) by (rewrite <- (Z_mod_plus_full irq (-1)), Z.mod_small; lia).
    pose proof (shl8_1 (irq - 8) ltac:(lia)) as H8. unfold shl8 in H8.
    by replace (irq - 8 <? 8) with true in H8 by lia. }
  pose proof (slave_spurious irq (with_hw (with_slave (pic_serve (irq - 8))
    (with_master (pic_serve 2) (i_hw s))) s) ltac:(lia)) as Hsp. rewrite Hs in Hsp.
  destruct overflow_checks; [by rewrite (bind_stop _ _ _ _ Hsp)|].
  rewrite (bind_ret _ _ _ _ _ Hsp). cbn [i_hw with_hw with_slave with_master slave8259 isr pic_serve].
  rewrite setbit_test by lia. cbn [negb].
  assert (dispatch_irq call irq (slave_in_service irq s) = Ret (tt, s2)) as Hd.
  { unfold dispatch_irq. cbn [slave_in_service with_hw LISTENERS]. by rewrite Hl. }
  change (with_hw _ (with_hw _ s)) with (slave_in_service irq s).
  rewrite (bind_ret _ _ _ _ _ Hd), slave_eoi, Hhw. eexists. split; [reflexivity|].
  cbn [slave_in_service i_hw with_hw with_slave with_master slave8259 master8259 isr imr pic_serve reading_isr ended].
  split_and!; [by apply lowest_cleared_setbit; [lia|]|by apply Z.setbit_eq|].
  assert (forall j, 2 <= j ->
    (Z.land (Z.setbit (isr (master8259 (i_hw s))) 2) (Z.ones (j + 1)) =? 0) = false) as Hno.
  { intros j Hj. apply Z.eqb_neq. intros H. apply (f_equal (fun z => Z.testbit z 2)) in H.
    by rewrite Z.land_spec, Z.setbit_eq, Z.ones_spec_low, Z.bits_0 in H by lia. }
  intros j Hj. unfold cpu_accept, pic_accepts.
  cbn [slave_in_service i_hw with_hw with_slave with_master slave8259 master8259 isr imr pic_serve reading_isr ended].
  destruct (j <? 8); [by rewrite Hno, andb_false_r by lia|].
  by rewrite (Hno 2), !andb_false_r by lia.
Qed.

End life.

(** * The timer *)

Section timer.
Context `{B : Build} {L : Type} (call : L -> M (intr L) unit) (tick_fn : L).
Context (call_tick : forall s, call tick_fn s = tick s).

(** [Controller::initialize] programs channel 0 as a rate generator with a reload
    value that divides the base frequency to within a tenth of a percent of
    [FREQUENCY_HZ], resets the counter and registers [tick] once for IRQ 0; nothing
    else changes. *)
Theorem pit_initialize_correct s ls :
  LISTENERS s !! 0%nat = Some ls ->
  pit_initialize tick_fn CONTROLLER s =
    Ret (tt, mkIntr (with_pit (fun _ => mkPit8254 (access_as_u8 LobyteHibyte) (mode_as_u8 RateGenerator)
                                          RELOAD_VALUE None) (i_hw s))
               (<[0%nat := ls ++ [tick_fn]]> (LISTENERS s)) 0 (idt_loaded s) (int_flag s)) /\
  BASE_FREQUENCY_HZ * 999 <= RELOAD_VALUE * FREQUENCY_HZ * 1000 <= BASE_FREQUENCY_HZ * 1000.
Proof.
  intros Hl. split; [|by vm_compute]. unfold pit_initialize.
  assert (on_hw (configure CONTROLLER 0 RateGenerator LobyteHibyte) s =
    Ret (tt, with_hw (with_pit (pit_command 0x34) (i_hw s)) s)) as Ec by done.
  rewrite (bind_ret _ _ _ _ _ Ec). unfold bind. cbn [set_counter modify with_hw i_hw]. unfold listen.
  cbn [LISTENERS i_hw with_hw irq_into]. change (Z.to_nat 0) with 0%nat. by rewrite Hl.
Qed.

(** IRQ 0 is unmasked and ticks, the other lines of the master have no listener, and
    no line is in service. *)
Record timer_ready (s : intr L) : Prop := {
  tr_remapped : remapped (i_hw s);
  tr_if : int_flag s = true;
  tr_imr : Z.testbit (imr (master8259 (i_hw s))) 0 = false;
  tr_isr : isr (master8259 (i_hw s)) = 0;
  tr_tick : LISTENERS s !! 0%nat = Some [tick_fn];
  tr_others : forall i, (1 <= i < 8)%nat -> LISTENERS s !! i = Some []
}.

Definition ticks (irqs : list Z) : Z := Z.of_nat (length (filter (fun i => i = 0) irqs)).

Lemma ticks_cons irq irqs : ticks (irq :: irqs) = (if irq =? 0 then 1 else 0) + ticks irqs.
Proof.
  unfold ticks. rewrite filter_cons. destruct (Z.eqb_spec irq 0); case_decide; simpl; lia || done.
Qed.

Lemma timer_ready_step s s' :
  timer_ready s -> remapped (i_hw s') -> int_flag s' = int_flag s -> LISTENERS s' = LISTENERS s ->
  imr (master8259 (i_hw s')) = imr (master8259 (i_hw s)) ->
  isr (master8259 (i_hw s')) = isr (master8259 (i_hw s)) -> timer_ready s'.
Proof. intros [] Hr Hf Hl Hm Hi. split; rewrite ?Hf, ?Hl, ?Hm, ?Hi; done. Qed.

Lemma interrupt_step irq s :
  timer_ready s -> 0 <= irq < 8 -> 0 <= COUNTER s < two64 - 1 ->
  exists s', interrupt call irq s = Ret (tt, s') /\ timer_ready s' /\
    COUNTER s' = COUNTER s + if irq =? 0 then 1 else 0.
Proof.
  intros Ht Hi Hc. destruct (pic_accepts (master8259 (i_hw s)) irq) eqn:Ha.
  - set (ls := if irq =? 0 then [tick_fn] else []).
    assert (LISTENERS s !! Z.to_nat irq = Some ls) as Hl.
    { unfold ls. destruct (Z.eqb_spec irq 0) as [->|]; [apply Ht|apply (tr_others s Ht); lia]. }
    set (s2 := mkIntr (i_hw (in_service irq s)) (LISTENERS s)
                 (COUNTER s + if irq =? 0 then 1 else 0) (idt_loaded s) (int_flag s)).
    assert (for_each ls call (in_service irq s) = Ret (tt, s2)) as Hcall.
    { unfold ls, s2. destruct (irq =? 0); [|by rewrite Z.add_0_r].
      cbn [for_each]. unfold bind. rewrite call_tick. unfold tick, bind, gets, set_counter, modify.
      cbn [in_service with_hw COUNTER]. unfold wrap. by rewrite Z.mod_small by lia. }
    destruct (master_irq_spec call irq ls s s2 (tr_remapped s Ht) (tr_if s Ht) Hi Ha Hl Hcall eq_refl)
      as (h & E & Hr & H1 & H2 & _).
    exists (with_hw h s2). split; [done|]. split; [|done]. by apply (timer_ready_step s).
  - exists s. assert (irq <> 0) as Hne.
    { intros ->. unfold pic_accepts in Ha. by rewrite (tr_imr s Ht), (tr_isr s Ht) in Ha. }
    replace (irq =? 0) with false by lia. rewrite Z.add_0_r. split_and!; [|done|done].
    unfold interrupt, cpu_accept. rewrite (tr_if s Ht). by replace (irq <? 8) with true by lia; rewrite Ha.
Qed.

(** C37: [sleep] returns after exactly the number of ticks asked for, and only then:
    with fewer timer interrupts among the lines raised the processor still sleeps.
    Other lines of the master, masked or not, do not wake it early. *)
Theorem sleep_correct irqs ms s :
  timer_ready s -> Forall (fun i => 0 <= i < 8) irqs -> 0 <= ms -> 0 <= COUNTER s ->
  COUNTER s + ms < two64 ->
  if ms <=? ticks irqs
  then exists s', sleep call irqs ms s = Ret (tt, s') /\ COUNTER s' = COUNTER s + ms /\ timer_ready s'
  else sleep call irqs ms s = Stop OutOfFuel.
Proof.
  intros Ht Hirqs Hms Hc0 Hc. unfold sleep.
  rewrite (bind_ret (gets COUNTER) _ s (COUNTER s) s) by done.
  rewrite add64_small by lia. msimp. remember (COUNTER s + ms) as wake eqn:Hw.
  assert (ms = wake - COUNTER s) as -> by lia. clear Hw.
  revert s Ht Hc0 Hms. induction irqs as [|irq irqs IH]; intros s Ht Hc0 Hms; cbn [sleep_loop].
  - change (ticks []) with 0. destruct (COUNTER s <? wake) eqn:E.
    + by replace (wake - COUNTER s <=? 0) with false by lia.
    + replace (wake - COUNTER s <=? 0) with true by lia. exists s. split_and!; [done|lia|done].
  - inversion Hirqs as [|? ? Hi Hrest]; subst. rewrite ticks_cons.
    assert (0 <= ticks irqs) by (unfold ticks; lia).
    destruct (COUNTER s <? wake) eqn:E.
    2: { replace (wake - COUNTER s <=? _) with true by (destruct (irq =? 0); lia).
         exists s. split_and!; [done|lia|done]. }
    destruct (interrupt_step irq s Ht Hi ltac:(lia)) as (s' & Es & Ht' & Hc').
    rewrite (bind_ret _ _ _ _ _ Es).
    specialize (IH Hrest s' Ht' ltac:(destruct (irq =? 0); lia) ltac:(destruct (irq =? 0); lia)).
    replace (wake - COUNTER s <=? (if irq =? 0 then 1 else 0) + ticks irqs)
      with (wake - COUNTER s' <=? ticks irqs) by (destruct (irq =? 0); lia).
    destruct (_ <=? _); [|done]. destruct IH as (s2 & E2 & Hc2 & Ht2).
    exists s2. split_and!; [done|lia|done].
Qed.

End timer.

(** * Concrete instances *)

(** Both controllers as after [init_and_remap], all lines unmasked; one function
    pointer, [tick]. *)
Definition example_pic (base : Z) : pic8259 := mkPic8259 base 0 true 0 0 0 false Ready.
Definition example_hw : hw := mkHw (example_pic 0x20) (example_pic 0x28) (mkPit8254 0 0 0 None).
Definition example_intr : intr unit :=
  mkIntr example_hw ([tt] :: replicate 15 []) 5 true true.
Definition checked_build : Build := {| overflow_checks := true |}.
#[local] Existing Instance checked_build.
Definition unchecked_build : Build := {| overflow_checks := false |}.
Definition example_call : unit -> M (intr unit) unit := fun _ => tick.

Lemma example_remapped : remapped example_hw.
Proof. done. Qed.

Lemma exceptions_panic_witness : exists e, run_vector example_call 14 example_intr = Stop (cpuex e).
Proof. destruct (exceptions_panic example_call 14 example_intr) as (e & H & _); [lia|by exists e]. Defined.

Lemma line_masking_correct_witness :
  exists he, enable_line CHAINED_PICS 12 example_hw = Ret (tt, he) /\ mask_of he 12 = false.
Proof.
  destruct (line_masking_correct example_hw 12 example_remapped) as [H _]; [lia|].
  destruct (H ltac:(lia)) as (he & hd & E & _ & _ & _ & Hm). exists he. split; [done|].
  by apply (Hm 12).
Defined.

Lemma master_irq_completed_witness : exists h,
  interrupt example_call 0 example_intr = Ret (tt, mkIntr h (LISTENERS example_intr) 6 true true) /\
  isr (master8259 h) = 0.
Proof.
  destruct (master_irq_completed example_call 0 [tt] example_intr
    (mkIntr (i_hw (in_service 0 example_intr)) (LISTENERS example_intr) 6 true true))
    as (_ & h & E & _ & Hi & _); try done. by exists h.
Defined.

Lemma slave_irq_not_completed_witness :
  interrupt (B := checked_build) example_call 12 example_intr = Stop Overflow /\
  exists h, interrupt (B := unchecked_build) example_call 12 example_intr =
              Ret (tt, mkIntr h (LISTENERS example_intr) 5 true true) /\
    forall j, 2 <= j < 16 -> cpu_accept j h = None.
Proof.
  split.
  - apply (slave_irq_not_completed (B := checked_build) example_call 12 [] example_intr
             (slave_in_service 12 example_intr)); done.
  - destruct (slave_irq_not_completed (B := unchecked_build) example_call 12 [] example_intr
      (slave_in_service 12 example_intr)) as (h & E & _ & _ & Hj); try done. by exists h.
Defined.

Lemma pit_initialize_correct_witness : exists h,
  pit_initialize tt CONTROLLER example_intr = Ret (tt, mkIntr h ([tt; tt] :: replicate 15 []) 0 true true).
Proof. eexists. by apply (pit_initialize_correct tt example_intr [tt]). Defined.

Lemma example_timer : timer_ready tt example_intr.
Proof.
  split; try done. intros i Hi. cbn [example_intr LISTENERS].
  do 8 (destruct i as [|i]; [first [lia|done]|]). lia.
Qed.

Lemma sleep_correct_witness :
  (exists s', sleep example_call [0; 3; 0; 7; 0] 3 example_intr = Ret (tt, s') /\ COUNTER s' = 8) /\
  sleep example_call [0; 3; 0; 7; 0] 4 example_intr = Stop OutOfFuel.
Proof.
  assert (Forall (fun i => 0 <= i < 8) [0; 3; 0; 7; 0]) as Hl by (repeat constructor; lia).
  split.
  - pose proof (sleep_correct example_call tt (fun _ => eq_refl) [0; 3; 0; 7; 0] 3 example_intr
      example_timer Hl ltac:(lia) ltac:(cbn; lia) ltac:(cbn; lia)) as H.
    replace (3 <=? ticks [0; 3; 0; 7; 0]) with true in H by (by vm_compute).
    destruct H as (s' & E & Hc & _). exists s'. split; [exact E|exact Hc].
  - pose proof (sleep_correct example_call tt (fun _ => eq_refl) [0; 3; 0; 7; 0] 4 example_intr
      example_timer Hl ltac:(lia) ltac:(cbn; lia) ltac:(cbn; lia)) as H.
    replace (4 <=? ticks [0; 3; 0; 7; 0]) with false in H by (by vm_compute). exact H.
Defined.
