(* ===== verification/VgaTheorems.v ===== *)
(** The screen as a terminal: an abstract terminal is the list of its finished lines
    and the line being written; the writer shows the last 25 of them. *)
From S2P Require Import Prelude Vga.

Section terminal.
Context `{B : Build} (bg : Colour).

#[local] Abbreviation line := (list VgaChar).

(** The finished lines, and the current one. *)
Record terminal := mkTerminal { finished : list line; current : line }.

Definition cell (c : Z) (col : ColourPair) : VgaChar := mkVgaChar (wrap 8 c) (VgaColour_from col).

Definition type_char (col : ColourPair) (t : terminal) (c : Z) : terminal :=
  if c =? 10 then mkTerminal (finished t ++ [current t]) [] else
  let l := current t ++ [cell c col] in
  if (80 <=? length l)%nat then mkTerminal (finished t ++ [l]) [] else mkTerminal (finished t) l.

Definition type_text (col : ColourPair) (txt : list Z) (t : terminal) : terminal :=
  foldl (type_char col) t txt.

Definition blank : VgaChar := mkVgaChar 32 (VgaColour_new Black bg).
Definition pad (l : line) : line := l ++ replicate (80 - length l) blank.

(** The 25 rows: the last 24 finished lines, the current line, blank rows. *)
Definition rows (t : terminal) : list line :=
  drop (length (finished t) - 24) (pad <$> finished t) ++
  pad (current t) :: replicate (24 - length (finished t)) (pad []).

Record shows (w : VgaWriter) (t : terminal) : Prop := {
  sh_buffer : buffer w = rows t;
  sh_cursor : cursor w = (Z.of_nat (length (current t)), Z.of_nat (24 - length (finished t)));
  sh_colour : background (colour w) = bg;
  sh_current : (length (current t) < 80)%nat;
  sh_finished : Forall (fun l => (length l <= 80)%nat) (finished t)
}.

Lemma pad_length l : (length l <= 80)%nat -> length (pad l) = 80%nat.
Proof. intros. unfold pad. rewrite length_app, length_replicate. lia. Qed.

Lemma pad_snoc l c : (length l < 80)%nat -> <[length l := c]> (pad l) = pad (l ++ [c]).
Proof.
  intros Hl. unfold pad. rewrite length_app. cbn [length].
  replace (80 - length l)%nat with (S (80 - (length l + 1)))%nat by lia.
  rewrite insert_app_r_alt, Nat.sub_diag by lia. by rewrite <- app_assoc.
Qed.

Lemma replicate_shift {A} n (x : A) r : replicate n x ++ x :: r = replicate (S n) x ++ r.
Proof. cbn [replicate]. by rewrite replicate_cons_app, <- app_assoc. Qed.

Lemma pad_full l : length l = 80%nat -> pad l = l.
Proof. intros Hl. unfold pad. rewrite Hl. apply app_nil_r. Qed.

(** The rows above the current one. *)
Lemma above_length t : length (drop (length (finished t) - 24) (pad <$> finished t)) =
  Nat.min 24 (length (finished t)).
Proof. rewrite length_drop, length_fmap. lia. Qed.

Lemma buffer_set_char_row w x y row v :
  buffer w !! Z.to_nat y = Some row -> 0 <= x < Z.of_nat (length row) ->
  buffer_set_char x y v w =
    Ret (tt, mkVgaWriter (<[Z.to_nat y := <[Z.to_nat x := v]> row]> (buffer w)) (cursor w) (colour w)).
Proof.
  intros Hr Hx. unfold buffer_set_char, bind, gets. rewrite Hr.
  by replace (x <? _) with true by lia.
Qed.

(** ** Blanking rows *)

Lemma clear_row_spec w y row :
  buffer w !! Z.to_nat y = Some row -> length row = 80%nat ->
  clear_row y bg w =
    Ret (tt, mkVgaWriter (<[Z.to_nat y := pad []]> (buffer w)) (cursor w) (colour w)).
Proof.
  intros Hr Hlen. unfold clear_row. fold blank.
  assert (forall n (r : line) w, buffer w !! Z.to_nat y = Some (replicate n blank ++ r) ->
    (n + length r)%nat = 80%nat ->
    for_each (range_excl (Z.of_nat n) 80) (fun x => buffer_set_char x y blank) w =
      Ret (tt, mkVgaWriter (<[Z.to_nat y := pad []]> (buffer w)) (cursor w) (colour w))) as Hloop.
  { clear w Hr. intros n r. revert n. induction r as [|c r IH]; intros n w Hr Hn.
    - simpl in Hn. rewrite range_excl_nil by lia. rewrite app_nil_r in Hr.
      rewrite list_insert_id; [by destruct w|]. rewrite Hr. unfold pad. simpl.
      by replace n with 80%nat by lia.
    - simpl in Hn. rewrite range_excl_cons by lia. cbn [for_each].
      rewrite (bind_ret _ _ _ _ _ (buffer_set_char_row w (Z.of_nat n) y _ blank Hr
        ltac:(rewrite length_app, length_replicate; simpl; lia))).
      assert (<[Z.to_nat (Z.of_nat n) := blank]> (replicate n blank ++ c :: r) =
        replicate (S n) blank ++ r) as ->.
      { rewrite Nat2Z.id, insert_app_r_alt by (rewrite length_replicate; lia).
        rewrite length_replicate, Nat.sub_diag. apply replicate_shift. }
      replace (Z.of_nat n + 1) with (Z.of_nat (S n)) by lia.
      rewrite IH; [|cbn [buffer]|lia].
      + cbn [buffer cursor colour]. by rewrite list_insert_insert_eq.
      + apply list_lookup_insert_eq. by eapply lookup_lt_Some. }
  apply (Hloop 0%nat row w); [done|lia].
Qed.

Lemma for_rows w :
  length (buffer w) = 25%nat -> Forall (fun r => length r = 80%nat) (buffer w) ->
  for_each (range_excl 0 25) (fun y => clear_row y bg) w =
    Ret (tt, mkVgaWriter (replicate 25 (pad [])) (cursor w) (colour w)).
Proof.
  intros Hlen Hrows.
  assert (forall n (rs : list line) w, buffer w = replicate n (pad []) ++ rs ->
    (n + length rs)%nat = 25%nat -> Forall (fun r => length r = 80%nat) rs ->
    for_each (range_excl (Z.of_nat n) 25) (fun y => clear_row y bg) w =
      Ret (tt, mkVgaWriter (replicate 25 (pad [])) (cursor w) (colour w))) as Hloop.
  { clear w Hlen Hrows. intros n rs. revert n. induction rs as [|r rs IH]; intros n w Hb Hn Hr.
    - simpl in Hn. rewrite range_excl_nil by lia. rewrite app_nil_r in Hb.
      replace 25%nat with n by lia. rewrite <- Hb. by destruct w.
    - simpl in Hn. apply list.Forall_cons in Hr as [Hr Hrs]. rewrite range_excl_cons by lia.
      cbn [for_each].
      rewrite (bind_ret _ _ _ _ _ (clear_row_spec w (Z.of_nat n) r
        ltac:(rewrite Hb, lookup_app_r; rewrite ?length_replicate, ?Nat2Z.id; [by rewrite Nat.sub_diag|lia])
        Hr)).
      replace (Z.of_nat n + 1) with (Z.of_nat (S n)) by lia.
      rewrite (IH (S n)); [done| |lia|done]. cbn [buffer].
      rewrite Hb, Nat2Z.id, insert_app_r_alt by (rewrite length_replicate; lia).
      rewrite length_replicate, Nat.sub_diag. apply replicate_shift. }
  by apply (Hloop 0%nat (buffer w)).
Qed.

(** ** The steps of the writer *)

Lemma rows_current t : rows t !! Nat.min 24 (length (finished t)) = Some (pad (current t)).
Proof.
  unfold rows. rewrite lookup_app_r by (rewrite above_length; lia).
  by rewrite above_length, Nat.sub_diag.
Qed.

Lemma rows_insert t l :
  <[Nat.min 24 (length (finished t)) := pad l]> (rows t) = rows (mkTerminal (finished t) l).
Proof.
  unfold rows. rewrite insert_app_r_alt by (rewrite above_length; lia).
  by rewrite above_length, Nat.sub_diag.
Qed.

Lemma set_char_shows w t c col :
  shows w t ->
  set_char c col (cursor w) w =
    Ret (tt, mkVgaWriter (rows (mkTerminal (finished t) (current t ++ [cell c col]))) (cursor w) (colour w)).
Proof.
  intros [Hb Hc Hcol Hl Hf]. unfold set_char. rewrite Hc. cbn [fst snd].
  unfold RESOLUTION_y. rewrite sub64_small by lia. msimp.
  replace (25 - 1 - Z.of_nat (24 - length (finished t)))
    with (Z.of_nat (Nat.min 24 (length (finished t)))) by lia.
  rewrite (buffer_set_char_row w _ _ (pad (current t))).
  - rewrite Hb, !Nat2Z.id, pad_snoc, rows_insert by done. by rewrite Hc.
  - by rewrite Hb, Nat2Z.id, rows_current.
  - rewrite pad_length by lia. lia.
Qed.

(** The rows after a line is finished, while there is room and when there is none. *)
Lemma rows_room t : (length (finished t) < 24)%nat ->
  rows (mkTerminal (finished t ++ [current t]) []) = rows t.
Proof.
  intros Hn. unfold rows. cbn [finished current]. rewrite length_app, fmap_app. cbn [length fmap list_fmap].
  replace (length (finished t) + 1 - 24)%nat with 0%nat by lia.
  replace (length (finished t) - 24)%nat with 0%nat by lia. rewrite !drop_0, <- app_assoc.
  by replace (24 - length (finished t))%nat with (S (24 - (length (finished t) + 1)))%nat by lia.
Qed.

Lemma rows_scrolled t : (24 <= length (finished t))%nat ->
  <[24%nat := pad []]> (drop 1 (rows t) ++ take 1 (rows t)) =
    rows (mkTerminal (finished t ++ [current t]) []).
Proof.
  intros Hn. unfold rows. cbn [finished current].
  set (k := (length (finished t) - 24)%nat).
  assert (length (drop k (pad <$> finished t)) = 24%nat) as Hk.
  { rewrite length_drop, length_fmap. lia. }
  destruct (drop k (pad <$> finished t)) as [|r rs] eqn:Ed; [done|]. simpl in Hk.
  assert (drop (S k) (pad <$> finished t) = rs) as Ers.
  { rewrite <- Nat.add_1_r, <- drop_drop, Ed. done. }
  rewrite length_app, fmap_app. change (pad <$> [current t]) with [pad (current t)]. cbn [length].
  replace (length (finished t) + 1 - 24)%nat with (S k) by lia.
  rewrite (drop_app_le (pad <$> finished t)), Ers by (rewrite length_fmap; lia).
  replace (24 - length (finished t))%nat with 0%nat by lia.
  replace (24 - (length (finished t) + 1))%nat with 0%nat by lia. cbn [replicate app].
  change (drop 1 (r :: rs ++ [pad (current t)])) with (rs ++ [pad (current t)]).
  change (take 1 (r :: rs ++ [pad (current t)])) with [r].
  rewrite insert_app_r_alt by (rewrite length_app; simpl; lia).
  rewrite length_app. cbn [length]. replace (24 - (length rs + 1))%nat with 0%nat by lia.
  done.
Qed.

Lemma rows_lengths t :
  (length (current t) <= 80)%nat -> Forall (fun l => (length l <= 80)%nat) (finished t) ->
  length (rows t) = 25%nat /\ Forall (fun r => length r = 80%nat) (rows t).
Proof.
  intros Hc Hf. unfold rows. split.
  - rewrite length_app, above_length. cbn [length]. rewrite length_replicate. lia.
  - apply Forall_app. split.
    + apply Forall_drop, Forall_fmap. eapply list.Forall_impl; [exact Hf|]. intros l Hl. by apply pad_length.
    + constructor; [by apply pad_length|]. apply Forall_replicate, pad_length. simpl. lia.
Qed.

(** [new_line] finishes the line whose cells are on the screen, whatever column the
    cursor has. *)
Lemma new_line_shows w t x :
  buffer w = rows t -> cursor w = (x, Z.of_nat (24 - length (finished t))) ->
  background (colour w) = bg -> (length (current t) <= 80)%nat ->
  Forall (fun l => (length l <= 80)%nat) (finished t) ->
  exists w', new_line w = Ret (tt, w') /\ shows w' (mkTerminal (finished t ++ [current t]) []) /\
    colour w' = colour w.
Proof.
  intros Hb Hc Hcol Hl Hf. unfold new_line, bind, gets, set_cursor, modify. cbn [cursor buffer colour].
  rewrite Hc. cbn [snd].
  assert (Forall (fun l : line => (length l <= 80)%nat) (finished t ++ [current t])) as Hf'.
  { apply Forall_app. split; [done|]. by constructor. }
  destruct (0 <? _) eqn:E.
  - assert (length (finished t) < 24)%nat by (apply Z.ltb_lt in E; lia).
    eexists. split; [done|]. split; [|done]. split; cbn [buffer cursor colour finished current]; try done.
    + by rewrite Hb, rows_room by lia.
    + rewrite length_app. cbn [length]. f_equal. lia.
    + simpl. lia.
  - assert (24 <= length (finished t))%nat by (apply Z.ltb_ge in E; lia).
    unfold scroll_down, bind, gets. cbn [colour]. rewrite Hcol. unfold buffer_scroll_down.
    change (Z.min 1 RESOLUTION_y <? RESOLUTION_y) with true. cbv iota.
    unfold bind at 1 2, gets, set_buffer, modify. cbn [buffer cursor colour].
    change (range_excl 0 1) with [0]. cbn [for_each]. unfold RESOLUTION_y.
    unfold bind. rewrite sub64_small by lia. change (25 - 1 - 0) with 24. cbn [lift].
    destruct (rows_lengths t Hl Hf) as [H25 H80].
    rewrite Hb. change (Z.to_nat 1) with 1%nat. set (b' := drop 1 (rows t) ++ take 1 (rows t)).
    assert (exists r, b' !! 24%nat = Some r /\ length r = 80%nat) as (r & Hr & Hr80).
    { assert (length b' = 25%nat) as Hb25 by (unfold b'; rewrite length_app, length_drop, length_take; lia).
      destruct (lookup_lt_is_Some_2 b' 24) as [r Hr]; [lia|]. exists r. split; [done|].
      assert (Forall (fun r => length r = 80%nat) b') as Hall.
      { apply Forall_app. split; [by apply Forall_drop|by apply Forall_take]. }
      by eapply Forall_lookup_1 in Hall. }
    rewrite (clear_row_spec (mkVgaWriter b' _ _) 24 r); [|done|done].
    eexists. split; [done|]. split; [|done]. split; cbn [buffer cursor colour finished current]; try done.
    + by rewrite <- rows_scrolled by lia.
    + rewrite length_app. cbn [length]. f_equal. lia.
    + simpl. lia.
Qed.

Lemma write_coloured_shows w t c col :
  shows w t -> exists w', write_coloured c col w = Ret (tt, w') /\ shows w' (type_char col t c) /\
    colour w' = colour w.
Proof.
  intros Hsh. pose proof Hsh as [Hb Hc Hcol Hl Hf]. unfold write_coloured, type_char.
  destruct (c =? 10).
  { by apply (new_line_shows w t (Z.of_nat (length (current t)))); [..|lia|]. }
  rewrite (bind_ret (gets cursor) _ w (cursor w) w) by done.
  rewrite (bind_ret _ _ _ _ _ (set_char_shows w t c col Hsh)). rewrite Hc. cbn [fst snd].
  rewrite add64_small by lia. msimp. unfold bind at 1, set_cursor, modify. cbn [buffer cursor colour].
  unfold RESOLUTION_x. set (l := current t ++ [cell c col]).
  assert (length l = S (length (current t))) as Hlen by (unfold l; rewrite length_app; simpl; lia).
  destruct (Nat.leb_spec 80 (length l)).
  - replace (80 <=? _) with true by lia.
    by apply (new_line_shows (mkVgaWriter _ _ _) (mkTerminal (finished t) l)
      (Z.of_nat (length (current t)) + 1)); [..|cbn [current]; lia|].
  - replace (80 <=? _) with false by lia. eexists. split; [done|]. split; [|done].
    split; cbn [buffer cursor colour finished current]; try done. rewrite Hlen. f_equal. lia.
Qed.

Lemma write_str_coloured_shows w t txt col :
  shows w t -> exists w', write_str_coloured txt col w = Ret (tt, w') /\
    shows w' (type_text col txt t) /\ colour w' = colour w.
Proof.
  unfold write_str_coloured, type_text. revert w t.
  induction txt as [|c txt IH]; intros w t Hsh; cbn [for_each foldl]; [by exists w|].
  destruct (write_coloured_shows w t c col Hsh) as (w1 & E1 & Hsh1 & Hc1).
  destruct (IH w1 _ Hsh1) as (w2 & E2 & Hsh2 & Hc2). exists w2.
  rewrite (bind_ret _ _ _ _ _ E1). split_and!; [done|done|congruence].
Qed.

(** C18: the screen is a terminal. [clear] on a new writer shows the empty terminal,
    whatever was on the screen, and writing a text, with wrap at column 80, newlines
    and scrolling, never panics (no index is out of bounds) and shows the terminal on
    which that text was typed: the last 25 lines, each padded with blanks. *)
Theorem vga_is_a_terminal :
  (forall screen, bg = Black -> length screen = 25%nat -> Forall (fun r => length r = 80%nat) screen ->
     exists w, clear (VgaWriter_new screen) = Ret (tt, w) /\ shows w (mkTerminal [] [])) /\
  (forall w t txt col, shows w t ->
     exists w', write_str_coloured txt col w = Ret (tt, w') /\ shows w' (type_text col txt t)).
Proof.
  split.
  - intros screen Hbg Hlen Hrows. unfold clear, bind, gets. cbn [VgaWriter_new colour background].
    rewrite <- Hbg. unfold RESOLUTION_y.
    rewrite (for_rows (VgaWriter_new screen) Hlen Hrows). eexists. split; [done|]. split; try done.
    simpl. lia.
  - intros w t txt col Hsh. destruct (write_str_coloured_shows w t txt col Hsh) as (w' & E & H & _). eauto.
Qed.

(** the logger writes a record of an enabled level to the screen, the label in the
    level's colour and the message in the writer's, and the same text to the serial
    port; a record of another level leaves both alone. A level is enabled exactly when
    it is no more verbose than the features ask for. *)
Theorem log_correct f l target args c t :
  shows (vga c) t ->
  let label := (log_label l).1 in
  let message := target ++ chars ": " ++ args ++ [10] in
  exists c', log f l target args c = Ret (tt, c') /\
    if level_no l <=? level_no (if feature_trace f then Trace else if feature_debug f then Debug_ else Info_)
    then shows (vga c') (type_text (colour (vga c)) message (type_text (log_label l).2 label t)) /\
         serial c' = serial c ++ label ++ message
    else c' = c.
Proof.
  intros Hsh label message. unfold log, enabled, log_level. destruct (_ <=? _); [|by exists c].
  rewrite (surjective_pairing (log_label l)). fold label message.
  destruct (write_str_coloured_shows (vga c) t label (log_label l).2 Hsh) as (w1 & E1 & H1 & C1).
  destruct (write_str_coloured_shows w1 _ message (colour w1) H1) as (w2 & E2 & H2 & _).
  unfold bind, on_vga. rewrite E1. cbn [vga]. unfold write_str, bind, gets. rewrite E2.
  eexists. split; [done|]. cbn [vga serial]. rewrite C1 in H2. split; [done|]. by rewrite <- app_assoc.
Qed.

(** The macros of the kernel's own log. *)
Lemma log_macro_shows f l txt c t :
  shows (vga c) t -> exists c', log_macro f l txt c = Ret (tt, c') /\
    if match l with Debug_ => feature_debug f | Trace => feature_trace f | _ => true end
    then shows (vga c') (type_text (colour (vga c)) (txt ++ [10]) (type_text (log_label l).2 (log_label l).1 t)) /\
         serial c' = serial c ++ (log_label l).1 ++ txt ++ [10]
    else c' = c.
Proof.
  intros Hsh. unfold log_macro. destruct (match l with Debug_ => _ | _ => _ end); [|by exists c].
  rewrite (surjective_pairing (log_label l)). set (label := (log_label l).1).
  destruct (write_str_coloured_shows (vga c) t label (log_label l).2 Hsh) as (w1 & E1 & H1 & C1).
  destruct (write_str_coloured_shows w1 _ (txt ++ [10]) (colour w1) H1) as (w2 & E2 & H2 & _).
  unfold bind, on_vga. rewrite E1. cbn [vga]. unfold write_str, bind, gets. rewrite E2.
  eexists. split; [done|]. cbn [vga serial]. rewrite C1 in H2. split; [done|]. by rewrite <- !app_assoc.
Qed.

End terminal.

(** * Concrete instances *)

Definition example_writer : VgaWriter := VgaWriter_new (replicate 25 (pad Black [])).
Definition example_build : Build := {| overflow_checks := true |}.
#[local] Existing Instance example_build.

Lemma example_shows : shows Black example_writer (mkTerminal [] []).
Proof. split; try done. simpl. lia. Qed.

Lemma vga_is_a_terminal_witness : exists w,
  write_str_coloured [72; 105; 10; 33] ColourPair_default example_writer = Ret (tt, w) /\
  shows Black w (type_text ColourPair_default [72; 105; 10; 33] (mkTerminal [] [])).
Proof. apply (vga_is_a_terminal Black). apply example_shows. Defined.

Lemma log_correct_witness : exists c',
  log (mkFeatures false false) Info_ (chars "a") (chars "b") (mkConsole example_writer []) = Ret (tt, c') /\
  serial c' = chars "[info]  " ++ chars "a: b" ++ [10].
Proof.
  destruct (log_correct Black (mkFeatures false false) Info_ (chars "a") (chars "b")
    (mkConsole example_writer []) (mkTerminal [] []) example_shows) as (c' & E & _ & Hs).
  exists c'. split; [exact E|exact Hs].
Defined.
