(* ===== verification/Panic.v ===== *)
(** [kernel/src/lang.rs]: the panic handler and the handler of failed allocations, and
    [halt] of [kernel/src/lib.rs]. A formatted message is the list of the string slices
    its formatting hands to [write_str]. *)
From stdpp Require Import pretty.
From S2P Require Import Prelude Vga.

(** [core::panic::Location] *)
Record Location := mkLocation { loc_file : list Z; loc_line : Z }.

(** [core::panic::PanicInfo] *)
Record PanicInfo := mkPanicInfo { pi_message : option (list (list Z)); pi_location : option Location }.

(** [Display for u32] *)
Definition decimal (n : Z) : list Z := chars (pretty (Z.to_N n)).

(** The slices of the two [write!] calls. *)
Definition panic_pieces (info : PanicInfo) : list (list Z) :=
  let arguments := match pi_message info with
                   | Some args => args
                   | None => [chars "undefined"]
                   end in
  (chars "Panicked at " ++ [34]) :: arguments ++
  match pi_location info with
  | Some loc => [34 :: chars ", "; loc_file loc; chars ":"; decimal (loc_line loc)]
  | None => [34 :: chars " at an undefined location"]
  end.

(** [halt()]: interrupts are disabled and the processor stops for good. *)
Definition halt {St A} : M St A := fun _ => Stop Halted.

(** A second writer on the screen, next to the one behind the lock. *)
Definition with_new_writer {A} (f : M VgaWriter A) : M console A := fun c =>
  match f (VgaWriter_new (buffer (vga c))) with
  | Ret (a, w) => Ret (a, mkConsole (mkVgaWriter (buffer w) (cursor (vga c)) (colour (vga c))) (serial c))
  | Stop why => Stop why
  end.

Definition set_colour (col : ColourPair) : M VgaWriter unit :=
  modify (fun w => mkVgaWriter (buffer w) (cursor w) col).

Section panic.
Context `{B : Build}.

(** What [panic_fmt] does before it halts. *)
Definition panic_report (info : PanicInfo) : M console unit :=
  do! with_new_writer (
    do! set_colour (mkColourPair Red Black) in
    for_each (panic_pieces info) write_str) in
  for_each (panic_pieces info) serial_write.

Definition panic_fmt (info : PanicInfo) : M console unit :=
  do! panic_report info in halt.

(** The [alloc_error_handler]; [loc] is where its [panic!] is. *)
Definition oom (loc : Location) : M console unit :=
  panic_fmt (mkPanicInfo (Some [chars "Ran out of kernel heap memory"]) (Some loc)).

End panic.
