(* ===== verification/PanicTheorems.v ===== *)
(** The screen never fails: the operations of [VgaWriter] keep its shape and never panic,
    and so the panic handler always reports and halts. *)
From stdpp Require Import pretty.
From S2P Require Import Prelude Vga VgaTheorems Panic.

(** * The shape of the writer *)

Definition screen_ok (b : list (list VgaChar)) : Prop :=
  length b = 25%nat /\ Forall (fun r => length r = 80%nat) b.

Record writer_ok (w : VgaWriter) : Prop := {
  wo_screen : screen_ok (buffer w);
  wo_column : 0 <= (cursor w).1 < RESOLUTION_x;
  wo_row : 0 <= (cursor w).2 < RESOLUTION_y
}.

(** The call returns, and leaves a writer of the right shape and colour. *)
Definition safe (c : M VgaWriter unit) (w : VgaWriter) : Prop :=
  exists w', c w = Ret (tt, w') /\ writer_ok w' /\ colour w' = colour w.

Lemma safe_bind c (k : unit -> M VgaWriter unit) w :
  safe c w -> (forall w', writer_ok w' -> colour w' = colour w -> safe (k tt) w') -> safe (bind c k) w.
Proof.
  intros (w1 & E1 & H1 & C1) Hk. destruct (Hk w1 H1 C1) as (w2 & E2 & H2 & C2).
  exists w2. rewrite (bind_ret _ _ _ _ _ E1). split_and!; [done|done|congruence].
Qed.

Lemma safe_gets {A} (f : VgaWriter -> A) (k : A -> M VgaWriter unit) w : safe (k (f w)) w -> safe (bind (gets f) k) w.
Proof. done. Qed.
Lemma safe_lift {A} (a : A) (k : A -> M VgaWriter unit) w : safe (k a) w -> safe (bind (lift (Ret a)) k) w.
Proof. done. Qed.
Lemma safe_modify f (k : unit -> M VgaWriter unit) w w' : f w = w' -> colour w' = colour w -> safe (k tt) w' -> safe (bind (modify f) k) w.
Proof. intros <- Hc (w2 & E & H & C). exists w2. split_and!; [done|done|congruence]. Qed.

Lemma safe_for_each {A} (l : list A) (f : A -> M VgaWriter unit) w :
  writer_ok w -> (forall x w', x ∈ l -> writer_ok w' -> safe (f x) w') -> safe (for_each l f) w.
Proof.
  revert w. induction l as [|x l IH]; intros w Hw Hf; cbn [for_each]; [by exists w|].
  apply safe_bind; [apply Hf; [by left|done]|]. intros w' Hw' _. apply IH; [done|]. intros y w2 Hy. apply Hf. by right.
Qed.

Lemma screen_row b y : screen_ok b -> 0 <= y < 25 -> exists row, b !! Z.to_nat y = Some row /\ length row = 80%nat.
Proof.
  intros [Hl Hr] Hy. destruct (lookup_lt_is_Some_2 b (Z.to_nat y)) as [row E]; [lia|]. exists row. split; [done|].
  by eapply Forall_lookup_1 in Hr.
Qed.

Lemma screen_insert b y row : screen_ok b -> length row = 80%nat -> screen_ok (<[y := row]> b).
Proof. intros [Hl Hr] Hrow. split; [by rewrite length_insert|]. by apply Forall_insert. Qed.

Lemma set_char_ok w x y v : writer_ok w -> 0 <= x < 80 -> 0 <= y < 25 -> safe (buffer_set_char x y v) w.
Proof.
  intros [Hs Hc Hr] Hx Hy. destruct (screen_row _ y Hs Hy) as (row & E & Hl).
  eexists. split; [apply (buffer_set_char_row w x y row v E); lia|]. split; [|done]. split; try done.
  apply screen_insert; [done|]. by rewrite length_insert.
Qed.

Lemma clear_row_ok w y col : writer_ok w -> 0 <= y < 25 -> safe (clear_row y col) w.
Proof.
  intros Hw Hy. apply safe_for_each; [done|]. intros x w' Hx%elem_of_range_excl Hw'. by apply set_char_ok.
Qed.

Section writer.
Context `{B : Build}.

Lemma scroll_down_ok w amount : writer_ok w -> 0 <= amount <= 25 -> safe (scroll_down amount) w.
Proof.
  intros Hw Ha. unfold scroll_down, buffer_scroll_down. apply safe_gets, safe_bind.
  - destruct (_ <? _); [|by exists w]. eexists. split; [done|]. split; [|done]. destruct Hw as [[Hl Hr] Hc Hy].
    split; try done. cbn [buffer]. split.
    + rewrite length_app, length_drop, length_take. lia.
    + apply Forall_app. split; [by apply Forall_drop|by apply Forall_take].
  - intros w' Hw' _. apply safe_for_each; [done|]. intros row w2 Hrow%elem_of_range_excl Hw2.
    unfold RESOLUTION_y. rewrite sub64_small by lia. apply safe_lift, clear_row_ok; [done|lia].
Qed.

Lemma new_line_ok b x y col : screen_ok b -> 0 <= y < 25 -> safe new_line (mkVgaWriter b (x, y) col).
Proof.
  intros Hb Hy. unfold new_line. apply safe_gets. cbn [cursor snd]. unfold set_cursor.
  eapply safe_modify; [reflexivity|done|]. cbn [buffer colour]. destruct (0 <? y) eqn:E.
  - eexists. split; [done|]. split; [|done]. split; cbn [buffer cursor fst snd]; unfold RESOLUTION_x, RESOLUTION_y; [done|lia|lia].
  - apply (scroll_down_ok (mkVgaWriter b (0, y) col)); [|lia]. split; cbn [buffer cursor fst snd];
      unfold RESOLUTION_x, RESOLUTION_y; [done|lia|lia].
Qed.

Lemma write_coloured_ok w c col : writer_ok w -> safe (write_coloured c col) w.
Proof.
  intros Hw. destruct (Hw) as [Hs Hc Hr]. unfold RESOLUTION_x, RESOLUTION_y in *. unfold write_coloured. destruct (c =? 10).
  { destruct w as [b [x y] k]. by apply new_line_ok. }
  apply safe_gets, safe_bind.
  { unfold set_char, RESOLUTION_y. rewrite sub64_small by lia. apply safe_lift, set_char_ok; [done|lia|lia]. }
  intros w' Hw' Hk. rewrite add64_small by lia. apply safe_lift. unfold set_cursor.
  eapply safe_modify; [reflexivity|done|]. unfold RESOLUTION_x. destruct (80 <=? _) eqn:E.
  - apply (new_line_ok (buffer w')); [apply Hw'|done].
  - eexists. split; [done|]. split; [|done]. split; [apply Hw'| |]; cbn [cursor fst snd]; unfold RESOLUTION_x, RESOLUTION_y; lia.
Qed.

Lemma write_str_coloured_ok w txt col : writer_ok w -> safe (write_str_coloured txt col) w.
Proof. intros Hw. apply safe_for_each; [done|]. intros. by apply write_coloured_ok. Qed.

Lemma write_str_ok w txt : writer_ok w -> safe (write_str txt) w.
Proof. intros Hw. apply safe_gets. by apply write_str_coloured_ok. Qed.

(** C22: A writer on a screen of 25 rows of 80 characters has its cursor on the screen
    from the start, and every operation keeps that shape and never panics: no index is out
    of bounds and nothing overflows, whatever is written and wherever the cursor is, in
    builds with and without overflow checks. *)
Theorem vga_writer_well_formed :
  (forall screen, screen_ok screen -> writer_ok (VgaWriter_new screen)) /\
  (forall w c col, writer_ok w -> safe (write_coloured c col) w) /\
  (forall w txt col, writer_ok w -> safe (write_str_coloured txt col) w) /\
  (forall w txt, writer_ok w -> safe (write_str txt) w) /\
  (forall w amount, writer_ok w -> 0 <= amount <= RESOLUTION_y -> safe (scroll_down amount) w) /\
  (forall w, writer_ok w -> safe new_line w) /\
  (forall w, writer_ok w -> safe clear w) /\
  (forall w c col x y, writer_ok w -> 0 <= x < RESOLUTION_x -> 0 <= y < RESOLUTION_y -> safe (set_char c col (x, y)) w).
Proof.
  split_and!; auto using write_coloured_ok, write_str_coloured_ok, write_str_ok, scroll_down_ok.
  - intros screen Hs. split; [done|..]; cbn [cursor VgaWriter_new fst snd]; unfold RESOLUTION_x, RESOLUTION_y; lia.
  - intros [b [x y] col] [Hs Hc Hr]. by apply new_line_ok.
  - intros w Hw. apply safe_gets, safe_for_each; [done|].
    intros y w' Hy%elem_of_range_excl Hw'. by apply clear_row_ok.
  - intros w c col x y Hw Hx Hy. unfold set_char, RESOLUTION_x, RESOLUTION_y in *. cbn [fst snd].
    rewrite sub64_small by lia. apply safe_lift, set_char_ok; [done|lia|lia].
Qed.

End writer.

(** * The report *)

Definition panic_text (info : PanicInfo) : list Z := concat (panic_pieces info).

(** The character number [k] of the screen, row by row. *)
Definition cell_at (b : list (list VgaChar)) (k : nat) : option VgaChar := b !! (k / 80)%nat ≫= (.!! (k mod 80)%nat).

(** The cursor is on character [k]; rows are counted from below. *)
Definition cursor_at (k : nat) : Z * Z := (Z.of_nat (k mod 80), Z.of_nat (24 - k / 80)).

Section report.
Context `{B : Build}.

Lemma cell_at_insert b k j v row : (k < 2000)%nat -> screen_ok b -> b !! (k / 80)%nat = Some row ->
  cell_at (<[(k / 80)%nat := <[(k mod 80)%nat := v]> row]> b) j = if decide (j = k) then Some v else cell_at b j.
Proof.
  intros Hk [Hlen Hrows] Hrow. unfold cell_at.
  assert (length row = 80%nat) as Hr by (by eapply Forall_lookup_1 in Hrows).
  pose proof (Nat.mod_upper_bound k 80 ltac:(lia)). pose proof (Nat.div_mod_eq k 80). pose proof (Nat.div_mod_eq j 80).
  destruct (decide (j / 80 = k / 80)%nat) as [E|E].
  - rewrite E, list_lookup_insert_eq, Hrow by lia. cbn [mbind option_bind]. destruct (decide (j = k)) as [->|Hne].
    + apply list_lookup_insert_eq. lia.
    + apply list_lookup_insert_ne. lia.
  - rewrite list_lookup_insert_ne by lia. rewrite decide_False; [done|]. by intros ->.
Qed.

(** One character that is not a line break, before the last place of the screen. *)
Lemma write_coloured_at b k c col : (k < 1999)%nat -> screen_ok b -> c <> 10 -> exists row,
  b !! (k / 80)%nat = Some row /\
  write_coloured c col (mkVgaWriter b (cursor_at k) col) =
    Ret (tt, mkVgaWriter (<[(k / 80)%nat := <[(k mod 80)%nat := cell c col]> row]> b) (cursor_at (S k)) col).
Proof.
  intros Hk Hb Hc. pose proof (Nat.mod_upper_bound k 80 ltac:(lia)) as Hm. pose proof (Nat.div_mod_eq k 80) as Hd.
  destruct (screen_row b (Z.of_nat (k / 80)) Hb ltac:(lia)) as (row & Hrow & Hl). rewrite Nat2Z.id in Hrow.
  exists row. split; [done|]. unfold write_coloured. replace (c =? 10) with false by lia.
  unfold bind at 1, gets. cbn [cursor]. unfold set_char, RESOLUTION_y, cursor_at. cbn [fst snd].
  rewrite sub64_small by lia. msimp.
  replace (25 - 1 - Z.of_nat (24 - k / 80)) with (Z.of_nat (k / 80)) by lia.
  rewrite (bind_ret _ _ _ _ _ (buffer_set_char_row (mkVgaWriter b _ col) (Z.of_nat (k mod 80)) (Z.of_nat (k / 80)) row _
    ltac:(cbn [buffer]; by rewrite Nat2Z.id) ltac:(lia))).
  rewrite !Nat2Z.id. cbn [buffer cursor colour]. rewrite add64_small by lia. msimp.
  unfold bind at 1, set_cursor, modify, RESOLUTION_x. cbn [buffer cursor colour].
  destruct (80 <=? Z.of_nat (k mod 80) + 1) eqn:E.
  - unfold new_line, bind, gets, set_cursor, modify. cbn [cursor buffer colour snd].
    apply Z.leb_le in E. assert (k mod 80 = 79)%nat as Em by lia. assert (k / 80 < 24)%nat as Hq by lia.
    assert ((0 <? Z.of_nat (24 - k / 80)) = true) as -> by (apply Z.ltb_lt; lia).
    assert (S k / 80 = k / 80 + 1 /\ S k mod 80 = 0)%nat as [-> ->].
    { split; [symmetry; apply (Nat.div_unique _ _ _ 0)|symmetry; apply (Nat.mod_unique _ _ (k / 80 + 1))]; lia. }
    do 4 f_equal. lia.
  - apply Z.leb_gt in E. assert (S k / 80 = k / 80 /\ S k mod 80 = S (k mod 80))%nat as [-> ->].
    { split; [symmetry; apply (Nat.div_unique _ _ _ (S (k mod 80)))|symmetry; apply (Nat.mod_unique _ _ (k / 80))]; lia. }
    unfold ret. do 4 f_equal. lia.
Qed.

Lemma write_text_at txt b k col : (k + length txt < 2000)%nat -> screen_ok b -> 10 ∉ txt ->
  exists b', for_each txt (fun c => write_coloured c col) (mkVgaWriter b (cursor_at k) col) =
      Ret (tt, mkVgaWriter b' (cursor_at (k + length txt)) col) /\ screen_ok b' /\
    forall j, cell_at b' j = if decide (k <= j < k + length txt)%nat then (fun c => cell c col) <$> txt !! (j - k)%nat
                             else cell_at b j.
Proof.
  revert b k. induction txt as [|c txt IH]; intros b k Hk Hb Hn; cbn [length] in *.
  - exists b. rewrite Nat.add_0_r. split_and!; [done|done|]. intros j. by rewrite decide_False by lia.
  - apply not_elem_of_cons in Hn as [Hc Hn]. destruct (write_coloured_at b k c col ltac:(lia) Hb ltac:(done)) as (row & Hrow & E).
    set (b1 := <[_ := _]> b) in E. assert (screen_ok b1) as Hb1.
    { apply screen_insert; [done|]. rewrite length_insert. destruct Hb as [_ Hr]. by eapply Forall_lookup_1 in Hr. }
    destruct (IH b1 (S k) ltac:(lia) Hb1 Hn) as (b2 & E2 & Hb2 & Hcells). exists b2.
    cbn [for_each]. rewrite (bind_ret _ _ _ _ _ E), E2. split_and!; [by rewrite Nat.add_succ_comm|done|].
    intros j. rewrite Hcells. unfold b1. rewrite cell_at_insert by (done || lia).
    destruct (decide (j = k)) as [->|Hj].
    + rewrite decide_False, decide_True by lia. by rewrite Nat.sub_diag.
    + destruct (decide (S k <= j < S k + length txt)%nat).
      * rewrite decide_True by lia. by replace (j - k)%nat with (S (j - S k)) by lia.
      * by rewrite decide_False by lia.
Qed.

(** The slices one after the other are one text. *)
Lemma write_pieces l w : writer_ok w -> for_each l write_str w = for_each (concat l) (fun c => write_coloured c (colour w)) w.
Proof.
  revert w. induction l as [|p l IH]; intros w Hw; [done|]. cbn [for_each concat]. rewrite for_each_app.
  destruct (write_str_ok w p Hw) as (w1 & E & Hw1 & Hc). rewrite (bind_ret _ _ _ _ _ E).
  change (for_each p (fun c => write_coloured c (colour w)) w = Ret (tt, w1)) in E.
  rewrite (bind_ret _ _ _ _ _ E), IH by done. by rewrite Hc.
Qed.

Lemma serial_pieces l c : for_each l serial_write c = Ret (tt, mkConsole (vga c) (serial c ++ concat l)).
Proof.
  revert c. induction l as [|p l IH]; intros c; cbn [for_each concat].
  - rewrite app_nil_r. by destruct c.
  - rewrite (bind_ret (serial_write p) _ c tt (mkConsole (vga c) (serial c ++ p))) by done.
    rewrite IH. cbn [vga serial]. by rewrite app_assoc.
Qed.

Lemma panic_report_spec info c : screen_ok (buffer (vga c)) -> exists b,
  panic_report info c = Ret (tt, mkConsole (mkVgaWriter b (cursor (vga c)) (colour (vga c))) (serial c ++ panic_text info)) /\
  screen_ok b /\
  ((length (panic_text info) < 2000)%nat -> 10 ∉ panic_text info -> forall j, cell_at b j =
     if decide (j < length (panic_text info))%nat then (fun ch => cell ch (mkColourPair Red Black)) <$> panic_text info !! j
     else cell_at (buffer (vga c)) j).
Proof.
  intros Hs. set (red := mkColourPair Red Black). set (w := mkVgaWriter (buffer (vga c)) (0, RESOLUTION_y - 1) red).
  assert (writer_ok w) as Hw by (split; cbn [buffer cursor fst snd w]; unfold RESOLUTION_x, RESOLUTION_y; [done|lia|lia]).
  pose proof (safe_for_each (panic_pieces info) write_str w Hw (fun p w' _ Hw' => write_str_ok w' p Hw')) as (w' & E & Hw' & _).
  exists (buffer w'). split_and!.
  - unfold panic_report.
    assert (with_new_writer (do! set_colour red in for_each (panic_pieces info) write_str) c =
      Ret (tt, mkConsole (mkVgaWriter (buffer w') (cursor (vga c)) (colour (vga c))) (serial c))) as Ew.
    { unfold with_new_writer. change (VgaWriter_new (buffer (vga c))) with (mkVgaWriter (buffer (vga c)) (0, RESOLUTION_y - 1) (mkColourPair White Black)).
      rewrite (bind_ret (set_colour red) _ _ tt w) by done. by rewrite E. }
    rewrite (bind_ret _ _ _ _ _ Ew). by rewrite serial_pieces.
  - apply Hw'.
  - intros Hlen Hnl j. rewrite write_pieces in E by done.
    destruct (write_text_at (panic_text info) (buffer (vga c)) 0 red Hlen Hs Hnl) as (b & Eb & _ & Hcells).
    assert (w' = mkVgaWriter b (cursor_at (length (panic_text info))) red) as ->.
    { change (for_each (panic_text info) (fun ch => write_coloured ch red) w = Ret (tt, w')) in E.
      change (mkVgaWriter (buffer (vga c)) (cursor_at 0) red) with w in Eb. rewrite E in Eb. by injection Eb. }
    cbn [buffer]. rewrite Hcells, Nat.sub_0_r. by repeat case_decide; try lia.
Qed.

(** C23: The panic handler cannot fail: whatever the message, the place and the screen are
    (and wherever the kernel's own writer is), it writes its report to the serial port and
    halts, with the kernel's writer as it was. A report without line breaks that
    fits on the screen replaces its first characters, in red on black, and no other. *)
Theorem panic_fmt_correct info c : screen_ok (buffer (vga c)) ->
  panic_fmt info c = Stop Halted /\
  exists c', panic_report info c = Ret (tt, c') /\ serial c' = serial c ++ panic_text info /\
    cursor (vga c') = cursor (vga c) /\ colour (vga c') = colour (vga c) /\ screen_ok (buffer (vga c')) /\
    ((length (panic_text info) < 2000)%nat -> 10 ∉ panic_text info -> forall j, cell_at (buffer (vga c')) j =
       if decide (j < length (panic_text info))%nat then (fun ch => cell ch (mkColourPair Red Black)) <$> panic_text info !! j
       else cell_at (buffer (vga c)) j).
Proof.
  intros Hs. destruct (panic_report_spec info c Hs) as (b & E & Hb & Hcells). split.
  - unfold panic_fmt. by rewrite (bind_ret _ _ _ _ _ E).
  - eexists. split; [exact E|]. by split_and!.
Qed.

End report.

(** * Concrete instances *)

Definition example_panic : PanicInfo :=
  mkPanicInfo (Some [chars "no more frames"]) (Some (mkLocation (chars "remap.rs") 19)).

Lemma panic_fmt_correct_witness :
  panic_fmt (B := example_build) example_panic (mkConsole example_writer []) = Stop Halted /\
  exists c', panic_report (B := example_build) example_panic (mkConsole example_writer []) = Ret (tt, c') /\
    serial c' = chars "Panicked at " ++ [34] ++ chars "no more frames" ++ [34] ++ chars ", remap.rs:19" /\
    cell_at (buffer (vga c')) 0 = Some (cell 80 (mkColourPair Red Black)).
Proof.
  assert (screen_ok (buffer (vga (mkConsole example_writer [])))) as Hs.
  { split; [reflexivity|]. apply list.Forall_forall. intros r Hr%elem_of_replicate. destruct Hr as [-> _]. reflexivity. }
  destruct (panic_fmt_correct (B := example_build) example_panic (mkConsole example_writer []) Hs)
    as (E & c' & E' & Hser & _ & _ & _ & Hc).
  split; [exact E|]. exists c'. split; [exact E'|]. split; [rewrite Hser; vm_compute; reflexivity|].
  rewrite Hc; [|apply Nat.ltb_lt; vm_compute; reflexivity|]; [vm_compute; reflexivity|].
  apply (bool_decide_eq_true_1 _). vm_compute. reflexivity.
Defined.

Lemma vga_writer_well_formed_witness : exists w,
  write_str (B := example_build) (chars "hello") example_writer = Ret (tt, w) /\ writer_ok w.
Proof.
  assert (screen_ok (replicate 25 (pad Black []))) as Hs.
  { split; [reflexivity|]. apply list.Forall_forall. intros r Hr%elem_of_replicate. destruct Hr as [-> _]. reflexivity. }
  pose proof (vga_writer_well_formed (B := example_build)) as (Hnew & _ & _ & Hstr & _).
  destruct (Hstr example_writer (chars "hello") (Hnew _ Hs)) as (w & E & Hw & _). exists w. split; [exact E|exact Hw].
Defined.
