(* ===== verification/Cpu.v ===== *)
(** The processor's tables and registers: [kernel/src/tss.rs], [kernel/src/gdt.rs],
    [setup_syscall] of [kernel/src/syscall.rs], [enable_features] of
    [kernel/src/lib.rs] and [jump_usermode] of [kernel/src/process.rs]. *)
From S2P Require Import Prelude Crates Machine Paging FrameAlloc Layout PageMap BootstrapHeap Friendly.
From S2P Require Import PhysicalAllocator Heap ActivePageMap MemoryInit.

(** * [tss.rs] *)

Record IoPermissionsBitMap := mkIopb {
  iomap : list Z;      (** 8192 bytes *)
  always_ff : Z
}.

(** [IoPermissionsBitMap::new], [IoPermissionsBitMap::default] *)
Definition Iopb_new (iomap : list Z) : IoPermissionsBitMap := mkIopb iomap 0xff.
Definition Iopb_default : IoPermissionsBitMap := Iopb_new (replicate (Z.to_nat 8192) 0xff).

Section iopb.
Context `{F : BitFieldCrate}.

(** [self.iomap[port / 8].swap_bit(port % 8, !usable)] *)
Definition swap_port (port : Z) (usable : bool) : M IoPermissionsBitMap unit := fun b =>
  let byte_idx := port / 8 in
  let bit := port mod 8 in
  match iomap b !! Z.to_nat byte_idx with
  | Some x => Ret (tt, mkIopb (<[Z.to_nat byte_idx := set_bit x bit (negb usable)]> (iomap b)) (always_ff b))
  | None => Stop (Panic "index out of bounds")
  end.

Definition set_port_range_usable (first last : Z) (usable : bool) : M IoPermissionsBitMap unit :=
  do! assert_m (last / 8 <? 8192) "Port out of bounds" in
  for_each (range_incl first last) (fun port => swap_port port usable).

Definition set_port_usable (port : Z) (usable : bool) : M IoPermissionsBitMap unit :=
  do! assert_m (port / 8 <? 8192) "Port out of bounds" in
  swap_port port usable.

Definition set_ports_usable (ports : list Z) (usable : bool) : M IoPermissionsBitMap unit :=
  for_each ports (fun port => set_port_usable port usable).

Definition is_port_usable (port : Z) : M IoPermissionsBitMap bool :=
  do! assert_m (port / 8 <? 8192) "Port out of bounds" in
  fun b =>
    match iomap b !! Z.to_nat (port / 8) with
    | Some x => Ret (negb (get_bit x (port mod 8)), b)
    | None => Stop (Panic "index out of bounds")
    end.

End iopb.

Record IopbLock := mkIopbLock { iopb : IoPermissionsBitMap; locked : bool }.

(** [lock_or_panic()] followed by a call through the guard, which is dropped after it. *)
Definition lock_or_panic {A} (c : M IoPermissionsBitMap A) : M IopbLock A := fun l =>
  if locked l then Stop (Panic "IO permissions bitmap concurrently locked!") else
  match c (iopb l) with
  | Ret (a, b) => Ret (a, mkIopbLock b false)
  | Stop w => Stop w
  end.

(** The 8193 bytes from the start of the lock. *)
Definition as_slice (l : IopbLock) : list Z := iomap (iopb l) ++ [always_ff (iopb l)].

(** The size of the processor's task state segment, which the bit map follows. *)
Definition TASK_STATE_SEGMENT_BYTES : Z := 104.

Record Tss := mkTss { tss : TssStacks; iomap_base : Z; tss_iomap : IopbLock }.

Definition Tss_new (t : TssStacks) : Tss :=
  mkTss t (wrap 16 TASK_STATE_SEGMENT_BYTES) (mkIopbLock Iopb_default false).

(** * [gdt.rs] *)

(** Bits of a segment descriptor. *)
Definition SEG_WRITABLE : Z := Z.shiftl 1 41.
Definition SEG_EXECUTABLE : Z := Z.shiftl 1 43.
Definition USER_SEGMENT : Z := Z.shiftl 1 44.
Definition DPL_RING_3 : Z := Z.shiftl 3 45.
Definition SEG_PRESENT : Z := Z.shiftl 1 47.
Definition LONG_MODE : Z := Z.shiftl 1 53.

Inductive Descriptor := UserSegment (bits : Z) | SystemSegment.

Definition descriptor_slots (d : Descriptor) : Z :=
  match d with UserSegment _ => 1 | SystemSegment => 2 end.

Definition descriptor_rpl (d : Descriptor) : Z :=
  match d with
  | UserSegment bits => if Z.land bits DPL_RING_3 =? DPL_RING_3 then 3 else 0
  | SystemSegment => 0
  end.

(** [GlobalDescriptorTable] of the [x86_64] crate: eight slots, the first one null. A
    table is represented by the descriptors added to it. *)
Class GdtCrate := {
  GlobalDescriptorTable : Type;
  gdt_new : GlobalDescriptorTable;
  add_entry : Descriptor -> M GlobalDescriptorTable Z;
  gdt_next : GlobalDescriptorTable -> Z;
  kernel_code_segment : Descriptor;
  (** [Star::write(cs_sysret, ss_sysret, cs_syscall, ss_syscall)]: the two selectors
      the register holds, or the error. *)
  Star_write : Z -> Z -> Z -> Z -> result (Z * Z) unit;
  gdt_new_next : gdt_next gdt_new = 1;
  (** The selector's index is the first free slot, its privilege level that of the
      descriptor. *)
  add_entry_spec d t : gdt_next t + descriptor_slots d <= 8 ->
    exists t', add_entry d t = Ret (8 * gdt_next t + descriptor_rpl d, t') /\
      gdt_next t' = gdt_next t + descriptor_slots d;
  kernel_code_segment_spec :
    exists bits, kernel_code_segment = UserSegment bits /\ Z.land bits DPL_RING_3 = 0;
  (** Fails unless the selectors are as far apart as [syscall] and [sysret] assume and
      have the privilege level 3, respectively 0. *)
  Star_write_ok cu su ck sk :
    cu - 16 = su - 8 -> ck = sk - 8 -> Z.land su 3 = 3 -> Z.land sk 3 = 0 ->
    Star_write cu su ck sk = Ok (su - 8, ck)
}.

Record Selectors := mkSelectors {
  kernel_cs : Z; kernel_ds : Z; user_cs : Z; user_ds : Z; tss_selector : Z
}.

Section gdt.
Context `{G : GdtCrate}.

Record Gdt := mkGdt { table : GlobalDescriptorTable; selectors : Selectors }.

Definition kernel_ds_descriptor : Descriptor :=
  UserSegment (Z.lor (Z.lor USER_SEGMENT SEG_PRESENT) (Z.shiftl 1 41)).
Definition user_ds_descriptor : Descriptor :=
  UserSegment (Z.lor (Z.lor (Z.lor USER_SEGMENT SEG_PRESENT) DPL_RING_3) SEG_WRITABLE).
Definition user_cs_descriptor : Descriptor :=
  UserSegment (Z.lor (Z.lor (Z.lor (Z.lor USER_SEGMENT SEG_PRESENT) SEG_EXECUTABLE) LONG_MODE) DPL_RING_3).

(** The initialiser of [GDT]; [TSS.wait().unwrap()] needs the task state segment. *)
Definition GDT (t : option Tss) : res Gdt :=
  match t with
  | None => Stop (Panic "unwrap")
  | Some _ =>
      let? r := (let! tss := add_entry SystemSegment in
                 let! kernel_cs := add_entry kernel_code_segment in
                 let! kernel_ds := add_entry kernel_ds_descriptor in
                 let! user_ds := add_entry user_ds_descriptor in
                 let! user_cs := add_entry user_cs_descriptor in
                 ret (mkSelectors kernel_cs kernel_ds user_cs user_ds tss)) gdt_new in
      Ret (mkGdt r.2 r.1)
  end.

(** * Registers *)

Record cpu := mkCpu {
  cs : Z; ss : Z; ds : Z; es : Z; fs : Z; gs : Z; tr : Z;
  efer : Z;
  star : Z * Z;       (** selectors that [sysret] and [syscall] start from *)
  lstar : Z;
  sfmask : Z;
  SYSCALL_STACK : Z;
  cr0 : Z;
  cr4 : Z
}.

(** [gdt::init] *)
Definition gdt_init (t : option Tss) : M cpu unit := fun c =>
  let? g := GDT t in
  let s := selectors g in
  Ret (tt, mkCpu (kernel_cs s) (kernel_ds s) (kernel_ds s) (kernel_ds s) (kernel_ds s) (kernel_ds s)
             (tss_selector s) (efer c) (star c) (lstar c) (sfmask c) (SYSCALL_STACK c) (cr0 c) (cr4 c)).

Definition SYSTEM_CALL_EXTENSIONS : Z := 1.
Definition INTERRUPT_FLAG : Z := Z.shiftl 1 9.

(** [syscall_callback] is the address of the entry point. *)
Definition setup_syscall `{X : X86_64Crate} (syscall_callback : Z) (t : option Tss) : M cpu unit := fun c =>
  match t with
  | None => Stop (Panic "unwrap")
  | Some tss_ =>
      let? lstar := VirtAddr_new syscall_callback in
      let? g := GDT t in
      let s := selectors g in
      match Star_write (user_cs s) (user_ds s) (kernel_cs s) (kernel_ds s) with
      | Err _ => Stop (Panic "unwrap")
      | Ok star =>
          Ret (tt, mkCpu (cs c) (ss c) (ds c) (es c) (fs c) (gs c) (tr c)
                     (Z.lor (efer c) SYSTEM_CALL_EXTENSIONS) star lstar INTERRUPT_FLAG
                     (privilege_stack_0 (tss tss_)) (cr0 c) (cr4 c))
      end
  end.

End gdt.

(** [enable_features]: clears [EMULATE_COPROCESSOR], sets [MONITOR_COPROCESSOR],
    [OSFXSR] and [OSXMMEXCPT_ENABLE]. *)
Definition enable_features : M cpu unit := modify (fun c =>
  mkCpu (cs c) (ss c) (ds c) (es c) (fs c) (gs c) (tr c) (efer c) (star c) (lstar c) (sfmask c)
    (SYSCALL_STACK c) (Z.lor (Z.ldiff (cr0 c) (Z.shiftl 1 2)) (Z.shiftl 1 1))
    (Z.lor (cr4 c) (Z.lor (Z.shiftl 1 9) (Z.shiftl 1 10)))).

(** The frame [jump_usermode] pushes for [iretq], with the selectors it hard-codes, and what it loads
    into [ds], [es], [fs] and [gs]; [rflags] is the flags register that [pushfq] pushes. *)
Record iret_frame := mkIret {
  iret_rip : Z; iret_cs : Z; iret_rflags : Z; iret_rsp : Z; iret_ss : Z; data_segments : list Z
}.

Definition jump_usermode (rflags stack_ptr instruction_ptr : Z) : iret_frame :=
  mkIret instruction_ptr 0x33 rflags stack_ptr 0x2b [0x2b; 0x2b; 0x2b; 0x2b].

(** What the processor loads into [cs] and [ss] on [syscall] and on [sysretq]. *)
Definition syscall_selectors (c : cpu) : Z * Z := ((star c).2, (star c).2 + 8).
Definition sysret_selectors (c : cpu) : Z * Z :=
  (Z.lor ((star c).1 + 16) 3, Z.lor ((star c).1 + 8) 3).
