(* ===== verification/CpuTheorems.v ===== *)
(** The properties of the I/O permission bitmap and of the segment selectors. *)
From S2P Require Import Prelude Crates Machine MemoryInit Cpu.

(** * I/O permissions *)

Section iopb.
Context `{F : BitFieldCrate}.

(** A bitmap of 65536 ports, with its terminator. *)
Definition iopb_ok (b : IoPermissionsBitMap) : Prop :=
  length (iomap b) = Z.to_nat 8192 /\ always_ff b = 0xff.

Definition port (p : Z) : Prop := 0 <= p < 65536.

(** What the processor reads: a clear bit allows the access. *)
Definition usable (b : IoPermissionsBitMap) (p : Z) : bool :=
  negb (Z.testbit (default 0 (iomap b !! Z.to_nat (p / 8))) (p mod 8)).

Lemma port_byte b p : iopb_ok b -> port p -> exists x, iomap b !! Z.to_nat (p / 8) = Some x.
Proof.
  intros [Hl _] Hp. apply lookup_lt_is_Some_2. rewrite Hl. unfold port in Hp.
  apply Z2Nat.inj_lt; [apply Z.div_pos; lia|lia|apply Z.div_lt_upper_bound; lia].
Qed.

Lemma port_bit p : 0 <= p mod 8 < 8.
Proof. by apply Z.mod_pos_bound. Qed.

Lemma is_port_usable_spec b p : iopb_ok b -> port p -> is_port_usable p b = Ret (usable b p, b).
Proof.
  intros Hb Hp. unfold is_port_usable, port in *.
  replace (p / 8 <? 8192) with true by (symmetry; apply Z.ltb_lt, Z.div_lt_upper_bound; lia).
  rewrite bind_assert_true. destruct (port_byte b p Hb Hp) as [x Hx]. unfold usable.
  rewrite Hx. cbn. by rewrite get_bit_spec by apply port_bit.
Qed.

Lemma swap_port_spec b p u : iopb_ok b -> port p -> exists b',
  swap_port p u b = Ret (tt, b') /\ iopb_ok b' /\
  forall q, port q -> usable b' q = if q =? p then u else usable b q.
Proof.
  intros Hb Hp. pose proof Hb as [Hl Hff]. destruct (port_byte b p Hb Hp) as [x Hx].
  unfold swap_port. rewrite Hx. eexists. split; [done|]. split.
  { split; cbn [iomap always_ff]; [by rewrite length_insert|done]. }
  intros q Hq. unfold usable. cbn [iomap]. pose proof (port_bit p). pose proof (port_bit q).
  rewrite set_bit_spec by done. destruct (Z.eqb_spec q p) as [->|Hne].
  { rewrite list_lookup_insert_eq by (by eapply lookup_lt_Some). cbn [default from_option id].
    destruct u; cbn [negb]; [by rewrite Z.clearbit_eq|by rewrite Z.setbit_eq by lia]. }
  destruct (decide (Z.to_nat (q / 8) = Z.to_nat (p / 8))) as [He|He].
  - rewrite He, list_lookup_insert_eq by (by eapply lookup_lt_Some).
    assert (q / 8 = p / 8) as Hd by (apply Z2Nat.inj; [apply Z.div_pos..|]; unfold port in *; lia || done).
    assert (p mod 8 <> q mod 8).
    { intros Hm. apply Hne. rewrite (Z.div_mod q 8), (Z.div_mod p 8) by done. congruence. }
    rewrite Hx. cbn [default from_option id].
    destruct u; cbn [negb]; [by rewrite Z.clearbit_neq|by rewrite Z.setbit_neq by lia].
  - by rewrite list_lookup_insert_ne by done.
Qed.

Lemma swap_ports_spec l u b :
  iopb_ok b -> Forall port l -> exists b',
    for_each l (fun p => swap_port p u) b = Ret (tt, b') /\ iopb_ok b' /\
    forall q, port q -> usable b' q = if bool_decide (q ∈ l) then u else usable b q.
Proof.
  revert b. induction l as [|p l IH]; intros b Hb Hl; cbn [for_each]; [by exists b|].
  apply list.Forall_cons in Hl as [Hp Hl]. destruct (swap_port_spec b p u Hb Hp) as (b1 & E1 & Hb1 & H1).
  destruct (IH b1 Hb1 Hl) as (b2 & E2 & Hb2 & H2). exists b2. rewrite (bind_ret _ _ _ _ _ E1).
  split_and!; [done|done|]. intros q Hq. rewrite H2, H1 by done.
  destruct (Z.eqb_spec q p) as [->|Hne].
  - rewrite (bool_decide_true (p ∈ p :: l)) by set_solver. by destruct (bool_decide _).
  - by rewrite (bool_decide_ext (q ∈ p :: l) (q ∈ l)) by set_solver.
Qed.

(** C30: [set_port_range_usable] gives exactly the ports of the range the permission asked
    for and leaves every other port's permission and the terminating byte alone;
    [is_port_usable] reads the permission the processor uses; a new bitmap allows no
    port, and the processor is given the 8192 bytes followed by [0xff]. *)
Theorem iopb_correct b first last u :
  iopb_ok b -> 0 <= first -> last < 65536 ->
  (exists b', set_port_range_usable first last u b = Ret (tt, b') /\ iopb_ok b' /\
     forall p, port p ->
       is_port_usable p b' = Ret (if (first <=? p) && (p <=? last) then u else usable b p, b')) /\
  iopb_ok Iopb_default /\ (forall p, port p -> usable Iopb_default p = false) /\
  as_slice (mkIopbLock b false) !! Z.to_nat 8192 = Some 0xff.
Proof.
  intros Hb Hf Hl. split_and!.
  - unfold set_port_range_usable.
    replace (last / 8 <? 8192) with true by (symmetry; apply Z.ltb_lt, Z.div_lt_upper_bound; lia).
    msimp. destruct (swap_ports_spec (range_incl first last) u b Hb) as (b' & E & Hb' & H).
    { apply list.Forall_forall. intros p Hp%elem_of_range_incl. unfold port. lia. }
    exists b'. split_and!; [done|done|]. intros p Hp. rewrite is_port_usable_spec, H by done.
    do 2 f_equal. replace (bool_decide (p ∈ range_incl first last)) with ((first <=? p) && (p <=? last)); [done|].
    destruct (bool_decide_reflect (p ∈ range_incl first last)) as [Hin|Hin];
      rewrite elem_of_range_incl in Hin; lia.
  - split; [apply length_replicate|done].
  - intros p Hp. unfold usable. destruct (port_byte Iopb_default p) as [x Hx]; [|done|].
    { split; [apply length_replicate|done]. }
    rewrite Hx. apply lookup_replicate in Hx as [-> _]. cbn [default from_option id].
    change 0xff with (Z.ones 8). by rewrite Z.ones_spec_low by apply port_bit.
  - destruct Hb as [Hlen Hff]. unfold as_slice. cbn [iopb].
    rewrite lookup_app_r by lia. rewrite Hlen, Nat.sub_diag. by rewrite Hff.
Qed.

End iopb.

(** * Selectors *)

Section selectors.
Context `{G : GdtCrate} `{X : X86_64Crate}.

Lemma add_entry_at d t n : gdt_next t = n -> n + descriptor_slots d <= 8 ->
  exists t', add_entry d t = Ret (8 * n + descriptor_rpl d, t') /\ gdt_next t' = n + descriptor_slots d.
Proof. intros <-. apply add_entry_spec. Qed.

Lemma GDT_spec t : exists tb, GDT (Some t) = Ret (mkGdt tb (mkSelectors 0x18 0x20 0x33 0x2b 0x08)).
Proof.
  destruct kernel_code_segment_spec as (bits & Hk & Hb).
  destruct (add_entry_at SystemSegment gdt_new 1 gdt_new_next) as (t1 & E1 & N1); [done|].
  destruct (add_entry_at kernel_code_segment t1 3 N1) as (t2 & E2 & N2); [by rewrite Hk|].
  assert (descriptor_slots kernel_code_segment = 1 /\ descriptor_rpl kernel_code_segment = 0) as [Hs Hr].
  { rewrite Hk. cbn [descriptor_slots descriptor_rpl]. by rewrite Hb. }
  rewrite Hs in N2. rewrite Hr in E2.
  destruct (add_entry_at kernel_ds_descriptor t2 4 N2) as (t3 & E3 & N3); [done|].
  destruct (add_entry_at user_ds_descriptor t3 5 N3) as (t4 & E4 & N4); [done|].
  destruct (add_entry_at user_cs_descriptor t4 6 N4) as (t5 & E5 & N5); [done|].
  exists t5. unfold GDT. rewrite (bind_ret _ _ _ _ _ E1), (bind_ret _ _ _ _ _ E2), (bind_ret _ _ _ _ _ E3),
    (bind_ret _ _ _ _ _ E4), (bind_ret _ _ _ _ _ E5). done.
Qed.

Lemma selectors_spec t c callback rflags sp ip :
  0 <= callback < 2 ^ 64 -> canonical callback = true ->
  exists c1 c2, gdt_init (Some t) c = Ret (tt, c1) /\
    setup_syscall callback (Some t) c1 = Ret (tt, c2) /\
    syscall_selectors c2 = (cs c1, ss c1) /\ Z.land (cs c1) 3 = 0 /\
    sysret_selectors c2 = (iret_cs (jump_usermode rflags sp ip), iret_ss (jump_usermode rflags sp ip)) /\
    Z.land (iret_cs (jump_usermode rflags sp ip)) 3 = 3 /\
    lstar c2 = callback /\ Z.testbit (sfmask c2) 9 = true /\
    SYSCALL_STACK c2 = privilege_stack_0 (tss t).
Proof.
  intros Hc Hcan. destruct (GDT_spec t) as [tb Hg]. unfold gdt_init, setup_syscall. rewrite Hg.
  destruct (VirtAddr_new_spec callback) as [m Hv].
  rewrite VirtAddr_try_new_ok in Hv by auto. cbn [rbind]. rewrite Hv.
  apply Z.eqb_eq in Hcan. rewrite Hcan.
  cbn [rbind selectors user_cs user_ds kernel_cs kernel_ds]. rewrite Star_write_ok by done.
  eexists _, _. split; [done|]. split; [done|]. by split_and!.
Qed.

(** the selectors fit together. [gdt::init] loads the kernel's segments, and after
    [setup_syscall], which does not panic, [syscall] enters the kernel with exactly
    those code and stack segments, interrupts masked and the stack of [setup_ist],
    while [sysretq] returns to the code and stack segments of privilege level 3 that
    [jump_usermode] enters a process with. *)
Theorem selectors_consistent t c callback rflags sp ip :
  0 <= callback < 2 ^ 64 -> canonical callback = true ->
  exists c1 c2, gdt_init (Some t) c = Ret (tt, c1) /\
    setup_syscall callback (Some t) c1 = Ret (tt, c2) /\
    syscall_selectors c2 = (cs c1, ss c1) /\ Z.land (cs c1) 3 = 0 /\
    sysret_selectors c2 = (iret_cs (jump_usermode rflags sp ip), iret_ss (jump_usermode rflags sp ip)) /\
    Z.land (iret_cs (jump_usermode rflags sp ip)) 3 = 3 /\
    lstar c2 = callback /\ Z.testbit (sfmask c2) 9 = true /\
    SYSCALL_STACK c2 = privilege_stack_0 (tss t).
Proof. apply selectors_spec. Qed.

End selectors.

(** * Concrete instances *)

(** A table as the number of its first free slot. *)
Program Definition gdt_example : GdtCrate := {|
  GlobalDescriptorTable := Z;
  gdt_new := 1;
  gdt_next t := t;
  add_entry d t :=
    if t + descriptor_slots d <=? 8 then Ret (8 * t + descriptor_rpl d, t + descriptor_slots d)
    else Stop (Panic "GDT full");
  kernel_code_segment := UserSegment (Z.lor (Z.lor (Z.lor USER_SEGMENT SEG_PRESENT) SEG_EXECUTABLE) LONG_MODE);
  Star_write cu su ck sk :=
    if (cu - 16 =? su - 8) && (ck =? sk - 8) && (Z.land su 3 =? 3) && (Z.land sk 3 =? 0)
    then Ok (su - 8, ck) else Err tt
|}.
Next Obligation. done. Qed.
Next Obligation. intros d t Ht. simpl in *. replace (_ <=? 8) with true by lia. eauto. Qed.
Next Obligation. eexists. split; [done|]. done. Qed.
Next Obligation.
  intros cu su ck sk H1 H2 H3 H4. simpl. rewrite H1, H2, H3, H4, !Z.eqb_refl. done.
Qed.

#[local] Existing Instance gdt_example.
#[local] Existing Instance x86_64_example.
#[local] Existing Instance bit_field_example.

Lemma default_iopb_ok : iopb_ok Iopb_default.
Proof. split; [apply length_replicate|done]. Qed.

Lemma iopb_correct_witness : exists b',
  set_port_range_usable 0x3f8 0x3ff true Iopb_default = Ret (tt, b') /\
  is_port_usable 0x3f9 b' = Ret (true, b').
Proof.
  destruct (iopb_correct Iopb_default 0x3f8 0x3ff true default_iopb_ok ltac:(lia) ltac:(lia))
    as ((b' & E & _ & H) & _).
  exists b'. split; [exact E|]. apply (H 0x3f9). unfold port. lia.
Defined.

Definition example_tss : Tss := Tss_new (mkTssStacks [] 0xffffffff90008000).
Definition example_cpu : cpu := mkCpu 0 0 0 0 0 0 0 0 (0, 0) 0 0 0 0 0.

Lemma selectors_consistent_witness : exists c1 c2,
  gdt_init (Some example_tss) example_cpu = Ret (tt, c1) /\
  setup_syscall 0xffffffff80001000 (Some example_tss) c1 = Ret (tt, c2) /\
  sysret_selectors c2 = (0x33, 0x2b).
Proof.
  destruct (selectors_consistent example_tss example_cpu 0xffffffff80001000 0x202 0x7fffffffe000 0x400000
    ltac:(lia) ltac:(by vm_compute)) as (c1 & c2 & E1 & E2 & _ & _ & Hs & _).
  exists c1, c2. by split_and!.
Defined.
