(* ===== verification/Bytes.v ===== *)
(** Byte accesses to the memory of [Machine.v], and the UTF-8 decoding and encoding of
    Rust's [str]. *)
From S2P Require Import Prelude Crates Machine.

(** * Bytes of a word *)

(** Byte [i] of the little-endian word [w], and the word with that byte replaced. *)
Definition get_byte (w i : Z) : Z := Z.land (Z.shiftr w (8 * i)) 0xFF.
Definition put_byte (w i v : Z) : Z :=
  Z.lor (Z.ldiff w (Z.shiftl 0xFF (8 * i))) (Z.shiftl (Z.land v 0xFF) (8 * i)).

(** The byte at a physical address. *)
Definition mem_byte (m : gmap Z Z) (pa : Z) : Z := get_byte (word m (pa - pa mod 8)) (pa mod 8).
Definition set_mem_byte (m : gmap Z Z) (pa v : Z) : gmap Z Z :=
  <[pa - pa mod 8 := put_byte (word m (pa - pa mod 8)) (pa mod 8) v]> m.

Section access.
Context {P : Type}.

Definition vread8 (va : Z) : M (machine P) Z := fun s =>
  match mmu_walk (mem s) (cr3 s) va with
  | Some (pa, _) => Ret (mem_byte (mem s) pa, s)
  | None => Stop (PageFault va)
  end.

Definition vwrite8 (va v : Z) : M (machine P) unit := fun s =>
  match mmu_walk (mem s) (cr3 s) va with
  | Some (pa, w) =>
      if w || negb (cr0_wp s) then Ret (tt, set_mem (set_mem_byte (mem s) pa v) s)
      else Stop (PageFault va)
  | None => Stop (PageFault va)
  end.

(** The bytes from [va] on. *)
Fixpoint read_bytes (va : Z) (n : nat) : M (machine P) (list Z) :=
  match n with
  | O => ret []
  | S n =>
      let! b := vread8 va in
      let! bs := read_bytes (va + 1) n in
      ret (b :: bs)
  end.

Fixpoint write_bytes (va : Z) (bs : list Z) : M (machine P) unit :=
  match bs with
  | [] => ret tt
  | b :: bs => do! vwrite8 va b in write_bytes (va + 1) bs
  end.

End access.

(** * UTF-8 *)

(** A Unicode scalar value, Rust's [char]. *)
Definition scalar (c : Z) : bool :=
  (0 <=? c) && (c <? 0x110000) && negb ((0xD800 <=? c) && (c <? 0xE000)).

Definition cont (b : Z) : bool := (0x80 <=? b) && (b <? 0xC0).

(** [core::str::from_utf8] followed by [chars()]: [None] for a sequence that is not
    UTF-8 (overlong forms, surrogates and values beyond [0x10FFFF] included). *)
Fixpoint from_utf8 (l : list Z) : option (list Z) :=
  match l with
  | [] => Some []
  | b0 :: l1 =>
      if b0 <? 0x80 then cons b0 <$> from_utf8 l1 else
      match l1 with
      | [] => None
      | b1 :: l2 =>
          if (0xC2 <=? b0) && (b0 <? 0xE0) then
            if cont b1 then cons ((b0 - 0xC0) * 64 + (b1 - 0x80)) <$> from_utf8 l2 else None
          else
          match l2 with
          | [] => None
          | b2 :: l3 =>
              if (0xE0 <=? b0) && (b0 <? 0xF0) then
                let c := (b0 - 0xE0) * 4096 + (b1 - 0x80) * 64 + (b2 - 0x80) in
                if cont b1 && cont b2 && (0x800 <=? c) && scalar c
                then cons c <$> from_utf8 l3 else None
              else
              match l3 with
              | [] => None
              | b3 :: l4 =>
                  if (0xF0 <=? b0) && (b0 <? 0xF5) then
                    let c := (b0 - 0xF0) * 262144 + (b1 - 0x80) * 4096 + (b2 - 0x80) * 64 + (b3 - 0x80) in
                    if cont b1 && cont b2 && cont b3 && (0x10000 <=? c) && scalar c
                    then cons c <$> from_utf8 l4 else None
                  else None
              end
          end
      end
  end.

(** The bytes of a [char]. *)
Definition utf8_char (c : Z) : list Z :=
  if c <? 0x80 then [c] else
  if c <? 0x800 then [0xC0 + c / 64; 0x80 + c mod 64] else
  if c <? 0x10000 then [0xE0 + c / 4096; 0x80 + c / 64 mod 64; 0x80 + c mod 64] else
  [0xF0 + c / 262144; 0x80 + c / 4096 mod 64; 0x80 + c / 64 mod 64; 0x80 + c mod 64].

Definition utf8_encode (txt : list Z) : list Z := txt ≫= utf8_char.

Ltac euclid := Z.to_euclidean_division_equations; lia.

Lemma utf8_char_decode c l : scalar c = true ->
  from_utf8 (utf8_char c ++ l) = cons c <$> from_utf8 l.
Proof.
  unfold scalar. intros Hc. unfold utf8_char.
  destruct (c <? 0x80) eqn:E1; [cbn [app from_utf8]; by rewrite E1|].
  destruct (c <? 0x800) eqn:E2.
  { cbn [app from_utf8]. unfold cont.
    replace (0xC0 + c / 64 <? 0x80) with false by euclid.
    replace ((0xC2 <=? 0xC0 + c / 64) && (0xC0 + c / 64 <? 0xE0)) with true by euclid.
    replace ((0x80 <=? 0x80 + c mod 64) && (0x80 + c mod 64 <? 0xC0)) with true by euclid.
    by replace ((0xC0 + c / 64 - 0xC0) * 64 + (0x80 + c mod 64 - 0x80)) with c by euclid. }
  destruct (c <? 0x10000) eqn:E3.
  { cbn [app from_utf8]. unfold cont.
    replace (0xE0 + c / 4096 <? 0x80) with false by euclid.
    replace ((0xC2 <=? 0xE0 + c / 4096) && (0xE0 + c / 4096 <? 0xE0)) with false by euclid.
    replace ((0xE0 <=? 0xE0 + c / 4096) && (0xE0 + c / 4096 <? 0xF0)) with true by euclid.
    replace ((0x80 <=? 0x80 + c mod 64) && (0x80 + c mod 64 <? 0xC0)) with true by euclid.
    replace ((0x80 <=? 0x80 + c / 64 mod 64) && (0x80 + c / 64 mod 64 <? 0xC0)) with true by euclid.
    replace ((0xE0 + c / 4096 - 0xE0) * 4096 + (0x80 + c / 64 mod 64 - 0x80) * 64 + (0x80 + c mod 64 - 0x80))
      with c by euclid.
    cbv zeta. unfold scalar. rewrite Hc. by replace (0x800 <=? c) with true by lia. }
  cbn [app from_utf8]. unfold cont.
  replace (0xF0 + c / 262144 <? 0x80) with false by euclid.
  replace ((0xC2 <=? 0xF0 + c / 262144) && (0xF0 + c / 262144 <? 0xE0)) with false by euclid.
  replace ((0xE0 <=? 0xF0 + c / 262144) && (0xF0 + c / 262144 <? 0xF0)) with false by euclid.
  replace ((0xF0 <=? 0xF0 + c / 262144) && (0xF0 + c / 262144 <? 0xF5)) with true by euclid.
  replace ((0x80 <=? 0x80 + c mod 64) && (0x80 + c mod 64 <? 0xC0)) with true by euclid.
  replace ((0x80 <=? 0x80 + c / 64 mod 64) && (0x80 + c / 64 mod 64 <? 0xC0)) with true by euclid.
  replace ((0x80 <=? 0x80 + c / 4096 mod 64) && (0x80 + c / 4096 mod 64 <? 0xC0)) with true by euclid.
  replace ((0xF0 + c / 262144 - 0xF0) * 262144 + (0x80 + c / 4096 mod 64 - 0x80) * 4096 +
           (0x80 + c / 64 mod 64 - 0x80) * 64 + (0x80 + c mod 64 - 0x80)) with c by euclid.
  cbv zeta. unfold scalar. rewrite Hc. by replace (0x10000 <=? c) with true by lia.
Qed.

(** A [str] decodes to its characters. *)
Lemma from_utf8_encode txt : Forall (fun c => scalar c = true) txt -> from_utf8 (utf8_encode txt) = Some txt.
Proof.
  induction 1 as [|c txt Hc Htxt IH]; [done|].
  change (utf8_encode (c :: txt)) with (utf8_char c ++ utf8_encode txt).
  by rewrite utf8_char_decode, IH.
Qed.

(** * Reading back *)

Lemma get_byte_range w i : 0 <= get_byte w i < 256.
Proof.
  unfold get_byte. change 0xFF with (2 ^ 8 - 1). rewrite land_ones_mod by lia.
  by apply Z.mod_pos_bound.
Qed.

Lemma get_put_byte w i j v : 0 <= i -> 0 <= j ->
  get_byte (put_byte w i v) j = if decide (i = j) then Z.land v 0xFF else get_byte w j.
Proof.
  intros Hi Hj. unfold get_byte, put_byte. change 0xFF with (Z.ones 8).
  apply Z.bits_inj'. intros k Hk.
  assert (forall n, n < 0 \/ 8 <= n -> Z.testbit (Z.land v (Z.ones 8)) n = false) as Hv.
  { intros n [Hn|Hn]; [by apply Z.testbit_neg_r|].
    by rewrite Z.land_spec, Z.ones_spec_high, andb_false_r by lia. }
  assert (forall n, n < 0 \/ 8 <= n -> Z.testbit (Z.ones 8) n = false) as Ho.
  { intros n [Hn|Hn]; [by apply Z.testbit_neg_r|by apply Z.ones_spec_high; lia]. }
  rewrite Z.land_spec, Z.shiftr_spec, Z.lor_spec, Z.ldiff_spec, !Z.shiftl_spec by lia.
  case_decide as E; [subst j|rewrite (Z.land_spec (Z.shiftr w (8 * j))), Z.shiftr_spec by lia];
    destruct (Z.lt_ge_cases k 8) as [Hk8|Hk8].
  - replace (k + 8 * i - 8 * i) with k by lia. rewrite Z.land_spec, (Z.ones_spec_low 8 k) by lia.
    by rewrite !andb_true_r, andb_false_r.
  - rewrite (Ho k) by lia. rewrite andb_false_r. by rewrite Hv by lia.
  - rewrite (Hv (k + 8 * j - 8 * i)), (Ho (k + 8 * j - 8 * i)) by lia. by rewrite orb_false_r, andb_true_r.
  - by rewrite (Ho k), !andb_false_r by lia.
Qed.

Lemma mem_byte_set m a b v :
  mem_byte (set_mem_byte m a v) b = if decide (a = b) then Z.land v 0xFF else mem_byte m b.
Proof.
  unfold mem_byte, set_mem_byte, word.
  destruct (decide (a - a mod 8 = b - b mod 8)) as [E|E].
  - rewrite E, lookup_insert_eq. cbn [default from_option id].
    rewrite get_put_byte by (by apply Z.mod_pos_bound).
    destruct (decide (a = b)) as [->|Hne]; [by rewrite decide_True|].
    rewrite decide_False; [done|]. intros H. lia.
  - rewrite lookup_insert_ne by done. rewrite decide_False; [done|]. by intros ->.
Qed.
