(* ===== verification/Syscall.v ===== *)
(** [kernel/src/memory/buffer.rs], [kernel/src/syscall.rs] and the caller's side in
    [userspace/libwolffia/src/syscall.rs]. *)
From S2P Require Import Prelude Crates Machine FrameAlloc Paging Layout PageMap Bytes Vga.

(** * [buffer.rs] *)

Inductive InvalidBufferError := OverlapsKernelSpace | InvalidLen | Unaligned | Unmapped | Null.

#[export] Instance InvalidBufferError_eq_dec : EqDecision InvalidBufferError.
Proof. solve_decision. Defined.

(** The trait [PlainOldData] with [mem::size_of] and [mem::align_of]. A slice is its
    address and length; [from_bytes] views the slice of bytes as one of the type. *)
Class PlainOldData := {
  size_of : Z;
  align_of : Z;
  from_bytes : Z * Z -> Z * Z
}.

(** [PlainOldData for u8] *)
#[export] Instance u8_data : PlainOldData := {| size_of := 1; align_of := 1; from_bytes buf := buf |}.

Record BorrowedKernelBuffer := mkBuffer { slice : Z * Z }.

Definition isize_max : Z := 2 ^ 63 - 1.

Section syscalls.
Context `{B : Build} `{X : X86_64Crate} `{F : BitflagsCrate} {P : Type} `{FA : FrameAllocator P} {f : features}.

(** The iterator's [all]: stops at the first page that is not mapped for the user. *)
Fixpoint all_user (ps : list Z) : M (machine P) bool :=
  match ps with
  | [] => ret true
  | n :: ps =>
      let! opt := walk_page_table (mkPage n (Some Kib4)) in
      let ok := match opt with
                | Some (entry, _) => contains (entry_flags entry) USER_ACCESSIBLE
                | None => false
                end in
      if ok then all_user ps else ret false
  end.

(** [BorrowedKernelBuffer::<T>::try_from_user]; a null pointer is [None]. *)
Definition try_from_user `{T : PlainOldData} (ptr : option Z) (len : Z)
  : M (machine P) (result BorrowedKernelBuffer InvalidBufferError) :=
  match ptr with
  | None => ret (Err Null)
  | Some ptr =>
      if negb (ptr mod align_of =? 0) then ret (Err Unaligned) else
      if (len =? 0) || (isize_max <? len) then ret (Err InvalidLen) else
      let! n := lift (mul64 len size_of) in
      let! n := lift (sub64 n 1) in
      let added := if ptr + n <? two64 then Some (ptr + n) else None in
      match added with
      | None => ret (Err InvalidLen)
      | Some last =>
          let! next := lift (page_add LAST_USABLE_PAGE 1) in
          let! limit := lift (start_address next) in
          let! limit := expect limit "unwrap" in
          if negb (last <? limit) then ret (Err OverlapsKernelSpace) else
          let page_begin := containing_address ptr in
          let page_end := containing_address last in
          let! all_mapped := all_user (range_incl (number page_begin) (number page_end)) in
          if negb all_mapped then ret (Err Unmapped)
          else ret (Ok (mkBuffer (from_bytes (ptr, len))))
      end
  end.

(** * [syscall.rs] *)

Inductive Error := EInvalidBuffer | EInvalidUtf8 | EInvalidPage | EInvalidPagesLength | EOutOfMemory.

Definition error_as_i64 (e : Error) : Z :=
  match e with
  | EInvalidBuffer => -1
  | EInvalidUtf8 => -2
  | EInvalidPage => -3
  | EInvalidPagesLength => -4
  | EOutOfMemory => -5
  end.

(** [UserPageFlags] *)
Definition USER_WRITABLE : Z := 1.
Definition USER_EXECUTABLE : Z := Z.shiftl 1 1.
Definition UserPageFlags_all : Z := Z.lor USER_WRITABLE USER_EXECUTABLE.

(** [From<UserPageFlags> for EntryFlags] *)
Definition EntryFlags_from (user : Z) : Z :=
  let flags := PRESENT ||| USER_ACCESSIBLE in
  let flags := if contains user USER_WRITABLE then flags ||| WRITABLE else flags in
  if negb (contains user USER_EXECUTABLE) then flags ||| NO_EXECUTE else flags.

Inductive Syscall := Halt | Map | Unmap | Print_.

(** [Syscall::from_u64] *)
Definition from_u64 (v : Z) : option Syscall :=
  if v =? 0 then Some Halt else if v =? 1 then Some Map else
  if v =? 2 then Some Unmap else if v =? 3 then Some Print_ else None.

(** The statics a system call works on: the active page tables, [VGA_WRITER] and what was sent to the serial port. *)
Record sys := mkSys { s_mach : machine P; s_vga : VgaWriter; s_serial : list Z }.

Definition in_tables {A} (c : M (machine P) A) : M sys A := fun s =>
  match c (s_mach s) with
  | Ret (a, m) => Ret (a, mkSys m (s_vga s) (s_serial s))
  | Stop w => Stop w
  end.
Definition on_screen {A} (c : M VgaWriter A) : M sys A := fun s =>
  match c (s_vga s) with
  | Ret (a, v) => Ret (a, mkSys (s_mach s) v (s_serial s))
  | Stop w => Stop w
  end.

(** [info!] and [trace!] *)
Definition sys_log (l : log_Level) (text : list Z) : M sys unit := fun s =>
  match log_macro f l text (mkConsole (s_vga s) (s_serial s)) with
  | Ret (a, c) => Ret (a, mkSys (s_mach s) (vga c) (serial c))
  | Stop w => Stop w
  end.

(** What [try_map_user_range] traces. *)
Definition trace_user_range (last : Page) : M sys unit :=
  if page_gt last LAST_USABLE_PAGE then sys_log Trace (chars "v_end + 1 noncanonical") else ret tt.

Definition syscall_map (addr_begin len flags : Z) : M sys Z :=
  if negb (Z.land addr_begin 0xfff =? 0) then ret (error_as_i64 EInvalidPage) else
  if len =? 0 then ret (error_as_i64 EInvalidPagesLength) else
  let page_begin := containing_address addr_begin in
  let! n := lift (sub64 len 1) in
  let! page_end := lift (page_add page_begin n) in
  let flags := EntryFlags_from (from_bits_truncate UserPageFlags_all flags) in
  do! trace_user_range page_end in
  let! res := in_tables (try_map_user_range page_begin page_end flags Invalidate false Zero) in
  match res with
  | Ok _ => ret 0
  | Err _ => ret (error_as_i64 EInvalidPage)
  end.

Definition syscall_unmap (addr_begin len : Z) : M sys Z :=
  if negb (Z.land addr_begin 0xfff =? 0) then ret (error_as_i64 EInvalidPage) else
  if len =? 0 then ret (error_as_i64 EInvalidPagesLength) else
  panic "not yet implemented".

Definition syscall_print (ptr len : Z) : M sys Z :=
  let! res := in_tables (try_from_user (if ptr =? 0 then None else Some ptr) len) in
  match res with
  | Err _ => ret (error_as_i64 EInvalidBuffer)
  | Ok buf =>
      let! bytes := in_tables (read_bytes (slice buf).1 (Z.to_nat (slice buf).2)) in
      match from_utf8 bytes with
      | None => ret (error_as_i64 EInvalidUtf8)
      | Some string => do! on_screen (write_str string) in ret 0
      end
  end.

Definition syscall_handler (id : Z) (args : list Z) : M sys Z :=
  match from_u64 id with
  | None => panic "unwrap"
  | Some Halt =>
      do! sys_log Info_ (chars "Got system call halt") in
      stop_with Halted
  | Some Map =>
      match args with
      | addr_begin :: len :: flags :: _ => syscall_map addr_begin len flags
      | _ => panic "range end index out of range for slice"
      end
  | Some Unmap =>
      match args with
      | addr_begin :: len :: _ => syscall_unmap addr_begin len
      | _ => panic "range end index out of range for slice"
      end
  | Some Print_ =>
      match args with
      | ptr :: len :: _ => syscall_print ptr len
      | _ => panic "index out of bounds"
      end
  end.

(** ** The entry point *)

(** The registers [syscall] leaves to the kernel: [rcx] and [r11] hold the user's
    instruction pointer and flags. *)
Record regs := mkRegs {
  rax : Z; rdi : Z; rsi : Z; rdx : Z; rcx : Z; r8 : Z; r9 : Z; r10 : Z; r11 : Z; rsp : Z
}.

(** Where the process continues. *)
Record resumed := mkResumed { user_regs : regs; user_rip : Z; user_rflags : Z }.

(** [syscall_callback]: saves [rsp] in [USER_RSP], pushes on the system call stack,
    calls [syscall_handler] on the pushed arguments, pops, and returns with [sysretq].
    [clobber] gives the caller-saved registers as the call of [syscall_handler]
    leaves them. *)
Definition syscall_callback (clobber : regs -> regs) (r : regs) : M sys resumed :=
  let USER_RSP := rsp r in
  let stack := [rdi r; rsi r; rdx r; r11 r; rcx r] in
  let! result := syscall_handler (rax r) (take 3 stack) in
  let c := clobber r in
  match stack with
  | [rdi; rsi; rdx; r11; rcx] =>
      ret (mkResumed (mkRegs result rdi rsi rdx rcx (r8 c) (r9 c) (r10 c) r11 USER_RSP) rcx r11)
  | _ => panic "stack"
  end.

End syscalls.

(** * [libwolffia/src/syscall.rs] *)

Inductive SyscallError :=
| InvalidBuffer | InvalidUtf8 | InvalidPage | InvalidPagesLength | SysOutOfMemory
| UnknownError (code : Z).

Definition res_from_code (code : Z) : result Z SyscallError :=
  if 0 <=? code then Ok code else
  if code =? -1 then Err InvalidBuffer else
  if code =? -2 then Err InvalidUtf8 else
  if code =? -3 then Err InvalidPagesLength else
  if code =? -4 then Err SysOutOfMemory else Err (UnknownError code).

(** The numbers [Syscall as u64] of the library. *)
Definition syscall_as_u64 (c : Syscall) : Z :=
  match c with Halt => 0 | Map => 1 | Unmap => 2 | Print_ => 3 end.

Section user.
Context `{B : Build} `{X : X86_64Crate} `{F : BitflagsCrate} {P : Type} `{FA : FrameAllocator P} {f : features}.

(** [raw::syscall_2]: two arguments; the other registers are whatever they are. *)
Definition syscall_2 (clobber : regs -> regs) (r : regs) (call : Syscall) (arg1 arg2 : Z)
  : M (sys (P := P)) (result Z SyscallError) :=
  let! out := syscall_callback clobber
    (mkRegs (syscall_as_u64 call) arg1 arg2 (rdx r) (rcx r) (r8 r) (r9 r) (r10 r) (r11 r) (rsp r)) in
  ret (res_from_code (rax (user_regs out))).

(** [print(string)]: the string is its address and length. *)
Definition user_print (clobber : regs -> regs) (r : regs) (ptr len : Z)
  : M (sys (P := P)) (result unit SyscallError) :=
  let! res := syscall_2 clobber r Print_ ptr len in
  match res with
  | Ok _ => ret (Ok tt)
  | Err e => ret (Err e)
  end.

(** [halt()] *)
Definition user_halt (clobber : regs -> regs) (r : regs) : M (sys (P := P)) unit :=
  do! syscall_callback clobber
    (mkRegs (syscall_as_u64 Halt) (rdi r) (rsi r) (rdx r) (rcx r) (r8 r) (r9 r) (r10 r) (r11 r) (rsp r)) in
  panic "internal error: entered unreachable code".

End user.
