(* ===== verification/SyscallTheorems.v ===== *)
(** The properties of the system calls: the check of user buffers, [Map] and [Print],
    the entry point, and the codes they answer with. *)
From S2P Require Import Prelude Crates Machine FrameAlloc Paging Layout PageMap AddressSpace.
From S2P Require Import PagingLemmas PageMapLemmas MapperLemmas Bytes Vga VgaTheorems Syscall.
From S2P Require Import BootstrapHeap Friendly FriendlyExample PhysicalAllocator AllocatorTheorems PagingTheorems.

(** The end of what a process may use: the page after [LAST_USABLE_PAGE]. *)
Definition USER_END : Z := 0x7ffffffff000.

Section syscalls.
Context `{B : Build} `{X : X86_64Crate} `{F : BitflagsCrate} {P : Type} `{FA : FrameAllocator P} {f : features}.
Implicit Types s : machine P.

(** * User buffers *)

(** The page of an address is mapped and its entry allows user accesses. *)
Definition user_page s (n : Z) : bool :=
  match ref_walk (mem s) (cr3 s) (page_no n) with
  | Ret (Some (e, _)) => Z.testbit e 2
  | _ => false
  end.

(** The walk does not meet a page size the kernel panics on. *)
Definition walkable s (n : Z) : Prop := exists r, ref_walk (mem s) (cr3 s) (page_no n) = Ret r.

Lemma all_user_spec s ps : rec_ok (mem s) (cr3 s) -> Forall (walkable s) ps ->
  all_user ps s = Ret (forallb (user_page s) ps, s).
Proof.
  intros Hrec. induction 1 as [|n ps [r Hr] _ IH]; [done|]. cbn [all_user forallb].
  assert (walk_page_table (mkPage n (Some Kib4)) s = Ret (r, s)) as Ew.
  { rewrite walk_page_table_ref by done. fold (page_no n). by rewrite Hr. }
  rewrite (bind_ret _ _ _ _ _ Ew). unfold user_page at 1. rewrite Hr.
  destruct r as [[e sz]|]; [|done]. rewrite contains_user. by destruct (Z.testbit e 2).
Qed.

Lemma user_byte s va n :
  0 <= va < USER_END -> va / 4096 = n -> walkable s n -> user_page s n = true ->
  exists pa w, mmu_walk (mem s) (cr3 s) va = Some (pa, w).
Proof.
  unfold USER_END. intros Hva Hn [r Hr] Hu. unfold user_page in Hu. rewrite Hr in Hu.
  destruct r as [[e sz]|]; [|done].
  assert (canonical va = true) as Hc.
  { unfold canonical, sign_extend_47. rewrite (Z.testbit_eqb _ 47) by lia. rewrite Z.div_small by lia.
    simpl. rewrite Z.mod_small by lia. apply Z.eqb_refl. }
  pose proof (ref_walk_mmu (mem s) (cr3 s) va (Some (e, sz)) ltac:(lia) Hc) as Hm.
  unfold containing_address in Hm. change (bytes Kib4) with 4096 in Hm. rewrite Hn in Hm.
  specialize (Hm Hr). destruct (mmu_walk _ _ va) as [[pa w]|]; [eauto|done].
Qed.

Lemma buffer_limit :
  (let? next := page_add LAST_USABLE_PAGE 1 in start_address next) = Ret (Some USER_END).
Proof. by destruct B as [[]]. Qed.

Lemma page_range ptr len n : 0 < len ->
  n ∈ range_incl (ptr / 4096) ((ptr + len - 1) / 4096) <-> exists va, ptr <= va < ptr + len /\ va / 4096 = n.
Proof.
  intros Hl. rewrite elem_of_range_incl. split.
  - intros Hn. exists (Z.max ptr (n * 4096)). Z.to_euclidean_division_equations. lia.
  - intros (va & Hva & <-). Z.to_euclidean_division_equations. lia.
Qed.

Lemma try_from_user_spec s ptr len :
  rec_ok (mem s) (cr3 s) -> 0 < ptr < two64 -> 0 <= len < two64 ->
  (forall va, ptr <= va < ptr + len -> va < USER_END -> walkable s (va / 4096)) ->
  exists r, try_from_user (Some ptr) len s = Ret (r, s) /\
    match r with
    | Ok buf => slice buf = (ptr, len) /\ 0 < len /\ ptr + len <= USER_END /\
        forall va, ptr <= va < ptr + len -> user_page s (va / 4096) = true
    | Err Null => False
    | Err Unaligned => False
    | Err InvalidLen => len = 0 \/ isize_max < len \/ two64 < ptr + len
    | Err OverlapsKernelSpace => 0 < len /\ USER_END < ptr + len
    | Err Unmapped => exists va, ptr <= va < ptr + len /\ user_page s (va / 4096) = false
    end.
Proof.
  intros Hrec Hptr Hlen Hwalk. unfold try_from_user. cbn [align_of size_of u8_data].
  rewrite Z.mod_1_r. change (0 =? 0) with true. cbn [negb].
  destruct (len =? 0) eqn:E0; cbn [orb]; [eexists; split; [done|]; left; lia|].
  destruct (isize_max <? len) eqn:E1; [eexists; split; [done|]; right; left; lia|].
  rewrite mul64_small by lia. rewrite bind_lift_ret. rewrite Z.mul_1_r, sub64_small by lia. rewrite bind_lift_ret.
  cbv zeta. replace (ptr + (len - 1)) with (ptr + len - 1) by lia.
  destruct (ptr + len - 1 <? two64) eqn:E2; [|eexists; split; [done|]; right; right; lia].
  pose proof buffer_limit as Hlim. destruct (page_add LAST_USABLE_PAGE 1) as [next|]; [|done].
  cbn [rbind] in Hlim. rewrite bind_lift_ret, Hlim, bind_lift_ret, bind_expect_some.
  destruct (ptr + len - 1 <? USER_END) eqn:E3; cbn [negb]; [|eexists; split; [done|]; cbv beta iota; lia].
  unfold containing_address. cbn [number]. change (bytes Kib4) with 4096.
  assert (Forall (walkable s) (range_incl (ptr / 4096) ((ptr + len - 1) / 4096))) as Hall.
  { apply list.Forall_forall. intros n Hn. apply page_range in Hn as (va & Hva & <-); [|lia].
    apply Hwalk; lia. }
  rewrite (bind_ret _ _ _ _ _ (all_user_spec s _ Hrec Hall)).
  destruct (forallb _ _) eqn:Ef; cbn [negb]; (eexists; split; [done|]).
  - rewrite forallb_forall in Ef. split_and!; [done|lia|lia|]. intros va Hva. apply Ef.
    apply list_elem_of_In, page_range; [lia|]. by exists va.
  - assert (exists n, n ∈ range_incl (ptr / 4096) ((ptr + len - 1) / 4096) /\ user_page s n = false) as (n & Hin & Hu).
    { clear -Ef. induction (range_incl _ _) as [|n l IH]; [done|]. cbn [forallb] in Ef.
      destruct (user_page s n) eqn:E; [|exists n; set_solver]. destruct IH as (m & Hm & Em); [done|].
      exists m. set_solver. }
    apply page_range in Hin as (va & Hva & <-); [|lia]. eauto.
Qed.

(** C11: [try_from_user] never panics and changes nothing. It accepts a buffer exactly when
    it is not null, its length is positive and sane, it ends in the user half, and
    every byte of it lies on a page that is mapped for the user, so that every byte
    can be read; every other buffer gets the error that says what is wrong. *)
Theorem try_from_user_correct s ptr len :
  rec_ok (mem s) (cr3 s) -> 0 <= ptr < two64 -> 0 <= len < two64 ->
  (forall va, ptr <= va < ptr + len -> va < USER_END -> walkable s (va / 4096)) ->
  exists r, try_from_user (if ptr =? 0 then None else Some ptr) len s = Ret (r, s) /\
    match r with
    | Ok buf => slice buf = (ptr, len) /\ 0 < ptr /\ 0 < len /\ ptr + len <= USER_END /\
        forall va, ptr <= va < ptr + len -> user_page s (va / 4096) = true /\
          exists pa w, mmu_walk (mem s) (cr3 s) va = Some (pa, w)
    | Err Null => ptr = 0
    | Err Unaligned => False
    | Err InvalidLen => len = 0 \/ isize_max < len \/ two64 < ptr + len
    | Err OverlapsKernelSpace => 0 < len /\ USER_END < ptr + len
    | Err Unmapped => exists va, ptr <= va < ptr + len /\ user_page s (va / 4096) = false
    end.
Proof.
  intros Hrec Hptr Hlen Hwalk. destruct (Z.eqb_spec ptr 0) as [->|Hne]; [by eexists; split|].
  destruct (try_from_user_spec s ptr len Hrec ltac:(lia) Hlen Hwalk) as (r & E & Hr).
  exists r. split; [done|]. destruct r as [buf|[]]; try done.
  destruct Hr as (Hs & Hl & He & Hu). split_and!; [done|lia|done|done|].
  intros va Hva. split; [by apply Hu|].
  apply (user_byte s va (va / 4096)); [lia|done|apply Hwalk; lia|by apply Hu].
Qed.

(** * [Map] *)

(** The entry flags of a user's request: always user accessible, writable and
    executable as asked. *)
Definition user_entry_flags (u : Z) : Z :=
  5 + (if Z.testbit u 0 then 2 else 0) + (if Z.testbit u 1 then 0 else 2 ^ 63).

Lemma EntryFlags_from_spec u :
  EntryFlags_from (from_bits_truncate UserPageFlags_all u) = user_entry_flags u /\
  flags_ok (user_entry_flags u) /\ e_writable (user_entry_flags u) = Z.testbit u 0.
Proof.
  unfold EntryFlags_from, user_entry_flags. rewrite !contains_spec, from_bits_truncate_spec.
  assert (forall n, 0 <= n < 2 ->
    (Z.land (Z.land u UserPageFlags_all) (2 ^ n) =? 2 ^ n) = Z.testbit u n) as Hb.
  { intros n Hn. rewrite land_bit_eqb, Z.land_spec by lia. unfold UserPageFlags_all.
    change (Z.lor USER_WRITABLE USER_EXECUTABLE) with (Z.ones 2). rewrite Z.ones_spec_low by lia. apply andb_true_r. }
  pose proof (Hb 0 ltac:(lia)) as H0. pose proof (Hb 1 ltac:(lia)) as H1.
  change (2 ^ 0) with USER_WRITABLE in H0. change (2 ^ 1) with USER_EXECUTABLE in H1. rewrite H0, H1.
  destruct (Z.testbit u 0), (Z.testbit u 1); cbn [negb]; rewrite !flags_or_spec; by split_and!.
Qed.

Context `{FS : !FrameAllocatorSpec P}.

Lemma page_add_small n k : 0 <= n + k < two64 -> page_add (page_no n) k = Ret (page_no (n + k)).
Proof. intros H. unfold page_add. cbn [number page_no size]. by rewrite add64_small. Qed.

(** What [try_map_user_range] traced of a range that ends with page [b], on a screen that shows [t] and a serial
    port with [o]. *)
Definition traced (bg : Colour) (t : terminal) (b : Z) (v : VgaWriter) (o : list Z) (v' : VgaWriter) (o' : list Z) : Prop :=
  if (0x7fffffffe <? b) && feature_trace f
  then shows bg v' (type_text (colour v) (chars "v_end + 1 noncanonical" ++ [10])
         (type_text (mkColourPair White Black) (chars "[trace] ") t)) /\
       o' = o ++ chars "[trace] " ++ chars "v_end + 1 noncanonical" ++ [10]
  else v' = v /\ o' = o.

Lemma traced_none bg t b v o v' o' : traced bg t b v o v' o' -> b <= 0x7fffffffe -> v' = v /\ o' = o.
Proof. unfold traced. intros H Hb. apply Z.ltb_ge in Hb. rewrite Hb in H. exact H. Qed.

Lemma trace_user_range_spec s v o bg t b : shows bg v t ->
  exists v' o', trace_user_range (page_no b) (mkSys s v o) = Ret (tt, mkSys s v' o') /\ traced bg t b v o v' o'.
Proof.
  intros Hsh. unfold trace_user_range, traced, page_gt, page_cmp. cbn [number page_no].
  change (number LAST_USABLE_PAGE) with 0x7fffffffe.
  replace (match b ?= 0x7fffffffe with Gt => true | _ => false end) with (0x7fffffffe <? b)
    by (unfold Z.ltb; rewrite (Z.compare_antisym b); by destruct (b ?= _)).
  destruct (0x7fffffffe <? b); cbn [andb]; [|by exists v, o].
  destruct (log_macro_shows bg f Trace (chars "v_end + 1 noncanonical") (mkConsole v o) t Hsh) as (c' & E & Hc).
  exists (vga c'), (serial c'). split.
  - unfold sys_log. cbn [s_vga s_serial s_mach]. by rewrite E.
  - destruct (feature_trace f); [exact Hc|]. by subst c'.
Qed.

(** The call once the request itself is well formed: the number of the last page wraps. *)
Lemma syscall_map_steps s v o bg t addr len flags :
  shows bg v t -> 0 <= addr < two64 -> addr mod 4096 = 0 -> 0 < len < two64 ->
  let a := addr / 4096 in let b := (a + len - 1) mod two64 in
  if overflow_checks && (two64 <=? a + len - 1)
  then syscall_handler 1 [addr; len; flags] (mkSys s v o) = Stop Overflow
  else exists v' o', traced bg t b v o v' o' /\
    syscall_handler 1 [addr; len; flags] (mkSys s v o) =
      match try_map_user_range (page_no a) (page_no b) (user_entry_flags flags) Invalidate false Zero s with
      | Ret (Ok _, s') => Ret (0, mkSys s' v' o')
      | Ret (Err _, s') => Ret (-3, mkSys s' v' o')
      | Stop w => Stop w
      end.
Proof.
  intros Hsh Ha Hal Hl a b. unfold syscall_handler. change (from_u64 1) with (Some Map). cbv iota.
  assert (0 <= a < 2 ^ 52) as Hn by (split; [apply Z.div_pos; lia|apply Z.div_lt_upper_bound; lia]).
  unfold syscall_map. change 0xfff with (2 ^ 12 - 1). rewrite land_ones_mod by lia.
  change (2 ^ 12) with 4096. rewrite Hal. change (0 =? 0) with true. cbn [negb].
  replace (len =? 0) with false by lia. rewrite sub64_small by lia. rewrite bind_lift_ret.
  change (containing_address addr) with (page_no a).
  assert (page_add (page_no a) (len - 1) = if overflow_checks && (two64 <=? a + len - 1) then Stop Overflow else Ret (page_no b)) as ->.
  { unfold page_add, add64, checked. cbn [number page_no size]. unfold b. replace (a + (len - 1)) with (a + len - 1) by lia.
    destruct (Z.leb_spec two64 (a + len - 1)) as [Hw|Hw].
    - replace ((0 <=? a + len - 1) && (a + len - 1 <? 2 ^ 64)) with false by lia.
      destruct overflow_checks; cbn [andb rbind]; [done|]. unfold wrap, page_no. by change (2 ^ 64) with two64.
    - replace ((0 <=? a + len - 1) && (a + len - 1 <? 2 ^ 64)) with true by lia. rewrite andb_false_r. cbn [rbind].
      unfold page_no. by rewrite Z.mod_small by lia. }
  destruct (overflow_checks && (two64 <=? a + len - 1)); [done|]. rewrite bind_lift_ret.
  destruct (trace_user_range_spec s v o bg t b Hsh) as (v' & o' & Et & Htr). exists v', o'. split; [done|].
  cbv zeta. rewrite (bind_ret _ _ _ _ _ Et).
  destruct (EntryFlags_from_spec flags) as (-> & _). unfold bind, in_tables. cbn [s_mach s_vga s_serial].
  by destruct (try_map_user_range _ _ _ _ _ _ s) as [[[|] s']|].
Qed.

Lemma syscall_map_refuses s v o addr len flags : 0 <= addr ->
  if negb (addr mod 4096 =? 0) then syscall_handler 1 [addr; len; flags] (mkSys s v o) = Ret (-3, mkSys s v o)
  else if len =? 0 then syscall_handler 1 [addr; len; flags] (mkSys s v o) = Ret (-4, mkSys s v o) else True.
Proof.
  intros Ha. unfold syscall_handler. change (from_u64 1) with (Some Map). cbv iota.
  unfold syscall_map. change 0xfff with (2 ^ 12 - 1). rewrite land_ones_mod by lia. change (2 ^ 12) with 4096.
  destruct (addr mod 4096 =? 0); cbn [negb]; [|done]. by destruct (len =? 0).
Qed.

(** Clearing a page that was just mapped read-only faults once [CR0.WP] is set. *)
Lemma map_readonly_faults s page fl inv :
  tables_inv s -> page_ok page -> path_clear s page -> flags_ok fl ->
  e_writable fl = false -> cr0_wp s = true ->
  map page fl inv Zero s = Stop (PageFault (number page * 4096)) \/
  (exists s', map page fl inv Zero s = Ret (Err OutOfMemory_, s')) /\ short_of 4 s.
Proof.
  intros Hinv Hp Hc Hfl Hro Hwp. destruct (Hinv) as [Hsp Hfa Htf].
  unfold map. rewrite (po_size _ Hp). rewrite bool_decide_true by eauto. msimp. rewrite decide_True by done.
  destruct (allocate_frame_spec s 0 Hfa ltac:(lia)) as (o & p1 & Ea & Ef & Hp1). mcall Ea.
  destruct o as [x0|].
  2:{ right. split; [by eexists|]. apply (short_of_mono 1); [lia|]. by apply (allocate_frame_0_none _ _ Hfa Ef). }
  destruct (allocate_frame_0_some _ _ _ Hfa Ef) as (Hff & Hal & Hfr & Hfree1 & Hlive1).
  assert (evolves (fun _ => False) s (set_pmm p1 s)) as Hev1.
  { apply evolves_pmm; [done|done|intros x; apply Hfree1|intros x k Hx; apply Hlive1; auto]. }
  destruct (map_to_spec (set_pmm p1 s) page x0 fl inv (ev_inv _ _ _ Hev1) Hp (path_clear_pmm _ _ _ Hc) Hal
              ltac:(lia) Hfl) as (r & s2 & Em & Hres).
  mcall Em. destruct r as [u|[]].
  2:{ right. split; [by eexists|]. destruct Hres as (_ & Hex & _). apply (short_of_takes 1 3 _ (set_pmm p1 s)); [|done].
      apply (takes_one x0). intros x Hx Hne. apply Hfree1. by split. }
  destruct Hres as (Hev2 & Hw & _). left.
  rewrite decide_True by done. msimp. mcall (page_start_ok page "unwrap" s2 Hp).
  change (bytes Kib4) with 4096. unfold memset_volatile_64bit. change (Z.shiftr 4096 3) with 512.
  assert (Z.land (number page * 4096) 7 = 0) as ->.
  { change 7 with (2 ^ 3 - 1). rewrite land_ones_mod by lia.
    replace (number page * 4096) with ((number page * 512) * 2 ^ 3) by lia. apply Z_mod_mult. }
  change (Z.land 4096 7 =? 0) with true. change (0 =? 0) with true. msimp.
  rewrite range_excl_cons by lia. cbn [for_each].
  assert (vwrite64 (number page * 4096 + 8 * 0) 0 s2 = Stop (PageFault (number page * 4096))) as Ew.
  { unfold vwrite64. change (8 * 0) with 0.
    rewrite (mmu_small _ _ page (leaf_entry x0 fl)) by (done || lia || apply Hev2).
    destruct (leaf_entry_facts x0 fl Hal ltac:(lia) Hfl) as (_ & _ & ->). rewrite Hro, (ev_wp _ _ _ Hev2).
    cbn [cr0_wp set_pmm]. rewrite Hwp. by rewrite !Z.add_0_r. }
  rewrite !bind_assoc. by rewrite (bind_stop _ _ _ _ Ew).
Qed.

(** The first page of a range that is not writable. *)
Lemma readonly_first s a b flags : tables_inv s -> user_range_ok a b = true -> 0 <= a <= b -> path_clear s (page_no a) ->
  Z.testbit flags 0 = false -> cr0_wp s = true ->
  let free := ref_walk (mem s) (cr3 s) (page_no a) = Ret None in
  let r := try_map_user_range (page_no a) (page_no b) (user_entry_flags flags) Invalidate false Zero s in
  (r = Stop (PageFault (a * 4096)) /\ free) \/
  exists e s', r = Ret (Err e, s') /\
    ((exists e, small_mapping (mem s) (cr3 s) (page_no a) e) /\ s' = s \/ free /\ short_of 4 s).
Proof.
  intros Hinv Hok Hab Hcl Hro Hwp free r. destruct (EntryFlags_from_spec flags) as (_ & Hfl & Hwr).
  assert (b <= LAST_USER_PAGE) as Hb by (unfold user_range_ok in Hok; lia).
  pose proof (user_range_checks s a b (user_entry_flags flags) Invalidate false Zero ltac:(unfold LAST_USER_PAGE in Hb; lia)
    ltac:(unfold LAST_USER_PAGE in Hb; lia)) as Hchk. rewrite Hok in Hchk. unfold r. rewrite Hchk.
  rewrite range_incl_cons by lia. cbn [try_each]. unfold user_body.
  assert (page_ok (page_no a)) as Hpo by (apply user_page_ok; lia).
  assert (forall w, ref_walk (mem s) (cr3 s) (page_no a) = Ret w -> walk_page_table (page_no a) s = Ret (w, s)) as Ew.
  { intros w E. rewrite walk_page_table_ref by apply Hinv. by rewrite E. }
  destruct (ref_walk_clear s (page_no a) Hcl) as [E|[e E]].
  - rewrite !bind_assoc, (bind_ret _ _ _ _ _ (Ew _ E)). msimp. rewrite bool_decide_false by (by intros [? ?]).
    destruct (map_readonly_faults s (page_no a) (user_entry_flags flags) Invalidate Hinv Hpo Hcl Hfl ltac:(by rewrite Hwr) Hwp)
      as [Em|[[s' Em] Hex]].
    + left. by rewrite !bind_assoc, (bind_stop _ _ _ _ Em).
    + right. exists TryOutOfMemory, s'. rewrite !bind_assoc, (bind_ret _ _ _ _ _ Em). msimp. auto.
  - right. exists (AlreadyMapped (page_no a)), s. rewrite !bind_assoc, (bind_ret _ _ _ _ _ (Ew _ E)). msimp.
    rewrite bool_decide_true by eauto. msimp. split; [done|]. left. split; [|done]. by exists e.
Qed.

(** With overflow checks, a range that ends where no address is. *)
Lemma user_range_overflows s a b fl inv ign z : overflow_checks = true -> 0 <= a < 2 ^ 52 -> 2 ^ 52 <= b ->
  try_map_user_range (page_no a) (page_no b) fl inv ign z s = Stop Overflow.
Proof.
  intros Hov Ha Hb. unfold try_map_user_range. rewrite both_kib4_no. msimp. mcall (page_start_no a "unwrap" s Ha).
  unfold page_start at 1, start_address. cbn [size number bytes page_no]. unfold mul64, checked. rewrite Hov.
  rewrite bind_assoc. change (4 * 1024) with 4096. by replace ((0 <=? b * 4096) && (b * 4096 <? 2 ^ 64)) with false by lia.
Qed.

Lemma user_range_last a b : user_range_ok a b = true -> b <= LAST_USER_PAGE.
Proof. unfold user_range_ok. intros [H _]%andb_true_iff. lia. Qed.

(** A last page that does not come before the first has not wrapped. *)
Lemma last_page_exact a len : 0 <= a < 2 ^ 52 -> 0 < len < two64 -> a <= (a + len - 1) mod two64 ->
  (a + len - 1) mod two64 = a + len - 1.
Proof.
  intros Ha Hl Hge. destruct (Z.leb_spec two64 (a + len - 1)) as [Hw|Hw]; [|by rewrite Z.mod_small by lia].
  rewrite <- (Z_mod_plus_full _ (-1)), Z.mod_small in Hge by lia. lia.
Qed.

Lemma syscall_map_spec s v o bg t addr len flags :
  tables_inv s -> shows bg v t -> 0 <= addr < two64 -> 0 <= len < two64 ->
  (forall n, addr / 4096 <= n < addr / 4096 + len -> n <= LAST_USER_PAGE -> path_clear s (page_no n)) ->
  let call := syscall_handler 1 [addr; len; flags] (mkSys s v o) in
  let a := addr / 4096 in
  let b := (a + len - 1) mod two64 in
  if negb (addr mod 4096 =? 0) then call = Ret (error_as_i64 EInvalidPage, mkSys s v o) else
  if len =? 0 then call = Ret (error_as_i64 EInvalidPagesLength, mkSys s v o) else
  if overflow_checks && (2 ^ 52 <=? a + len - 1) then call = Stop Overflow else
  if negb (user_range_ok a b) then
    exists v' o', call = Ret (error_as_i64 EInvalidPage, mkSys s v' o') /\ traced bg t b v o v' o' else
  if b <? a then call = Ret (0, mkSys s v o) else
  if negb (Z.testbit flags 0) && cr0_wp s then
    let free := ref_walk (mem s) (cr3 s) (page_no a) = Ret None in
    (call = Stop (PageFault addr) /\ free) \/
    exists s', call = Ret (error_as_i64 EInvalidPage, mkSys s' v o) /\
      ((exists e, small_mapping (mem s) (cr3 s) (page_no a) e) /\ s' = s \/ free /\ short_of 4 s)
  else
    exists code s', call = Ret (code, mkSys s' v o) /\
    (code = 0 /\ pages_backed (user_entry_flags flags) Zero a (a + len) s s' /\
       (forall n, a <= n < a + len -> ref_walk (mem s) (cr3 s) (page_no n) = Ret None) \/
     code = error_as_i64 EInvalidPage /\
       exists k, a <= k < a + len /\ pages_backed (user_entry_flags flags) Zero a k s s' /\
         ((exists e, small_mapping (mem s') (cr3 s') (page_no k) e) \/ short_of (4 * (k - a + 1)) s)).
Proof.
  intros Hinv Hsh Ha Hl Hcl call a b. pose proof (syscall_map_refuses s v o addr len flags ltac:(lia)) as Href.
  destruct (Z.eqb_spec (addr mod 4096) 0) as [Hal|Hal]; cbn [negb] in *; [|exact Href].
  destruct (Z.eqb_spec len 0) as [->|Hl0]; [exact Href|]. clear Href.
  assert (0 <= a < 2 ^ 52) as Hn by (split; [apply Z.div_pos; lia|apply Z.div_lt_upper_bound; lia]).
  assert (addr = a * 4096) as Eaddr by (unfold a; rewrite (Z.div_mod addr 4096) at 1 by lia; lia).
  pose proof (syscall_map_steps s v o bg t addr len flags Hsh Ha Hal ltac:(lia)) as Hst. cbv zeta in Hst. fold a b call in Hst.
  assert (0 <= b < two64) as Hb by (apply Z.mod_pos_bound; lia).
  destruct (overflow_checks && (two64 <=? a + len - 1)) eqn:E64.
  { apply andb_true_iff in E64 as [Hov H64]. rewrite Hov. replace (2 ^ 52 <=? a + len - 1) with true by lia. exact Hst. }
  destruct Hst as (v' & o' & Htr & E). 
  assert (b = (a + len - 1) mod two64) as Hbd by done. fold a in Hcl. clearbody call a b.
  destruct (Z.leb_spec (2 ^ 52) b) as [Hb52|Hb52].
  { assert (2 ^ 52 <= a + len - 1) as Hge by (pose proof (Z.mod_le (a + len - 1) two64); lia).
    replace (2 ^ 52 <=? a + len - 1) with true by lia. destruct overflow_checks eqn:Hov; cbn [andb] in *.
    - by rewrite E, user_range_overflows.
    - rewrite user_range_beyond in E by done. replace (user_range_ok a b) with false by (unfold user_range_ok, LAST_USER_PAGE; lia).
      cbn [negb]. by exists v', o'. }
  replace (overflow_checks && (2 ^ 52 <=? a + len - 1)) with false.
  2:{ symmetry. destruct overflow_checks; [|done]. cbn [andb] in *. rewrite Hbd, Z.mod_small in Hb52 by lia. lia. }
  pose proof (user_range_checks s a b (user_entry_flags flags) Invalidate false Zero Hn ltac:(lia)) as Hchk.
  destruct (user_range_ok a b) eqn:Hok; cbn [negb]; [|rewrite Hchk in E; by exists v', o'].
  pose proof (user_range_last a b Hok) as Hbu. apply traced_none in Htr as [-> ->]; [|unfold LAST_USER_PAGE in Hbu; lia].
  destruct (Z.ltb_spec b a) as [Hba|Hba]; [by rewrite E, Hchk, range_incl_nil by lia|].
  assert (b = a + len - 1) as Eb by (rewrite Hbd in Hba |- *; by apply last_page_exact; [|lia|]).
  clear Hchk.
  destruct (negb (Z.testbit flags 0) && cr0_wp s) eqn:Ero.
  - apply andb_true_iff in Ero as [Hro%negb_true_iff Hwp].
    destruct (readonly_first s a b flags Hinv Hok ltac:(lia) ltac:(apply Hcl; lia) Hro Hwp) as [[Er Hf]|(e & s' & Er & Hs)]; rewrite Er in E.
    + left. by rewrite Eaddr.
    + right. by exists s'.
  - destruct (EntryFlags_from_spec flags) as (_ & Hfl & Hwr).
    destruct (try_map_user_range_spec s a b (user_entry_flags flags) Invalidate false Zero Hinv Hfl) as (r & s' & Er & Hres).
    { intros _. rewrite Hwr. by destruct (Z.testbit flags 0), (cr0_wp s). }
    { done. } { lia. } { intros n Hn'. apply Hcl; lia. }
    rewrite Er in E. destruct r as [[]|[p|p|]]; eexists _, _; (split; [exact E|]).
    + left. destruct Hres as (_ & Hpb & _ & Hfr). split_and!; [done| |intros n Hn'; by apply Hfr; [lia|]].
      by replace (Z.max a (b + 1)) with (a + len) in Hpb by lia.
    + destruct Hres as (Hf & _). congruence.
    + right. split; [done|]. destruct Hres as (_ & _ & k & Hk & -> & Hpb & He). exists k. split_and!; [lia|lia|done|by left].
    + right. split; [done|]. destruct Hres as (_ & k & Hk & Hpb & Hex). exists k. split_and!; [lia|lia|done|by right].
Qed.

(** C12: the [Map] system call, for every address, length and flags, in builds with and without overflow checks, from
    well-formed page tables without huge pages in the range and a well-formed screen. An unaligned address and a length of 0 are refused with their
    codes and nothing changes. A range that reaches page [2^52] stops a build with overflow checks; in the others the
    number [b] of its last page wraps at [2^64]. A range that leaves what a process may use is refused with the code
    of an invalid page, and nothing changes but the log, which has a line in builds that trace and when [b] is above
    [LAST_USABLE_PAGE]. A range whose end has wrapped to below its start and passes the checks is answered with 0 although nothing is mapped.
    For a request of pages that are not writable, while [CR0.WP] is set, the kernel faults when it clears the first
    page, unless that is mapped already or fewer than four frames are free (the code of an invalid page). In all
    other cases the call returns 0 exactly when the whole range, of which nothing was mapped before, has been mapped,
    every page on a cleared frame of its own that the process can access, writable and executable only as asked for;
    or the code of an invalid page when some page [k] is mapped already or there are too few free frames for the pages up to
    it and their tables (the pages before [k] stay mapped). *)
Theorem syscall_map_correct s v o bg t addr len flags :
  tables_inv s -> shows bg v t -> 0 <= addr < two64 -> 0 <= len < two64 ->
  (forall n, addr / 4096 <= n < addr / 4096 + len -> n <= LAST_USER_PAGE -> path_clear s (page_no n)) ->
  let call := syscall_handler 1 [addr; len; flags] (mkSys s v o) in
  let a := addr / 4096 in
  let b := (a + len - 1) mod two64 in
  if negb (addr mod 4096 =? 0) then call = Ret (error_as_i64 EInvalidPage, mkSys s v o) else
  if len =? 0 then call = Ret (error_as_i64 EInvalidPagesLength, mkSys s v o) else
  if overflow_checks && (2 ^ 52 <=? a + len - 1) then call = Stop Overflow else
  if negb (user_range_ok a b) then
    exists v' o', call = Ret (error_as_i64 EInvalidPage, mkSys s v' o') /\ traced bg t b v o v' o' else
  if b <? a then call = Ret (0, mkSys s v o) else
  if negb (Z.testbit flags 0) && cr0_wp s then
    let free := ref_walk (mem s) (cr3 s) (page_no a) = Ret None in
    (call = Stop (PageFault addr) /\ free) \/
    exists s', call = Ret (error_as_i64 EInvalidPage, mkSys s' v o) /\
      ((exists e, small_mapping (mem s) (cr3 s) (page_no a) e) /\ s' = s \/ free /\ short_of 4 s)
  else
    exists code s', call = Ret (code, mkSys s' v o) /\
    (code = 0 /\ pages_backed (user_entry_flags flags) Zero a (a + len) s s' /\
       (forall n, a <= n < a + len -> ref_walk (mem s) (cr3 s) (page_no n) = Ret None) \/
     code = error_as_i64 EInvalidPage /\
       exists k, a <= k < a + len /\ pages_backed (user_entry_flags flags) Zero a k s s' /\
         ((exists e, small_mapping (mem s') (cr3 s') (page_no k) e) \/ short_of (4 * (k - a + 1)) s)).
Proof. apply syscall_map_spec. Qed.

(** C39: which requests of a process stop the kernel, from well-formed page tables without huge pages in the range
    and a well-formed screen. Of an aligned range, two kinds and no others: in a build with
    overflow checks, one that reaches page [2^52] (a build without them returns a code); and, once [remap_kernel] has set [CR0.WP], one
    for pages that are not writable, in the part of the address space that a process may use, whose first page is not
    mapped: the kernel faults when it clears that page, provided that four frames are free. *)
Theorem syscall_map_stops_kernel s v o bg t addr len flags :
  tables_inv s -> shows bg v t -> 0 <= addr < two64 -> addr mod 4096 = 0 -> 0 < len < two64 ->
  (forall n, addr / 4096 <= n < addr / 4096 + len -> n <= LAST_USER_PAGE -> path_clear s (page_no n)) ->
  let call := syscall_handler 1 [addr; len; flags] (mkSys s v o) in
  let a := addr / 4096 in
  let overflows := overflow_checks = true /\ 2 ^ 52 <= a + len - 1 in
  let readonly := a + len - 1 <= LAST_USER_PAGE /\ Z.testbit flags 0 = false /\ cr0_wp s = true /\
    ref_walk (mem s) (cr3 s) (page_no a) = Ret None in
  (overflows -> call = Stop Overflow) /\
  (readonly -> ~ short_of 4 s -> call = Stop (PageFault addr)) /\
  (forall w, call = Stop w -> w = Overflow /\ overflows \/ w = PageFault addr /\ readonly).
Proof.
  intros Hinv Hsh Ha Hal Hl Hcl call a overflows readonly.
  pose proof (syscall_map_spec s v o bg t addr len flags Hinv Hsh Ha ltac:(lia) Hcl) as H. cbv zeta in H. fold call a in H.
  rewrite Hal in H. cbn [negb Z.eqb] in H. replace (len =? 0) with false in H by lia.
  assert (0 <= a < 2 ^ 52) as Hn by (split; [apply Z.div_pos; lia|apply Z.div_lt_upper_bound; lia]).
  assert (readonly -> user_range_ok a ((a + len - 1) mod two64) = true /\ (a + len - 1) mod two64 = a + len - 1) as Hro.
  { intros (Hu & _). unfold user_range_ok, LAST_USER_PAGE in *. rewrite Z.mod_small by lia. split; [lia|done]. }
  destruct (overflow_checks && (2 ^ 52 <=? a + len - 1)) eqn:Eov.
  { apply andb_true_iff in Eov as [Hov Hge]. assert (overflows) as Ho by (split; [done|lia]). split_and!; [done| |].
    - intros [Hu _]. unfold LAST_USER_PAGE in Hu. lia.
    - intros w Ew. rewrite H in Ew. injection Ew as <-. auto. }
  split. { intros [Hov Hge]. rewrite Hov in Eov. cbn [andb] in Eov. lia. }
  destruct (user_range_ok a _) eqn:Hok; cbn [negb] in H.
  2:{ destruct H as (v' & o' & -> & _). split; [intros Hr; by destruct (Hro Hr)|done]. }
  destruct (Z.ltb_spec ((a + len - 1) mod two64) a) as [Hba|Hba].
  { rewrite H. split; [intros Hr; destruct (Hro Hr); lia|done]. }
  destruct (negb (Z.testbit flags 0) && cr0_wp s) eqn:Ero.
  2:{ destruct H as (code & s' & -> & _). split; [|done]. intros (_ & Hf & Hwp & _). by rewrite Hf, Hwp in Ero. }
  apply andb_true_iff in Ero as [Hf%negb_true_iff Hwp]. destruct H as [[E Hfree]|(s' & E & Hs)]; rewrite E.
  - split; [done|]. intros w [= <-]. right. split; [done|]. split_and!; [|done..]. rewrite (last_page_exact a len Hn Hl Hba) in Hok.
    unfold user_range_ok in Hok. lia.
  - split; [|done]. intros (_ & _ & _ & Hfree) Hns. destruct Hs as [[[e He] _]|[_ Hs]]; [|done].
    unfold small_mapping in He. congruence.
Qed.

(** * [Print] *)

Definition buffer_valid s (ptr len : Z) : Prop :=
  0 < ptr /\ 0 < len /\ ptr + len <= USER_END /\
  forall va, ptr <= va < ptr + len -> user_page s (va / 4096) = true.

(** The bytes [bs] are in memory from the virtual address [va] on. *)
Fixpoint bytes_at s (va : Z) (bs : list Z) : Prop :=
  match bs with
  | [] => True
  | b :: bs =>
      (exists pa w, mmu_walk (mem s) (cr3 s) va = Some (pa, w) /\ mem_byte (mem s) pa = b) /\
      bytes_at s (va + 1) bs
  end.

Lemma read_bytes_spec s va bs : bytes_at s va bs -> read_bytes va (length bs) s = Ret (bs, s).
Proof.
  revert va. induction bs as [|b bs IH]; intros va; [done|]. cbn [bytes_at length read_bytes].
  intros [(pa & w & Hm & Hb) Hbs].
  assert (vread8 va s = Ret (b, s)) as E by (unfold vread8; by rewrite Hm, Hb).
  by rewrite (bind_ret _ _ _ _ _ E), (bind_ret _ _ _ _ _ (IH _ Hbs)).
Qed.

Lemma user_bytes s ptr len :
  (forall va, ptr <= va < ptr + len -> va < USER_END -> walkable s (va / 4096)) ->
  buffer_valid s ptr len -> exists bs, length bs = Z.to_nat len /\ bytes_at s ptr bs.
Proof.
  intros Hw (Hp & Hl & He & Hu).
  assert (forall n va, ptr <= va -> va + Z.of_nat n <= ptr + len ->
    exists bs, length bs = n /\ bytes_at s va bs) as Hall.
  { induction n as [|n IH]; intros va H1 H2; [by exists []|].
    destruct (IH (va + 1)) as (bs & Hlen & Hbs); [lia|lia|].
    destruct (user_byte s va (va / 4096)) as (pa & w & Hm); [lia|done|apply Hw; lia|apply Hu; lia|].
    exists (mem_byte (mem s) pa :: bs). cbn [length bytes_at]. split; [lia|]. split; [eauto|done]. }
  apply Hall; lia.
Qed.

Lemma syscall_print_steps s v o ptr len x bg t :
  rec_ok (mem s) (cr3 s) -> 0 <= ptr < two64 -> 0 <= len < two64 -> shows bg v t ->
  (forall va, ptr <= va < ptr + len -> va < USER_END -> walkable s (va / 4096)) ->
  (~ buffer_valid s ptr len -> syscall_handler 3 [ptr; len; x] (mkSys s v o) = Ret (-1, mkSys s v o)) /\
  (buffer_valid s ptr len -> forall bs, length bs = Z.to_nat len -> bytes_at s ptr bs ->
     match from_utf8 bs with
     | None => syscall_handler 3 [ptr; len; x] (mkSys s v o) = Ret (-2, mkSys s v o)
     | Some txt => exists v', syscall_handler 3 [ptr; len; x] (mkSys s v o) = Ret (0, mkSys s v' o) /\
         shows bg v' (type_text (colour v) txt t) /\ colour v' = colour v
     end).
Proof.
  intros Hrec Hp Hl Hsh Hw. change (syscall_handler 3 [ptr; len; x]) with (syscall_print (P := P) ptr len).
  unfold syscall_print.
  assert (exists r, try_from_user (if ptr =? 0 then None else Some ptr) len s = Ret (r, s) /\
    match r with Ok buf => slice buf = (ptr, len) /\ buffer_valid s ptr len
               | Err _ => ~ buffer_valid s ptr len end) as (r & E & Hr).
  { destruct (Z.eqb_spec ptr 0) as [->|Hne].
    { eexists. split; [done|]. intros (H & _). lia. }
    destruct (try_from_user_spec s ptr len Hrec ltac:(lia) Hl Hw) as (r & E & Hr). exists r. split; [done|].
    unfold buffer_valid, USER_END, isize_max in *. destruct r as [buf|[]]; try done.
    - destruct Hr as (H1 & H2 & H3 & H4). by split_and!; try lia.
    - intros (H1 & H2 & H3 & _). lia.
    - intros (H1 & H2 & H3 & _). lia.
    - destruct Hr as (va & Hva & Hu). intros (_ & _ & _ & H). rewrite H in Hu; done. }
  assert (in_tables (try_from_user (if ptr =? 0 then None else Some ptr) len) (mkSys s v o) = Ret (r, mkSys s v o)) as E'.
  { unfold in_tables. cbn [s_mach s_vga s_serial]. by rewrite E. }
  rewrite (bind_ret _ _ _ _ _ E').
  destruct r as [buf|e]; [|by split].
  destruct Hr as [Hs Hv]. split; [done|]. intros _ bs Hlen Hbs. rewrite Hs. cbn [fst snd].
  assert (in_tables (read_bytes ptr (Z.to_nat len)) (mkSys s v o) = Ret (bs, mkSys s v o)) as Er.
  { unfold in_tables. cbn [s_mach s_vga s_serial]. by rewrite <- Hlen, (read_bytes_spec s ptr bs Hbs). }
  rewrite (bind_ret _ _ _ _ _ Er). destruct (from_utf8 bs) as [txt|]; [|done].
  destruct (write_str_coloured_shows bg v t txt (colour v) Hsh) as (v' & Ev & Hsh' & Hcv).
  exists v'. split; [|done]. unfold bind, on_screen, write_str, bind, gets. cbn [s_vga s_mach s_serial]. by rewrite Ev.
Qed.

(** C25: the [Print] system call never panics and touches neither memory nor the page
    tables. It refuses a buffer that is not wholly the process's own memory and bytes
    that are not UTF-8, and otherwise writes exactly the text of the buffer. *)
Theorem syscall_print_correct s v o ptr len x bg t :
  rec_ok (mem s) (cr3 s) -> 0 <= ptr < two64 -> 0 <= len < two64 -> shows bg v t ->
  (forall va, ptr <= va < ptr + len -> va < USER_END -> walkable s (va / 4096)) ->
  (~ buffer_valid s ptr len /\
   syscall_handler 3 [ptr; len; x] (mkSys s v o) = Ret (error_as_i64 EInvalidBuffer, mkSys s v o)) \/
  (buffer_valid s ptr len /\ exists bs, length bs = Z.to_nat len /\ bytes_at s ptr bs /\
     match from_utf8 bs with
     | None => syscall_handler 3 [ptr; len; x] (mkSys s v o) = Ret (error_as_i64 EInvalidUtf8, mkSys s v o)
     | Some txt => exists v', syscall_handler 3 [ptr; len; x] (mkSys s v o) = Ret (0, mkSys s v' o) /\
         shows bg v' (type_text (colour v) txt t)
     end).
Proof.
  intros Hrec Hp Hl Hsh Hw.
  destruct (syscall_print_steps s v o ptr len x bg t Hrec Hp Hl Hsh Hw) as [H1 H2].
  assert (Decision (buffer_valid s ptr len)) as [Hv|Hv].
  { unfold buffer_valid.
    destruct (decide (0 < ptr /\ 0 < len /\ ptr + len <= USER_END)) as [(? & ? & ?)|Hn]; [|right; tauto].
    destruct (forallb (user_page s) (range_incl (ptr / 4096) ((ptr + len - 1) / 4096))) eqn:E.
    - left. split_and!; try done. intros va Hva. rewrite forallb_forall in E. apply E.
      apply list_elem_of_In, page_range; [done|]. by exists va.
    - right. intros (_ & _ & _ & H'). apply not_true_iff_false in E. apply E, forallb_forall.
      intros n Hn%list_elem_of_In. apply page_range in Hn as (va & Hva & <-); [auto|done]. }
  - right. split; [done|]. destruct (user_bytes s ptr len Hw Hv) as (bs & Hlen & Hbs).
    exists bs. split_and!; [done|done|]. specialize (H2 Hv bs Hlen Hbs).
    destruct (from_utf8 bs); [|done]. destruct H2 as (v' & E & Hv' & _). by exists v'.
  - left. auto.
Qed.

(** The string [txt] lies at [ptr] in memory that the process may use. *)
Record text_at s (ptr : Z) (txt : list Z) : Prop := {
  ta_ptr : 0 <= ptr < two64;
  ta_len : Z.of_nat (length (utf8_encode txt)) < two64;
  ta_walkable va : ptr <= va < ptr + Z.of_nat (length (utf8_encode txt)) -> va < USER_END -> walkable s (va / 4096);
  ta_scalar : Forall (fun c => scalar c = true) txt;
  ta_bytes : bytes_at s ptr (utf8_encode txt);
  ta_valid : buffer_valid s ptr (Z.of_nat (length (utf8_encode txt)))
}.

Lemma user_print_spec clobber r s v o ptr txt bg t :
  rec_ok (mem s) (cr3 s) -> shows bg v t -> text_at s ptr txt ->
  exists v', user_print clobber r ptr (Z.of_nat (length (utf8_encode txt))) (mkSys s v o) = Ret (Ok tt, mkSys s v' o) /\
    shows bg v' (type_text (colour v) txt t) /\ colour v' = colour v.
Proof.
  intros Hrec Hsh [Hp Hl Hw Htxt Hbs Hv].
  destruct (syscall_print_steps s v o ptr (Z.of_nat (length (utf8_encode txt))) (rdx r) bg t Hrec Hp
    ltac:(lia) Hsh Hw) as [_ H2].
  specialize (H2 Hv (utf8_encode txt) ltac:(by rewrite Nat2Z.id) Hbs).
  rewrite from_utf8_encode in H2 by done. destruct H2 as (v' & E & Hsh'). exists v'. split; [|done].
  unfold user_print, syscall_2, syscall_callback. cbn [rax rdi rsi rdx rcx r11 rsp take syscall_as_u64].
  rewrite !bind_assoc. by rewrite (bind_ret _ _ _ _ _ E).
Qed.

(** C21: a process that prints a string prints that string: through the library's
    [print], the entry point, the buffer check and the UTF-8 decoding, the characters
    typed on the terminal are those of the string, and [Ok] comes back. *)
Theorem user_print_roundtrip clobber r s v o ptr txt bg t :
  rec_ok (mem s) (cr3 s) -> shows bg v t -> text_at s ptr txt ->
  exists v', user_print clobber r ptr (Z.of_nat (length (utf8_encode txt))) (mkSys s v o) = Ret (Ok tt, mkSys s v' o) /\
    shows bg v' (type_text (colour v) txt t).
Proof. intros Hrec Hsh Ht. destruct (user_print_spec clobber r s v o ptr txt bg t Hrec Hsh Ht) as (v' & E & H & _). by exists v'. Qed.

End syscalls.

(** * Codes *)

(** the library and the kernel number the system calls alike, and a result that is
    not negative reaches the caller as it is; but the library decodes only the first
    two error codes as the kernel encodes them. It takes an invalid page for an
    invalid length, an invalid length for lack of memory, does not know lack of
    memory, and never reports an invalid page. *)
Theorem error_codes_shifted :
  (forall c, from_u64 (syscall_as_u64 c) = Some c) /\
  (forall code, (0 <=? code) = true <-> res_from_code code = Ok code) /\
  (forall e, res_from_code (error_as_i64 e) = Err match e with
     | EInvalidBuffer => InvalidBuffer
     | EInvalidUtf8 => InvalidUtf8
     | EInvalidPage => InvalidPagesLength
     | EInvalidPagesLength => SysOutOfMemory
     | EOutOfMemory => UnknownError (-5)
     end) /\
  (forall code, res_from_code code <> Err InvalidPage).
Proof.
  split_and!; [by intros []| |by intros []|].
  - intros code. unfold res_from_code. split; [by intros ->|]. by repeat case_match.
  - intros code. unfold res_from_code. by repeat case_match.
Qed.

(** * Concrete instances *)

#[local] Existing Instance x86_64_example.
#[local] Existing Instance bit_field_example.
#[local] Existing Instance bitflags_example.
#[local] Existing Instance frames_example.
#[local] Existing Instance debug_build.

(** A build with all of its log. *)
Definition trace_build : features := mkFeatures true true.
#[local] Existing Instance trace_build.

Lemma syscall_map_correct_witness : exists s',
  syscall_handler 1 [0x3000; 3; 1] (mkSys example_machine example_writer []) = Ret (0, mkSys s' example_writer []) /\
  pages_backed (user_entry_flags 1) Zero 3 6 example_machine s'.
Proof.
  pose proof (syscall_map_correct example_machine example_writer [] Black (mkTerminal [] []) 0x3000 3 1 example_tables
    example_shows ltac:(lia) ltac:(lia)) as H.
  change (0x3000 / 4096) with 3 in H. destruct H as (code & s' & E & H).
  - intros n Hn _. apply example_user_clear. lia.
  - destruct H as [(-> & Hb & _)|(_ & k & Hk & Hb & H)].
    + exists s'. split; [exact E|exact Hb].
    + exfalso. destruct H as [[e He]|H].
      * assert (page_ok (page_no k)) as Hok by (apply user_page_ok; unfold LAST_USER_PAGE; lia).
        destruct Hb as [Hev _]. unfold small_mapping in He.
        rewrite (ev_cr3 _ _ _ Hev), (ev_walk _ _ _ Hev) in He; [|apply Hok|].
        -- assert (k = 3 \/ k = 4 \/ k = 5) as [->|[->| ->]] by lia; vm_compute in He; discriminate He.
        -- intros (n & Hn & Hs). apply same_page_inj in Hs; [simpl in Hs; lia| |exact Hok].
           apply user_page_ok. unfold LAST_USER_PAGE. lia.
      * exact (example_enough (4 * (k - 3 + 1)) ltac:(lia) H).
Defined.

Lemma syscall_map_stops_kernel_witness :
  syscall_handler 1 [0x3000; 1; 0] (mkSys example_machine example_writer []) = Stop (PageFault 0x3000) /\
  syscall_handler 1 [0x3000; 2 ^ 60; 1] (mkSys example_machine example_writer []) = Stop Overflow.
Proof.
  assert (forall n, 3 <= n -> n <= LAST_USER_PAGE -> path_clear example_machine (page_no n)) as Hc.
  { intros n H1 H2. apply example_clear, user_page_ok. lia. }
  split.
  - destruct (syscall_map_stops_kernel example_machine example_writer [] Black (mkTerminal [] []) 0x3000 1 0 example_tables
      example_shows ltac:(lia) eq_refl ltac:(lia) (fun n H1 H2 => Hc n (proj1 H1) H2)) as (_ & H & _).
    apply H; [|exact (fun H => example_enough 4 ltac:(lia) H)].
    split_and!; [by vm_compute|reflexivity|reflexivity|by vm_compute].
  - destruct (syscall_map_stops_kernel example_machine example_writer [] Black (mkTerminal [] []) 0x3000 (2 ^ 60) 1 example_tables
      example_shows ltac:(lia) eq_refl ltac:(lia) (fun n H1 H2 => Hc n (proj1 H1) H2)) as (H & _).
    apply H. split; [reflexivity|]. change (0x3000 / 4096) with 3. lia.
Defined.

(** Page 5 is mapped for the user to the frame [0x5000], which holds [Hi]. *)
Definition hello_machine : machine PhysicalAllocator :=
  Machine {[ 0x1000 + 8 * 510 := 0x1003; 0x1000 := 0x2007; 0x2000 := 0x3007; 0x3000 := 0x4007;
             0x4000 + 8 * 5 := 0x5007; 0x5000 := 0x6948 ]} 0x1000 0 true [] example_allocator.

Lemma hello_rec : rec_ok (mem hello_machine) (cr3 hello_machine).
Proof. by split. Qed.

Lemma hello_walk : ref_walk (mem hello_machine) (cr3 hello_machine) (page_no 5) = Ret (Some (0x5007, Kib4)).
Proof. by vm_compute. Qed.

Lemma hello_page va : 0x5000 <= va < 0x5002 -> va / 4096 = 5.
Proof. intros H. Z.to_euclidean_division_equations. lia. Qed.

Lemma hello_walkable va : 0x5000 <= va < 0x5002 -> walkable hello_machine (va / 4096).
Proof. intros H. rewrite hello_page by done. eexists. apply hello_walk. Qed.

Lemma hello_valid : buffer_valid hello_machine 0x5000 2.
Proof.
  split_and!; try (unfold USER_END; lia). intros va Hva. rewrite hello_page by lia. unfold user_page.
  by rewrite hello_walk.
Qed.

Lemma try_from_user_correct_witness : exists r,
  try_from_user (Some 0x5000) 2 hello_machine = Ret (r, hello_machine).
Proof.
  destruct (try_from_user_correct hello_machine 0x5000 2 hello_rec ltac:(lia) ltac:(lia)
    (fun va H _ => hello_walkable va ltac:(lia))) as (r & E & _).
  exists r. exact E.
Defined.

Lemma syscall_print_correct_witness : exists code v',
  syscall_handler 3 [0x5000; 2; 0] (mkSys hello_machine example_writer []) = Ret (code, mkSys hello_machine v' []).
Proof.
  destruct (syscall_print_correct hello_machine example_writer [] 0x5000 2 0 Black (mkTerminal [] []) hello_rec
    ltac:(lia) ltac:(lia) example_shows (fun va H _ => hello_walkable va ltac:(lia)))
    as [[_ E]|(_ & bs & _ & _ & E)].
  - eexists _, _. exact E.
  - destruct (from_utf8 bs) as [txt|]; [destruct E as (v' & E & _)|]; eexists _, _; exact E.
Defined.

Lemma hello_bytes : bytes_at hello_machine 0x5000 (utf8_encode [72; 105]).
Proof. cbn. split_and!; [eexists _, _; split; [vm_compute; reflexivity|by vm_compute]..|done]. Qed.

Lemma user_print_roundtrip_witness : exists v',
  user_print (fun r => r) (mkRegs 0 0 0 0 0 0 0 0 0 0) 0x5000 2 (mkSys hello_machine example_writer [])
    = Ret (Ok tt, mkSys hello_machine v' []) /\
  shows Black v' (type_text ColourPair_default [72; 105] (mkTerminal [] [])).
Proof.
  assert (Forall (fun c => scalar c = true) [72; 105]) as Hs by (by repeat constructor).
  assert (text_at hello_machine 0x5000 [72; 105]) as Ht.
  { split; [lia|cbn; lia|exact (fun va H _ => hello_walkable va H)|exact Hs|exact hello_bytes|exact hello_valid]. }
  exact (user_print_roundtrip (fun r => r) (mkRegs 0 0 0 0 0 0 0 0 0 0) hello_machine example_writer [] 0x5000
    [72; 105] Black (mkTerminal [] []) hello_rec example_shows Ht).
Defined.
