(* ===== verification/UserRuntime.v ===== *)
(** [userspace/libwolffia/src/lib.rs] and the [init] program: the library's standard
    output, its panic handler, the entry point that [#[libwolffia::main]] generates, and
    [main] of [init]. A string of the program is where its bytes are in memory; formatting
    hands strings to [write_str] one after the other and stops at the first that fails. *)
From stdpp Require Import pretty.
From S2P Require Import Prelude Crates Machine FrameAlloc Paging Layout PageMap Vga Bytes Syscall.
From S2P Require Import AddressSpace PagingLemmas PageMapLemmas MapperLemmas VgaTheorems SyscallTheorems.
From S2P Require Import BootstrapHeap Friendly FriendlyExample PhysicalAllocator AllocatorTheorems PagingTheorems.

(** [&str]: address and length. *)
Record str := mkStr { str_ptr : Z; str_len : Z }.

(** [core::fmt::Error] *)
Inductive FmtError := mkFmtError.

(** ** The attribute [main] ([libwolffia_macros/src/lib.rs]) *)

(** A token tree: an identifier, or anything else with its text. *)
Inductive TokenTree := Ident (name : string) | OtherToken (text : string).

(** [check_next_ident]: the tokens that are left, and whether an error is emitted. *)
Definition check_next_ident (iter : list TokenTree) (expected : string) : list TokenTree * bool :=
  match iter with
  | [] => ([], true)
  | Ident ident :: iter => (iter, negb (bool_decide (ident = expected)))
  | _ :: iter => (iter, true)
  end.

(** The tokens of the function that becomes [__main], and the number of errors. *)
Definition main_attribute (input : list TokenTree) : list TokenTree * nat :=
  let '(iter, e1) := check_next_ident input "fn" in
  let '(iter, e2) := check_next_ident iter "main" in
  (iter, (Nat.b2n e1 + Nat.b2n e2)%nat).

(** The attribute takes exactly the functions called [main], and keeps what follows the name. *)
Lemma main_attribute_correct input tokens :
  main_attribute input = (tokens, 0%nat) <-> input = Ident "fn" :: Ident "main" :: tokens.
Proof.
  split; [|by intros ->]. unfold main_attribute, check_next_ident.
  destruct input as [|[a|] [|[b|] l]]; cbn; try done; repeat case_bool_decide; cbn; intros [=]; by subst.
Qed.

Section runtime.
Context `{B : Build} `{X : X86_64Crate} `{F : BitflagsCrate} {P : Type} `{FA : FrameAllocator P} {f : features}.
(** What the registers hold when a call is made, and what the kernel does to those it does
    not save. *)
Context (clobber : regs -> regs) (r : regs).

#[local] Abbreviation uM := (M (sys (P := P))).

(** [Write for Stdout] *)
Definition stdout_write_str (s : str) : uM (result unit FmtError) :=
  let! res := user_print clobber r (str_ptr s) (str_len s) in
  match res with
  | Ok _ => ret (Ok tt)
  | Err _ => ret (Err mkFmtError)
  end.

(** [core::fmt::write] to [Stdout] *)
Fixpoint stdout_write (l : list str) : uM (result unit FmtError) :=
  match l with
  | [] => ret (Ok tt)
  | s :: l =>
      let! res := stdout_write_str s in
      match res with
      | Ok _ => stdout_write l
      | Err e => ret (Err e)
      end
  end.

(** The panic handler, given the strings of its report. *)
Definition user_panic_fmt (report : list str) : uM unit :=
  do! stdout_write report in
  user_halt clobber r.

(** [print!]; [report] is that of the panic of its [unwrap]. *)
Definition print_macro (report l : list str) : uM unit :=
  let! res := stdout_write l in
  match res with
  | Ok _ => ret tt
  | Err _ => user_panic_fmt report
  end.

(** [_start], as the attribute [main] generates it. *)
Definition start_ (main : uM unit) : uM unit :=
  do! main in
  user_halt clobber r.

(** [main] of [init]: [hello] and [halting] are its two literals. *)
Definition init_main (report : list str) (hello halting : str) : uM unit :=
  do! print_macro report [hello] in
  print_macro report [halting].

End runtime.

(** * Theorems *)

Section theorems.
Context `{B : Build} `{X : X86_64Crate} `{F : BitflagsCrate} {P : Type} `{FA : FrameAllocator P} {f : features}.
Context (clobber : regs -> regs) (r : regs) (bg : Colour).
Implicit Types s : machine P.

(** The string [x] is the text [txt] in the process's memory. *)
Definition holds s (x : str) (txt : list Z) : Prop :=
  str_len x = Z.of_nat (length (utf8_encode txt)) /\ text_at s (str_ptr x) txt.

(** The kernel can look at the pages of the string, whatever is in them. *)
Record addressable s (x : str) : Prop := {
  ad_ptr : 0 <= str_ptr x < two64;
  ad_len : 0 <= str_len x < two64;
  ad_walkable va : str_ptr x <= va < str_ptr x + str_len x -> va < USER_END -> walkable s (va / 4096)
}.

Lemma type_text_app col a b t : type_text col (a ++ b) t = type_text col b (type_text col a t).
Proof. apply foldl_app. Qed.

Lemma stdout_write_str_spec s v o x txt t : rec_ok (mem s) (cr3 s) -> shows bg v t -> holds s x txt ->
  exists v', stdout_write_str clobber r x (mkSys s v o) = Ret (Ok tt, mkSys s v' o) /\
    shows bg v' (type_text (colour v) txt t) /\ colour v' = colour v.
Proof.
  intros Hrec Hsh [Hl Ht]. destruct (user_print_spec clobber r s v o (str_ptr x) txt bg t Hrec Hsh Ht) as (v' & E & H).
  exists v'. split; [|done]. unfold stdout_write_str. rewrite Hl. by rewrite (bind_ret _ _ _ _ _ E).
Qed.

(** Strings are printed one after the other. *)
Lemma stdout_write_spec s v o l txts t : rec_ok (mem s) (cr3 s) -> shows bg v t -> Forall2 (holds s) l txts ->
  exists v', stdout_write clobber r l (mkSys s v o) = Ret (Ok tt, mkSys s v' o) /\
    shows bg v' (type_text (colour v) (concat txts) t) /\ colour v' = colour v.
Proof.
  intros Hrec Hsh Hl. revert v t Hsh. induction Hl as [|x txt l txts Hx _ IH]; intros v t Hsh; [by exists v|].
  destruct (stdout_write_str_spec s v o x txt t Hrec Hsh Hx) as (v1 & E1 & H1 & C1).
  destruct (IH v1 _ H1) as (v2 & E2 & H2 & C2). exists v2. cbn [stdout_write concat].
  rewrite (bind_ret _ _ _ _ _ E1), type_text_app. rewrite C1 in H2. split_and!; [done|done|congruence].
Qed.

(** A write never stops the kernel, even of a string that is not the process's. *)
Lemma stdout_write_returns s v o l t : rec_ok (mem s) (cr3 s) -> shows bg v t -> Forall (addressable s) l ->
  exists res v' t', stdout_write clobber r l (mkSys s v o) = Ret (res, mkSys s v' o) /\ shows bg v' t'.
Proof.
  intros Hrec Hsh Hl. revert v t Hsh. induction Hl as [|x l [Hp Hn Hw] _ IH]; intros v t Hsh; [by eexists _, v, t|].
  cbn [stdout_write]. unfold stdout_write_str, user_print, syscall_2, syscall_callback.
  cbn [rax rdi rsi rdx rcx r11 rsp take syscall_as_u64]. rewrite !bind_assoc.
  destruct (syscall_print_steps s v o (str_ptr x) (str_len x) (rdx r) bg t Hrec Hp Hn Hsh Hw) as [H1 H2].
  assert ((exists v' t', syscall_handler 3 [str_ptr x; str_len x; rdx r] (mkSys s v o) = Ret (0, mkSys s v' o) /\ shows bg v' t') \/
    (exists code, syscall_handler 3 [str_ptr x; str_len x; rdx r] (mkSys s v o) = Ret (code, mkSys s v o) /\ code < 0))
    as [(v' & t' & E & Hs')|(code & E & Hc)].
  { destruct (decide (0 < str_ptr x /\ 0 < str_len x /\ str_ptr x + str_len x <= USER_END)) as [Hd|Hd].
    2:{ right. exists (-1). rewrite H1; [done|]. unfold buffer_valid. tauto. }
    destruct (decide (Forall (fun n => user_page s n = true) (range_incl (str_ptr x / 4096) ((str_ptr x + str_len x - 1) / 4096)))) as [Hu|Hu].
    2:{ right. exists (-1). rewrite H1; [done|]. intros (_ & _ & _ & H). apply Hu, list.Forall_forall.
        intros n Hn'. apply page_range in Hn' as (va & Hva & <-); [auto|lia]. }
    assert (buffer_valid s (str_ptr x) (str_len x)) as Hv.
    { destruct Hd as (? & ? & ?). split_and!; [done..|]. intros va Hva. rewrite list.Forall_forall in Hu. apply Hu.
      apply page_range; [done|]. by exists va. }
    destruct (user_bytes s _ _ Hw Hv) as (bs & Hlen & Hbs). specialize (H2 Hv bs Hlen Hbs).
    destruct (from_utf8 bs) as [txt|]; [left|right; by exists (-2)]. destruct H2 as (v' & E & Hs' & _). by eexists v', _. }
  - rewrite (bind_ret _ _ _ _ _ E). msimp. cbn [rax user_regs]. change (res_from_code 0) with (Ok 0 : result Z SyscallError).
    msimp. apply (IH v' t' Hs').
  - rewrite (bind_ret _ _ _ _ _ E). msimp. cbn [rax user_regs].
    assert (exists e, res_from_code code = Err e) as [e ->].
    { unfold res_from_code. replace (0 <=? code) with false by lia. repeat case_match; by eexists. }
    msimp. by eexists _, v, t.
Qed.

Lemma user_halt_halts s v o t : shows bg v t -> user_halt clobber r (mkSys s v o) = Stop Halted.
Proof.
  intros Hsh. destruct (log_macro_shows bg f Info_ (chars "Got system call halt") (mkConsole v o) t Hsh) as (c' & E & _).
  unfold user_halt, syscall_callback, syscall_handler. cbn [rax syscall_as_u64]. change (from_u64 0) with (Some Halt).
  rewrite !bind_assoc. erewrite bind_ret; [done|]. unfold sys_log. cbn [s_vga s_serial]. by rewrite E.
Qed.

(** C24: User programs from start to end. [init] types its two lines on the terminal and
    halts the machine; the panic handler of the library prints the strings of its report in
    order when they are the process's own, and halts whatever they are; and a [print!] of an
    empty string, which the kernel refuses, ends in that panic handler. *)
Theorem user_programs_run s v o t : rec_ok (mem s) (cr3 s) -> shows bg v t ->
  (forall report hello halting, let lines := chars "Hello, world!" ++ [10] ++ chars "Halting..." ++ [10] in
     holds s hello (chars "Hello, world!" ++ [10]) -> holds s halting (chars "Halting..." ++ [10]) ->
     exists v', init_main clobber r report hello halting (mkSys s v o) = Ret (tt, mkSys s v' o) /\
       shows bg v' (type_text (colour v) lines t) /\
       start_ clobber r (init_main clobber r report hello halting) (mkSys s v o) = Stop Halted) /\
  (forall report txts, Forall2 (holds s) report txts ->
     exists v', stdout_write clobber r report (mkSys s v o) = Ret (Ok tt, mkSys s v' o) /\
       shows bg v' (type_text (colour v) (concat txts) t)) /\
  (forall report, Forall (addressable s) report -> user_panic_fmt clobber r report (mkSys s v o) = Stop Halted) /\
  (forall report p, 0 <= p < two64 ->
     print_macro clobber r report [mkStr p 0] (mkSys s v o) = user_panic_fmt clobber r report (mkSys s v o)).
Proof.
  intros Hrec Hsh. split_and!.
  - intros report hello halting lines Hh Hg.
    assert (forall x txt, holds s x txt -> Forall2 (holds s) [x] [txt]) as Hone by (intros x txt Hx; constructor; [exact Hx|constructor]).
    destruct (stdout_write_spec s v o [hello] [_] t Hrec Hsh (Hone _ _ Hh)) as (v1 & E1 & H1 & C1).
    destruct (stdout_write_spec s v1 o [halting] [_] _ Hrec H1 (Hone _ _ Hg)) as (v2 & E2 & H2 & C2).
    assert (init_main clobber r report hello halting (mkSys s v o) = Ret (tt, mkSys s v2 o)) as E.
    { unfold init_main, print_macro. rewrite !bind_assoc, (bind_ret _ _ _ _ _ E1). msimp. by rewrite (bind_ret _ _ _ _ _ E2). }
    exists v2. split_and!; [done| |].
    + rewrite C1, <- type_text_app in H2. cbn [concat] in H2. unfold lines. by rewrite !app_nil_r, <- app_assoc in H2.
    + unfold start_. rewrite (bind_ret _ _ _ _ _ E). by eapply user_halt_halts.
  - intros report txts Hl. destruct (stdout_write_spec s v o report txts t Hrec Hsh Hl) as (v' & E & H & _). by exists v'.
  - intros report Hl. destruct (stdout_write_returns s v o report t Hrec Hsh Hl) as (res & v' & t' & E & Hs').
    unfold user_panic_fmt. rewrite (bind_ret _ _ _ _ _ E). by eapply user_halt_halts.
  - intros report p Hp. destruct (syscall_print_steps s v o p 0 (rdx r) bg t Hrec Hp ltac:(lia) Hsh) as [H1 _]; [lia|].
    assert (stdout_write clobber r [mkStr p 0] (mkSys s v o) = Ret (Err mkFmtError, mkSys s v o)) as E.
    { cbn [stdout_write]. unfold stdout_write_str, user_print, syscall_2, syscall_callback.
      cbn [rax rdi rsi rdx rcx r11 rsp take syscall_as_u64 str_ptr str_len]. rewrite !bind_assoc.
      rewrite (bind_ret _ _ _ _ _ (H1 ltac:(intros (_ & ? & _); lia))). done. }
    unfold print_macro. by rewrite (bind_ret _ _ _ _ _ E).
Qed.

End theorems.

(** * Concrete instances *)

Section examples.
#[local] Existing Instance x86_64_example.
#[local] Existing Instance bit_field_example.
#[local] Existing Instance bitflags_example.
#[local] Existing Instance frames_example.
#[local] Existing Instance debug_build.
#[local] Existing Instance trace_build.

(** Page 5 is mapped for the user to the frame [0x5000], which holds the two literals. *)
Definition init_machine : machine PhysicalAllocator :=
  Machine {[ 0x1000 + 8 * 510 := 0x1003; 0x1000 := 0x2007; 0x2000 := 0x3007; 0x3000 := 0x4007;
             0x4000 + 8 * 5 := 0x5007; 0x5000 := 0x77202c6f6c6c6548; 0x5008 := 0x0a21646c726f;
             0x5010 := 0x2e676e69746c6148; 0x5018 := 0x0a2e2e ]} 0x1000 0 true [] example_allocator.

Lemma init_walk : ref_walk (mem init_machine) (cr3 init_machine) (page_no 5) = Ret (Some (0x5007, Kib4)).
Proof. by vm_compute. Qed.

(** A text of ASCII characters in page 5. *)
Lemma init_holds ptr txt : 0x5000 <= ptr -> ptr + Z.of_nat (length (utf8_encode txt)) <= 0x6000 ->
  (0 < length (utf8_encode txt))%nat -> Forall (fun c => scalar c = true) txt -> bytes_at init_machine ptr (utf8_encode txt) ->
  holds init_machine (mkStr ptr (Z.of_nat (length (utf8_encode txt)))) txt.
Proof.
  intros H1 H2 H3 Hs Hb. assert (forall va, ptr <= va < ptr + Z.of_nat (length (utf8_encode txt)) -> va / 4096 = 5) as Hp.
  { intros va Hva. Z.to_euclidean_division_equations. lia. }
  split; [done|]. cbn [str_ptr]. split; [lia|lia| |done|done|].
  - intros va Hva _. rewrite (Hp va Hva). eexists. apply init_walk.
  - split_and!; [lia|lia|unfold USER_END; lia|]. intros va Hva. rewrite (Hp va Hva). unfold user_page. by rewrite init_walk.
Qed.

Lemma user_programs_run_witness : exists v',
  init_main (fun r => r) (mkRegs 0 0 0 0 0 0 0 0 0 0) [] (mkStr 0x5000 14) (mkStr 0x5010 11) (mkSys init_machine example_writer []) =
    Ret (tt, mkSys init_machine v' []) /\
  shows Black v' (type_text ColourPair_default (chars "Hello, world!" ++ [10] ++ chars "Halting..." ++ [10]) (mkTerminal [] [])).
Proof.
  assert (rec_ok (mem init_machine) (cr3 init_machine)) as Hrec by (by split).
  pose proof (user_programs_run (fun r => r) (mkRegs 0 0 0 0 0 0 0 0 0 0) Black init_machine example_writer [] (mkTerminal [] [])
    Hrec example_shows) as (Hinit & _).
  destruct (Hinit [] (mkStr 0x5000 14) (mkStr 0x5010 11)) as (v' & E & Hsh & _).
  - apply (init_holds 0x5000 (chars "Hello, world!" ++ [10])); [done|by vm_compute|by apply Nat.ltb_lt|by repeat constructor|].
    repeat (split; [eexists _, _; split; [vm_compute; reflexivity|by vm_compute]|]). exact I.
  - apply (init_holds 0x5010 (chars "Halting..." ++ [10])); [done|by vm_compute|by apply Nat.ltb_lt|by repeat constructor|].
    repeat (split; [eexists _, _; split; [vm_compute; reflexivity|by vm_compute]|]). exact I.
  - exists v'. split; [exact E|exact Hsh].
Defined.

End examples.
