(* ===== verification/PhysicalMapping.v ===== *)
(** [kernel/src/memory/physical_mapping.rs] and [kernel/src/acpi_handler.rs]: windows
    onto given physical memory, placed in the heap's address range by
    [Heap::alloc_specific]. *)
From S2P Require Import Prelude Crates Machine FrameAlloc Paging PageMap Friendly Heap.

(** [PhysicalMapping<T>]: [virtual_start] is the address of the object. *)
Record PhysicalMapping := mkPhysicalMapping {
  physical_start : Z;
  virtual_start : Z;
  mapped_length : Z;
  mutable : bool
}.

(** [acpi::PhysicalMapping], a plain record of the [acpi] crate. *)
Record acpi_PhysicalMapping := mkAcpiMapping {
  acpi_physical_start : Z;
  acpi_virtual_start : Z;
  region_length : Z;
  acpi_mapped_length : Z
}.

Section mapping.
Context `{B : Build} `{X : X86_64Crate} `{F : BitflagsCrate} {P : Type} `{FA : FrameAllocator P}.
Context `{T : FriendlyTree HEAP_LEVELS HEAP_BASE_ORDER} `{FC : FriendlyCrate}.

#[local] Abbreviation hM := (M (heap_state P tree)).

Definition map_physical_region (physical_address size : Z) (mutable : bool) : hM PhysicalMapping :=
  let! frames := lift (round_up_divide size 4096) in
  let physical_begin_frame := physical_address / 4096 in
  let! o := alloc_specific physical_begin_frame frames in
  match o with
  | None => panic "Ran out of heap memory!"
  | Some alloc_ptr =>
      let! sum := lift (add64 alloc_ptr physical_address) in
      let! begin := lift (mul64 physical_begin_frame 4096) in
      let! obj_ptr := lift (sub64 sum begin) in
      let! len := lift (mul64 frames 4096) in
      do! assert_m (negb (obj_ptr =? 0)) "Ran out of heap memory!" in
      ret (mkPhysicalMapping begin obj_ptr len mutable)
  end.

(** The pointer [obj_addr & !0xFFF as *mut u8]; address 0 is null. *)
Definition page_begin (obj_addr : Z) : option Z :=
  let a := Z.land obj_addr (Z.lnot 0xFFF) in if a =? 0 then None else Some a.

(** [impl Drop for PhysicalMapping] *)
Definition drop_mapping (m : PhysicalMapping) : hM unit :=
  dealloc_specific (page_begin (virtual_start m)) (mapped_length m / 4096).

Definition deref_mut (m : PhysicalMapping) : option Z :=
  if mutable m then Some (virtual_start m) else None.

Definition deref (m : PhysicalMapping) : Z := virtual_start m.

(** [into_acpi]: the mapping is forgotten, not dropped. *)
Definition into_acpi (m : PhysicalMapping) : acpi_PhysicalMapping :=
  mkAcpiMapping (physical_start m) (virtual_start m) (mapped_length m) (mapped_length m).

(** [impl AcpiHandler for WolffiaAcpiHandler] *)
Definition acpi_map_physical_region (physical_address size : Z) : hM acpi_PhysicalMapping :=
  let! region := map_physical_region physical_address size false in
  ret (into_acpi region).

Definition acpi_unmap_physical_region (region : acpi_PhysicalMapping) : hM unit :=
  dealloc_specific (page_begin (acpi_virtual_start region)) (acpi_mapped_length region / 4096).

End mapping.
