(* ===== verification/PhysicalMappingTheorems.v ===== *)
(** Windows onto physical memory: [map_physical_region] shows the memory asked for,
    and dropping the window gives the heap back as it was. *)
From S2P Require Import Prelude Crates Machine FrameAlloc Paging Layout PageMap Friendly.
From S2P Require Import AddressSpace PagingLemmas PageMapLemmas MapperLemmas UnmapLemmas Heap HeapLemmas.
From S2P Require Import PhysicalMapping FriendlyExample PhysicalAllocator AllocatorTheorems PagingTheorems HeapTheorems.

Lemma block_pages_region `{Build} k : 6 <= k <= 24 ->
  block_pages (k + HEAP_BASE_ORDER) = Ret (range_excl 0 (region_pages k)).
Proof.
  intros Hk. unfold block_pages, round_up_divide, shl64, HEAP_BASE_ORDER.
  rewrite Z.shiftl_1_l. unfold wrap. pose proof (region_pages_bytes k ltac:(lia)) as E.
  assert (2 ^ (k + 6) <= 2 ^ 30) by (apply Z.pow_le_mono_r; lia).
  assert (0 < region_pages k) by (apply Z.pow_pos_nonneg; lia).
  rewrite Z.mod_small by lia. rewrite add64_small by lia. cbn [rbind].
  rewrite sub64_small by lia. cbn [rbind]. do 2 f_equal. rewrite E.
  Z.to_euclidean_division_equations. lia.
Qed.

Section mapping.
Context `{B : Build} `{X : X86_64Crate} `{F : BitflagsCrate}.
Context {P : Type} `{FA : FrameAllocator P} `{FS : !FrameAllocatorSpec P}.
Context `{T : FriendlyTree HEAP_LEVELS HEAP_BASE_ORDER} `{FC : FriendlyCrate}.
Implicit Types (h : heap_state P tree) (s : machine P).
#[local] Abbreviation hblock := (block_of HEAP_BASE_ORDER).

(** ** [alloc_specific] *)

(** The frame that backs page [n], for a region that starts at page [a]. *)
Definition region_frame (begin a n : Z) : Z := (begin + (n - a)) * 4096.

(** When every page can be mapped, the loop is a loop of [map_to]. *)
Lemma alloc_specific_pages h f begin j n s' :
  0 <= f < 2 ^ 30 -> 0 <= begin -> 0 <= j <= n -> begin + n <= 2 ^ 36 -> f / 4096 + n <= 2 ^ 18 ->
  let a := HEAP_PAGE + f / 4096 in
  try_each (range_incl (a + j) (a + n - 1))
    (fun m => map_to (page_no m) (region_frame begin a m) heap_flags Invalidate) (mach h) =
    Ret (Ok tt, s') ->
  try_each (range_excl j n) (alloc_specific_page (HEAP_START + f) begin) h =
    Ret (Ok tt, mkHeapState s' (htree h)).
Proof.
  intros Hf Hb Hj Hbn Hfn a. remember (Z.to_nat (n - j)) as len eqn:El. revert j h El Hj.
  assert (0 <= f / 4096) by (apply Z.div_pos; lia).
  induction len as [|len IH]; intros j h El Hj E.
  { rewrite range_incl_nil in E by lia. rewrite range_excl_nil by lia. injection E as <-. by destruct h. }
  rewrite range_incl_cons in E by lia. rewrite range_excl_cons by lia. cbn [try_each] in *.
  unfold bind in E. destruct (map_to _ _ _ _ (mach h)) as [[[u|e] s1]|] eqn:E1; try discriminate E.
  rewrite (bind_ret _ _ _ (Ok tt) (mkHeapState s1 (htree h))).
  - apply (IH (j + 1) (mkHeapState s1 (htree h))); [lia|lia|]. cbn [mach]. by replace (a + (j + 1)) with (a + j + 1) by lia.
  - unfold alloc_specific_page. rewrite heap_address by lia. msimp. rewrite hpage_address by lia.
    rewrite add64_small by lia. msimp. rewrite mul64_small by lia. msimp.
    rewrite PhysAddr_new_ok by lia. msimp.
    replace (region_frame begin a (a + j)) with ((begin + j) * 4096) in E1 by (unfold region_frame; lia).
    unfold hpage. rewrite Z.add_assoc. fold a.
    by rewrite (bind_ret _ _ _ _ _ (tables_ret _ h _ _ E1)).
Qed.

(** The block [f], [k] of the tree was taken and its pages lead to the frames from
    [begin] on. *)
Record region_taken (h : heap_state P tree) t h' t' (f k begin : Z) : Prop := {
  rt_tree : htree h' = Some t';
  rt_block : block_ok f k;
  rt_inv : tree_inv t';
  rt_was_free x : hblock f k x -> tree_free t x;
  rt_free x : tree_free t' x <-> tree_free t x /\ ~ hblock f k x;
  rt_live g j : tree_live t' g j <-> (g = f /\ j = k) \/ tree_live t g j;
  rt_pages : pages_to heap_flags (region_frame begin (HEAP_PAGE + f / 4096)) (HEAP_PAGE + f / 4096)
    (HEAP_PAGE + f / 4096 + region_pages k) (mach h) (mach h')
}.

(** [alloc_specific] up to its loop. *)
Lemma alloc_specific_steps h t begin frames k :
  htree h = Some t -> 0 <= frames -> frames * 4096 < 2 ^ 64 -> order (frames * 4096) = Ret k -> 6 <= k ->
  (k <= 24 -> forall off t', tree_allocate k t = (Some off, t') -> 0 <= off < 2 ^ 30) ->
  alloc_specific begin frames h =
    if 24 <? k then Ret (None, h) else
    let (o, t') := tree_allocate k t in
    let h' := mkHeapState (mach h) (Some t') in
    match o with
    | None => Ret (None, h')
    | Some off =>
        bind (try_each (range_excl 0 (region_pages k)) (alloc_specific_page (HEAP_START + off) begin))
          (fun r => match r with
                    | Ok _ => ret (Some (HEAP_START + off))
                    | Err _ => ret None
                    end) h'
    end.
Proof.
  intros Ht Hfr Hfr' Ek Hk Hoff. unfold alloc_specific. unfold wait_tree at 1. unfold bind at 1.
  rewrite Ht, mul64_small by lia. msimp. rewrite Ek. msimp. rewrite max_order_spec.
  change (HEAP_LEVELS - 1) with 24.
  destruct (24 <? k) eqn:E24; [done|]. destruct (tree_allocate k t) as [o t'] eqn:Ea.
  unfold put_tree. unfold bind at 1. destruct o as [off|]; [|done].
  specialize (Hoff ltac:(lia) off t' eq_refl). rewrite add64_small by (unfold HEAP_START; lia). msimp.
  rewrite block_pages_region by lia. msimp. by rewrite (Z.add_comm off HEAP_START).
Qed.

Lemma alloc_specific_spec h t begin frames :
  heap_inv h t -> 1 <= frames -> frames * 4096 < 2 ^ 64 -> 0 <= begin < 2 ^ 35 ->
  exists k, order (frames * 4096) = Ret k /\ 7 <= k /\ frames * 4096 <= 2 ^ (k + 5) /\
  ((exists f h' t', alloc_specific begin frames h = Ret (Some (HEAP_START + f), h') /\
      region_taken h t h' t' f k begin) \/
   (exists h' t', alloc_specific begin frames h = Ret (None, h') /\ heap_inv h' t' /\
      (forall g j, tree_live t' g j <-> tree_live t g j) /\
      (24 < k \/ forall f, f mod 2 ^ (k + 6) = 0 -> ~ (forall x, hblock f k x -> tree_free t x))) \/
   short_of (3 * region_pages k) (mach h)).
Proof.
  intros Hinv Hfr Hfr' Hb. destruct (Hinv) as [Ht Hp Hi _ _ _ _].
  destruct (order_spec (frames * 4096) ltac:(lia)) as (k & Ek & Hk & Hsz & Hleast). exists k.
  assert (7 <= k) as Hk7.
  { destruct (decide (7 <= k)); [done|]. assert (2 ^ (k + 5) <= 2 ^ 11) by (apply Z.pow_le_mono_r; lia). lia. }
  split_and!; [done|done|done|].
  rewrite (alloc_specific_steps h t begin frames k Ht ltac:(lia) Hfr' Ek ltac:(lia)).
  2:{ intros Hk24 off t' Ea. by destruct (taken_block t t' k off Hi ltac:(lia) Ea) as (_ & _ & ?). }
  destruct (24 <? k) eqn:E24.
  { right; left. exists h, t. split; [done|]. split; [done|]. split; [done|left; lia]. }
  destruct (tree_allocate k t) as [o t'] eqn:Ea.
  assert (0 <= k <= HEAP_LEVELS - 1) as Hk' by (unfold HEAP_LEVELS; lia).
  pose proof (tree_allocate_inv t k Hi Hk') as Hi'. rewrite Ea in Hi'. cbn [snd] in Hi'.
  cbv zeta. destruct o as [off|].
  2:{ destruct (tree_allocate_none t k t' Hi Hk' Ea) as (Hf' & Hl' & Hno).
      right; left. eexists _, t'. split; [done|]. split; [by eapply heap_inv_same|]. split; [done|by right]. }
  destruct (tree_allocate_some t k off t' Hi Hk' Ea) as (Hal & Hfree & Hfree' & Hlive').
  pose proof (taken_block t t' k off Hi ltac:(lia) Ea) as Hblk. destruct (Hblk) as (_ & _ & Hor).
  set (a := HEAP_PAGE + off / 4096). set (n := region_pages k).
  assert (0 < n <= 2 ^ 18) as Hn.
  { unfold n, region_pages. split; [apply Z.pow_pos_nonneg; lia|apply Z.pow_le_mono_r; lia]. }
  destruct (map_to_loop (mach h) a (a + n - 1) heap_flags Invalidate (region_frame begin a))
    as (r & s' & E & Hr); [apply Hp|apply heap_flags_ok|..].
  { intros m Hm. assert (heap_index (off / 4096 + (m - a))) as Hidx
      by (apply (region_index off k); [done|lia|fold n; lia]).
    replace (page_no m) with (hpage (off / 4096 + (m - a))) by (unfold hpage, a; f_equal; lia).
    split_and!; [by apply hpage_ok|by apply Hp|apply Z_mod_mult|..]; unfold region_frame; lia. }
  destruct r as [[]|].
  2:{ right; right. destruct Hr as (m & Hm & _ & Hex). by apply (short_of_mono (3 * (m - a + 1))); [lia|]. }
  left. exists off, (mkHeapState s' (Some t')), t'. split.
  - rewrite (bind_ret _ _ _ _ _ (alloc_specific_pages (mkHeapState (mach h) (Some t')) off begin 0 n s'
      Hor ltac:(lia) ltac:(lia) ltac:(lia) ltac:(pose proof (region_index off k (n - 1) Hblk ltac:(lia) ltac:(fold n; lia)) as Hx;
        unfold heap_index in Hx; lia) ltac:(fold a; by replace (a + 0) with a by lia))). done.
  - split; try done. fold a n. by replace (Z.max a (a + n - 1 + 1)) with (a + n) in Hr by lia.
Qed.

(** ** [dealloc_specific] *)

(** The pages from [a] to [b - 1] lost their mapping and nothing else changed. *)
Record region_gone (a b : Z) s s' : Prop := {
  rg_inv : tables_inv s';
  rg_gone n : a <= n < b -> ref_walk (mem s') (cr3 s') (page_no n) = Ret None;
  rg_others page : p4_index page <> REC -> ~ in_pages a b page ->
    ref_walk (mem s') (cr3 s') page = ref_walk (mem s) (cr3 s) page;
  rg_tables x : is_table s' x <-> is_table s x;
  rg_free x : fa_free (pmm s') x <-> fa_free (pmm s) x;
  rg_live g k : fa_live (pmm s') g k <-> fa_live (pmm s) g k;
  rg_clear page : p4_index page <> REC -> path_clear s page -> path_clear s' page;
  rg_cr3 : cr3 s' = cr3 s
}.

Lemma region_gone_cons a b e s s1 s' :
  a < b -> (forall n, a <= n < b -> page_ok (page_no n)) ->
  unmapped NoFree (page_no a) e s s1 -> region_gone (a + 1) b s1 s' -> region_gone a b s s'.
Proof.
  intros Hab Hok [Hi1 Hg1 Ho1 Ht1 Hf1 Hl1 Hc1 _ Hr1 _ _ _] [Hi Hg Ho Ht Hf Hl Hc Hr].
  split; try done.
  - intros n Hn. destruct (decide (n = a)) as [->|Hne]; [|apply Hg; lia].
    rewrite Ho; [done|apply Hok; lia|]. intros (m & Hm & Hs).
    apply same_page_inj in Hs; [simpl in Hs; lia|apply Hok; lia|apply Hok; lia].
  - intros page Hp Hn. rewrite Ho, Ho1; try done.
    + intros Hs. apply Hn. exists a. split; [lia|done].
    + intros Hin. apply Hn. by apply (in_pages_mono (a + 1) b); try lia.
  - intros x. by rewrite Ht.
  - intros x. rewrite Hf, Hf1. naive_solver.
  - intros g k. rewrite Hl, Hl1. naive_solver.
  - auto.
  - congruence.
Qed.

Lemma dealloc_specific_pages h f j n :
  tables_inv (mach h) -> 0 <= f < 2 ^ 30 -> 0 <= j <= n ->
  (forall i, j <= i < n -> heap_index (f / 4096 + i) /\ exists e, page_mapped (mach h) (f / 4096 + i) e) ->
  let a := HEAP_PAGE + f / 4096 in
  exists s', for_each (range_excl j n) (fun page =>
      let! page_addr := lift (add64 (HEAP_START + f) (page * 4096)) in
      tables (unmap (containing_address page_addr) NoFree NoInvalidate)) h =
    Ret (tt, mkHeapState s' (htree h)) /\ region_gone (a + j) (a + n) (mach h) s'.
Proof.
  intros Ht Hf Hj Hm a. assert (0 <= f / 4096) as Hf0 by (apply Z.div_pos; lia).
  remember (Z.to_nat (n - j)) as len eqn:El. revert j h El Ht Hj Hm.
  induction len as [|len IH]; intros j h El Ht Hj Hm.
  { exists (mach h). rewrite range_excl_nil by lia. split; [by destruct h|]. split; try done. intros; lia. }
  rewrite range_excl_cons by lia. cbn [for_each].
  destruct (Hm j ltac:(lia)) as (Hidx & e & He).
  destruct (unmap_spec (mach h) (hpage (f / 4096 + j)) NoFree NoInvalidate e Ht (hpage_ok _ Hidx) He)
    as (s1 & E1 & Hum & _); [done|].
  unfold heap_index in Hidx. rewrite heap_address by lia. msimp. rewrite hpage_address by lia.
  rewrite (bind_ret _ _ _ _ _ (tables_ret _ h _ _ E1)).
  assert (forall i, j <= i < n -> page_ok (page_no (a + i))) as Hok.
  { intros i Hi. destruct (Hm i Hi) as [Hx _]. unfold a. rewrite <- Z.add_assoc. by apply hpage_ok. }
  destruct (IH (j + 1) (mkHeapState s1 (htree h)) ltac:(lia) (um_inv _ _ _ _ _ Hum) ltac:(lia))
    as (s' & E & Hg).
  { intros i Hi. destruct (Hm i ltac:(lia)) as (Hii & e' & He'). split; [done|]. exists e'.
    unfold page_mapped, small_mapping. rewrite (um_others _ _ _ _ _ Hum); [done|by apply hpage_ok|].
    intros Hs%hpage_inj; [lia|unfold heap_index; lia|done]. }
  exists s'. split; [done|]. cbn [mach] in Hg.
  apply (region_gone_cons (a + j) (a + n) e _ s1); [lia|..].
  - intros m Hmr. replace m with (a + (m - a)) by lia. apply Hok. lia.
  - unfold hpage in Hum. by rewrite Z.add_assoc in Hum.
  - by replace (a + j + 1) with (a + (j + 1)) by lia.
Qed.

Lemma region_mapped h t h' t' f k begin i :
  region_taken h t h' t' f k begin -> 0 <= i < region_pages k ->
  page_mapped (mach h') (f / 4096 + i) (leaf_entry ((begin + i) * 4096) heap_flags).
Proof.
  intros Hrt Hi. destruct (rt_pages _ _ _ _ _ _ _ Hrt) as [_ Hm].
  specialize (Hm (HEAP_PAGE + f / 4096 + i) ltac:(lia)). unfold region_frame in Hm.
  unfold page_mapped, hpage. rewrite Z.add_assoc.
  by replace (begin + (HEAP_PAGE + f / 4096 + i - (HEAP_PAGE + f / 4096))) with (begin + i) in Hm by lia.
Qed.

Lemma dealloc_specific_spec h t h' t' f k begin frames :
  region_taken h t h' t' f k begin -> 1 <= frames -> frames * 4096 < 2 ^ 64 ->
  order (frames * 4096) = Ret k -> 6 <= k ->
  exists h2 t2, dealloc_specific (Some (HEAP_START + f)) frames h' = Ret (tt, h2) /\
    htree h2 = Some t2 /\ tree_inv t2 /\
    (forall x, tree_free t2 x <-> tree_free t' x \/ hblock f k x) /\
    (forall g j, tree_live t2 g j <-> tree_live t' g j /\ ~ (g = f /\ j = k)) /\
    region_gone (HEAP_PAGE + f / 4096) (HEAP_PAGE + f / 4096 + region_pages k) (mach h') (mach h2).
Proof.
  intros Hrt Hfr Hfr' Ek Hk. pose proof (rt_block _ _ _ _ _ _ _ Hrt) as Hb.
  destruct (Hb) as (Hk24 & _ & Hf). destruct (rt_pages _ _ _ _ _ _ _ Hrt) as [Hev _].
  unfold dealloc_specific. replace (frames =? 0) with false by lia.
  rewrite mul64_small by lia. msimp. rewrite Ek. msimp.
  assert (in_heap (HEAP_START + f) = true) as ->.
  { unfold in_heap. change (Z.shiftl 1 30) with (2 ^ 30). lia. }
  rewrite bind_assert_true. rewrite sub64_small by (unfold HEAP_START; lia). msimp.
  replace (HEAP_START + f - HEAP_START) with f by lia.
  unfold wait_tree at 1. unfold bind at 1. rewrite (rt_tree _ _ _ _ _ _ _ Hrt).
  destruct (tree_deallocate_live t' f k (rt_inv _ _ _ _ _ _ _ Hrt)) as (t2 & E2 & Hi2 & Hf2 & Hl2).
  { apply (rt_live _ _ _ _ _ _ _ Hrt). auto. }
  rewrite E2. msimp. unfold put_tree. unfold bind at 1. rewrite block_pages_region by lia. msimp.
  assert (0 <= region_pages k) by (apply Z.pow_nonneg; lia).
  destruct (dealloc_specific_pages (mkHeapState (mach h') (Some t2)) f 0 (region_pages k))
    as (s2 & E & Hg); [apply Hev|done|lia|..].
  { intros i Hi. split; [by apply (region_index f k)|]. eexists. by apply (region_mapped h t h' t' f k begin). }
  eexists _, t2. split; [exact E|]. rewrite Z.add_0_r in Hg. by split_and!.
Qed.

(** ** The round trip *)

Lemma in_pages_dec a b page : in_pages a b page \/ ~ in_pages a b page.
Proof.
  destruct (decide (Exists (fun n => same_page (page_no n) page) (range_excl a b))) as [H|H].
  - left. apply list.Exists_exists in H as (n & Hn & Hs). exists n. split; [|done].
    unfold range_excl in Hn. apply elem_of_seqZ in Hn. lia.
  - right. intros (n & Hn & Hs). apply H, list.Exists_exists. exists n. split; [|done].
    unfold range_excl. apply elem_of_seqZ. lia.
Qed.

(** Taking a region and giving it back leaves the heap invariant and every
    translation as they were. *)
Lemma region_round_trip h t h' t' f k begin h2 t2 :
  heap_inv h t -> region_taken h t h' t' f k begin -> 6 <= k -> htree h2 = Some t2 -> tree_inv t2 ->
  (forall x, tree_free t2 x <-> tree_free t' x \/ hblock f k x) ->
  (forall g j, tree_live t2 g j <-> tree_live t' g j /\ ~ (g = f /\ j = k)) ->
  region_gone (HEAP_PAGE + f / 4096) (HEAP_PAGE + f / 4096 + region_pages k) (mach h') (mach h2) ->
  heap_inv h2 t2 /\ (forall x, tree_free t2 x <-> tree_free t x) /\
  (forall g j, tree_live t2 g j <-> tree_live t g j) /\
  (forall page, page_ok page -> ref_walk (mem (mach h2)) (cr3 (mach h2)) page =
     ref_walk (mem (mach h)) (cr3 (mach h)) page).
Proof.
  intros Hinv [_ Hb _ Hwas Hfree Hlive [Hev _]] Hk Ht2 Hi2 Hf2 Hl2 [Ri Rg Ro Rt Rf Rl Rc Rr].
  set (a := HEAP_PAGE + f / 4096) in *. set (b := a + region_pages k) in *.
  assert (forall x, tree_free t2 x <-> tree_free t x) as Hfr.
  { intros x. rewrite Hf2, Hfree. destruct (hblock_dec f k x (proj1 (proj1 Hb))); naive_solver. }
  assert (forall g j, tree_live t2 g j <-> tree_live t g j) as Hlv.
  { intros g j. rewrite Hl2, Hlive. split; [naive_solver|]. intros Hg. split; [auto|]. intros [-> ->].
    apply (tree_live_not_free t f k f (hi_inv _ _ Hinv) Hg); [apply hblock_self, Hb|].
    apply Hwas, hblock_self, Hb. }
  assert (forall page, page_ok page -> ref_walk (mem (mach h2)) (cr3 (mach h2)) page =
     ref_walk (mem (mach h)) (cr3 (mach h)) page) as Hw.
  { intros page Hp. destruct (in_pages_dec a b page) as [(n & Hn & Hs)|Hn].
    - rewrite <- !(ref_walk_same_page _ _ _ _ Hs), Rg by done. pose proof (region_not_mapped h t f k (n - a) Hinv Hb Hk Hwas ltac:(unfold b in Hn; lia)) as E.
      unfold hpage in E. by replace (HEAP_PAGE + (f / 4096 + (n - a))) with n in E by (unfold a; lia).
    - rewrite Ro, (ev_cr3 _ _ _ Hev), (ev_walk _ _ _ Hev); (done || apply Hp). }
  split_and!; [|done|done|done].
  apply (heap_inv_transfer h t h2 t2); try done; [intros i Hidx|intros i Hidx; by apply Hw, hpage_ok|..].
  - apply Rc; [apply hpage_ok, Hidx|].
    apply (path_clear_evolves _ _ _ _ (po_rec _ (hpage_ok i Hidx)) Hev). by apply (hp_clear _ (hi_pages _ _ Hinv)).
  - intros i e Hidx Hm. apply Rl, (ev_live _ _ _ Hev). by apply (hp_frame _ (hi_pages _ _ Hinv) i e).
  - intros x Hx. by apply (ev_new _ _ _ Hev), Rt.
Qed.

(** ** [map_physical_region] *)

(** The sum [alloc_ptr + physical_address] leaves 64 bits for memory above 2 GiB;
    without overflow checks the subtraction that follows wraps back. *)
Lemma object_address a b c : is_u64 a -> is_u64 b -> 0 <= c <= b -> is_u64 (a + (b - c)) ->
  (overflow_checks = true -> a + b < two64) ->
  (let? x := add64 a b in sub64 x c) = Ret (a + (b - c)).
Proof.
  intros Ha Hb Hc Hr Ho. unfold is_u64 in *. destruct (decide (a + b < two64)) as [Hs|Hs].
  - rewrite add64_small by lia. cbn [rbind]. rewrite sub64_small by lia. f_equal. lia.
  - unfold add64, sub64, checked, wrap. replace ((0 <=? a + b) && (a + b <? 2 ^ 64)) with false by lia.
    destruct overflow_checks; [by destruct (Hs (Ho eq_refl))|]. cbn [rbind].
    replace ((a + b) mod 2 ^ 64) with (a + b - 2 ^ 64) by (Z.to_euclidean_division_equations; lia).
    replace ((0 <=? a + b - 2 ^ 64 - c) && (a + b - 2 ^ 64 - c <? 2 ^ 64)) with false by lia.
    f_equal. Z.to_euclidean_division_equations. lia.
Qed.

Lemma map_physical_region_steps h h' f pa size m :
  1 <= size < 2 ^ 63 -> 0 <= pa < 2 ^ 47 -> (overflow_checks = true -> pa < 2 ^ 31) -> 0 <= f < 2 ^ 30 ->
  f mod 4096 = 0 ->
  alloc_specific (pa / 4096) ((size + 4095) / 4096) h = Ret (Some (HEAP_START + f), h') ->
  map_physical_region pa size m h =
    Ret (mkPhysicalMapping (pa / 4096 * 4096) (HEAP_START + f + pa mod 4096)
           ((size + 4095) / 4096 * 4096) m, h').
Proof.
  intros Hs Hpa Ho Hf Hal E. unfold map_physical_region, round_up_divide.
  rewrite add64_small by lia. cbn [rbind]. rewrite sub64_small by lia. cbn [rbind]. msimp.
  replace (size + 4096 - 1) with (size + 4095) by lia. rewrite (bind_ret _ _ _ _ _ E).
  assert (0 <= pa / 4096 * 4096 <= pa /\ pa - pa / 4096 * 4096 = pa mod 4096 /\ 0 <= pa mod 4096 < 4096)
    as (Hd & Em & Hm) by (Z.to_euclidean_division_equations; lia).
  pose proof (object_address (HEAP_START + f) pa (pa / 4096 * 4096)) as Eo. unfold is_u64, HEAP_START in Eo.
  rewrite Em in Eo. specialize (Eo ltac:(lia) ltac:(lia) ltac:(lia)).
  specialize (Eo ltac:(Z.to_euclidean_division_equations; lia) ltac:(intros Hoc; specialize (Ho Hoc); lia)).
  fold HEAP_START in Eo. destruct (add64 (HEAP_START + f) pa) as [x|w]; [|done]. cbn [rbind] in Eo. msimp.
  rewrite mul64_small by lia. msimp. rewrite Eo. msimp.
  rewrite mul64_small by (Z.to_euclidean_division_equations; lia). msimp.
  replace (HEAP_START + f + pa mod 4096 =? 0) with false by (unfold HEAP_START; lia). done.
Qed.

Lemma page_begin_object f off : 0 <= f -> f mod 4096 = 0 -> 0 <= off < 4096 ->
  page_begin (HEAP_START + f + off) = Some (HEAP_START + f).
Proof.
  intros Hf Hal Ho. unfold page_begin. rewrite page_base by (unfold HEAP_START; lia).
  replace ((HEAP_START + f + off) / 4096 * 4096) with (HEAP_START + f)
    by (unfold HEAP_START; Z.to_euclidean_division_equations; lia).
  by replace (HEAP_START + f =? 0) with false by (unfold HEAP_START; lia).
Qed.

(** A window has fewer than four times the pages asked for. *)
Lemma region_pages_bound frames k : 1 <= frames -> frames * 4096 < 2 ^ 64 ->
  order (frames * 4096) = Ret k -> 7 <= k -> region_pages k < 4 * frames.
Proof.
  intros Hfr Hfr' Ek Hk. destruct (order_spec (frames * 4096) ltac:(lia)) as (k' & Ek' & _ & _ & Hleast).
  rewrite Ek in Ek'. injection Ek' as <-. destruct Hleast as [?|Hl]; [lia|].
  pose proof (region_pages_bytes k ltac:(lia)) as Eb.
  assert (2 ^ (k + 6) = 4 * 2 ^ (k + 4)) as E4.
  { change 4 with (2 ^ 2) at 1. rewrite <- Z.pow_add_r by lia. f_equal. lia. }
  lia.
Qed.

(** Every byte of the window is the byte of physical memory asked for. *)
Lemma region_translates h t h' t' f k pa a :
  region_taken h t h' t' f k (pa / 4096) -> 6 <= k -> 0 <= pa < 2 ^ 47 ->
  0 <= a -> pa mod 4096 + a < region_pages k * 4096 ->
  mmu_walk (mem (mach h')) (cr3 (mach h')) (HEAP_START + f + pa mod 4096 + a) = Some (pa + a, true).
Proof.
  intros Hrt Hk Hpa Ha Hroom. pose proof (rt_block _ _ _ _ _ _ _ Hrt) as Hb. destruct (Hb) as (_ & _ & Hf).
  destruct (block_pages_large f k Hb Hk) as [Hal _]. destruct (rt_pages _ _ _ _ _ _ _ Hrt) as [Hev _].
  set (i := (pa mod 4096 + a) / 4096). set (off := (pa mod 4096 + a) mod 4096).
  assert (0 <= off < 4096) as Hoff by (by apply Z.mod_pos_bound).
  assert (pa mod 4096 + a = i * 4096 + off) as Ei by (unfold i, off; Z.to_euclidean_division_equations; lia).
  assert (0 <= pa mod 4096 < 4096) by (by apply Z.mod_pos_bound).
  assert (0 <= i < region_pages k) as Hi by lia.
  pose proof (region_mapped h t h' t' f k _ i Hrt Hi) as Hm.
  pose proof (region_index f k i Hb Hk Hi) as Hidx.
  destruct (leaf_entry_facts ((pa / 4096 + i) * 4096) heap_flags) as (Ea & _ & Ew);
    [by apply Z_mod_mult|unfold heap_index in Hidx; Z.to_euclidean_division_equations; lia|apply heap_flags_ok|].
  replace (HEAP_START + f + pa mod 4096 + a) with (number (hpage (f / 4096 + i)) * 4096 + off).
  2:{ cbn. change HEAP_PAGE with 0xffffffff40000. unfold HEAP_START. Z.to_euclidean_division_equations. lia. }
  rewrite (mmu_small _ _ _ _ _ (ti_space _ (ev_inv _ _ _ Hev)) (hpage_ok _ Hidx) Hm Hoff).
  rewrite Ea, Ew, heap_flags_writable. do 2 f_equal. Z.to_euclidean_division_equations. lia.
Qed.

(** C31: a window onto physical memory. Unless fewer than twelve frames for each page
    asked for are free (for page tables), [map_physical_region] either panics because
    the heap has no free block of the order needed, or gives a
    window in which every byte of the [size] bytes asked for (also when they straddle
    one page more than [size] needs) is translated to the same byte of physical
    memory, with every page the heap had mapped left as it was. The window is mutable
    only if asked for. Dropping it, or unmapping it through the ACPI handler, restores
    the heap's blocks, every translation and the heap invariant. A build with overflow
    checks needs the memory to lie below 2 GiB. *)
Theorem map_physical_region_correct h t pa size m :
  heap_inv h t -> 1 <= size < 2 ^ 63 -> 0 <= pa < 2 ^ 47 -> (overflow_checks = true -> pa < 2 ^ 31) ->
  (exists w h', map_physical_region pa size m h = Ret (w, h') /\
     (forall a, 0 <= a < size ->
        mmu_walk (mem (mach h')) (cr3 (mach h')) (deref w + a) = Some (pa + a, true)) /\
     (forall i e, heap_index i -> page_mapped (mach h) i e -> page_mapped (mach h') i e) /\
     deref_mut w = (if m then Some (deref w) else None) /\
     drop_mapping w h' = acpi_unmap_physical_region (into_acpi w) h' /\
     exists h2 t2, drop_mapping w h' = Ret (tt, h2) /\ heap_inv h2 t2 /\
       (forall x, tree_free t2 x <-> tree_free t x) /\
       (forall g j, tree_live t2 g j <-> tree_live t g j) /\
       (forall page, page_ok page -> ref_walk (mem (mach h2)) (cr3 (mach h2)) page =
          ref_walk (mem (mach h)) (cr3 (mach h)) page)) \/
  (map_physical_region pa size m h = Stop (Panic "Ran out of heap memory!") /\
   exists k, order ((size + 4095) / 4096 * 4096) = Ret k /\
     (24 < k \/ forall f, f mod 2 ^ (k + 6) = 0 -> ~ (forall x, hblock f k x -> tree_free t x))) \/
  short_of (12 * ((size + 4095) / 4096)) (mach h).
Proof.
  intros Hinv Hs Hpa Ho. set (frames := (size + 4095) / 4096).
  assert (1 <= frames /\ frames * 4096 < 2 ^ 64 /\ size <= frames * 4096) as (Hfr & Hfr' & Hfs)
    by (unfold frames; Z.to_euclidean_division_equations; lia).
  assert (0 <= pa / 4096 < 2 ^ 35) as Hbegin by (Z.to_euclidean_division_equations; lia).
  destruct (alloc_specific_spec h t (pa / 4096) frames Hinv Hfr Hfr' Hbegin)
    as (k & Ek & Hk & Hroom & [(f & h' & t' & E & Hrt)|[(h' & t' & E & _ & _ & Hno)|Hex]]); [left|right; left|do 2 right].
  3:{ apply (short_of_mono (3 * region_pages k)); [|done]. by pose proof (region_pages_bound frames k Hfr Hfr' Ek Hk); lia. }
  2:{ split; [|by exists k]. unfold map_physical_region, round_up_divide. rewrite add64_small by lia. cbn [rbind].
      rewrite sub64_small by lia. cbn [rbind]. msimp.
      replace (size + 4096 - 1) with (size + 4095) by lia. fold frames. by rewrite (bind_ret _ _ _ _ _ E). }
  pose proof (rt_block _ _ _ _ _ _ _ Hrt) as Hb. destruct (Hb) as (_ & _ & Hf).
  destruct (block_pages_large f k Hb ltac:(lia)) as [Hal _].
  pose proof (region_pages_bytes k ltac:(lia)) as Ebytes.
  assert (2 ^ (k + 6) = 2 * 2 ^ (k + 5)) as E2 by (rewrite <- Z.pow_succ_r by lia; f_equal; lia).
  destruct (rt_pages _ _ _ _ _ _ _ Hrt) as [Hev _].
  destruct (dealloc_specific_spec h t h' t' f k _ frames Hrt Hfr Hfr' Ek ltac:(lia))
    as (h2 & t2 & Ed & Ht2 & Hi2 & Hf2 & Hl2 & Hg).
  eexists _, h'. split; [by apply (map_physical_region_steps h h' f)|].
  unfold deref, deref_mut, drop_mapping, acpi_unmap_physical_region, into_acpi. cbn.
  rewrite page_begin_object by (done || lia || by apply Z.mod_pos_bound). fold frames.
  rewrite Z.div_mul by done. split_and!; [| |done|done|].
  - intros a Ha. assert (0 <= pa mod 4096 < 4096) by (by apply Z.mod_pos_bound).
    apply (region_translates h t h' t' f k); [done|lia|done|lia|lia].
  - intros i e Hidx Hm. apply (page_mapped_evolves _ _ _ _ _ Hev Hidx); [|done]. intros (n & Hn & Hs').
    pose proof (region_not_mapped h t f k (n - (HEAP_PAGE + f / 4096)) Hinv Hb ltac:(lia)
      (rt_was_free _ _ _ _ _ _ _ Hrt) ltac:(lia)) as En.
    unfold hpage in En. replace (HEAP_PAGE + (f / 4096 + (n - (HEAP_PAGE + f / 4096)))) with n in En by lia.
    unfold page_mapped, small_mapping in Hm. rewrite <- (ref_walk_same_page _ _ _ _ Hs'), En in Hm. done.
  - exists h2, t2. split; [done|]. apply (region_round_trip h t h' t' f k (pa / 4096)); (assumption || lia).
Qed.

End mapping.

(** * A concrete instance *)

Section examples.
#[local] Existing Instance x86_64_example.
#[local] Existing Instance bit_field_example.
#[local] Existing Instance bitflags_example.
#[local] Existing Instance frames_example.
#[local] Existing Instance debug_build.
#[local] Existing Instance heap_tree_example.
#[local] Existing Instance blocks_example.

(** The 36 bytes of an ACPI root pointer that straddle two pages. *)
Lemma map_physical_region_correct_witness :
  exists w h', map_physical_region 0xe0ff0 36 false example_heap = Ret (w, h') /\
    mmu_walk (mem (mach h')) (cr3 (mach h')) (deref w + 35) = Some (0xe0ff0 + 35, true).
Proof.
  destruct (map_physical_region_correct example_heap _ 0xe0ff0 36 false example_heap_inv ltac:(lia) ltac:(lia)
    ltac:(intros _; lia)) as [(w & h' & E & Hw & _)|[[_ (k & Ek & H)]|H]].
  - exists w, h'. split; [exact E|]. exact (Hw 35 ltac:(lia)).
  - exfalso. assert (k = 7) as -> by (vm_compute in Ek; congruence). clear Ek. destruct H as [H|H]; [lia|].
    apply (H 0 eq_refl). intros x (i & Hi & ->).
    apply (proj2 (tree_new_free (FriendlyTree := heap_tree_example) [(0, Z.shiftl 1 (30 + 1))] _)).
    change (tree_bytes HEAP_LEVELS HEAP_BASE_ORDER) with (2 ^ 30). change (2 ^ HEAP_BASE_ORDER) with 64.
    split; [rewrite Z.add_0_l, Z.mul_comm; apply Z_mod_mult|]. split; [lia|].
    exists (0, Z.shiftl 1 (30 + 1)). split; [by apply list_elem_of_singleton|].
    unfold range_has. change (Z.shiftl 1 (30 + 1)) with (2 ^ 31). simpl fst. simpl snd. lia.
  - destruct (example_enough (12 * ((36 + 4095) / 4096)) ltac:(change (12 * ((36 + 4095) / 4096)) with 12; lia) H).
Defined.

End examples.
