(* ===== verification/Process.v ===== *)
(** [kernel/src/process.rs]: loading a program from its ELF image into an address space
    of its own, and starting it. *)
From S2P Require Import Prelude Crates Machine FrameAlloc Paging Layout PageMap Bytes Friendly Heap Storage.
From S2P Require Import BootstrapHeap PhysicalAllocator ActivePageMap Vga MemoryInit Cpu.

(** What the kernel reads of a parsed image: the fields of [goblin]'s [Elf] and, per
    program header, its type and what [vm_range()], [file_range()], [is_executable()]
    and [is_write()] return. *)
Record ProgramHeader := mkProgramHeader {
  p_type : Z;
  vm_range : Z * Z;
  file_range : Z * Z;
  is_executable : bool;
  is_write : bool
}.

Record Elf := mkElf {
  is_lib : bool;
  entry : Z;
  is_64 : bool;
  libraries : list string;
  program_headers : list ProgramHeader
}.

Definition PT_LOAD : Z := 1.

(** [Elf::parse] of the [goblin] crate: its result, what it does with the global allocator (the
    blocks it has in the end are those of the [Elf], or of the error), and the records it hands to the
    [log] crate: level, target and message. *)
Class GoblinCrate := {
  goblin_error : Type;
  elf_parse : list Z -> result Elf goblin_error;
  elf_storage : list Z -> list storage_op;
  elf_log : list Z -> list (log_Level * list Z * list Z)
}.

(** [DashMap] of the [dashmap] crate: what [default] and [insert] do with the global allocator. The
    latter may depend on the blocks that the map has and on its keys. *)
Class DashMapCrate := {
  map_storage : list storage_op;
  insert_storage : list (Z * Z) -> gset Z -> Z -> list storage_op
}.

Record Process := mkProcess {
  page_tables : InactivePageMap;
  stack_ptr : Z;
  instruction_ptr : Z;
  io_port_ranges : list (Z * Z);
  new : bool
}.

Section process.
Context `{B : Build} `{X : X86_64Crate} `{F : BitflagsCrate} {P : Type} `{FA : FrameAllocator P}.
Context `{T : FriendlyTree HEAP_LEVELS HEAP_BASE_ORDER} `{FC : FriendlyCrate}.
Context `{G : GoblinCrate} `{DM : DashMapCrate} `{BF : BitFieldCrate}.

Inductive ElfLaunchError :=
| NotExecutable
| Not64Bit
| NotStaticallyLinked
| ElfInvalidPage (e : TryMapError)
| InvalidEntryPoint (addr : Z)
| ParseError (e : goblin_error)
| InvalidHeaderRange (r : Z * Z).

(** The statics of a running kernel: memory, [PROCESSES], [NEXT_PID] and [TSS]. [PROCESSES] is
    lazy: it has no storage before it is used. *)
Record proc_state := mkProcState {
  ps_heap : heap_state P tree;
  PROCESSES : gmap Z Process;
  NEXT_PID : Z;
  ps_tss : option Tss;
  ps_table : option (list (Z * Z))
}.

#[local] Abbreviation mM := (M (machine P)).
#[local] Abbreviation hM := (M (heap_state P tree)).
#[local] Abbreviation pM := (M proc_state).

Definition with_memory {A} (c : hM A) : pM A := fun s =>
  match c (ps_heap s) with
  | Ret (a, h) => Ret (a, mkProcState h (PROCESSES s) (NEXT_PID s) (ps_tss s) (ps_table s))
  | Stop w => Stop w
  end.

(** [ProcessId::next]: [fetch_add] wraps. *)
Definition ProcessId_next : pM Z := fun s =>
  let next_pid := NEXT_PID s in
  if next_pid <? u64_max
  then Ret (next_pid, mkProcState (ps_heap s) (PROCESSES s) (wrap 64 (next_pid + 1)) (ps_tss s) (ps_table s))
  else Stop (Panic "Ran out of process ids. This should never happen").

(** [data.get(a..b)] *)
Definition slice_get (data : list Z) (r : Z * Z) : option (list Z) :=
  if (r.1 <=? r.2) && (r.2 <=? Z.of_nat (length data))
  then Some (take (Z.to_nat (r.2 - r.1)) (drop (Z.to_nat r.1) data)) else None.

(** [Range::len] *)
Definition range_len (r : Z * Z) : Z := Z.max 0 (r.2 - r.1).

(** The flags a segment ends up with. *)
Definition segment_flags (p : ProgramHeader) : Z :=
  let flags := USER_ACCESSIBLE in
  let flags := if negb (is_executable p) then flags ||| NO_EXECUTE else flags in
  if is_write p then flags ||| WRITABLE else flags.

(** The body of the loop over the program headers. What [try_map_user_range] traces of a segment it refuses is
    not part of this state: the kernel panics on the refusal. *)
Definition load_segment (data : list Z) (p : ProgramHeader) : mM (result unit ElfLaunchError) :=
  if negb (p_type p =? PT_LOAD) then ret (Ok tt) else
  let vm := vm_range p in
  if (vm.1 <=? 0) && (0 <? vm.2) then ret (Err (ElfInvalidPage (InvalidAddress (containing_address 0)))) else
  let page_start := containing_address vm.1 in
  let! last := lift (sub64 vm.2 1) in
  let page_end := containing_address last in
  let flags := segment_flags p in
  let! r := try_map_user_range page_start page_end WRITABLE NoInvalidate true NoZero in
  match r with
  | Err e => ret (Err (ElfInvalidPage e))
  | Ok _ =>
      match slice_get data (file_range p) with
      | None => ret (Err (InvalidHeaderRange (file_range p)))
      | Some src_slice =>
          if negb (range_len vm =? Z.of_nat (length src_slice))
          then ret (Err (InvalidHeaderRange (file_range p)))
          else
            do! write_bytes vm.1 src_slice in
            do! set_flags page_start page_end flags NoInvalidate in
            ret (Ok tt)
      end
  end.

Definition load_segments (data : list Z) (ps : list ProgramHeader) : mM (result unit ElfLaunchError) :=
  try_each ps (load_segment data).

(** The temporary page is dropped at the end. *)
Definition new_process_page_tables : hM InactivePageMap :=
  let! temporary_page := TemporaryPage_new in
  let! frame := tables (allocate_frame 0) in
  let! frame := expect frame "no more frames" in
  let! cr3 := tables read_cr3 in
  let! new_table := tables (InactivePageMap_new frame cr3.2 temporary_page) in
  let! kernel_pml4_entry := tables (table_read P4 511) in
  let! table := tables (map_table_frame temporary_page frame) in
  do! tables (table_write table 511 kernel_pml4_entry) in
  do! tables (tp_unmap temporary_page) in
  do! drop_temporary_page temporary_page in
  ret new_table.

(** The storage of [PROCESSES], created on its first use. *)
Definition processes_table : pM (list (Z * Z)) := fun s =>
  match ps_table s with
  | Some blocks => Ret (blocks, s)
  | None => with_memory (use_storage map_storage []) s
  end.

(** [PROCESSES.insert(pid, process)] *)
Definition processes_insert (pid : Z) (process : Process) : pM unit :=
  let! blocks := processes_table in
  let! keys := gets (fun s => dom (PROCESSES s)) in
  let! blocks := with_memory (use_storage (insert_storage blocks keys pid) blocks) in
  modify (fun s => mkProcState (ps_heap s) (<[pid := process]> (PROCESSES s)) (NEXT_PID s) (ps_tss s) (Some blocks)).

(** [spawn_from_elf] between the parsing of the image and the end of the function, where the parsed
    image is dropped. *)
Definition spawn_parsed (data : list Z) (elf : Elf) : pM (result Z ElfLaunchError) :=
  if is_lib elf || (entry elf =? 0) then ret (Err NotExecutable) else
  if negb (is_64 elf) then ret (Err Not64Bit) else
  if negb (bool_decide (libraries elf = [])) then ret (Err NotStaticallyLinked) else
  let! page_tables := with_memory new_process_page_tables in
  let! page_tables :=
    with_memory (tables (with_inactive page_tables (load_segments data (program_headers elf)))) in
  match page_tables with
  | Err e => ret (Err e)
  | Ok page_tables =>
      if (Z.shiftr (entry elf) 63 =? 1) || bool_decide (VirtAddr_try_new (entry elf) = None)
      then ret (Err (InvalidEntryPoint (entry elf)))
      else
        let! ip := lift (VirtAddr_new (entry elf)) in
        let process := mkProcess page_tables STACK_TOP ip [] true in
        let! pid := ProcessId_next in
        do! processes_insert pid process in
        ret (Ok pid)
  end.

Definition spawn_from_elf (data : list Z) : pM (result Z ElfLaunchError) :=
  let! blocks := with_memory (use_storage (elf_storage data) []) in
  match elf_parse data with
  | Err e => ret (Err (ParseError e))
  | Ok elf =>
      let! r := spawn_parsed data elf in
      do! with_memory (release_storage blocks) in
      ret r
  end.

Definition stack_flags : Z := WRITABLE ||| USER_ACCESSIBLE ||| NO_EXECUTE.

(** [Process::setup] *)
Definition setup : mM (result unit OutOfMemory) :=
  let stack_top := containing_address STACK_TOP in
  let stack_bottom := containing_address STACK_BOTTOM in
  map_range stack_bottom stack_top stack_flags NoInvalidate Zero.

Definition set_process (pid : Z) (p : Process) : pM unit :=
  modify (fun s => mkProcState (ps_heap s) (<[pid := p]> (PROCESSES s)) (NEXT_PID s) (ps_tss s) (ps_table s)).

Definition permit_serial_ports : pM unit := fun s =>
  match ps_tss s with
  | None => Stop (Panic "unwrap")
  | Some t =>
      match lock_or_panic (set_port_range_usable 0x3f8 (0x3F8 + 7) true) (tss_iomap t) with
      | Ret (_, l) =>
          Ret (tt, mkProcState (ps_heap s) (PROCESSES s) (NEXT_PID s) (Some (mkTss (tss t) (iomap_base t) l)) (ps_table s))
      | Stop w => Stop w
      end
  end.

(** [run_by_pid]: [Ok] is the jump to user mode, which does not return. If [PROCESSES] has no storage yet
    then it has no process either, and [unwrap] panics. [rflags] is the flags register at the end. *)
Definition run_by_pid (rflags pid : Z) : pM (result iret_frame OutOfMemory) :=
  let! this := gets (fun s => PROCESSES s !! pid) in
  let! this := expect this "unwrap" in
  let! _ := with_memory (tables (switch (page_tables this))) in
  let! r := (if new this then
               let! r := with_memory (tables setup) in
               match r with
               | Err e => ret (Err e)
               | Ok _ =>
                   do! set_process pid (mkProcess (page_tables this) (stack_ptr this) (instruction_ptr this)
                                          (io_port_ranges this) false) in
                   ret (Ok tt)
               end
             else ret (Ok tt)) in
  match r with
  | Err e => ret (Err e)
  | Ok _ =>
      do! permit_serial_ports in
      ret (Ok (jump_usermode rflags (stack_ptr this) (instruction_ptr this)))
  end.

End process.
