(* ===== verification/ProcessLemmas.v ===== *)
(** Lemmas on [Process.v]: copying a segment through its mapping, and loading the
    segments of an image one after the other. *)
From S2P Require Import Prelude Crates Machine FrameAlloc Paging Layout PageMap AddressSpace.
From S2P Require Import PagingLemmas PageMapLemmas MapperLemmas UnmapLemmas Bytes Friendly Heap.
From S2P Require Import BootstrapHeap PhysicalAllocator ActivePageMap MemoryInit Cpu Process.

(** * Copying bytes into mapped pages *)

Section copy.
Context {P : Type} `{FA : FrameAllocator P} `{FS : !FrameAllocatorSpec P}.
Implicit Types s : machine P.

(** Pages [a] to [b] are mapped by the entries [en] to data frames, no two to the same. *)
Record area s (en : Z -> Z) (a b : Z) : Prop := {
  ar_ok n : a <= n <= b -> page_ok (page_no n);
  ar_map n : a <= n <= b -> small_mapping (mem s) (cr3 s) (page_no n) (en n);
  ar_data n : a <= n <= b -> ~ is_table s (e_addr (en n));
  ar_inj n m : a <= n <= b -> a <= m <= b -> e_addr (en n) = e_addr (en m) -> n = m
}.

(** Where the entries send the address [va]. *)
Definition phys (en : Z -> Z) (va : Z) : Z := e_addr (en (va / 4096)) + va mod 4096.

Lemma frame_phys en va : frame_of (phys en va) = e_addr (en (va / 4096)).
Proof.
  unfold frame_of, phys. destruct (e_addr_range (en (va / 4096))) as [Ha _].
  pose proof (Z.mod_pos_bound va 4096 ltac:(lia)). Z.to_euclidean_division_equations. lia.
Qed.

Lemma frame_word pa : frame_of (pa - pa mod 8) = frame_of pa.
Proof. unfold frame_of. Z.to_euclidean_division_equations. lia. Qed.

Lemma phys_inj s en a b va va' :
  area s en a b -> a <= va / 4096 <= b -> a <= va' / 4096 <= b -> phys en va = phys en va' -> va = va'.
Proof.
  intros Har H1 H2 E. pose proof (f_equal frame_of E) as Ef. rewrite !frame_phys in Ef.
  apply (ar_inj _ _ _ _ Har) in Ef; [|done|done]. unfold phys in E. rewrite Ef in E.
  Z.to_euclidean_division_equations. lia.
Qed.

Lemma area_same s en a b m' :
  same_tables (mem s) m' (cr3 s) -> area s en a b -> area (set_mem m' s) en a b.
Proof.
  intros Hs [H1 H2 H3 H4]. split; try done.
  - intros n Hn. unfold small_mapping. cbn [mem set_mem cr3].
    rewrite (same_ref_walk _ _ _ Hs); [by apply H2|by apply H1].
  - intros n Hn (q & Hq & Hx). apply (H3 n Hn). exists q. split; [done|].
    by rewrite <- (same_table_at _ _ _ Hs).
Qed.

Lemma area_byte s en a b va :
  space_ok (mem s) (cr3 s) -> area s en a b -> a <= va / 4096 <= b ->
  mmu_walk (mem s) (cr3 s) va = Some (phys en va, e_writable (en (va / 4096))).
Proof.
  intros Hok Har Hn. rewrite (Z.div_mod va 4096) at 1 by lia. rewrite (Z.mul_comm 4096).
  apply (mmu_small _ _ (page_no (va / 4096)) (en (va / 4096)) (va mod 4096) Hok).
  - by apply (ar_ok _ _ _ _ Har).
  - by apply (ar_map _ _ _ _ Har).
  - apply Z.mod_pos_bound. lia.
Qed.

Lemma set_byte_words m pa v w : frame_of w <> frame_of pa -> word (set_mem_byte m pa v) w = word m w.
Proof.
  intros Hne. unfold set_mem_byte. rewrite word_insert. apply decide_False. intros <-.
  by rewrite frame_word in Hne.
Qed.

Lemma write_bytes_spec s en a b va bs :
  space_ok (mem s) (cr3 s) -> area s en a b ->
  (forall n, a <= n <= b -> e_writable (en n) || negb (cr0_wp s) = true) ->
  Forall (fun x => 0 <= x < 256) bs ->
  a * 4096 <= va -> va + Z.of_nat (length bs) <= (b + 1) * 4096 ->
  exists m', write_bytes va bs s = Ret (tt, set_mem m' s) /\ same_tables (mem s) m' (cr3 s) /\
    (forall w, (forall n, a <= n <= b -> frame_of w <> e_addr (en n)) -> word m' w = word (mem s) w) /\
    (forall x, va <= x < va + Z.of_nat (length bs) -> bs !! Z.to_nat (x - va) = Some (mem_byte m' (phys en x))) /\
    (forall x, a <= x / 4096 <= b -> x < va -> mem_byte m' (phys en x) = mem_byte (mem s) (phys en x)).
Proof.
  intros Hok Har Hw Hbs. revert s va Hok Har Hw.
  induction Hbs as [|c bs Hc Hbs IH]; intros s va Hok Har Hw Hlo Hhi.
  { exists (mem s). cbn [write_bytes length]. split_and!; [by destruct s|by intros q h j _ _ _|done| |done].
    intros x Hx. lia. }
  cbn [length] in Hhi.
  assert (a <= va / 4096 <= b) as Hn by (split; Z.to_euclidean_division_equations; lia).
  set (m1 := set_mem_byte (mem s) (phys en va) c).
  assert (vwrite8 va c s = Ret (tt, set_mem m1 s)) as E1.
  { unfold vwrite8. rewrite (area_byte s en a b va Hok Har Hn). by rewrite Hw. }
  assert (forall w, frame_of w <> e_addr (en (va / 4096)) -> word m1 w = word (mem s) w) as Hm1.
  { intros w Hne. apply set_byte_words. by rewrite frame_phys. }
  assert (same_tables (mem s) m1 (cr3 s)) as Hs1.
  { apply same_tables_words; [apply Hok|]. intros w (q & Hq & Ht). apply Hm1. intros Ef.
    apply (ar_data _ _ _ _ Har (va / 4096) Hn). exists q. by rewrite <- Ef. }
  destruct (IH (set_mem m1 s) (va + 1)) as (m' & E & Hs & Hout & Hin & Hbefore);
    [by eapply same_space_ok|by apply area_same|done|lia|lia|].
  exists m'. cbn [write_bytes]. rewrite (bind_ret _ _ _ _ _ E1). split_and!.
  - by rewrite E.
  - by eapply same_tables_trans.
  - intros w Hout'. rewrite Hout by done. by apply Hm1, Hout'.
  - intros x Hx. destruct (decide (x = va)) as [->|Hne].
    + rewrite Z.sub_diag. change (Z.to_nat 0) with 0%nat. cbn [lookup list_lookup].
      rewrite Hbefore by (done || lia). cbn [mem set_mem]. unfold m1. rewrite mem_byte_set, decide_True by done.
      change 0xFF with (2 ^ 8 - 1). by rewrite land_ones_mod, Z.mod_small by lia.
    + replace (Z.to_nat (x - va)) with (S (Z.to_nat (x - (va + 1)))) by lia.
      cbn [lookup list_lookup]. apply Hin. cbn [length] in Hx. lia.
  - intros x Hxn Hx. rewrite Hbefore by (done || lia). cbn [mem set_mem]. unfold m1.
    rewrite mem_byte_set, decide_False; [done|].
    intros Ep. apply (phys_inj s en a b va x Har Hn Hxn) in Ep. lia.
Qed.

End copy.

(** * Segments *)

Section segments.
Context `{B : Build} `{X : X86_64Crate} `{F : BitflagsCrate}.
Context {P : Type} `{FA : FrameAllocator P} `{FS : !FrameAllocatorSpec P} `{G : GoblinCrate}.
Implicit Types s : machine P.

Definition first_page (p : ProgramHeader) : Z := (vm_range p).1 / 4096.
Definition last_page (p : ProgramHeader) : Z := ((vm_range p).2 - 1) / 4096.

(** The pages whose translation loading a segment may change: its own, if all of them
    lie in the user half. *)
Definition segment_pages (p : ProgramHeader) (page : Page) : Prop :=
  user_range_ok (first_page p) (last_page p) = true /\ in_pages (first_page p) (last_page p + 1) page.

(** The segment is in memory: its pages are mapped with the flags its header asks for,
    each to an allocated data frame of its own, and hold the bytes [src]. *)
Record loaded s (p : ProgramHeader) (src : list Z) (en : Z -> Z) : Prop := {
  ld_area : area s en (first_page p) (last_page p);
  ld_entry n : first_page p <= n <= last_page p ->
    exists f, en n = leaf_entry f (segment_flags p) /\ f mod 4096 = 0 /\ 0 <= f < 2 ^ 48 /\
      fa_live (pmm s) f 0 /\ ~ fa_free (pmm s) f;
  ld_bytes x : (vm_range p).1 <= x < (vm_range p).2 ->
    src !! Z.to_nat (x - (vm_range p).1) = Some (mem_byte (mem s) (phys en x))
}.

Lemma segment_flags_ok p : flags_ok (segment_flags p).
Proof. unfold segment_flags. destruct (is_executable p), (is_write p); cbn [negb]; by repeat apply flags_ok_or. Qed.

Lemma segment_flags_bits p :
  Z.testbit (segment_flags p) 2 = true /\ e_writable (segment_flags p) = is_write p /\
  Z.testbit (segment_flags p) 63 = negb (is_executable p).
Proof. unfold segment_flags. destruct (is_executable p), (is_write p); cbn [negb]; by rewrite ?flags_or_spec. Qed.

(** The mapped frames of an area stay what they are while other pages change. *)
Lemma area_evolves T s s' en a b :
  area s en a b -> evolves T s s' -> (forall n, a <= n <= b -> ~ T (page_no n)) ->
  (forall n, a <= n <= b -> ~ fa_free (pmm s) (e_addr (en n))) ->
  area s' en a b /\
  forall x, a <= x / 4096 <= b -> mem_byte (mem s') (phys en x) = mem_byte (mem s) (phys en x).
Proof.
  intros [H1 H2 H3 H4] Hev HT Hnf. split.
  - split; try done.
    + intros n Hn. unfold small_mapping. rewrite (ev_cr3 _ _ _ Hev), (ev_walk _ _ _ Hev);
        [by apply H2|by apply H1|by apply HT].
    + intros n Hn [Ht|Hf]%(ev_new _ _ _ Hev); [by apply (H3 n)|by apply (Hnf n)].
  - intros x Hx. unfold mem_byte. f_equal. apply (ev_mem _ _ _ Hev); rewrite frame_word, frame_phys; auto.
Qed.

Lemma segment_byte_page p x : (vm_range p).1 <= x < (vm_range p).2 ->
  first_page p <= x / 4096 <= last_page p.
Proof. unfold first_page, last_page. intros H. Z.to_euclidean_division_equations. lia. Qed.

Lemma loaded_evolves T s s' p src en :
  loaded s p src en -> evolves T s s' ->
  (forall n, first_page p <= n <= last_page p -> ~ T (page_no n)) -> loaded s' p src en.
Proof.
  intros [Ha He Hb] Hev HT.
  assert (forall n, first_page p <= n <= last_page p -> ~ fa_free (pmm s) (e_addr (en n))) as Hnf.
  { intros n Hn. destruct (He n Hn) as (f & -> & Hal & Hr & _ & Hf).
    by destruct (leaf_entry_facts f (segment_flags p) Hal Hr (segment_flags_ok p)) as (-> & _). }
  destruct (area_evolves T s s' en _ _ Ha Hev HT Hnf) as [Ha' Hm]. split; [done|..].
  - intros n Hn. destruct (He n Hn) as (f & E & Hal & Hr & Hl & Hf). exists f.
    split_and!; [done|done|lia|lia|by apply (ev_live _ _ _ Hev)|]. by intros ?%(ev_free _ _ _ Hev).
  - intros x Hx. rewrite Hm by (by apply segment_byte_page). by apply Hb.
Qed.

(** Pages that [try_map_user_range] just backed, as an area. *)
Lemma backed_area s s1 fl z a b :
  fa_inv (pmm s) -> flags_ok fl -> (forall n, a <= n <= b -> page_ok (page_no n)) ->
  pages_backed fl z a (b + 1) s s1 ->
  exists en, area s1 en a b /\ forall n, a <= n <= b ->
    fa_free (pmm s) (e_addr (en n)) /\ ~ fa_free (pmm s1) (e_addr (en n)) /\
    fa_live (pmm s1) (e_addr (en n)) 0 /\ e_addr (en n) < 2 ^ 48 /\ e_writable (en n) = e_writable fl.
Proof.
  intros Hfa Hfl Hok [_ (fr & Hfr & Hinj)]. exists (fun n => leaf_entry (fr n) fl).
  assert (forall n, a <= n <= b -> e_addr (leaf_entry (fr n) fl) = fr n /\ 0 <= fr n < 2 ^ 40 /\
    e_writable (leaf_entry (fr n) fl) = e_writable fl) as Hf.
  { intros n Hn. destruct (fa_free_range _ _ Hfa (bk_was_free _ _ _ _ _ _ (Hfr n ltac:(lia)))) as [Hal Hr].
    by destruct (leaf_entry_facts (fr n) fl Hal ltac:(lia) Hfl) as (-> & _ & ->). }
  split.
  - split; [done|..].
    + intros n Hn. apply (Hfr n). lia.
    + intros n Hn. destruct (Hf n Hn) as (-> & _). apply (Hfr n). lia.
    + intros n m Hn Hm. destruct (Hf n Hn) as (-> & _), (Hf m Hm) as (-> & _). apply Hinj; lia.
  - intros n Hn. destruct (Hf n Hn) as (-> & Hr & ->). destruct (Hfr n ltac:(lia)). split_and!; done || lia.
Qed.

(** The header describes a segment that can be mapped. *)
Record header_ok (p : ProgramHeader) : Prop := {
  ho_type : p_type p = PT_LOAD;
  ho_range : 0 < (vm_range p).1 /\ (vm_range p).1 < (vm_range p).2 < two64
}.

Lemma load_segment_steps s p data : header_ok p ->
  load_segment data p s =
  bind (try_map_user_range (page_no (first_page p)) (page_no (last_page p)) WRITABLE NoInvalidate true NoZero)
    (fun r => match r with
     | Err e => ret (Err (ElfInvalidPage e))
     | Ok _ =>
         match slice_get data (file_range p) with
         | None => ret (Err (InvalidHeaderRange (file_range p)))
         | Some src =>
             if negb (range_len (vm_range p) =? Z.of_nat (length src))
             then ret (Err (InvalidHeaderRange (file_range p)))
             else do! write_bytes (vm_range p).1 src in
                  do! set_flags (page_no (first_page p)) (page_no (last_page p)) (segment_flags p) NoInvalidate in
                  ret (Ok tt)
         end
     end) s.
Proof.
  intros [Ht [H1 H2]]. unfold load_segment. rewrite Ht. change (PT_LOAD =? PT_LOAD) with true. cbn [negb].
  replace ((vm_range p).1 <=? 0) with false by lia. cbn [andb]. rewrite sub64_small by lia. by rewrite bind_lift_ret.
Qed.

Lemma header_pages p : header_ok p ->
  0 <= first_page p < 2 ^ 52 /\ first_page p <= last_page p < 2 ^ 52 /\
  first_page p * 4096 <= (vm_range p).1 /\ (vm_range p).2 <= (last_page p + 1) * 4096.
Proof.
  intros [_ [H1 H2]]. unfold first_page, last_page. Z.to_euclidean_division_equations. lia.
Qed.

(** The frames that the pages of a segment and their tables may need. *)
Definition segment_frames (p : ProgramHeader) : Z :=
  if decide (p_type p = PT_LOAD) then 4 * (last_page p - first_page p + 1) else 0.
Fixpoint frames_needed (ps : list ProgramHeader) : Z :=
  match ps with
  | [] => 0
  | p :: ps => segment_frames p + frames_needed ps
  end.

(** The frames behind the segment's pages were free before, when the allocator was [p0]. *)
Definition segment_fresh (p0 : P) s (p : ProgramHeader) : Prop :=
  forall n e, first_page p <= n <= last_page p -> small_mapping (mem s) (cr3 s) (page_no n) e -> fa_free p0 (e_addr e).

Lemma load_segment_spec s p data :
  tables_inv s -> p_type p = PT_LOAD -> header_ok p -> Forall (fun x => 0 <= x < 256) data ->
  (user_range_ok (first_page p) (last_page p) = true ->
   forall n, first_page p <= n <= last_page p -> path_clear s (page_no n)) ->
  exists r s', load_segment data p s = Ret (r, s') /\ evolves (segment_pages p) s s' /\
    match r with
    | Ok _ => user_range_ok (first_page p) (last_page p) = true /\ takes (segment_frames p) s s' /\
        segment_fresh (pmm s) s' p /\ exists src en, slice_get data (file_range p) = Some src /\
          Z.of_nat (length src) = (vm_range p).2 - (vm_range p).1 /\ loaded s' p src en
    | Err (ElfInvalidPage (InvalidAddress _)) =>
        user_range_ok (first_page p) (last_page p) = false /\ s' = s
    | Err (ElfInvalidPage TryOutOfMemory) => short_of (segment_frames p) s
    | Err (InvalidHeaderRange r) => r = file_range p /\
        forall src, slice_get data (file_range p) = Some src ->
          Z.of_nat (length src) <> (vm_range p).2 - (vm_range p).1
    | _ => False
    end.
Proof.
  intros Hinv Ht Hh Hdata Hcl. unfold segment_frames. rewrite decide_True by done. destruct (header_pages p Hh) as (Ha & Hb & Hlo & Hhi).
  destruct (ho_range p Hh) as [Hr1 Hr2]. rewrite load_segment_steps by done.
  set (a := first_page p) in *. set (b := last_page p) in *.
  destruct (user_range_ok a b) eqn:Hu.
  2:{ pose proof (user_range_checks s a b WRITABLE NoInvalidate true NoZero Ha ltac:(lia)) as Hchk.
      rewrite Hu in Hchk. rewrite (bind_ret _ _ _ _ _ Hchk).
      eexists _, _. split; [done|]. split; [by apply evolves_refl|done]. }
  assert (forall s s', evolves (in_pages a (b + 1)) s s' -> evolves (segment_pages p) s s') as Hseg.
  { intros ??. apply evolves_weaken. by intros. }
  destruct (try_map_user_range_spec s a b WRITABLE NoInvalidate true NoZero Hinv eq_refl ltac:(done)
    Ha ltac:(lia) (Hcl eq_refl)) as (r & s1 & E1 & Hres).
  rewrite (bind_ret _ _ _ _ _ E1). destruct r as [[]|e].
  2:{ eexists _, _. split; [done|]. destruct e as [pg|pg|].
      - destruct Hres as [Hok _]. congruence.
      - destruct Hres as (_ & Hf & _). done.
      - destruct Hres as (_ & k & Hk & [Hev _] & Hex). split.
        + apply Hseg. eapply evolves_weaken; [|done]. intros page. apply in_pages_mono; lia.
        + by apply (short_of_mono (4 * (k - a + 1))); [lia|]. }
  destruct Hres as (Hok & Hpb & Htk & _). rewrite Z.max_r in Hpb by lia. pose proof Hpb as [Hev1%Hseg _].
  destruct (slice_get data (file_range p)) as [src|] eqn:Es; [|by eexists _, _; split_and!].
  assert (range_len (vm_range p) = (vm_range p).2 - (vm_range p).1) as -> by (unfold range_len; lia).
  destruct (Z.eqb_spec ((vm_range p).2 - (vm_range p).1) (Z.of_nat (length src))) as [Hl|Hl]; cbn [negb].
  2:{ eexists _, _. split; [done|]. split; [done|]. split; [done|]. intros src' [= <-]. congruence. }
  assert (forall n, a <= n <= b -> page_ok (page_no n)) as Hpo.
  { intros n Hn. apply user_page_ok. unfold user_range_ok in Hok. lia. }
  destruct (backed_area s s1 WRITABLE NoZero a b (ti_fa _ Hinv) eq_refl Hpo Hpb) as (en & Har & Hen).
  assert (Forall (fun x => 0 <= x < 256) src) as Hsrc.
  { unfold slice_get in Es. case_match; [|done]. injection Es as <-. by apply Forall_take, Forall_drop. }
  destruct (write_bytes_spec s1 en a b (vm_range p).1 src (ti_space _ (ev_inv _ _ _ Hev1)) Har) as
    (m' & E2 & Hst & Hout & Hin & _); [|done|lia|lia|].
  { intros n Hn. by destruct (Hen n Hn) as (_ & _ & _ & _ & ->). }
  set (s2 := set_mem m' s1).
  assert (evolves (segment_pages p) s s2) as Hev2.
  { apply evolves_data; [done|done|]. intros w Hnf. apply Hout. intros n Hn Hfr.
    rewrite Hfr in Hnf. by apply Hnf, (Hen n). }
  destruct (set_flags_spec s2 a b (segment_flags p) NoInvalidate en (ev_inv _ _ _ Hev2) (segment_flags_ok p))
    as (s3 & E3 & Hev3 & Hpm & Hmap).
  { intros n Hn. split_and!; [by apply Hpo|by apply (area_same s1 en a b m' Hst Har)|by apply (Hen n)]. }
  rewrite (bind_ret _ _ _ _ _ E2). fold s2. rewrite (bind_ret _ _ _ _ _ E3).
  exists (Ok tt), s3. split; [done|]. split; [by apply (evolves_trans _ _ _ _ Hev2), Hseg|]. split; [done|]. split.
  { apply (takes_same _ _ s1); [done|]. by apply (takes_mono (4 * Z.max 0 (b + 1 - a))); [lia|]. }
  assert (forall n, e_addr (en n) mod 4096 = 0 /\ 0 <= e_addr (en n)) as Hra by (intros n; split; apply e_addr_range).
  assert (forall n, a <= n <= b -> e_addr (leaf_entry (e_addr (en n)) (segment_flags p)) = e_addr (en n)) as Hea.
  { intros n Hn. destruct (Hra n). by apply leaf_entry_facts; [..|apply segment_flags_ok]; [|split; [|apply (Hen n)]]. }
  pose proof (area_same s1 en a b m' Hst Har) as Har2. split.
  { intros n e Hn He. fold a b in Hn. specialize (Hmap n Hn). unfold small_mapping in He, Hmap. rewrite Hmap in He.
    injection He as <-. rewrite Hea by done. by apply (Hen n). }
  exists src, (fun n => leaf_entry (e_addr (en n)) (segment_flags p)). split_and!; [done|lia|].
  split.
  - split; [done|done|..].
    + intros n Hn. fold a b in Hn. rewrite Hea by done. intros [Htb|Hf]%(ev_new _ _ _ Hev3).
      * by apply (ar_data _ _ _ _ Har2 n).
      * by destruct (Hen n Hn) as (_ & Hnf & _).
    + intros n m Hn Hm. fold a b in Hn, Hm. rewrite !Hea by done. by apply (ar_inj _ _ _ _ Har).
  - intros n Hn. fold a b in Hn. destruct (Hen n Hn) as (_ & Hnf & Hlv & Hlt & _). destruct (Hra n).
    exists (e_addr (en n)). rewrite Hpm. split_and!; done.
  - intros x Hx. rewrite (Hin x) by lia.
    assert (a <= x / 4096 <= b) as Hxp by (by apply segment_byte_page).
    unfold phys at 2. rewrite Hea by done. fold (phys en x). f_equal.
    unfold mem_byte. f_equal. change m' with (mem s2). symmetry. apply (ev_mem _ _ _ Hev3);
      rewrite frame_word, frame_phys; [by apply (ar_data _ _ _ _ Har2)|by apply (Hen (x / 4096))].
Qed.

(** Segments whose pages do not meet. *)
Definition apart (p q : ProgramHeader) : Prop :=
  p_type p = PT_LOAD -> p_type q = PT_LOAD -> last_page p < first_page q \/ last_page q < first_page p.

Fixpoint separate (ps : list ProgramHeader) : Prop :=
  match ps with
  | [] => True
  | p :: ps => Forall (apart p) ps /\ separate ps
  end.

(** What an error says of the segment it is about. *)
Definition segment_error (data : list Z) (p : ProgramHeader) (e : ElfLaunchError) : Prop :=
  match e with
  | ElfInvalidPage (InvalidAddress _) => user_range_ok (first_page p) (last_page p) = false
  | ElfInvalidPage TryOutOfMemory => True
  | InvalidHeaderRange r => r = file_range p /\
      forall src, slice_get data (file_range p) = Some src ->
        Z.of_nat (length src) <> (vm_range p).2 - (vm_range p).1
  | _ => False
  end.

Definition loadable s (p : ProgramHeader) : Prop :=
  p_type p = PT_LOAD -> header_ok p /\
    (user_range_ok (first_page p) (last_page p) = true ->
     forall n, first_page p <= n <= last_page p -> path_clear s (page_no n)).

(** The segment was loaded as its header says. *)
Definition segment_in s (data : list Z) (p : ProgramHeader) : Prop :=
  p_type p = PT_LOAD -> user_range_ok (first_page p) (last_page p) = true /\
    exists src en, slice_get data (file_range p) = Some src /\
      Z.of_nat (length src) = (vm_range p).2 - (vm_range p).1 /\ loaded s p src en.

Definition pages_of (ps : list ProgramHeader) (page : Page) : Prop :=
  exists p, p ∈ ps /\ p_type p = PT_LOAD /\ segment_pages p page.

Lemma loadable_evolves T s s' p : evolves T s s' -> loadable s p -> loadable s' p.
Proof.
  intros Hev Hl Ht. destruct (Hl Ht) as [Hh Hc]. split; [done|]. intros Hu n Hn.
  apply (path_clear_evolves T s s'); [|done|by apply Hc].
  destruct (header_pages p Hh) as (? & ? & _).
  apply user_page_ok. unfold user_range_ok in Hu. lia.
Qed.

Lemma segment_in_evolves T s s' data p :
  evolves T s s' -> (forall n, first_page p <= n <= last_page p -> ~ T (page_no n)) ->
  segment_in s data p -> segment_in s' data p.
Proof.
  intros Hev HT Hs Ht. destruct (Hs Ht) as (Hu & src & en & H1 & H2 & H3). split; [done|].
  exists src, en. split_and!; [done|done|]. by eapply loaded_evolves.
Qed.

Lemma apart_pages p ps :
  Forall (apart p) ps -> p_type p = PT_LOAD -> header_ok p -> user_range_ok (first_page p) (last_page p) = true ->
  Forall (fun q => p_type q = PT_LOAD -> header_ok q /\ user_range_ok (first_page q) (last_page q) = true) ps ->
  forall n, first_page p <= n <= last_page p -> ~ pages_of ps (page_no n).
Proof.
  intros Hap Ht Hh Hu Hok n Hn (q & Hq & Htq & (_ & k & Hk & Hs)).
  rewrite list.Forall_forall in Hap, Hok. destruct (Hok q Hq Htq) as [Hhq Huq].
  destruct (header_pages p Hh) as (? & ? & _), (header_pages q Hhq) as (? & ? & _).
  unfold user_range_ok in Hu, Huq.
  apply same_page_inj in Hs; [|apply user_page_ok; lia|apply user_page_ok; lia].
  cbn [number page_no] in Hs. destruct (Hap q Hq Ht Htq); lia.
Qed.

Lemma pages_of_cons p ps page : pages_of ps page -> pages_of (p :: ps) page.
Proof. intros (q & Hq & H). exists q. split; [set_solver|done]. Qed.

Lemma frames_needed_nonneg ps : Forall (fun p => p_type p = PT_LOAD -> header_ok p) ps -> 0 <= frames_needed ps.
Proof.
  induction 1 as [|p ps Hp _ IH]; [done|]. cbn [frames_needed]. unfold segment_frames. case_decide as Ht; [|lia].
  destruct (header_pages p (Hp Ht)) as (_ & ? & _). lia.
Qed.

Lemma loadable_headers s ps : Forall (loadable s) ps -> Forall (fun p => p_type p = PT_LOAD -> header_ok p) ps.
Proof. intros H. eapply list.Forall_impl; [exact H|]. intros p Hp Ht. apply (Hp Ht). Qed.

Lemma load_segments_spec s ps data :
  tables_inv s -> Forall (fun x => 0 <= x < 256) data -> Forall (loadable s) ps -> separate ps ->
  exists r s', load_segments data ps s = Ret (r, s') /\ evolves (pages_of ps) s s' /\
    match r with
    | Ok _ => Forall (segment_in s' data) ps /\ takes (frames_needed ps) s s' /\
        Forall (fun p => p_type p = PT_LOAD -> segment_fresh (pmm s) s' p) ps
    | Err e => (exists p, p ∈ ps /\ p_type p = PT_LOAD /\ segment_error data p e) /\
        (e = ElfInvalidPage TryOutOfMemory -> short_of (frames_needed ps) s)
    end.
Proof.
  intros Hinv Hdata Hl Hsep. revert s Hinv Hl. induction ps as [|p ps IH]; intros s Hinv Hl.
  { exists (Ok tt), s. split; [done|]. split; [by apply evolves_refl|]. split_and!; [done|by apply takes_refl|done]. }
  apply list.Forall_cons in Hl as [Hp Hps]. destruct Hsep as [Hap Hsep]. specialize (IH Hsep).
  unfold load_segments. cbn [try_each]. fold (load_segments data ps).
  assert (exists r s1, load_segment data p s = Ret (r, s1) /\ evolves (pages_of [p]) s s1 /\
    match r with
    | Ok _ => segment_in s1 data p /\ takes (segment_frames p) s s1 /\ (p_type p = PT_LOAD -> segment_fresh (pmm s) s1 p)
    | Err e => p_type p = PT_LOAD /\ segment_error data p e /\
        (e = ElfInvalidPage TryOutOfMemory -> short_of (segment_frames p) s)
    end) as (r & s1 & E1 & Hev1 & Hr).
  { destruct (decide (p_type p = PT_LOAD)) as [Ht|Ht].
    2:{ exists (Ok tt), s. split; [|split; [by apply evolves_refl|split_and!; [done| |done]];
          by unfold segment_frames; rewrite decide_False; [apply takes_refl|]]. unfold load_segment.
        by replace (p_type p =? PT_LOAD) with false by lia. }
    destruct (Hp Ht) as [Hh Hc].
    destruct (load_segment_spec s p data Hinv Ht Hh Hdata Hc) as (r & s1 & E1 & Hev1 & Hr).
    exists r, s1. split; [done|]. split.
    { eapply evolves_weaken; [|done]. intros page Hpg. exists p. split; [set_solver|done]. }
    destruct r as [[]|e]; [destruct Hr as (Hu & Htk & Hfr & Hr); by split_and!; [intros _| |]|]. split; [done|].
    destruct e as [| | |[]| | |]; cbn; try done. by destruct Hr. }
  rewrite (bind_ret _ _ _ _ _ E1).
  assert (evolves (pages_of (p :: ps)) s s1) as Hev1'.
  { eapply evolves_weaken; [|done]. intros page (q & ->%list_elem_of_singleton & H). exists p.
    split; [set_solver|done]. }
  destruct r as [[]|e].
  2:{ exists (Err e), s1. split; [done|]. split; [done|]. destruct Hr as (Ht & He & Hex). split.
      - exists p. split; [set_solver|done].
      - intros Heq. cbn [frames_needed]. apply (short_of_mono (segment_frames p)); [|by apply Hex].
        pose proof (frames_needed_nonneg ps (loadable_headers s ps Hps)). lia. }
  destruct Hr as (Hr & Htk & Hfr).
  destruct (IH s1 (ev_inv _ _ _ Hev1)) as (r & s2 & E2 & Hev2 & Hres).
  { eapply list.Forall_impl; [exact Hps|]. intros q. by apply loadable_evolves with (pages_of [p]). }
  assert (evolves (pages_of (p :: ps)) s s2) as Hev.
  { eapply evolves_trans; [done|]. eapply evolves_weaken; [|done]. intros page. apply pages_of_cons. }
  exists r, s2. split; [done|]. split; [done|]. destruct r as [[]|e].
  - destruct Hres as (Hres & Htk2 & Hfr2).
    assert (p_type p = PT_LOAD -> forall n, first_page p <= n <= last_page p -> ~ pages_of ps (page_no n)) as Hout.
    { intros Ht. destruct (Hp Ht) as [Hh _], (Hr Ht) as [Hu _]. apply (apart_pages p ps); try done.
      rewrite list.Forall_forall in *. intros q Hq Htq. split; [by apply (Hps q Hq)|by apply (Hres q Hq)]. }
    split_and!; [|by apply (takes_trans _ _ _ s1)|].
    + constructor; [|done]. destruct (decide (p_type p = PT_LOAD)) as [Ht|Ht]; [|done].
      apply (segment_in_evolves (pages_of ps) s1 s2); auto.
    + constructor.
      * intros Ht n e Hn He. apply (Hfr Ht n e Hn). unfold small_mapping in *.
        destruct (Hp Ht) as [Hh _], (Hr Ht) as [Hu _], (header_pages p Hh) as (? & ? & _).
        rewrite (ev_cr3 _ _ _ Hev2), (ev_walk _ _ _ Hev2) in He; [done| |by apply Hout].
        apply user_page_ok. unfold user_range_ok in Hu. lia.
      * eapply list.Forall_impl; [exact Hfr2|]. intros q Hq Htq n e Hn He. apply (ev_free _ _ _ Hev1). by apply (Hq Htq n).
  - destruct Hres as [(q & Hq & H) Hex]. split; [exists q; split; [set_solver|done]|].
    intros Heq. cbn [frames_needed]. apply (short_of_takes _ _ _ s1); auto.
Qed.

End segments.
