(* ===== verification/ProcessTheorems.v ===== *)
(** The properties of processes: what loading an image leaves in memory, which images
    are refused, process identifiers, and the start of a process. *)
From S2P Require Import Prelude Crates Machine FrameAlloc Paging Layout PageMap AddressSpace.
From S2P Require Import PagingLemmas PageMapLemmas MapperLemmas UnmapLemmas Bytes Friendly FriendlyExample Heap.
From S2P Require Import BootstrapHeap PhysicalAllocator ActivePageMap MemoryInit Cpu CpuTheorems.
From S2P Require Import AllocatorTheorems PagingTheorems HeapLemmas HeapTheorems Storage StorageLemmas Process ProcessLemmas.

(** * Loading *)

Section loading.
Context `{B : Build} `{X : X86_64Crate} `{F : BitflagsCrate}.
Context {P : Type} `{FA : FrameAllocator P} `{FS : !FrameAllocatorSpec P} `{G : GoblinCrate}.
Implicit Types s : machine P.

(** The segment as the processor sees it: each of its bytes is the one of the file, on
    a page that the process can access, that it can write only if the header says so
    and that it can execute only if the header says so. *)
Definition segment_visible s (data : list Z) (p : ProgramHeader) : Prop :=
  forall i, 0 <= i < (vm_range p).2 - (vm_range p).1 ->
    exists pa e, mmu_walk (mem s) (cr3 s) ((vm_range p).1 + i) = Some (pa, is_write p) /\
      data !! Z.to_nat ((file_range p).1 + i) = Some (mem_byte (mem s) pa) /\
      ref_walk (mem s) (cr3 s) (page_no (((vm_range p).1 + i) / 4096)) = Ret (Some (e, Kib4)) /\
      Z.testbit e 2 = true /\ Z.testbit e 63 = negb (is_executable p).

Lemma slice_get_lookup data r src i :
  slice_get data r = Some src -> 0 <= r.1 -> 0 <= i < Z.of_nat (length src) ->
  data !! Z.to_nat (r.1 + i) = src !! Z.to_nat i.
Proof.
  intros E Hr Hi. unfold slice_get in E. case_match eqn:C; [|done]. injection E as <-.
  rewrite length_take, length_drop in Hi.
  rewrite lookup_take_lt by lia. rewrite lookup_drop. f_equal. lia.
Qed.

Lemma leaf_bit f fl k : f mod 4096 = 0 -> 0 <= f < 2 ^ 48 -> k = 2 \/ k = 63 ->
  Z.testbit (leaf_entry f fl) k = Z.testbit fl k.
Proof.
  intros Hf Hr Hk. unfold leaf_entry. rewrite flags_or_spec, !Z.lor_spec.
  assert (Z.testbit f k = false) as ->.
  { destruct Hk as [->| ->]; [by apply aligned_testbit; [|lia]|].
    apply Z.bits_above_log2; [lia|]. destruct (decide (f = 0)) as [->|]; [done|].
    apply Z.log2_lt_pow2; [lia|]. assert (2 ^ 48 < 2 ^ 63) by lia. lia. }
  destruct Hk as [->| ->]; change (Z.testbit PRESENT _) with false; by rewrite orb_false_r.
Qed.

Lemma loaded_visible s data p src en :
  space_ok (mem s) (cr3 s) -> 0 <= (file_range p).1 -> slice_get data (file_range p) = Some src ->
  Z.of_nat (length src) = (vm_range p).2 - (vm_range p).1 -> loaded s p src en -> segment_visible s data p.
Proof.
  intros Hok Hf Hs Hl [Ha He Hb] i Hi. set (x := (vm_range p).1 + i).
  assert (first_page p <= x / 4096 <= last_page p) as Hx by (apply segment_byte_page; unfold x; lia).
  destruct (He _ Hx) as (f & Ee & Hal & Hr & _). destruct (segment_flags_bits p) as (B1 & B2 & B3).
  exists (phys en x), (en (x / 4096)). split_and!.
  - rewrite (area_byte s en _ _ x Hok Ha Hx), Ee.
    by destruct (leaf_entry_facts f (segment_flags p) Hal Hr (segment_flags_ok p)) as (_ & _ & ->); rewrite B2.
  - rewrite (slice_get_lookup _ _ _ _ Hs Hf) by lia. rewrite <- (Hb x) by (unfold x; lia).
    f_equal. unfold x. lia.
  - by apply (ar_map _ _ _ _ Ha).
  - rewrite Ee, leaf_bit; auto.
  - rewrite Ee, leaf_bit; auto.
Qed.

(** C13: the loop of [spawn_from_elf] over the program headers. For [PT_LOAD] segments
    whose pages do not meet, either every segment ends up in memory exactly as the
    image has it, visible to the process with the permissions of its header and no
    more; or the error is about one of the segments and true of it (a range outside
    the user half, a file range that does not exist or has another length, or fewer
    free frames than four for each page of the segments). No page of the address space outside the segments changes. *)
Theorem load_segments_correct s ps data :
  tables_inv s -> Forall (fun x => 0 <= x < 256) data -> Forall (loadable s) ps -> separate ps ->
  Forall (fun p => 0 <= (file_range p).1) ps ->
  exists r s', load_segments data ps s = Ret (r, s') /\ tables_inv s' /\
    (forall page, p4_index page <> REC -> ~ pages_of ps page ->
       ref_walk (mem s') (cr3 s') page = ref_walk (mem s) (cr3 s) page) /\
    match r with
    | Ok _ => forall p, p ∈ ps -> p_type p = PT_LOAD ->
        user_range_ok (first_page p) (last_page p) = true /\ segment_visible s' data p
    | Err e => (exists p, p ∈ ps /\ p_type p = PT_LOAD /\ segment_error data p e) /\
        (e = ElfInvalidPage TryOutOfMemory -> short_of (frames_needed ps) s)
    end.
Proof.
  intros Hinv Hdata Hl Hsep Hfile.
  destruct (load_segments_spec s ps data Hinv Hdata Hl Hsep) as (r & s' & E & Hev & Hr).
  exists r, s'. split; [done|]. split; [apply Hev|]. split.
  { intros page H1 H2. rewrite (ev_cr3 _ _ _ Hev). by apply (ev_walk _ _ _ Hev). }
  destruct r as [[]|e]; [|done]. destruct Hr as [Hr _]. intros p Hp Ht. rewrite list.Forall_forall in Hr, Hfile.
  destruct (Hr p Hp Ht) as (Hu & src & en & H1 & H2 & H3). split; [done|].
  apply (loaded_visible s' data p src en); auto. apply Hev.
Qed.

End loading.

(** * Spawning and running *)

Section processes.
Context `{B : Build} `{X : X86_64Crate} `{F : BitflagsCrate} {P : Type} `{FA : FrameAllocator P}.
Context `{T : FriendlyTree HEAP_LEVELS HEAP_BASE_ORDER} `{FC : FriendlyCrate}.
Context `{G : GoblinCrate} `{DM : DashMapCrate} `{BF : BitFieldCrate} `{FS : !FrameAllocatorSpec P}.
Implicit Types s : proc_state (P := P).

(** Every process has an identifier that was given out. *)
Definition pids_ok s : Prop := 0 <= NEXT_PID s < two64 /\ forall pid, is_Some (PROCESSES s !! pid) -> 0 <= pid < NEXT_PID s.

Lemma with_memory_keeps {A} (c : M (heap_state P tree) A) s a s' :
  with_memory c s = Ret (a, s') -> PROCESSES s' = PROCESSES s /\ NEXT_PID s' = NEXT_PID s /\ ps_tss s' = ps_tss s.
Proof. unfold with_memory. destruct (c (ps_heap s)) as [[a' h]|]; [|done]. by intros [= <- <-]. Qed.

Lemma with_memory_ret {A} (c : M (heap_state P tree) A) s a h : c (ps_heap s) = Ret (a, h) ->
  with_memory c s = Ret (a, mkProcState h (PROCESSES s) (NEXT_PID s) (ps_tss s) (ps_table s)).
Proof. intros E. unfold with_memory. by rewrite E. Qed.

Lemma with_memory_stop {A} (c : M (heap_state P tree) A) s w : c (ps_heap s) = Stop w -> with_memory c s = Stop w.
Proof. intros E. unfold with_memory. by rewrite E. Qed.

Lemma processes_insert_keeps pid p s s' : processes_insert pid p s = Ret (tt, s') ->
  PROCESSES s' = <[pid := p]> (PROCESSES s) /\ NEXT_PID s' = NEXT_PID s.
Proof.
  intros E. apply bind_inv in E as (bs & s1 & E1 & E).
  assert (PROCESSES s1 = PROCESSES s /\ NEXT_PID s1 = NEXT_PID s) as [P1 N1].
  { unfold processes_table in E1. destruct (ps_table s); [by injection E1 as <- <-|]. by apply with_memory_keeps in E1 as (? & ? & _). }
  apply bind_inv in E as (keys & s2 & [= <- <-] & E). apply bind_inv in E as (bs' & s3 & E3 & E).
  apply with_memory_keeps in E3 as (P3 & N3 & _). injection E as <-. cbn [PROCESSES NEXT_PID]. split; congruence.
Qed.

(** The image is refused with the error [e] before the kernel does anything for it. *)
Definition refusal (data : list Z) (e : ElfLaunchError) : Prop :=
  match elf_parse data with
  | Err e' => e = ParseError e'
  | Ok elf =>
      (is_lib elf = true \/ entry elf = 0) /\ e = NotExecutable \/
      is_lib elf = false /\ entry elf <> 0 /\ is_64 elf = false /\ e = Not64Bit \/
      is_lib elf = false /\ entry elf <> 0 /\ is_64 elf = true /\ libraries elf <> [] /\ e = NotStaticallyLinked
  end.

Lemma refusal_parsed data elf e s : elf_parse data = Ok elf -> refusal data e -> spawn_parsed data elf s = Ret (Err e, s).
Proof.
  intros Hp. unfold refusal, spawn_parsed. rewrite Hp.
  intros [[[->| ->] ->]|[(-> & Hne & -> & ->)|(-> & Hne & -> & Hl & ->)]]; [done|..].
  - change (0 =? 0) with true. by rewrite orb_true_r.
  - by replace (entry elf =? 0) with false by lia.
  - replace (entry elf =? 0) with false by lia. cbn [orb negb]. by rewrite bool_decide_false by done.
Qed.

Lemma spawn_parsed_inv data elf s r s' : spawn_parsed data elf s = Ret (r, s') ->
  (exists e, r = Err e /\ PROCESSES s' = PROCESSES s /\ NEXT_PID s' = NEXT_PID s) \/
  (exists pid p, r = Ok pid /\ pid = NEXT_PID s /\ pid < u64_max /\ NEXT_PID s' = wrap 64 (pid + 1) /\
     PROCESSES s' = <[pid := p]> (PROCESSES s) /\ new p = true /\ stack_ptr p = STACK_TOP /\
     VirtAddr_new (entry elf) = Ret (instruction_ptr p) /\ Z.shiftr (entry elf) 63 <> 1).
Proof.
  intros E. unfold spawn_parsed in E.
  destruct (is_lib elf || (entry elf =? 0)); [injection E as <- <-; by left; eexists|].
  destruct (negb (is_64 elf)); [injection E as <- <-; by left; eexists|].
  destruct (negb (bool_decide _)); [injection E as <- <-; by left; eexists|].
  apply bind_inv in E as (pt & s1 & E1 & E). apply with_memory_keeps in E1 as (P1 & N1 & _).
  apply bind_inv in E as (pt' & s2 & E2 & E). apply with_memory_keeps in E2 as (P2 & N2 & _).
  destruct pt' as [pt'|e]; [|injection E as <- <-; left; eexists; split_and!; [done|congruence..]].
  destruct (_ || _) eqn:Eent in E; [injection E as <- <-; left; eexists; split_and!; [done|congruence..]|].
  apply orb_false_elim in Eent as [E63 _].
  apply bind_inv in E as (ip & s3 & E3 & E).
  destruct (VirtAddr_new (entry elf)) as [ip'|] eqn:Eip in E3; [|done]. injection E3 as <- <-.
  apply bind_inv in E as (pid & s4 & E4 & E). unfold ProcessId_next in E4.
  destruct (NEXT_PID s2 <? u64_max) eqn:Emax; [|done]. injection E4 as <- <-.
  apply bind_inv in E as ([] & s5 & E5 & E). injection E as <- <-.
  apply processes_insert_keeps in E5 as [P5 N5]. cbn [PROCESSES NEXT_PID] in *. right.
  eexists _, _. split_and!; [done|congruence|lia|done|by rewrite P5, P2, P1|done|done|done|lia].
Qed.

Lemma spawn_parsed_refused data elf s e s' : pids_ok s -> spawn_parsed data elf s = Ret (Err e, s') ->
  PROCESSES s' = PROCESSES s /\ pids_ok s'.
Proof. intros Hp [(e' & _ & H1 & H2)|(pid & p & ? & _)]%spawn_parsed_inv; [|done]. unfold pids_ok. by rewrite H1, H2. Qed.

Lemma spawn_parsed_table data elf s pid s' : pids_ok s -> spawn_parsed data elf s = Ret (Ok pid, s') ->
  PROCESSES s !! pid = None /\ pids_ok s' /\ exists p, PROCESSES s' = <[pid := p]> (PROCESSES s) /\
    new p = true /\ stack_ptr p = STACK_TOP /\ VirtAddr_new (entry elf) = Ret (instruction_ptr p) /\ Z.shiftr (entry elf) 63 <> 1.
Proof.
  intros [Hn Hpid] [(e' & ? & _)|(pid' & p & [= <-] & Ep & Hlt & HN & HP & Hrest)]%spawn_parsed_inv; [done|]. unfold u64_max in Hlt.
  assert (PROCESSES s !! pid = None) as Hfresh.
  { destruct (PROCESSES s !! pid) eqn:El; [|done]. destruct (Hpid pid) as [_ Hl]; [by eexists|lia]. }
  assert (wrap 64 (pid + 1) = pid + 1) as Hwrap by (unfold wrap; apply Z.mod_small; lia).
  split_and!; [done| |by exists p]. split; rewrite HN, Hwrap; [lia|]. intros pid' Hs. rewrite HP in Hs.
  destruct (decide (pid' = pid)) as [->|Hne]; [lia|]. rewrite lookup_insert_ne in Hs by done. apply Hpid in Hs. lia.
Qed.

(** The blocks that parsing takes are given back, except to an error of the parser. *)
Lemma refused_spec data s t n e : heap_inv (ps_heap s) t -> few_blocks n t ->
  Forall op_ok (elf_storage data) -> Z.of_nat (n + acquired (elf_storage data)) < 4096 -> refusal data e ->
  (exists bs h' t', spawn_from_elf data s = Ret (Err e, mkProcState h' (PROCESSES s) (NEXT_PID s) (ps_tss s) (ps_table s)) /\
     storage_moved (ps_heap s) t [] h' t' bs /\ (is_Some (match elf_parse data with Ok elf => Some elf | Err _ => None end) -> bs = [])) \/
  (exists msg, spawn_from_elf data s = Stop (Panic msg) /\ short_of (storage_frames (elf_storage data)) (mach (ps_heap s))).
Proof.
  intros Hinv Hfew Hops Hn He. assert (owns t []) as Ho by (split; [constructor|by intros b ?%not_elem_of_nil]). unfold spawn_from_elf.
  destruct (use_storage_spec _ [] _ _ n Hinv Ho Hfew Hops Hn) as [(bs & h1 & t1 & E1 & Hm1 & Hs1 & _)|(msg & E1 & Hsh)].
  2:{ right. exists msg. by rewrite (bind_stop _ _ _ _ (with_memory_stop _ s _ E1)). }
  left. rewrite (bind_ret _ _ _ _ _ (with_memory_ret _ s _ _ E1)). destruct (elf_parse data) as [elf|e'] eqn:Ep.
  2:{ exists bs, h1, t1. unfold refusal in He. rewrite Ep in He. subst e. split_and!; [done|done|by intros []]. }
  rewrite (bind_ret _ _ _ _ _ (refusal_parsed data elf e _ Ep He)).
  destruct (release_storage_spec bs h1 t1 (sm_inv _ _ _ _ _ _ Hm1) (sm_owns _ _ _ _ _ _ Hm1)) as (h2 & t2 & E2 & Hm2 & _).
  exists [], h2, t2. rewrite (bind_ret _ _ _ _ _ (with_memory_ret _ (mkProcState h1 _ _ _ _) _ _ E2)).
  split_and!; [done| |done]. by eapply storage_moved_trans.
Qed.

(** C29: [spawn_from_elf] and its process table. With a working heap that has room for what the parser
    allocates, an image that does not parse, is a library or has no entry point, is not 64 bit or needs
    libraries is refused with the error that says so and nothing else changes: the heap has the
    blocks it had, mapped as before (and those of an error of the parser), unless memory is short. A
    process that is spawned gets an identifier that no process has, so no entry of [PROCESSES] is lost;
    it is entered under it, not yet started, with the stack pointer at [STACK_TOP] and the image's
    entry point, and the identifiers stay distinct. *)
Theorem spawn_from_elf_table data s :
  (forall t n e, heap_inv (ps_heap s) t -> few_blocks n t ->
     Forall op_ok (elf_storage data) -> Z.of_nat (n + acquired (elf_storage data)) < 4096 -> refusal data e ->
     (exists bs h' t', spawn_from_elf data s = Ret (Err e, mkProcState h' (PROCESSES s) (NEXT_PID s) (ps_tss s) (ps_table s)) /\
        storage_moved (ps_heap s) t [] h' t' bs /\ (is_Some (match elf_parse data with Ok elf => Some elf | Err _ => None end) -> bs = [])) \/
     (exists msg, spawn_from_elf data s = Stop (Panic msg) /\ short_of (storage_frames (elf_storage data)) (mach (ps_heap s)))) /\
  (forall r s', pids_ok s -> spawn_from_elf data s = Ret (r, s') ->
     match r with
     | Err _ => PROCESSES s' = PROCESSES s /\ pids_ok s'
     | Ok pid => PROCESSES s !! pid = None /\ pids_ok s' /\
         exists elf p, elf_parse data = Ok elf /\ PROCESSES s' = <[pid := p]> (PROCESSES s) /\
           new p = true /\ stack_ptr p = STACK_TOP /\ VirtAddr_new (entry elf) = Ret (instruction_ptr p) /\
           Z.shiftr (entry elf) 63 <> 1
     end).
Proof.
  split; [intros t n e; apply refused_spec|].
  intros r s' Hp E. apply bind_inv in E as (bs & s0 & E0 & E). apply with_memory_keeps in E0 as (P0 & N0 & _).
  assert (pids_ok s0) as Hp0 by (unfold pids_ok; by rewrite N0, P0).
  destruct (elf_parse data) as [elf|e]; [|injection E as <- <-; by split].
  apply bind_inv in E as (r' & s1 & E1 & E). apply bind_inv in E as (u & s2 & E2 & E). injection E as <- <-.
  apply with_memory_keeps in E2 as (P2 & N2 & _). unfold pids_ok. rewrite P2, N2, <- P0. fold (pids_ok s1).
  destruct r' as [pid|e].
  - destruct (spawn_parsed_table data elf s0 pid s1 Hp0 E1) as (H1 & H2 & p & H3). split_and!; [done|apply H2..|]. by exists elf, p.
  - by destruct (spawn_parsed_refused data elf s0 e s1 Hp0 E1).
Qed.

(** The pages of the user stack, from that of [STACK_BOTTOM] to that of [STACK_TOP]. *)
Definition STACK_FIRST : Z := 0x7fffffffd.
Definition STACK_LAST : Z := 0x7fffffffe.

Lemma stack_pages :
  containing_address STACK_BOTTOM = page_no STACK_FIRST /\ containing_address STACK_TOP = page_no STACK_LAST.
Proof.
  unfold STACK_BOTTOM, STACK_TOP. rewrite (VirtAddr_new_truncate_spec 0x7fffffffe000) by lia.
  change (sign_extend_47 0x7fffffffe000) with 0x7fffffffe000. unfold INITIAL_STACK_SIZE_PAGES.
  by rewrite VirtAddr_new_truncate_spec by lia.
Qed.

Lemma stack_page_ok n : STACK_FIRST <= n <= STACK_LAST -> page_ok (page_no n).
Proof.
  unfold STACK_FIRST, STACK_LAST. intros Hn.
  assert (n = 0x7fffffffd \/ n = 0x7fffffffe) as [->| ->] by lia; by split.
Qed.

Lemma stack_flags_ok : flags_ok stack_flags /\ e_writable stack_flags = true.
Proof. unfold stack_flags. by rewrite !flags_or_spec. Qed.

Lemma setup_spec (m : machine P) :
  tables_inv m -> (forall n, STACK_FIRST <= n <= STACK_LAST -> path_clear m (page_no n)) ->
  exists r m', setup m = Ret (r, m') /\
    match r with
    | Ok _ => pages_backed stack_flags Zero STACK_FIRST (STACK_LAST + 1) m m'
    | Err _ => exists k, STACK_FIRST <= k <= STACK_LAST /\ pages_backed stack_flags Zero STACK_FIRST k m m' /\
        short_of 8 m
    end.
Proof.
  intros Hinv Hcl. unfold setup. destruct stack_pages as [-> ->]. destruct stack_flags_ok as [Hfl Hw].
  destruct (map_range_spec m STACK_FIRST STACK_LAST stack_flags NoInvalidate Zero Hinv Hfl) as (r & m' & E & Hr).
  - by rewrite Hw.
  - intros n Hn. split; [by apply stack_page_ok|by apply Hcl].
  - exists r, m'. split; [done|]. destruct r as [u|u]; [apply Hr|].
    destruct Hr as (k & Hk & Hb & Hex). exists k. split_and!; [lia|lia|done|].
    apply (short_of_mono (4 * (k - STACK_FIRST + 1))); [unfold STACK_FIRST, STACK_LAST in *; lia|done].
Qed.

(** [run_by_pid] of a new process, around the set-up of its stack. *)
Lemma run_by_pid_steps rflags s pid p t :
  PROCESSES s !! pid = Some p -> new p = true -> ps_tss s = Some t ->
  locked (tss_iomap t) = false -> iopb_ok (iopb (tss_iomap t)) ->
  let m := set_cr3 (p4_frame (page_tables p)) (im_flags (page_tables p)) (mach (ps_heap s)) in
  (forall m', setup m = Ret (Ok tt, m') -> exists s' b', run_by_pid rflags pid s =
      Ret (Ok (mkIret (instruction_ptr p) 0x33 rflags (stack_ptr p) 0x2b [0x2b; 0x2b; 0x2b; 0x2b]), s') /\
     mach (ps_heap s') = m' /\
     PROCESSES s' = <[pid := mkProcess (page_tables p) (stack_ptr p) (instruction_ptr p) (io_port_ranges p) false]>
                      (PROCESSES s) /\
     ps_tss s' = Some (mkTss (tss t) (iomap_base t) (mkIopbLock b' false)) /\ iopb_ok b' /\
     forall q, port q -> usable b' q = ((0x3f8 <=? q) && (q <=? 0x3ff)) || usable (iopb (tss_iomap t)) q) /\
  (forall e m', setup m = Ret (Err e, m') -> exists s', run_by_pid rflags pid s = Ret (Err e, s')).
Proof.
  intros Hp Hnew Ht Hlock Hiopb m.
  assert (run_by_pid rflags pid s =
    bind (with_memory (tables setup)) (fun r => match r with
      | Err e => ret (Err e)
      | Ok _ => do! set_process pid (mkProcess (page_tables p) (stack_ptr p) (instruction_ptr p) (io_port_ranges p) false) in
                do! permit_serial_ports in
                ret (Ok (jump_usermode rflags (stack_ptr p) (instruction_ptr p)))
      end) (mkProcState (mkHeapState m (htree (ps_heap s))) (PROCESSES s) (NEXT_PID s) (ps_tss s) (ps_table s))) as ->.
  { unfold run_by_pid. rewrite (bind_ret (gets (fun s => PROCESSES s !! pid)) _ s (Some p) s) by (unfold gets; by rewrite Hp).
    rewrite bind_expect_some, Hnew. unfold switch, read_cr3, write_cr3, gets, modify.
    cbv [bind]. unfold with_memory at 1, tables at 1. cbn [ps_heap mach htree PROCESSES NEXT_PID ps_tss ps_table fst snd].
    unfold ret at 1. fold m. cbv beta iota. by destruct (with_memory _ _) as [[[u|e] s2]|]. }
  split.
  - intros m' Es. unfold with_memory, tables, bind at 1. cbn [ps_heap mach htree]. rewrite Es.
    unfold set_process, modify, permit_serial_ports, bind. cbn [ps_heap PROCESSES NEXT_PID ps_tss ps_table htree]. rewrite Ht.
    destruct (swap_ports_spec (range_incl 0x3f8 (0x3F8 + 7)) true (iopb (tss_iomap t)) Hiopb) as (b' & Eb & Hb & Hu).
    { apply list.Forall_forall. intros q Hq%elem_of_range_incl. unfold port. lia. }
    unfold lock_or_panic. rewrite Hlock. unfold set_port_range_usable.
    change ((0x3F8 + 7) / 8 <? 8192) with true. rewrite bind_assert_true, Eb.
    eexists _, b'. split; [reflexivity|]. cbn [ps_heap mach PROCESSES ps_tss]. split_and!; [done|done|done|done|].
    intros q Hq. rewrite Hu by done.
    destruct (bool_decide_reflect (q ∈ range_incl 0x3f8 (0x3F8 + 7))) as [Hin|Hin]; rewrite elem_of_range_incl in Hin.
    + by replace ((0x3f8 <=? q) && (q <=? 0x3ff)) with true by lia.
    + by replace ((0x3f8 <=? q) && (q <=? 0x3ff)) with false by lia.
  - intros e m' Es. unfold with_memory, tables, bind. cbn [ps_heap mach htree]. rewrite Es. by eexists.
Qed.

(** C28: [run_by_pid] of a process that has not run yet. It switches to the process's
    address space, gives it a stack (two cleared pages of their own, writable and not
    executable, of which one lies below the initial stack pointer), permits exactly
    the ports of the serial line in addition to those permitted before, marks the
    process as started, and enters user mode at its entry point with its stack
    pointer, the user's segments (also in the data segment registers) and the flags [rflags] of the moment. Otherwise fewer than eight frames were free, and
    the want of memory is reported. *)
Theorem run_by_pid_correct rflags s pid p t :
  PROCESSES s !! pid = Some p -> new p = true -> ps_tss s = Some t ->
  locked (tss_iomap t) = false -> iopb_ok (iopb (tss_iomap t)) ->
  let m := set_cr3 (p4_frame (page_tables p)) (im_flags (page_tables p)) (mach (ps_heap s)) in
  tables_inv m -> (forall n, STACK_FIRST <= n <= STACK_LAST -> path_clear m (page_no n)) ->
  (exists s' b', run_by_pid rflags pid s =
      Ret (Ok (mkIret (instruction_ptr p) 0x33 rflags (stack_ptr p) 0x2b [0x2b; 0x2b; 0x2b; 0x2b]), s') /\
     cr3 (mach (ps_heap s')) = p4_frame (page_tables p) /\
     pages_backed stack_flags Zero STACK_FIRST (STACK_LAST + 1) m (mach (ps_heap s')) /\
     PROCESSES s' = <[pid := mkProcess (page_tables p) (stack_ptr p) (instruction_ptr p) (io_port_ranges p) false]>
                      (PROCESSES s) /\
     ps_tss s' = Some (mkTss (tss t) (iomap_base t) (mkIopbLock b' false)) /\ iopb_ok b' /\
     forall q, port q -> usable b' q = ((0x3f8 <=? q) && (q <=? 0x3ff)) || usable (iopb (tss_iomap t)) q) \/
  (exists s', run_by_pid rflags pid s = Ret (Err OutOfMemory_, s') /\ short_of 8 m).
Proof.
  intros Hp Hnew Ht Hlock Hiopb m Hinv Hcl.
  destruct (run_by_pid_steps rflags s pid p t Hp Hnew Ht Hlock Hiopb) as [Hok Herr]. fold m in Hok, Herr.
  destruct (setup_spec m Hinv Hcl) as (r & m' & Es & Hr). destruct r as [[]|[]].
  - left. destruct (Hok m' Es) as (s' & b' & E & <- & Hp' & Ht' & Hb & Hu). exists s', b'.
    split_and!; [done|by rewrite (ev_cr3 _ _ _ (proj1 Hr))|done..].
  - right. destruct (Herr _ m' Es) as [s' E]. exists s'. split; [done|]. by destruct Hr as (k & _ & _ & Hex).
Qed.

End processes.

(** * Concrete instances *)

Section examples.
#[local] Existing Instance x86_64_example.
#[local] Existing Instance bit_field_example.
#[local] Existing Instance bitflags_example.
#[local] Existing Instance frames_example.
#[local] Existing Instance debug_build.
#[local] Existing Instance heap_tree_example.
#[local] Existing Instance blocks_example.

(** An image of five bytes with one segment of four. *)
Definition example_header : ProgramHeader := mkProgramHeader PT_LOAD (0x3010, 0x3014) (1, 5) true false.
Definition example_image : list Z := [7; 0x90; 0x90; 0x0f; 0x05].

Lemma example_no_error `{G : GoblinCrate} (e : ElfLaunchError) c : c <= 256 ->
  (exists p, p ∈ [example_header] /\ p_type p = PT_LOAD /\ segment_error example_image p e) ->
  (e = ElfInvalidPage TryOutOfMemory -> short_of c example_machine) -> False.
Proof.
  intros Hc (p & ->%list_elem_of_singleton & _ & He) Hex. destruct e as [| | |[| |]| | |]; try exact He.
  - discriminate He.
  - exact (example_enough c Hc (Hex eq_refl)).
  - destruct He as [_ He]. exact (He _ eq_refl eq_refl).
Qed.

(** A parser that takes every image for a library. *)
Definition goblin_example : GoblinCrate := {|
  goblin_error := unit;
  elf_parse _ := Ok (mkElf true 0x401000 true [] []);
  elf_storage _ := [Acquire 56; Acquire 112; Release 0];
  elf_log _ := []
|}.
#[local] Existing Instance goblin_example.

(** A map with one block for its shards and one for its entries. *)
Definition dashmap_example : DashMapCrate := {|
  map_storage := [Acquire 512];
  insert_storage blocks keys _ :=
    if bool_decide (length blocks = 1%nat) then [Acquire 448] else []
|}.
#[local] Existing Instance dashmap_example.

Lemma load_segments_correct_witness : exists s',
  load_segments example_image [example_header] example_machine = Ret (Ok tt, s') /\
  segment_visible s' example_image example_header.
Proof.
  destruct (load_segments_correct example_machine [example_header] example_image example_tables)
    as ([[]|e] & s' & E & Hi & _ & Hr).
  - repeat constructor; lia.
  - constructor; [|done]. intros _. split; [by split; cbn; lia|]. intros _ n Hn.
    apply example_user_clear. change (first_page example_header) with 3 in Hn.
    change (last_page example_header) with 3 in Hn. lia.
  - done.
  - constructor; [cbn; lia|done].
  - exists s'. split; [exact E|]. apply Hr; [by left|reflexivity].
  - destruct Hr as [He Hex]. destruct (example_no_error e 4 ltac:(lia) He Hex).
Defined.

Definition example_procs : proc_state (P := PhysicalAllocator) :=
  mkProcState example_heap
    {[ 0 := mkProcess (mkInactivePageMap 0x1000 0) 0x7fffffffe000 0x401000 [] true ]} 1 (Some example_tss) (Some []).

Lemma example_pids : pids_ok example_procs.
Proof.
  split; [cbn; lia|]. intros pid [p Hp]. cbn [PROCESSES example_procs NEXT_PID] in *.
  apply lookup_singleton_Some in Hp as [<- _]. lia.
Qed.

Lemma example_few : few_blocks 0 (tree_new [(0, Z.shiftl 1 (30 + 1))]).
Proof. exists []. split; [done|]. intros g j Hl. by destruct (tree_new_live (FriendlyTree := heap_tree_example) _ g j Hl). Qed.

Lemma spawn_from_elf_table_witness : exists s',
  spawn_from_elf [] example_procs = Ret (Err NotExecutable, s') /\ PROCESSES s' = PROCESSES example_procs /\ pids_ok s'.
Proof.
  destruct (spawn_from_elf_table [] example_procs) as [H1 H2].
  destruct (H1 _ 0%nat NotExecutable example_heap_inv example_few) as [(bs & h' & t' & E & _)|(msg & _ & H)].
  - repeat constructor; cbn; lia.
  - by vm_compute.
  - left. split; [by left|reflexivity].
  - eexists. split; [exact E|]. exact (H2 _ _ example_pids E).
  - exfalso. revert H. apply example_enough. by vm_compute.
Defined.

Lemma run_by_pid_correct_witness : exists s',
  run_by_pid 0x202 0 example_procs = Ret (Ok (mkIret 0x401000 0x33 0x202 0x7fffffffe000 0x2b [0x2b; 0x2b; 0x2b; 0x2b]), s').
Proof.
  destruct (run_by_pid_correct 0x202 example_procs 0 (mkProcess (mkInactivePageMap 0x1000 0) 0x7fffffffe000 0x401000 [] true)
    example_tss) as [(s' & b' & E & _)|(s' & E & H)].
  - by cbn.
  - done.
  - done.
  - done.
  - apply default_iopb_ok.
  - exact example_tables.
  - intros n Hn. apply example_clear. by apply stack_page_ok.
  - eexists _. exact E.
  - destruct (example_enough 8 ltac:(lia) H).
Defined.

End examples.
