(* ===== verification/ProcessSpace.v ===== *)
(** Lemmas on [new_process_page_tables] ([process.rs]): the temporary page on the heap,
    and the address space that shares the kernel's part of the active one. *)
From S2P Require Import Prelude Crates Machine FrameAlloc Paging Layout PageMap Friendly.
From S2P Require Import AddressSpace PagingLemmas PageMapLemmas MapperLemmas UnmapLemmas Heap HeapLemmas.
From S2P Require Import ActivePageMap ActivePageMapLemmas MemoryInit Cpu Process.

(** * Sharing one entry of another address space *)

(** The P4 entry of the kernel's half: the heap, the kernel and the stacks. *)
Definition KERNEL_ENTRY : Z := 511.

Section shared.
Context (m : gmap Z Z) (R g k : Z).
Context (Hsp : space_ok m R) (Hrec : rec_ok m g).
Context (Hroot : next_frame m R KERNEL_ENTRY = Some k) (Hshare : next_frame m g KERNEL_ENTRY = Some k).
Context (Hwr : e_writable (entry_at m g KERNEL_ENTRY) = true).
Context (Hempty : forall i, idx i -> i <> REC -> i <> KERNEL_ENTRY -> e_present (entry_at m g i) = false).
Context (Hfresh : forall q, vpath q -> table_at m R q <> Some g).

Lemma shared_table_at q : table_at m g (KERNEL_ENTRY :: q) = table_at m R (KERNEL_ENTRY :: q).
Proof. cbn [table_at]. by rewrite Hroot, Hshare. Qed.

(** A table other than the root is one of the shared ones. *)
Lemma shared_path q f : vpath q -> table_at m g q = Some f ->
  (q = [] /\ f = g) \/ exists q', q = KERNEL_ENTRY :: q' /\ table_at m R q = Some f.
Proof.
  intros Hq Hf. destruct q as [|i q]; [left; by injection Hf as <-|]. right.
  destruct (decide (i = KERNEL_ENTRY)) as [->|Hne]; [exists q; by rewrite <- shared_table_at|].
  exfalso. destruct Hq as (Hi & _ & Hh). apply list.Forall_cons in Hi as [Hi _].
  cbn [table_at] in Hf. unfold next_frame in Hf. rewrite Hempty in Hf; [done|done| |done].
  simpl in Hh. congruence.
Qed.

Lemma shared_space_ok : space_ok m g.
Proof.
  split; [done|..].
  - intros p f i f' Hp Hf Hn. destruct (shared_path p f (vpath_app _ _ Hp) Hf) as [[-> ->]|(q & -> & Hf')].
    + destruct (decide (i = KERNEL_ENTRY)) as [->|Hne]; [done|].
      unfold next_frame in Hn. rewrite Hempty in Hn; [done|by eapply vpath_idx|by apply (vpath_rec [] i)|done].
    + by apply (so_writable _ _ Hsp (KERNEL_ENTRY :: q) f i f').
  - intros p q f Hp Hq Ep Eq.
    destruct (shared_path p f Hp Ep) as [[-> ->]|(p' & -> & Ep')], (shared_path q _ Hq Eq) as [[-> Hg]|(q' & -> & Eq')];
      [done| | |].
    + by destruct (Hfresh _ Hq Eq').
    + subst f. by destruct (Hfresh _ Hp Ep').
    + by apply (so_inj _ _ Hsp _ _ f).
Qed.

(** Pages of the kernel's half are translated alike. *)
Lemma shared_walk page : p4_index page = KERNEL_ENTRY -> ref_walk m g page = ref_walk m R page.
Proof. intros Hp. unfold ref_walk, huge_walk, ent. by rewrite Hp, !shared_table_at. Qed.

End shared.

Lemma hpage_p4 i : heap_index i -> p4_index (hpage i) = KERNEL_ENTRY.
Proof.
  unfold heap_index. intros Hi. unfold p4_index, hpage. cbn [number page_no].
  change HEAP_PAGE with 0xffffffff40000. rewrite va_index_alt by lia. unfold KERNEL_ENTRY.
  Z.to_euclidean_division_equations. lia.
Qed.

Section process_tables.
Context `{B : Build} `{X : X86_64Crate} `{F : BitflagsCrate}.
Context {P : Type} `{FA : FrameAllocator P} `{FS : !FrameAllocatorSpec P}.
Context `{T : FriendlyTree HEAP_LEVELS HEAP_BASE_ORDER} `{FC : FriendlyCrate}.
Implicit Types (h : heap_state P tree) (s : machine P).
#[local] Abbreviation hblock := (block_of HEAP_BASE_ORDER).

(** * The temporary page *)

(** The heap has a block of order 7, the order of a page. *)
Definition page_block (t : tree) : Prop := exists f, f mod 2 ^ 13 = 0 /\ forall x, hblock f 7 x -> tree_free t x.

Lemma used_pages_7 : used_pages 7 = 1.
Proof. done. Qed.

(** The block [f] was taken for the temporary page, whose own frame (that of [e]) is
    put aside. *)
Record tp_taken h (t : tree) h1 t1 (f e : Z) : Prop := {
  tt_tree : htree h1 = Some t1;
  tt_block : block_ok f 7;
  tt_inv : tree_inv t1;
  tt_was_free x : hblock f 7 x -> tree_free t x;
  tt_free x : tree_free t1 x <-> tree_free t x /\ ~ hblock f 7 x;
  tt_live g j : tree_live t1 g j <-> (g = f /\ j = 7) \/ tree_live t g j;
  tt_keeps D : tp_keeps (hpage (f / 4096)) D (mach h) (mach h1);
  tt_ready : tp_ready (mkTemporaryPage (hpage (f / 4096)) (e_addr e)) (mach h1);
  tt_frame_live : fa_live (pmm (mach h1)) (e_addr e) 0;
  tt_frame_data : ~ is_table (mach h1) (e_addr e);
  tt_frame_free : fa_free (pmm (mach h)) (e_addr e);
  tt_kernel : exists k, next_frame (mem (mach h1)) (cr3 (mach h1)) KERNEL_ENTRY = Some k;
  tt_takes : takes 4 (mach h) (mach h1)
}.

Lemma block_7_index f : block_ok f 7 -> f mod 4096 = 0 /\ heap_index (f / 4096).
Proof.
  intros Hb. destruct (block_pages_large f 7 Hb ltac:(lia)) as [Hal _]. split; [done|].
  apply (covers_index f 7); [done|]. unfold covers. rewrite used_pages_7. lia.
Qed.

Lemma taken_unmapped h t f : heap_inv h t -> block_ok f 7 -> (forall x, hblock f 7 x -> tree_free t x) ->
  ref_walk (mem (mach h)) (cr3 (mach h)) (hpage (f / 4096)) = Ret None.
Proof.
  intros Hinv Hb Hfree.
  pose proof (region_not_mapped h t f 7 0 Hinv Hb ltac:(lia) Hfree ltac:(unfold region_pages; lia)) as Hn.
  by rewrite Z.add_0_r in Hn.
Qed.

(** [TemporaryPage::new] after the allocation. *)
Lemma TemporaryPage_new_steps h h1 t1 f e s2 :
  heap_alloc 0x1000 h = Ret (Some (HEAP_START + f), h1) -> htree h1 = Some t1 -> block_ok f 7 ->
  rec_ok (mem (mach h1)) (cr3 (mach h1)) -> page_mapped (mach h1) (f / 4096) e ->
  unmap (hpage (f / 4096)) NoFree Invalidate (mach h1) = Ret (tt, s2) ->
  TemporaryPage_new h = Ret (mkTemporaryPage (hpage (f / 4096)) (e_addr e), mkHeapState s2 (Some t1)).
Proof.
  intros Ea Ht1 Hb Hrec Hm Eu. destruct (block_7_index f Hb) as [Hal _]. destruct (Hb) as (_ & _ & Hf).
  unfold TemporaryPage_new. rewrite (bind_ret _ _ _ _ _ Ea). cbv zeta.
  change (default 0 (Some (HEAP_START + f))) with (HEAP_START + f).
  assert (containing_address (HEAP_START + f) = hpage (f / 4096)) as ->.
  { rewrite <- (Z.add_0_r (f / 4096)), <- hpage_address by lia. f_equal. lia. }
  assert (walk_page_table (hpage (f / 4096)) (mach h1) = Ret (Some (e, Kib4), mach h1)) as Hw.
  { rewrite walk_page_table_ref by done. by rewrite Hm. }
  mcall (tables_ret _ h1 _ _ Hw). cbn [expect]. cbn [fst]. rewrite physical_address_spec.
  destruct (small_mapping_inv _ _ _ _ Hm) as (? & ? & ? & _ & _ & _ & _ & ->). msimp. cbn.
  rewrite (bind_ret _ _ _ _ _ (tables_ret _ (mkHeapState (mach h1) (htree h1)) _ _ Eu)).
  by rewrite Ht1.
Qed.

Lemma TemporaryPage_new_spec h t :
  heap_inv h t -> page_block t ->
  (exists f e h1 t1, TemporaryPage_new h = Ret (mkTemporaryPage (hpage (f / 4096)) (e_addr e), h1) /\
     tp_taken h t h1 t1 f e) \/
  (exists msg, TemporaryPage_new h = Stop (Panic msg) /\ short_of 4 (mach h)).
Proof.
  intros Hinv (f0 & Hf0 & Hblk). destruct (heap_alloc_spec h t 0x1000 Hinv ltac:(lia)) as (k & Ek & Hres).
  assert (k = 7) as -> by (vm_compute in Ek; congruence). rewrite used_pages_7 in Hres.
  destruct Hres as [(r & h1 & t1 & Ea & Hinv1 & Hr)|[Ea Hex]].
  2:{ right. exists "Virtual address is not mapped!". split; [|done]. unfold TemporaryPage_new.
      by rewrite (bind_stop _ _ _ _ Ea). }
  destruct r as [ptr|]; [|destruct Hr as (_ & _ & [?|Hno]); [lia|by destruct (Hno f0 Hf0)]].
  destruct Hr as (f & -> & Hb & Hfree & Hlive & Hev & Htk & Hfree' & Hkeep & Hfr). left.
  destruct (block_7_index f Hb) as [Hal Hidx]. set (i := f / 4096) in *.
  assert (evolves (same_page (hpage i)) (mach h) (mach h1)) as Hev'.
  { eapply evolves_weaken; [|exact Hev]. intros page (n & Hn & Hs). unfold hpage.
    by replace (HEAP_PAGE + i) with n by lia. }
  assert (tree_live t1 f 7) as Hlf by (apply Hlive; auto).
  destruct (hi_used _ _ Hinv1 f 7 i Hlf ltac:(unfold covers; fold i; rewrite used_pages_7; lia)) as [e He].
  destruct (hp_frame _ (hi_pages _ _ Hinv1) i e Hidx He) as (Hl & Hnt & _).
  pose proof (hp_tables _ (hi_pages _ _ Hinv1)) as Hti.
  destruct (unmap_spec (mach h1) (hpage i) NoFree Invalidate e Hti (hpage_ok i Hidx) He)
    as (s2 & Eu & Hum & _); [done|].
  exists f, e, (mkHeapState s2 (Some t1)), t1. split.
  { by apply (TemporaryPage_new_steps h h1); [done|apply Hinv1|done|apply Hti|..]. }
  assert (forall D, tp_keeps (hpage i) D (mach h1) s2) as Hk2 by (intros D; by eapply tp_keeps_unmapped).
  assert (forall D, tp_keeps (hpage i) D (mach h) s2) as Hk.
  { intros D. eapply tp_keeps_trans; [by apply tp_keeps_evolves|done]. }
  split; cbn [mach htree]; try done.
  - apply Hinv1.
  - split; cbn [tp_page]; [by apply hpage_ok| |apply Hum].
    apply (um_clear _ _ _ _ _ Hum); [apply hpage_ok, Hidx|]. by apply (hp_clear _ (hi_pages _ _ Hinv1)).
  - by apply (tk_live _ _ _ _ (Hk2 (fun _ => False))).
  - by apply (tp_keeps_data_frame _ (fun _ => False) _ _ _ Hti (Hk2 _)).
  - destruct (Hfr i e Hidx He) as [He'|]; [|done]. pose proof (taken_unmapped h t f Hinv Hb Hfree) as Hn. fold i in Hn.
    unfold page_mapped, small_mapping in He'. congruence.
  - destruct (small_mapping_inv _ _ _ _ He) as (k1 & ? & ? & E1 & _). rewrite hpage_p4 in E1 by done.
    exists k1. assert (table_at (mem s2) (cr3 s2) [KERNEL_ENTRY] = Some k1) as Ht.
    { apply (um_paths _ _ _ _ _ Hum).
      - rewrite <- (hpage_p4 i Hidx). apply vpath_page_1, hpage_ok, Hidx.
      - cbn [table_at]. by rewrite E1. }
    cbn [table_at] in Ht. by destruct (next_frame (mem s2) (cr3 s2) KERNEL_ENTRY).
  - apply (takes_trans 4 0 _ (mach h1)); [done|]. apply takes_none; [done|]. intros x Hx.
    apply (um_free _ _ _ _ _ Hum). by left.
Qed.

(** A frame in use lies where the allocator manages frames. *)
Lemma fa_live_range (p : P) f : fa_inv p -> fa_live p f 0 -> f mod 4096 = 0 /\ 0 <= f < 2 ^ 40.
Proof.
  intros Hp Hl. destruct (fa_deallocate_live p f 0 Hp Hl) as (p' & _ & Hp' & Hf & _).
  apply (fa_free_range p'); [done|]. apply Hf. right. by apply in_block_0.
Qed.

(** What the end of a temporary page with the frame [ea] keeps. *)
Record put_back (ea : Z) s s' : Prop := {
  pb_takes : takes 3 s s';
  pb_paths q x : vpath q -> table_at (mem s) (cr3 s) q = Some x -> table_at (mem s') (cr3 s') q = Some x;
  pb_new x : is_table s' x -> is_table s x \/ fa_free (pmm s) x;
  pb_mem a : ~ is_table s (frame_of a) -> ~ fa_free (pmm s) (frame_of a) -> word (mem s') a = word (mem s) a;
  pb_live x k : fa_live (pmm s) x k -> x <> ea -> fa_live (pmm s') x k
}.

(** The end of a temporary page: its own frame is mapped again, and freed with it. *)
Lemma frame_put_back s0 s2 page D fl ea :
  fa_inv (pmm s0) -> tp_keeps page D s0 s2 -> fa_free (pmm s0) ea -> fa_live (pmm s2) ea 0 -> ~ is_table s2 ea ->
  tp_ready (mkTemporaryPage page ea) s2 -> flags_ok fl ->
  exists r s3, map_to page ea fl Invalidate s2 = Ret (r, s3) /\
    match r with
    | Err _ => short_of 3 s2
    | Ok _ => exists s4, unmap page Free Invalidate s3 = Ret (tt, s4) /\ tp_keeps page D s0 s4 /\
        ref_walk (mem s4) (cr3 s4) page = Ret None /\ put_back ea s2 s4
    end.
Proof.
  intros Hfa Hk Hef Hel Hnt [Hp Hc _] Hfl. cbn [tp_page] in *. pose proof (tk_inv _ _ _ _ Hk) as Hinv.
  destruct (fa_live_range _ _ (ti_fa _ Hinv) Hel) as [Hal Hr].
  destruct (map_to_spec s2 page ea fl Invalidate Hinv Hp Hc Hal ltac:(lia) Hfl) as (r & s3 & E & Hres).
  exists r, s3. split; [done|]. destruct r as [u|u]; [|tauto]. destruct Hres as (Hev & Hm & _ & Htk).
  pose proof (tp_keeps_trans _ _ _ _ _ Hk (tp_keeps_evolves _ D _ _ Hev)) as Hk3.
  destruct (leaf_entry_facts ea fl Hal ltac:(lia) Hfl) as (Ha & _).
  destruct (unmap_spec s3 page Free Invalidate (leaf_entry ea fl) (ev_inv _ _ _ Hev) Hp Hm) as (s4 & E4 & Hum & _).
  { rewrite Ha. intros _. split; [by apply (ev_live _ _ _ Hev)|].
    intros [|Hx]%(ev_new _ _ _ Hev); [done|].
    apply (fa_live_not_free _ _ 0 ea (ti_fa _ Hinv) Hel); [by apply in_block_0|done]. }
  exists s4. split; [done|]. split_and!.
  - destruct Hk3. split; try (rewrite ?(um_cr3 _ _ _ _ _ Hum), ?(um_cr3_flags _ _ _ _ _ Hum), ?(um_wp _ _ _ _ _ Hum); done).
    + apply Hum.
    + intros page' H1 H2. rewrite (um_others _ _ _ _ _ Hum) by done. auto.
    + intros q x Hq Hx. apply (um_paths _ _ _ _ _ Hum); auto.
    + intros x Hx. apply tk_new. by apply (um_tables _ _ _ _ _ Hum).
    + intros x [Hx|[_ ->]]%(um_free _ _ _ _ _ Hum); [auto|by rewrite Ha].
    + intros x k Hx. apply (um_live _ _ _ _ _ Hum). split; [auto|]. rewrite Ha. intros (_ & -> & ->).
      apply (fa_live_not_free _ _ 0 ea Hfa Hx); [by apply in_block_0|done].
    + intros page' H1 H2. apply (um_clear _ _ _ _ _ Hum); auto.
    + intros a H1 H2 H3. rewrite (um_mem _ _ _ _ _ Hum); [auto|]. intros Hx%tk_new. tauto.
  - apply Hum.
  - split.
    + apply (takes_trans 3 0 _ s3); [done|]. apply takes_none; [done|]. intros x Hx.
      apply (um_free _ _ _ _ _ Hum). by left.
    + intros q x Hq Hx. apply (um_paths _ _ _ _ _ Hum); [done|]. rewrite (ev_cr3 _ _ _ Hev).
      by apply (ev_tables _ _ _ Hev).
    + intros x Hx. apply (ev_new _ _ _ Hev). by apply (um_tables _ _ _ _ _ Hum).
    + intros a H1 H2. rewrite (um_mem _ _ _ _ _ Hum); [by apply (ev_mem _ _ _ Hev)|].
      intros [|]%(ev_new _ _ _ Hev); done.
    + intros x k Hx Hne. apply (um_live _ _ _ _ _ Hum). split; [by apply (ev_live _ _ _ Hev)|]. rewrite Ha. tauto.
Qed.

(** The heap is as it was before the temporary page was taken. *)
Record heap_back h (t : tree) h' (t' : tree) (D : Z -> Prop) (page : Page) : Prop := {
  hb_inv : heap_inv h' t';
  hb_free x : tree_free t' x <-> tree_free t x;
  hb_live g j : tree_live t' g j <-> tree_live t g j;
  hb_keeps : tp_keeps page D (mach h) (mach h');
  hb_walk page' : p4_index page' <> REC ->
    ref_walk (mem (mach h')) (cr3 (mach h')) page' = ref_walk (mem (mach h)) (cr3 (mach h)) page'
}.

Lemma heap_back_intro h t h1 t1 f e D h' t' :
  heap_inv h t -> tp_taken h t h1 t1 f e -> htree h' = Some t' -> tree_inv t' ->
  (forall x, tree_free t' x <-> tree_free t1 x \/ hblock f 7 x) ->
  (forall g j, tree_live t' g j <-> tree_live t1 g j /\ ~ (g = f /\ j = 7)) ->
  tp_keeps (hpage (f / 4096)) D (mach h) (mach h') ->
  ref_walk (mem (mach h')) (cr3 (mach h')) (hpage (f / 4096)) = Ret None ->
  heap_back h t h' t' D (hpage (f / 4096)).
Proof.
  intros Hinv Htt Ht' Hi' Hfree' Hlive' Hk Hn. pose proof (tt_block _ _ _ _ _ _ Htt) as Hb.
  assert (forall page', p4_index page' <> REC ->
    ref_walk (mem (mach h')) (cr3 (mach h')) page' = ref_walk (mem (mach h)) (cr3 (mach h)) page') as Hw.
  { intros page' Hp. destruct (decide (same_page (hpage (f / 4096)) page')) as [Hs|Hs]; [|by apply (tk_walk _ _ _ _ Hk)].
    rewrite <- !(ref_walk_same_page _ _ _ _ Hs), Hn. symmetry.
    apply (taken_unmapped h t); [done|done|apply Htt]. }
  assert (forall x, tree_free t' x <-> tree_free t x) as Hf.
  { intros x. rewrite Hfree', (tt_free _ _ _ _ _ _ Htt). split.
    - intros [[]|Hx]; [done|by apply (tt_was_free _ _ _ _ _ _ Htt)].
    - intros Hx. destruct (hblock_dec f 7 x ltac:(lia)); tauto. }
  assert (forall g j, tree_live t' g j <-> tree_live t g j) as Hl.
  { intros g j. rewrite Hlive', (tt_live _ _ _ _ _ _ Htt). split; [tauto|]. intros Hx. split; [by right|].
    intros [-> ->]. apply (tree_live_not_free t f 7 f (hi_inv _ _ Hinv) Hx); [by apply hblock_self|].
    apply (tt_was_free _ _ _ _ _ _ Htt). by apply hblock_self. }
  split; [|done..]. apply (heap_inv_transfer h t); try done.
  - apply Hk.
  - intros i Hi. apply (tk_clear _ _ _ _ Hk); [apply hpage_ok, Hi|]. by apply (hp_clear _ (hi_pages _ _ Hinv)).
  - intros i Hi. apply Hw, hpage_ok, Hi.
  - intros i e' Hi He. apply (tk_live _ _ _ _ Hk). by apply (hp_frame _ (hi_pages _ _ Hinv) i e' Hi He).
  - apply Hk.
Qed.

(** [Drop for TemporaryPage] in any address space: [s0] is a state in which the page's own
    frame was free. *)
Lemma drop_temporary_page_anywhere s0 h2 t1 f ea D :
  htree h2 = Some t1 -> tree_inv t1 -> tree_live t1 f 7 -> block_ok f 7 ->
  fa_inv (pmm s0) -> tp_keeps (hpage (f / 4096)) D s0 (mach h2) -> fa_free (pmm s0) ea ->
  fa_live (pmm (mach h2)) ea 0 -> ~ is_table (mach h2) ea ->
  let tp := mkTemporaryPage (hpage (f / 4096)) ea in
  tp_ready tp (mach h2) ->
  (exists s' t', drop_temporary_page tp h2 = Ret (tt, mkHeapState s' (Some t')) /\ tree_inv t' /\
     (forall x, tree_free t' x <-> tree_free t1 x \/ hblock f 7 x) /\
     (forall g j, tree_live t' g j <-> tree_live t1 g j /\ ~ (g = f /\ j = 7)) /\
     tp_keeps (tp_page tp) D s0 s' /\ ref_walk (mem s') (cr3 s') (tp_page tp) = Ret None /\
     put_back ea (mach h2) s') \/
  (drop_temporary_page tp h2 = Stop (Panic "Out of physical memory") /\ short_of 3 (mach h2)).
Proof.
  intros Ht2 Hti Hl1 Hb Hfa Hk Hef Hel Hnt tp Hrdy.
  destruct (block_7_index f Hb) as [Hal Hidx]. destruct (Hb) as (_ & _ & Hf).
  set (i := f / 4096) in *. set (fl := from_bits_truncate EntryFlags_all 0).
  assert (flags_ok fl) as Hfl by (unfold fl; by rewrite from_bits_truncate_spec).
  destruct (frame_put_back s0 (mach h2) (hpage i) D fl ea) as (r & s3 & E3 & Hr); [done..|].
  unfold drop_temporary_page. cbn [tp_page tp_frame_addr tp]. fold fl.
  rewrite (bind_ret _ _ _ _ _ (tables_ret _ h2 _ _ E3)), Ht2. destruct r as [u|u]; [left|right; by msimp].
  destruct Hr as (s4 & E4 & Hk4 & Hn & Hpb). msimp.
  mcall (tables_ret _ (mkHeapState s3 (Some t1)) _ _ (page_start_ok (hpage i) "unwrap" s3 (hpage_ok i Hidx))).
  replace (number (hpage i) * 4096) with (HEAP_START + f).
  2:{ cbn [hpage page_no number]. change HEAP_PAGE with (HEAP_START / 4096). unfold HEAP_START, i.
      Z.to_euclidean_division_equations. lia. }
  destruct (tree_deallocate_live t1 f 7 Hti Hl1) as (t' & Ed & Hi' & Hfree' & Hlive').
  exists s4, t'. split_and!; [|done..].
  rewrite (heap_dealloc_steps (mkHeapState s3 (Some t1)) t1 t' f 7 0x1000 eq_refl eq_refl Hb Ed). change (7 <? 6) with false.
  rewrite used_pages_7. change (range_excl 0 1) with [0]. cbn [for_each mach htree].
  rewrite heap_address by lia. msimp. rewrite hpage_address by lia. rewrite Z.add_0_r. fold i.
  by rewrite (bind_ret _ _ _ _ _ (tables_ret _ (mkHeapState s3 (Some t')) _ _ E4)).
Qed.

Lemma drop_temporary_page_spec h t h1 t1 f e h2 D :
  heap_inv h t -> tp_taken h t h1 t1 f e -> htree h2 = Some t1 ->
  tp_keeps (hpage (f / 4096)) D (mach h1) (mach h2) ->
  let tp := mkTemporaryPage (hpage (f / 4096)) (e_addr e) in
  tp_ready tp (mach h2) ->
  (exists h' t', drop_temporary_page tp h2 = Ret (tt, h') /\ heap_back h t h' t' D (tp_page tp) /\
     put_back (e_addr e) (mach h2) (mach h')) \/
  (drop_temporary_page tp h2 = Stop (Panic "Out of physical memory") /\ short_of 3 (mach h2)).
Proof.
  intros Hinv Htt Ht2 Hk tp Hrdy. pose proof (tt_block _ _ _ _ _ _ Htt) as Hb.
  pose proof (tp_keeps_trans _ _ _ _ _ (tt_keeps _ _ _ _ _ _ Htt D) Hk) as Hk2.
  destruct (drop_temporary_page_anywhere (mach h) h2 t1 f (e_addr e) D) as [(s' & t' & E & H1 & H2 & H3 & H4 & H5 & H6)|];
    [done|by eapply tt_inv|apply (tt_live _ _ _ _ _ _ Htt); by left|done|apply (hp_tables _ (hi_pages _ _ Hinv))|done|
     by eapply tt_frame_free| | |done| |by right].
  - apply (tk_live _ _ _ _ Hk), (tt_frame_live _ _ _ _ _ _ Htt).
  - apply (tp_keeps_data_frame _ _ _ _ _ (tk_inv _ _ _ _ (tt_keeps _ _ _ _ _ _ Htt D)) Hk).
    + apply (tt_frame_live _ _ _ _ _ _ Htt).
    + apply (tt_frame_data _ _ _ _ _ _ Htt).
  - left. exists (mkHeapState s' (Some t')), t'. split_and!; [done| |done]. by apply (heap_back_intro h t h1 t1 f e D).
Qed.

(** * The new P4 table *)

(** One more entry of the new table, through the temporary page. *)
Lemma write_new_table s page f i v :
  tables_inv s -> page_ok page -> small_mapping (mem s) (cr3 s) page (leaf_entry f WRITABLE) ->
  f mod 4096 = 0 -> 0 <= f < 2 ^ 48 -> ~ is_table s f -> idx i ->
  table_write (number page * 4096) i v s = Ret (tt, set_mem (<[f + 8 * i := v]> (mem s)) s) /\
  same_tables (mem s) (<[f + 8 * i := v]> (mem s)) (cr3 s).
Proof.
  intros Hinv Hp Hm Hf Hr Hnt Hi. destruct (leaf_entry_facts f WRITABLE Hf Hr eq_refl) as (Ha & _ & Hw).
  split.
  - rewrite table_write_va by done. unfold vwrite64.
    rewrite (mmu_small _ _ page (leaf_entry f WRITABLE)); [|apply Hinv|done|done|unfold idx in Hi; lia].
    by rewrite Ha, Hw.
  - apply same_tables_write; [apply Hinv|done|done|]. intros q Hq Hc. apply Hnt. by exists q.
Qed.

(** The entries of the new table: the recursive one, the kernel's, nothing else. *)
Definition new_entries (m : gmap Z Z) (g v : Z) : Prop :=
  forall i, idx i -> entry_at m g i =
    if decide (i = REC) then Z.lor g recursive_flags else if decide (i = KERNEL_ENTRY) then v else 0.

(** [v] leads to the table [k] of the kernel's half of the address space [R]. *)
Record kernel_entry (m : gmap Z Z) (R v k : Z) : Prop := {
  ke_root : next_frame m R KERNEL_ENTRY = Some k;
  ke_present : e_present v = true;
  ke_not_huge : e_huge v = false;
  ke_addr : e_addr v = k;
  ke_writable : e_writable v = true
}.

Lemma kernel_path : vpath [KERNEL_ENTRY].
Proof.
  split_and!; [repeat constructor; unfold KERNEL_ENTRY; lia|simpl; lia|done].
Qed.

(** The kernel's entry of the new table after it was filled in. *)
Lemma write_kernel_entry s tp g v :
  tables_inv s -> tp_ready tp s -> g mod 4096 = 0 -> 0 <= g < 2 ^ 48 -> ~ is_table s g -> ~ fa_free (pmm s) g ->
  (forall i, idx i -> entry_at (mem s) g i = if decide (i = REC) then Z.lor g recursive_flags else 0) ->
  (exists s1 s2 s', map_table_frame tp g s = Ret (number (tp_page tp) * 4096, s1) /\
     table_write (number (tp_page tp) * 4096) KERNEL_ENTRY v s1 = Ret (tt, s2) /\
     tp_unmap tp s2 = Ret (tt, s') /\
     tp_keeps (tp_page tp) (.= g) s s' /\ tp_ready tp s' /\ takes 3 s s' /\ new_entries (mem s') g v) \/
  (map_table_frame tp g s = Stop (Panic "Out of physical memory") /\ short_of 3 s).
Proof.
  intros Hinv Htp Hg Hr Hnt Hnf Hent. unfold map_table_frame.
  destruct (tp_map_spec s tp g Hinv Htp Hg Hr) as [(s1 & E1 & Hev & Hm & Htk)|H]; [left|by right].
  destruct (Htp) as [Hp Hc Hn]. pose proof (tp_keeps_evolves _ (.= g) _ _ Hev) as Hk1.
  assert (~ is_table s1 g) as Hnt1 by (intros [|]%(ev_new _ _ _ Hev); done).
  assert (idx KERNEL_ENTRY) as HK by (unfold idx, KERNEL_ENTRY; lia).
  destruct (write_new_table s1 (tp_page tp) g KERNEL_ENTRY v (ev_inv _ _ _ Hev) Hp Hm Hg Hr Hnt1 HK) as [E2 Hst].
  set (m' := <[g + 8 * KERNEL_ENTRY := v]> (mem s1)) in *.
  assert (tp_keeps (tp_page tp) (.= g) s1 (set_mem m' s1)) as Hk2.
  { apply tp_keeps_data; [apply Hev|done|]. intros a Ha. unfold m'. rewrite word_insert, decide_False; [done|].
    intros <-. apply Ha. by apply frame_of_entry. }
  assert (small_mapping (mem (set_mem m' s1)) (cr3 (set_mem m' s1)) (tp_page tp) (leaf_entry g WRITABLE)) as Hm2.
  { unfold small_mapping. rewrite (same_ref_walk _ _ _ Hst); [done|apply Hp]. }
  destruct (unmap_spec (set_mem m' s1) (tp_page tp) NoFree Invalidate _ (tk_inv _ _ _ _ Hk2) Hp Hm2)
    as (s3 & E3 & Hum & _); [done|].
  pose proof (tp_keeps_trans _ _ _ _ _ Hk1 (tp_keeps_trans _ _ _ _ _ Hk2 (tp_keeps_unmapped _ _ _ _ _ Hum))) as Hk.
  exists s1, (set_mem m' s1), s3. split_and!; [done|done|done|done| | |].
  - split; [done| |apply Hum]. apply (tk_clear _ _ _ _ Hk); [apply Hp|done].
  - apply (takes_trans 3 0 _ s1); [done|]. apply takes_none; [done|]. intros x Hx.
    apply (um_free _ _ _ _ _ Hum). by left.
  - assert (~ is_table (set_mem m' s1) g) as Hnt2.
    { intros (q & Hq & Hx). apply Hnt1. exists q. split; [done|]. by rewrite <- (same_table_at _ _ _ Hst). }
    intros i Hi. transitivity (entry_at m' g i).
    { apply (um_mem _ _ _ _ _ Hum). by rewrite frame_of_entry. }
    unfold m'. rewrite entry_at_write by done. destruct (decide (i = KERNEL_ENTRY)) as [->|Hne].
    { rewrite !decide_True by done. by rewrite decide_False. }
    rewrite decide_False by naive_solver. rewrite <- Hent by done.
    apply (ev_mem _ _ _ Hev); by rewrite frame_of_entry.
Qed.

(** ** The address space of a new process *)

(** [g] is the P4 table of a new address space that shares the kernel's half with the
    active one; nothing else has changed. *)
Record process_tables h (t : tree) h' (t' : tree) (g : Z) : Prop := {
  pt_back : exists page, heap_back h t h' t' (fun _ => False) page;
  pt_was_free : fa_free (pmm (mach h)) g;
  pt_live : fa_live (pmm (mach h')) g 0;
  pt_data : ~ is_table (mach h') g;
  pt_takes : takes 14 (mach h) (mach h');
  pt_entries : exists v k, new_entries (mem (mach h')) g v /\ kernel_entry (mem (mach h')) (cr3 (mach h')) v k
}.

Lemma table_at_root m R i k : table_at m R [i] = Some k <-> next_frame m R i = Some k.
Proof. cbn [table_at]. by destruct (next_frame m R i). Qed.

Section filled.
Context (m : gmap Z Z) (R g v k : Z).
Context (Hsp : space_ok m R) (Hke : kernel_entry m R v k).
Context (Hg : g mod 4096 = 0) (Hr : 0 <= g < 2 ^ 48).
Context (Hent : new_entries m g v).

Lemma filled_rec : rec_ok m g.
Proof.
  destruct (recursive_entry g Hg Hr) as (R1 & R2 & R3 & R4).
  assert (idx REC) as HR by (unfold idx, REC; lia). split; rewrite Hent, decide_True by done; done.
Qed.

Lemma filled_kernel : entry_at m g KERNEL_ENTRY = v.
Proof. rewrite Hent by (unfold idx, KERNEL_ENTRY; lia). by rewrite decide_False, decide_True by done. Qed.

Lemma filled_share : next_frame m g KERNEL_ENTRY = Some k.
Proof. unfold next_frame. rewrite filled_kernel. destruct Hke as [_ -> -> -> _]. done. Qed.

Lemma filled_writable : e_writable (entry_at m g KERNEL_ENTRY) = true.
Proof. rewrite filled_kernel. apply Hke. Qed.

Lemma filled_empty i : idx i -> i <> REC -> i <> KERNEL_ENTRY -> entry_at m g i = 0.
Proof. intros Hi H1 H2. by rewrite Hent, !decide_False by done. Qed.

End filled.

(** The steps between taking and dropping the temporary page, on the machine. *)
Definition new_table_calls (tp : TemporaryPage) (fl : Z) : M (machine P) InactivePageMap :=
  let! frame := allocate_frame 0 in
  let! frame := expect frame "no more frames" in
  let! new_table := InactivePageMap_new frame fl tp in
  let! kernel_pml4_entry := table_read P4 511 in
  let! table := map_table_frame tp frame in
  do! table_write table 511 kernel_pml4_entry in
  do! tp_unmap tp in
  ret new_table.

Lemma new_process_page_tables_steps h :
  new_process_page_tables h =
  bind TemporaryPage_new (fun tp h1 =>
    bind (tables (new_table_calls tp (cr3_flags (mach h1)))) (fun new_table =>
      do! drop_temporary_page tp in ret new_table) h1) h.
Proof.
  unfold new_process_page_tables. cbv [bind]. destruct (TemporaryPage_new h) as [[tp h1]|]; [|done].
  unfold new_table_calls. cbv [tables bind read_cr3 gets]. unfold allocate_frame.
  destruct (fa_allocate 0 (pmm (mach h1))) as [[[g|] p]|]; [|done..]. cbn [expect mach htree]. cbv [ret].
  cbn [mach htree snd]. change (cr3_flags (set_pmm p (mach h1))) with (cr3_flags (mach h1)).
  destruct (InactivePageMap_new _ _ _ _) as [[nt s3]|]; [|done]. cbn [mach htree].
  destruct (table_read _ _ _) as [[v s4]|]; [|done]. cbn [mach htree].
  destruct (map_table_frame _ _ _) as [[tb s5]|]; [|done]. cbn [mach htree].
  destruct (table_write _ _ _ _) as [[u s6]|]; [|done]. cbn [mach htree].
  by destruct (tp_unmap _ _) as [[u' s7]|].
Qed.

Lemma new_table_steps s1 tp fl :
  tables_inv s1 -> tp_ready tp s1 -> (exists k, next_frame (mem s1) (cr3 s1) KERNEL_ENTRY = Some k) ->
  let c := new_table_calls tp fl in
  (exists g s4, c s1 = Ret (mkInactivePageMap g fl, s4) /\ fa_free (pmm s1) g /\ fa_live (pmm s4) g 0 /\
     ~ is_table s4 g /\ tp_keeps (tp_page tp) (.= g) s1 s4 /\ tp_ready tp s4 /\ takes 7 s1 s4 /\
     exists v k, new_entries (mem s4) g v /\ kernel_entry (mem s4) (cr3 s4) v k) \/
  (exists msg, c s1 = Stop (Panic msg) /\ short_of 7 s1).
Proof.
  intros Hinv Htp [k Hk] c. unfold c, new_table_calls. clear c.
  destruct (new_root_spec s1 tp fl Hinv Htp)
    as [(g & s2 & s3 & Ea & _ & E3 & Hnr)|[(g & s2 & msg & Ea & _ & E3 & Hsh)|(s2 & Ea & Hsh)]]; rewrite (bind_ret _ _ _ _ _ Ea).
  3:{ right. eexists. split; [by msimp|]. by apply (short_of_mono 1); [lia|]. }
  2:{ right. exists msg. msimp. rewrite (bind_stop _ _ _ _ E3). split; [done|]. by apply (short_of_mono 4); [lia|]. }
  msimp. pose proof (new_root_not_free _ _ _ _ Hnr) as Hnf3. destruct Hnr as [Hgf Hg Hr Hl3 Hnt3 Hk3 Htp3 Ht3 Hent3].
  rewrite (bind_ret _ _ _ _ _ E3).
  assert (forall s, tp_keeps (tp_page tp) (.= g) s3 s -> fa_live (pmm s) g 0 /\ ~ is_table s g) as Hgs.
  { intros s Hs. split; [by apply (tk_live _ _ _ _ Hs)|].
    by apply (tp_keeps_data_frame _ _ _ _ _ (tk_inv _ _ _ _ Hk3) Hs). }
  pose proof (table_read_spec s3 [] (cr3 s3) KERNEL_ENTRY (so_rec _ _ (ti_space _ (tk_inv _ _ _ _ Hk3))) ltac:(done)
                ltac:(simpl; lia) eq_refl ltac:(unfold idx, KERNEL_ENTRY; lia)) as Er.
  rewrite <- P4_tva in Er. rewrite (bind_ret _ _ _ _ _ Er).
  destruct (write_kernel_entry s3 tp g (entry_at (mem s3) (cr3 s3) KERNEL_ENTRY) (tk_inv _ _ _ _ Hk3) Htp3 Hg ltac:(lia)
              Hnt3 Hnf3 Hent3) as [(sa & sb & s4 & E4 & E5 & E6 & Hk4 & Htp4 & Ht4 & Hent4)|[E4 Hsh]].
  2:{ right. eexists. rewrite (bind_stop _ _ _ _ E4). split; [done|].
      by apply (short_of_takes 4 3 _ s3). }
  left. exists g, s4. rewrite (bind_ret _ _ _ _ _ E4).
  rewrite (bind_ret _ _ _ _ _ E5), (bind_ret _ _ _ _ _ E6).
  destruct (Hgs s4 Hk4) as (Hl4 & Hnt4).
  split_and!; [done|done|done|done|by eapply tp_keeps_trans|done| |].
  - by apply (takes_trans 4 3 _ s3).
  - assert (forall s, tp_keeps (tp_page tp) (.= g) s1 s -> next_frame (mem s) (cr3 s) KERNEL_ENTRY = Some k) as Hkn.
    { intros s Hs. apply table_at_root, (tk_paths _ _ _ _ Hs), table_at_root; [apply kernel_path|done]. }
    eexists _, k. split; [exact Hent4|]. destruct (next_frame_inv _ _ _ _ (Hkn s3 Hk3)) as (N1 & N2 & N3).
    split; [by eapply Hkn, tp_keeps_trans|done|done|done|].
    apply (so_writable _ _ (ti_space _ (tk_inv _ _ _ _ Hk3)) [] (cr3 s3) KERNEL_ENTRY k kernel_path eq_refl).
    by apply Hkn.
Qed.

Lemma new_process_page_tables_spec h t :
  heap_inv h t -> page_block t ->
  (exists g h' t', new_process_page_tables h = Ret (mkInactivePageMap g (cr3_flags (mach h)), h') /\
     process_tables h t h' t' g) \/
  (exists msg, new_process_page_tables h = Stop (Panic msg) /\ short_of 14 (mach h)).
Proof.
  intros Hinv Hblk. rewrite new_process_page_tables_steps.
  destruct (TemporaryPage_new_spec h t Hinv Hblk) as [(f & e & h1 & t1 & E1 & Htt)|(msg & E1 & Hsh)].
  2:{ right. exists msg. rewrite (bind_stop _ _ _ _ E1). split; [done|]. by apply (short_of_mono 4); [lia|]. }
  rewrite (bind_ret _ _ _ _ _ E1). pose proof (tt_takes _ _ _ _ _ _ Htt) as Ht1.
  set (tp := mkTemporaryPage _ _) in *. pose proof (tt_keeps _ _ _ _ _ _ Htt) as Hk1.
  pose proof (tk_inv _ _ _ _ (Hk1 (fun _ => False))) as Hinv1. rewrite <- (tk_flags _ _ _ _ (Hk1 (fun _ => False))).
  destruct (new_table_steps (mach h1) tp (cr3_flags (mach h1)) Hinv1 (tt_ready _ _ _ _ _ _ Htt) (tt_kernel _ _ _ _ _ _ Htt))
    as [(g & s4 & E4 & Hgf & Hgl & Hnt & Hk4 & Htp4 & Ht4 & v & k & Hent & Hke)|(msg & E4 & Hsh)].
  2:{ right. exists msg. rewrite (bind_stop _ _ _ _ (tables_stop _ _ _ E4)). split; [done|].
      apply (short_of_mono (4 + 7)); [lia|]. by apply (short_of_takes 4 7 _ (mach h1)). }
  rewrite (bind_ret _ _ _ _ _ (tables_ret _ h1 _ _ E4)), (tt_tree _ _ _ _ _ _ Htt).
  destruct (drop_temporary_page_spec h t h1 t1 f e (mkHeapState s4 (Some t1)) (.= g) Hinv Htt eq_refl Hk4 Htp4)
    as [(h' & t' & E5 & Hback & Hpb)|[E5 Hsh]].
  2:{ right. eexists. rewrite (bind_stop _ _ _ _ E5). split; [done|]. apply (short_of_mono (4 + (7 + 3))); [lia|].
      apply (short_of_takes 4 _ _ (mach h1)); [done|]. by apply (short_of_takes 7 3 _ s4). }
  left. exists g, h', t'. rewrite (bind_ret _ _ _ _ _ E5). split; [done|].
  assert (fa_free (pmm (mach h)) g) as Hg0 by (by apply (tk_free _ _ _ _ (Hk1 (.= g)))).
  assert (g <> e_addr e) as Hge.
  { intros ->. apply (fa_live_not_free _ _ 0 (e_addr e) (ti_fa _ Hinv1) (tt_frame_live _ _ _ _ _ _ Htt)); [by apply in_block_0|done]. }
  assert (~ fa_free (pmm s4) g) as Hnf.
  { apply (fa_live_not_free _ _ 0 g (ti_fa _ (tk_inv _ _ _ _ Hk4)) Hgl). by apply in_block_0. }
  destruct Hpb as [P1 P2 P3 P4 P5]. cbn [mach] in *. split.
  - eexists. destruct Hback. split; try done. eapply tp_keeps_weaken; [|done]. intros x ->. by right.
  - done.
  - by apply P5.
  - intros [|]%P3; done.
  - apply (takes_trans 4 10 _ (mach h1)); [done|]. by apply (takes_trans 7 3 _ s4).
  - exists v, k. split.
    + intros i Hi. rewrite <- Hent by done. destruct (fa_free_range _ _ (ti_fa _ Hinv1) Hgf) as [Hga _].
      apply P4; by rewrite frame_of_entry.
    + destruct Hke. split; try done. by apply table_at_root, P2, table_at_root; [apply kernel_path|].
Qed.

End process_tables.
