(* ===== verification/RemapKernel.v ===== *)
(** [remap_kernel] ([remap.rs]): the mappings it asks for, as lists of requests, and what
    the new address space then looks like. *)
From S2P Require Import Prelude Crates Machine FrameAlloc Paging Layout PageMap.
From S2P Require Import AddressSpace PagingLemmas PageMapLemmas MapperLemmas UnmapLemmas Friendly Heap HeapLemmas.
From S2P Require Import ActivePageMap ActivePageMapLemmas ProcessSpace Redirect RemapLemmas.

(** * The requests *)

Definition range_requests (msg : string) (first last : Z) (pa : Z -> Z) (flags : Z) : list (string * request) :=
  (fun n => (msg, mkRequest n (pa n) flags)) <$> range_incl first last.

(** The page at or after the address [x]. *)
Definition page_after (x : Z) : Z := (x + 4095) / 4096.

Section requests.
Context `{B : Build} `{X : X86_64Crate} `{F : BitflagsCrate}.

(** The frame [higher_half_map_range] gives a page. *)
Definition image_frame (n : Z) : Z := n * 4096 - KERNEL_MAPPING_BEGIN.

(** The pages of a section, and the page after it. *)
Definition section_requests (sec : ElfSection) : list (string * request) :=
  if sec_allocated sec then
    range_requests "Out of physical memory for page tables" (sec_start sec / 4096) (page_after (sec_end sec))
      image_frame (section_flags sec)
  else [].

Definition vga_request : request :=
  mkRequest (VIRTUAL_VGA_PTR / 4096) 0xb8000 (WRITABLE ||| NO_EXECUTE ||| USER_ACCESSIBLE).

Definition kernel_requests (sections : list ElfSection) : list (string * request) :=
  (sections ≫= section_requests) ++ [("Out of physical memory", vga_request)].

(** Sections lie in the last two GiB, at page boundaries. *)
Definition section_ok (sec : ElfSection) : Prop :=
  sec_allocated sec = true ->
  sec_start sec mod 4096 = 0 /\ KERNEL_MAPPING_BEGIN <= sec_start sec /\ 0 <= sec_end sec <= 2 ^ 64 - 4096 - 1.

(** [remap_kernel] copies the bootstrap heap and the tree of the heap. *)
Definition copy_flags : Z := NO_EXECUTE ||| WRITABLE ||| GLOBAL.

Definition copy_requests (first last : Z) (pa : Z -> Z) : list (string * request) :=
  range_requests "Out of physical memory" first last pa copy_flags.

Lemma page_address n : containing_address (n * 4096) = page_no n.
Proof. unfold containing_address, page_no. change (bytes Kib4) with 4096. by rewrite Z.div_mul. Qed.

Lemma round_up_divide_page x : 0 <= x <= 2 ^ 64 - 4096 - 1 -> round_up_divide x 4096 = Ret (page_after x).
Proof.
  intros Hx. unfold round_up_divide, page_after. rewrite add64_small by lia. cbn [rbind].
  rewrite sub64_small by lia. cbn [rbind]. do 2 f_equal. lia.
Qed.

Lemma section_flags_ok sec : flags_ok (section_flags sec).
Proof. unfold section_flags. by destruct (sec_writable sec), (sec_executable sec); repeat apply flags_ok_or. Qed.

(** The pages a section asks for. *)
Lemma section_pages sec n : section_ok sec -> sec_allocated sec = true ->
  n ∈ range_incl (sec_start sec / 4096) (page_after (sec_end sec)) -> KERNEL_MAPPING_BEGIN / 4096 <= n < 2 ^ 52.
Proof.
  intros Hs Ha Hn%elem_of_range_incl. destruct (Hs Ha) as (H1 & H2 & H3).
  unfold page_after, KERNEL_MAPPING_BEGIN in *. Z.to_euclidean_division_equations. lia.
Qed.

Lemma image_request_ok n fl : KERNEL_MAPPING_BEGIN / 4096 <= n < 2 ^ 52 -> flags_ok fl ->
  request_ok (mkRequest n (image_frame n) fl).
Proof.
  intros Hn Hf. unfold image_frame, KERNEL_MAPPING_BEGIN in *. change (0xffffffff80000000 / 4096) with 0xffffffff80000 in Hn.
  split; cbn [rq_page rq_frame rq_flags]; [|Z.to_euclidean_division_equations; lia|lia|done].
  apply kernel_page_ok. unfold KERNEL_PAGE. lia.
Qed.

Lemma vga_request_ok : request_ok vga_request.
Proof.
  split; cbn [rq_page rq_frame rq_flags vga_request]; [|done|lia|by repeat apply flags_ok_or].
  apply kernel_page_ok. unfold KERNEL_PAGE. change (VIRTUAL_VGA_PTR / 4096) with 0xffffffff800b8. lia.
Qed.

Lemma kernel_requests_ok sections : Forall section_ok sections ->
  Forall (fun x => request_ok x.2 /\ KERNEL_MAPPING_BEGIN / 4096 <= rq_page x.2 < 2 ^ 52) (kernel_requests sections).
Proof.
  intros Hs. unfold kernel_requests. apply Forall_app. split.
  - apply list.Forall_forall. intros x (sec & Hx & Hsec)%list_elem_of_bind.
    rewrite list.Forall_forall in Hs. specialize (Hs sec Hsec). unfold section_requests in Hx.
    destruct (sec_allocated sec) eqn:Ea; [|by apply not_elem_of_nil in Hx].
    apply list_elem_of_fmap in Hx as (n & -> & Hn). pose proof (section_pages sec n Hs Ea Hn) as Hr.
    cbn [snd rq_page]. split; [|done]. apply image_request_ok; [done|apply section_flags_ok].
  - apply list.Forall_cons. split; [|by apply list.Forall_nil]. cbn [snd]. split; [apply vga_request_ok|].
    cbn [rq_page vga_request]. change (VIRTUAL_VGA_PTR / 4096) with 0xffffffff800b8.
    change (KERNEL_MAPPING_BEGIN / 4096) with 0xffffffff80000. lia.
Qed.

Section closures.
Context {P : Type} `{FA : FrameAllocator P} `{FS : !FrameAllocatorSpec P}.
Implicit Types s t : machine P.

#[local] Abbreviation issues l := (for_each l (fun x => issue x.1 x.2)).

Lemma remap_section_issues sec s : section_ok sec -> remap_section sec s = issues (section_requests sec) s.
Proof.
  intros Hs. unfold remap_section, section_requests. destruct (sec_allocated sec) eqn:Ea; [cbn [negb]|done].
  destruct (Hs Ea) as (H1 & H2 & H3). rewrite H1. change (0 =? 0) with true. msimp.
  unfold higher_half_map_range. rewrite round_up_divide_page by done. msimp.
  unfold range_requests. rewrite for_each_fmap. apply for_each_ext. intros n s' Hn.
  pose proof (section_pages sec n Hs Ea Hn) as Hr. unfold KERNEL_MAPPING_BEGIN in *.
  change (0xffffffff80000000 / 4096) with 0xffffffff80000 in Hr.
  rewrite mul64_small by lia. msimp. rewrite sub64_small by lia. msimp.
  rewrite PhysAddr_new_ok by lia. msimp. rewrite page_address. done.
Qed.

Lemma remap_sections_issues sections s : Forall section_ok sections ->
  remap_sections (Some sections) s =
    (let! e := table_read P4 511 in
     do! table_write P4 511 (entry_add_flags e GLOBAL) in
     issues (kernel_requests sections)) s.
Proof.
  intros Hs. unfold remap_sections. msimp. apply bind_cong. intros e s1. apply bind_cong. intros [] s2.
  unfold kernel_requests. rewrite for_each_app. unfold bind at 1 4. rewrite for_each_mbind.
  rewrite (for_each_ext _ remap_section (fun sec => issues (section_requests sec))).
  2:{ intros sec s' Hsec. apply remap_section_issues. rewrite list.Forall_forall in Hs. by apply Hs. }
  destruct (for_each sections _ s2) as [[[] s3]|]; [|done].
  rewrite PhysAddr_new_ok by lia. msimp. cbn [for_each]. unfold issue. cbn [fst snd rq_page rq_frame rq_flags vga_request].
  change (containing_address VIRTUAL_VGA_PTR) with (page_no (VIRTUAL_VGA_PTR / 4096)).
  unfold bind, ret. destruct (map_to _ _ _ _ s3) as [[r s4]|]; [|done]. by destruct r as [[]|].
Qed.

(** ** Run on another address space *)

(** A flag of an unused entry of the P4 table changes no translation. *)
Lemma root_flag_evolves t i v :
  tables_inv t -> idx i -> i <> REC -> e_present (entry_at (mem t) (cr3 t) i) = false ->
  e_present v = false -> e_huge v = false ->
  evolves (fun _ => False) t (set_mem (<[cr3 t + 8 * i := v]> (mem t)) t).
Proof.
  intros [Hsp Hfa Hfr] Hi Hne Hp Hv Hh.
  assert (length (@nil Z) = 3%nat \/ (next_frame (mem t) (cr3 t) i = None /\ e_present v && negb (e_huge v) = false)) as Hleaf.
  { right. rewrite Hv. split; [by apply next_frame_absent|done]. }
  pose proof (leaf_table_at _ _ Hsp [] i (cr3 t) vpath_nil Hi eq_refl (fun _ => Hne) v Hleaf) as Hta.
  pose proof (leaf_ent _ _ Hsp [] i (cr3 t) vpath_nil Hi eq_refl (fun _ => Hne) v Hleaf) as Hent.
  assert (forall x, is_table (set_mem (<[cr3 t + 8 * i := v]> (mem t)) t) x <-> is_table t x) as Hit.
  { intros x. unfold is_table. cbn [mem cr3 set_mem]. split; intros (q & Hq & Hx); exists q; (split; [done|]);
      [by rewrite <- Hta|by rewrite Hta]. }
  split; try done; cbn [mem cr3 set_mem pmm].
  - split; [|done|]; [by apply (leaf_space_ok _ _ Hsp [] i (cr3 t) vpath_nil Hi eq_refl)|].
    intros x Hx. apply Hfr. by apply Hit.
  - intros q f Hq Hf. by rewrite Hta.
  - intros f Hf. left. by apply Hit.
  - intros page Hr _. unfold ref_walk, huge_walk.
    rewrite !Hent by auto with wolffia. by rewrite !decide_False by (by intros [? _]).
  - intros p j e Hpj. rewrite Hent by eauto with wolffia. case_decide as Hd; [|done]. intros [= <-]. congruence.
  - intros a Ha _. rewrite word_insert, decide_False; [done|]. intros <-. apply Ha.
    rewrite frame_of_entry by (done || apply (rec_range _ _ (so_rec _ _ Hsp))). exists []. split; [apply vpath_nil|done].
Qed.

Section runs.
Context (g fl : Z).
#[local] Abbreviation other s := (set_cr3 g fl s).

(** The requests can be granted in the address space [g]. *)
Definition grantable s (l : list (string * request)) : Prop :=
  Forall (fun x => request_ok x.2 /\ path_clear (other s) (page_no (rq_page x.2))) l.

Lemma grantable_same s t l : same_tables (mem s) (mem t) g -> grantable s l -> grantable t l.
Proof.
  intros Hst Hl. eapply list.Forall_impl; [exact Hl|]. intros x [H1 H2]. split; [done|].
  apply (same_path_clear (other s)); try done. apply H1.
Qed.

Lemma grantable_rooted R s t l : rooted R g fl t -> same_tables (mem s) (mem t) g -> grantable s l ->
  Forall (fun x => request_ok x.2 /\ path_clear t (page_no (rq_page x.2))) l.
Proof.
  intros (Hc & _) Hst Hl. eapply list.Forall_impl; [exact Hl|]. intros x [H1 H2]. split; [done|].
  apply (same_path_clear (other s)); try done. apply H1.
Qed.

Lemma granted_same l m1 m2 m R : same_tables m1 m2 R -> granted l m2 m R -> granted l m1 m R.
Proof. intros Hst Hg page Hp. rewrite (Hg page Hp). by rewrite (same_ref_walk _ _ _ Hst). Qed.

Lemma issues_run l s : grantable s l ->
  runs_on g fl (issues l) (requested l.*2) (3 * Z.of_nat (length l)) (fun m => granted l.*2 (mem s) m g) s.
Proof.
  intros Hl t Hr Hap Hst. pose proof (grantable_rooted _ s t l Hr Hst Hl) as Hl'.
  split; [by apply requests_follow|]. destruct (Hr) as (Hc & _).
  destruct (requests_spec l t (ap_inv _ _ Hap) Hl') as [(t' & E & Hev & Htk & Hg)|]; [left|by right].
  exists tt, t'. split_and!; [done..|]. rewrite Hc in Hg. by apply (granted_same _ _ (mem t)).
Qed.

Lemma runs_on_ext {A} (f f' : M (machine P) A) T c Q s :
  (forall t, f t = f' t) -> runs_on g fl f' T c Q s -> runs_on g fl f T c Q s.
Proof.
  intros E Hf t Hr Hap Hst. destruct (Hf t Hr Hap Hst) as [H1 H2]. unfold follows in *. rewrite !E. done.
Qed.

(** The closure of [remap_kernel], when the P4 table has no entry 511 yet. *)
Lemma sections_run sections s : Forall section_ok sections -> grantable s (kernel_requests sections) ->
  entry_at (mem s) g 511 = 0 ->
  runs_on g fl (remap_sections (Some sections)) (requested (kernel_requests sections).*2)
    (3 * Z.of_nat (length (kernel_requests sections))) (fun m => granted (kernel_requests sections).*2 (mem s) m g) s.
Proof.
  intros Hs Hl H511. eapply runs_on_ext; [intros t; by apply remap_sections_issues|]. intros t Hr Hap Hst.
  destruct (Hr) as (Hc & Hfl & Hrd). assert (idx 511) as Hi by (unfold idx; lia).
  assert (entry_at (mem t) g 511 = 0) as H511'.
  { rewrite <- H511. apply (Hst []); [apply vpath_nil|done|done]. }
  pose proof (ap_inv _ _ Hap) as Hinv.
  assert (table_read P4 511 t = Ret (0, t)) as Er.
  { rewrite P4_tva, (table_read_spec t [] g) by (done || apply Hinv || (simpl; lia) || by rewrite Hc). by rewrite H511'. }
  change (entry_add_flags 0 GLOBAL) with GLOBAL.
  set (t1 := set_mem (<[cr3 t + 8 * 511 := GLOBAL]> (mem t)) t).
  assert (table_write P4 511 GLOBAL t = Ret (tt, t1)) as Ew.
  { rewrite P4_tva. apply table_write_spec; [apply Hinv|apply vpath_nil|done|done]. }
  assert (evolves (fun _ => False) t t1) as Hev.
  { apply root_flag_evolves; try done. by rewrite Hc, H511'. }
  assert (Forall (fun x => request_ok x.2 /\ path_clear t1 (page_no (rq_page x.2))) (kernel_requests sections)) as Hl1.
  { eapply list.Forall_impl; [by eapply grantable_rooted|]. intros x [H1 H2]. split; [done|].
    apply (path_clear_evolves _ _ _ _ (po_rec _ (ro_page _ H1)) Hev H2). }
  split.
  - apply follows_bind; [by rewrite P4_tva; apply follows_read; [|apply list.Forall_nil|simpl; lia]|].
    intros e t' E Hr'. rewrite Er in E. injection E as <- <-. apply follows_bind.
    { rewrite P4_tva. apply (follows_write _ _ _ _ [] g); try done.
      - simpl. lia.
      - apply Hap.
      - intros ->. apply (ap_table _ _ Hap). exists []. split; [apply vpath_nil|]. by rewrite Hc.
      - by intros [_ ?]. }
    intros [] t' E Hr''. change (entry_add_flags 0 GLOBAL) with GLOBAL in E. rewrite Ew in E. injection E as <-.
    apply requests_follow; [done|by eapply apart_root_evolves|done].
  - rewrite (bind_ret _ _ _ _ _ Er). change (entry_add_flags 0 GLOBAL) with GLOBAL. rewrite (bind_ret _ _ _ _ _ Ew).
    destruct (requests_spec _ t1 (ev_inv _ _ _ Hev) Hl1) as [(t' & E & Hev' & Htk & Hg)|(msg & E & Hsh)].
    + left. exists tt, t'. split_and!; [done| |done|].
      * eapply evolves_trans; [|exact Hev']. by eapply evolves_weaken; [|exact Hev].
      * change (cr3 t1) with (cr3 t) in Hg. intros page Hp. rewrite Hc in Hg. rewrite (Hg page Hp).
        destruct (last_request _ page); [done|]. rewrite <- (same_ref_walk _ _ _ Hst page Hp).
        pose proof (ev_walk _ _ _ Hev page Hp (fun H => H)) as Hw. by rewrite Hc in Hw.
    + right. by exists msg.
Qed.

(** The page [n] of the active address space is a 4 KiB page with the frame [pa n]. *)
Definition backed_by (pa : Z -> Z) s n : Prop :=
  page_ok (page_no n) /\ exists e, small_mapping (mem s) (cr3 s) (page_no n) e /\ e_addr e = pa n /\ pa n < 2 ^ 48.

Lemma collect_frames_spec pa l s : tables_inv s -> Forall (backed_by pa s) l -> collect_frames l s = Ret (pa <$> l, s).
Proof.
  intros Hinv Hl. induction Hl as [|n l [Hp (e & Hm & Ha & _)] _ IH]; [done|]. cbn [collect_frames].
  rewrite mul64_small by (apply (po_range _ Hp)). msimp. rewrite page_address.
  assert (walk_page_table (page_no n) s = Ret (Some (e, Kib4), s)) as Hw.
  { rewrite walk_page_table_ref by apply Hinv. by rewrite Hm. }
  mcall Hw. cbn [fst]. rewrite physical_address_spec.
  destruct (small_mapping_inv _ _ _ _ Hm) as (? & ? & ? & _ & _ & _ & _ & ->). msimp. mcall IH. by rewrite Ha.
Qed.

Lemma backed_request_ok pa s n flags : backed_by pa s n -> flags_ok flags -> request_ok (mkRequest n (pa n) flags).
Proof.
  intros [Hp (e & Hm & <- & Hr)] Hf. pose proof (e_addr_range e) as [H1 H2]. split; cbn [rq_page rq_frame rq_flags]; [done|done|lia|done].
Qed.

Lemma range_incl_shift a b : (fun i => i + a) <$> range_incl 0 (b - a) = range_incl a b.
Proof.
  unfold range_incl, seqZ. rewrite <- list_fmap_compose. replace (b - a - 0 + 1) with (b - a + 1) by lia.
  apply list_fmap_ext. intros i x _. unfold compose. lia.
Qed.

Lemma range_incl_lookup {A} (f : Z -> A) a b n : a <= n <= b -> (f <$> range_incl a b) !! Z.to_nat (n - a) = Some (f n).
Proof.
  intros Hn. rewrite list_lookup_fmap. unfold range_incl. rewrite lookup_seqZ_lt by lia.
  cbn. do 2 f_equal. lia.
Qed.

(** [remap_range] copies the mappings of a range of pages. *)
Lemma remap_range_spec s tp first last pa flags :
  two_spaces g fl s -> tp_ready tp s -> 0 <= cr3 s < 2 ^ 48 -> 0 <= g < 2 ^ 48 -> flags_ok flags ->
  0 <= first <= last -> last < two64 -> Forall (backed_by pa s) (range_incl first last) ->
  (forall n, first <= n <= last -> path_clear (other s) (page_no n)) ->
  let l := range_requests "Out of physical memory" first last pa flags in
  let c := 3 + 3 * Z.of_nat (length l) in
  (exists a s', remap_range (mkInactivePageMap g fl) tp first last flags s = Ret (a, s') /\
     other_step g fl tp c (fun m => granted l.*2 (mem s) m g) s s') \/
  (exists msg, remap_range (mkInactivePageMap g fl) tp first last flags s = Stop (Panic msg) /\ short_of c s).
Proof.
  intros Hts Htp Hr Hg Hfl Hfirst Hlast Hb Hcl l c. unfold remap_range. rewrite sub64_small by lia. msimp.
  rewrite range_incl_shift. mcall (collect_frames_spec pa _ s (ts_active _ _ _ Hts) Hb).
  apply (with_inactive_p4_spec g fl _ (requested l.*2)); try done; [lia|].
  intros s1 Hst Hc1 Hf1. eapply runs_on_ext.
  - intros t. transitivity (issues l t); [|reflexivity]. unfold l, range_requests. rewrite for_each_fmap.
    apply for_each_ext. intros n t' Hn. apply elem_of_range_incl in Hn.
    rewrite list.Forall_forall in Hb. destruct (Hb n) as [Hp _]; [by apply elem_of_range_incl|].
    rewrite mul64_small by (apply (po_range _ Hp)). msimp. rewrite range_incl_lookup by lia. msimp.
    by rewrite page_address.
  - assert (grantable s l) as Hgr.
    { apply list.Forall_forall. intros x (n & -> & Hn)%list_elem_of_fmap. cbn [snd rq_page]. split.
      - rewrite list.Forall_forall in Hb. apply (backed_request_ok _ s); [by apply Hb|done].
      - apply Hcl. by apply elem_of_range_incl. }
    intros t Hrt Hap Hst1. destruct (issues_run l s1 (grantable_same s s1 l Hst Hgr) t Hrt Hap Hst1) as [H1 H2].
    split; [done|]. destruct H2 as [(a & t' & E & Hev & Htk & Hgt)|]; [left|by right]. exists a, t'. split_and!; try done.
    by apply (granted_same _ _ (mem s1)).
Qed.

(** ** A new address space that is filled step by step *)

(** From [s0] to [s], with the P4 table [g] that was free in [s0]: the requests [L] were
    granted in it and nothing else is mapped there. *)
Record filled (tp : TemporaryPage) (L : list request) (c : Z) s0 s : Prop := {
  fd_keeps : tp_keeps (tp_page tp) (fun _ => False) s0 s;
  fd_ready : tp_ready tp s;
  fd_two : two_spaces g fl s;
  fd_clear page : p4_index page <> REC -> path_clear (other s) page;
  fd_new x : is_table (other s) x -> fa_free (pmm s0) x;
  fd_walk page : p4_index page <> REC -> ref_walk (mem s) g page =
    match last_request L page with
    | Some r => Ret (Some (leaf_entry (rq_frame r) (rq_flags r), Kib4))
    | None => Ret None
    end;
  fd_takes : takes c s0 s
}.

Lemma filled_step tp L c s0 s c' l s' :
  filled tp L c s0 s -> other_step g fl tp c' (fun m => granted l (mem s) m g) s s' ->
  filled tp (L ++ l) (c + c') s0 s'.
Proof.
  intros Hf Ho. pose proof (fd_keeps _ _ _ _ _ Hf) as Hk. split; try apply Ho.
  - apply (tp_keeps_chain _ _ (is_table (other s)) _ s); [done|apply Ho|]. intros x Hx. right. by apply (fd_new _ _ _ _ _ Hf).
  - intros page Hp. apply (os_clear _ _ _ _ _ _ _ Ho page Hp). by apply (fd_clear _ _ _ _ _ Hf).
  - intros x [Hx|Hx]%(os_new _ _ _ _ _ _ _ Ho); [by apply (fd_new _ _ _ _ _ Hf)|]. by apply (tk_free _ _ _ _ Hk).
  - intros page Hp. destruct (os_result _ _ _ _ _ _ _ Ho) as (m & Hg & Hst).
    rewrite (same_ref_walk _ _ _ Hst page Hp), (Hg page Hp), last_request_app.
    destruct (last_request l page); [done|]. by apply (fd_walk _ _ _ _ _ Hf).
  - apply (takes_trans _ _ _ s); [apply Hf|apply Ho].
Qed.

(** The tables of a P4 table with nothing but its recursive entry. *)
Section new_root.
Context (s : machine P) (Hg : g mod 4096 = 0) (Hr : 0 <= g < 2 ^ 48).
Context (Hent : forall i, idx i -> entry_at (mem s) g i = if decide (i = REC) then Z.lor g recursive_flags else 0).

Lemma new_root_none i q : vpath (i :: q) -> table_at (mem s) g (i :: q) = None.
Proof.
  intros Hq. pose proof (new_table_space_ok (mem s) g Hg Hr Hent) as Hsp.
  apply root_only_table_at; [|done|done]. intros j Hj Hne. by rewrite Hent, decide_False by done.
Qed.

Lemma new_root_tables x : is_table (other s) x <-> x = g.
Proof.
  split.
  - intros (q & Hq & Hx). cbn [mem cr3 set_cr3] in Hx. destruct q as [|i q]; [by injection Hx|].
    by rewrite new_root_none in Hx.
  - intros ->. apply other_root.
Qed.

Lemma new_root_clear page : p4_index page <> REC -> path_clear (other s) page.
Proof.
  intros Hp. assert (forall i q j, vpath (i :: q) -> clear_entry (other s) (i :: q) j) as Hc.
  { intros i q j Hq e. unfold ent. cbn [mem cr3 set_cr3]. by rewrite new_root_none. }
  split; [|apply Hc, vpath_page_1, Hp|apply Hc, vpath_page_2, Hp]. intros e. unfold ent. cbn [mem cr3 set_cr3 table_at fmap option_fmap option_map].
  rewrite Hent, decide_False by auto with wolffia. by intros [= <-].
Qed.

Lemma new_root_walk page : p4_index page <> REC -> ref_walk (mem s) g page = Ret None.
Proof.
  intros Hp. unfold ref_walk, huge_walk, ent. rewrite !new_root_none by (by auto using vpath_page_1, vpath_page_2, vpath_page_3).
  done.
Qed.

Lemma new_root_two_spaces : tables_inv s -> ~ is_table s g -> ~ fa_free (pmm s) g -> two_spaces g fl s.
Proof.
  intros Hi Hnt Hnf. split; [done|split|].
  - by apply new_table_space_ok.
  - apply Hi.
  - by intros x ->%new_root_tables.
  - by intros x Hx ->%new_root_tables.
Qed.

End new_root.

End runs.

(** The request that counts for a page of a range. *)
Lemma last_request_some l r page : r ∈ l -> same_page (page_no (rq_page r)) page -> is_Some (last_request l page).
Proof.
  intros Hr Hs. induction l as [|x l IH]; [by apply not_elem_of_nil in Hr|]. cbn [last_request].
  destruct (last_request l page) as [y|] eqn:E; [by eexists|]. apply elem_of_cons in Hr as [->|Hr].
  - rewrite decide_True by done. by eexists.
  - destruct (IH Hr). congruence.
Qed.

Lemma last_request_range msg first last pa flags n :
  (forall m, first <= m <= last -> page_ok (page_no m)) -> first <= n <= last ->
  last_request (range_requests msg first last pa flags).*2 (page_no n) = Some (mkRequest n (pa n) flags).
Proof.
  intros Hok Hn.
  assert (mkRequest n (pa n) flags ∈ (range_requests msg first last pa flags).*2) as Hin.
  { apply list_elem_of_fmap. exists (msg, mkRequest n (pa n) flags). split; [done|]. apply list_elem_of_fmap.
    exists n. split; [done|]. by apply elem_of_range_incl. }
  destruct (last_request_some _ _ (page_no n) Hin) as [r Er]; [done|]. rewrite Er.
  apply last_request_in in Er as [(x & -> & Hx)%list_elem_of_fmap Hs].
  apply list_elem_of_fmap in Hx as (m & -> & Hm%elem_of_range_incl). cbn [snd rq_page] in *.
  apply same_page_inj in Hs; [|by apply Hok..]. cbn [number page_no] in Hs. by subst m.
Qed.

Lemma last_request_outside msg first last pa flags n :
  (forall m, first <= m <= last -> page_ok (page_no m)) -> page_ok (page_no n) -> ~ first <= n <= last ->
  last_request (range_requests msg first last pa flags).*2 (page_no n) = None.
Proof.
  intros Hok Hp Hn. destruct (last_request _ _) as [r|] eqn:E; [exfalso|done].
  apply last_request_in in E as [(x & -> & Hx)%list_elem_of_fmap Hs].
  apply list_elem_of_fmap in Hx as (m & -> & Hm%elem_of_range_incl). cbn [snd rq_page] in *.
  apply same_page_inj in Hs; [|by apply Hok|done]. cbn [number page_no] in Hs. lia.
Qed.

Lemma length_range_requests msg first last pa flags : first <= last ->
  Z.of_nat (length (range_requests msg first last pa flags)) = last - first + 1.
Proof. intros H. unfold range_requests, range_incl. rewrite length_fmap, length_seqZ. lia. Qed.

(** A fresh P4 table has no mapping. *)
Lemma new_root_filled tp g fl s s' : new_root tp g s s' -> filled g fl tp [] 4 s s'.
Proof.
  intros Hnr. pose proof (new_root_not_free _ _ _ _ Hnr) as Hnf. destruct Hnr as [Hgf Hg Hr Hl Hnt Hk Htp Ht Hent].
  assert (0 <= g < 2 ^ 48) as Hr' by lia. split; try done.
  - eapply tp_keeps_weaken; [|exact Hk]. intros x ->. by right.
  - apply new_root_two_spaces; try done. apply Hk.
  - intros page. by apply new_root_clear.
  - by intros x ->%(new_root_tables g fl s' Hg Hr' Hent).
  - intros page. by apply new_root_walk.
Qed.

End closures.
End requests.
