(* ===== verification/RemapTheorems.v ===== *)
(** [remap_kernel] ([remap.rs]) as a whole: the kernel runs on new tables that show its
    sections, the bootstrap heap, the heap's tree and the text buffer, and nothing else. *)
From S2P Require Import Prelude Crates Machine FrameAlloc Paging Layout PageMap.
From S2P Require Import AddressSpace PagingLemmas PageMapLemmas MapperLemmas UnmapLemmas Friendly Heap HeapLemmas.
From S2P Require Import ActivePageMap ActivePageMapLemmas ProcessSpace Redirect RemapLemmas RemapKernel.
From S2P Require Import BootstrapHeap FriendlyExample PhysicalAllocator AllocatorTheorems PagingTheorems HeapTheorems.
From S2P Require Import HeapLemmas.

Section remap.
Context `{B : Build} `{X : X86_64Crate} `{F : BitflagsCrate}.
Context {P : Type} `{FA : FrameAllocator P} `{FS : !FrameAllocatorSpec P}.
Context `{T : FriendlyTree HEAP_LEVELS HEAP_BASE_ORDER} `{FC : FriendlyCrate}.
Implicit Types (h : heap_state P tree) (s : machine P).
#[local] Abbreviation hblock := (block_of HEAP_BASE_ORDER).

Context (sections : list ElfSection) (boot_start boot_end tree_start : Z) (pa : Z -> Z).

(** The pages that are copied: up to the page after the last byte. *)
Definition boot_first : Z := boot_start / 4096.
Definition boot_last : Z := page_after boot_end.
Definition tree_first : Z := tree_start / 4096.
Definition tree_last : Z := page_after (tree_start + (2 ^ HEAP_LEVELS - 1)).

(** What [remap_kernel] is called with: sections, bootstrap heap and tree lie in the last
    two GiB, and the old tables map what is to be copied with 4 KiB pages. *)
Record remap_ok s : Prop := {
  ra_sections : Forall section_ok sections;
  ra_boot : KERNEL_MAPPING_BEGIN <= boot_start <= boot_end /\ boot_end <= 2 ^ 64 - 4096 - 1;
  ra_tree : KERNEL_MAPPING_BEGIN <= tree_start <= 2 ^ 64 - 2 ^ 26;
  ra_boot_pages n : boot_first <= n <= boot_last -> backed_by pa s n;
  ra_tree_pages n : tree_first <= n <= tree_last -> backed_by pa s n;
  ra_root : cr3 s < 2 ^ 48
}.

(** Everything that is mapped in the new tables. *)
Definition remap_requests : list (string * request) :=
  kernel_requests sections ++ copy_requests boot_first boot_last pa ++ copy_requests tree_first tree_last pa.

Definition remap_calls (tp : TemporaryPage) : M (machine P) unit :=
  let! frame := allocate_frame 0 in
  let! frame := expect frame "no more frames" in
  let! c := read_cr3 in
  let! new_table := InactivePageMap_new frame c.2 tp in
  do! with_inactive_p4 new_table tp (remap_sections (Some sections)) in
  do! remap_range new_table tp boot_first boot_last copy_flags in
  do! remap_range new_table tp tree_first tree_last copy_flags in
  do! switch new_table in
  modify (set_wp true).

Lemma remap_kernel_steps s h : remap_ok s ->
  remap_kernel (Some sections) boot_start boot_end tree_start h =
    bind TemporaryPage_new (fun tp => do! tables (remap_calls tp) in drop_temporary_page tp) h.
Proof.
  intros [_ Hb Ht _ _ _]. unfold remap_kernel, remap_calls. cbv zeta. unfold KERNEL_MAPPING_BEGIN in *.
  assert (tree_size = 2 ^ HEAP_LEVELS - 1) as Es by (by apply blocks_in_tree_spec).
  change (2 ^ HEAP_LEVELS) with (2 ^ 25) in Es.
  rewrite round_up_divide_page by lia. rewrite add64_small by lia. apply bind_cong. intros tp h1.
  fold boot_first boot_last tree_first copy_flags. unfold bind, tables. cbn [lift expect].
  destruct (allocate_frame 0 (mach h1)) as [[[g|] s2]|]; [|done..]. unfold read_cr3, gets, ret, switch. cbn [expect mach htree snd].
  cbv beta iota delta [ret]. cbn [mach htree].
  destruct (InactivePageMap_new _ _ _ _) as [[nt s3]|]; [|done]. cbn [mach htree].
  destruct (with_inactive_p4 _ _ _ _) as [[u s4]|]; [|done]. cbn [mach htree].
  destruct (remap_range _ _ _ _ _ s4) as [[u' s5]|]; [|done]. cbn [mach htree]. rewrite Es.
  rewrite round_up_divide_page by lia. change (page_after (tree_start + (2 ^ 25 - 1))) with tree_last.
  unfold lift. cbn [mach htree].
  destruct (remap_range _ _ _ _ _ s5) as [[u2 s6]|]; [|done]. cbn [mach htree].
  done.
Qed.

(** The kernel's pages are not the heap's. *)
Lemma kernel_not_heap n i : KERNEL_MAPPING_BEGIN / 4096 <= n < 2 ^ 52 -> heap_index i -> ~ same_page (hpage i) (page_no n).
Proof.
  change (KERNEL_MAPPING_BEGIN / 4096) with 0xffffffff80000. intros Hn Hi Hs.
  apply same_page_inj in Hs; [|by apply hpage_ok|apply kernel_page_ok; unfold KERNEL_PAGE; lia].
  cbn [number hpage page_no] in Hs. change HEAP_PAGE with 0xffffffff40000 in Hs. unfold heap_index in Hi. lia.
Qed.

Lemma backed_keeps D s s' n i : KERNEL_MAPPING_BEGIN / 4096 <= n < 2 ^ 52 -> heap_index i ->
  tp_keeps (hpage i) D s s' -> backed_by pa s n -> backed_by pa s' n.
Proof.
  intros Hn Hi Hk [Hp (e & Hm & He)]. split; [done|]. exists e. split; [|done].
  unfold small_mapping. rewrite (tk_walk _ _ _ _ Hk); [done|apply Hp|by apply kernel_not_heap].
Qed.

Lemma copied_range s n : remap_ok s -> boot_first <= n <= boot_last \/ tree_first <= n <= tree_last ->
  KERNEL_MAPPING_BEGIN / 4096 <= n < 2 ^ 52.
Proof.
  intros [_ Hb Ht _ _ _] Hn. unfold boot_first, boot_last, tree_first, tree_last, page_after, KERNEL_MAPPING_BEGIN in *.
  change (2 ^ HEAP_LEVELS) with (2 ^ 25) in Hn. Z.to_euclidean_division_equations. lia.
Qed.

(** One range of pages copied to the new tables. *)
Lemma copy_step g fl tp i L c first last s0 s :
  filled g fl tp L c s0 s -> 0 <= g < 2 ^ 48 -> 0 <= cr3 s < 2 ^ 48 -> tp_page tp = hpage i -> heap_index i ->
  first <= last -> (forall n, first <= n <= last -> backed_by pa s n /\ KERNEL_MAPPING_BEGIN / 4096 <= n < 2 ^ 52) ->
  let l := copy_requests first last pa in
  (exists s', remap_range (mkInactivePageMap g fl) tp first last copy_flags s = Ret (tt, s') /\
     filled g fl tp (L ++ l.*2) (c + (3 + 3 * Z.of_nat (length l))) s0 s') \/
  (exists msg, remap_range (mkInactivePageMap g fl) tp first last copy_flags s = Stop (Panic msg) /\
     short_of (c + (3 + 3 * Z.of_nat (length l))) s0).
Proof.
  intros Hf Hg Hr Htp Hi Hle Hb l.
  assert (KERNEL_MAPPING_BEGIN / 4096 = 0xffffffff80000) as E by done. pose proof (Hb first ltac:(lia)) as [_ Hfi].
  pose proof (Hb last ltac:(lia)) as [_ Hla].
  destruct (remap_range_spec g fl s tp first last pa copy_flags) as [([] & s' & E' & Ho)|(msg & E' & Hsh)];
    [apply Hf|apply Hf|done|done|by repeat apply flags_ok_or|lia|lia| | |..].
  - apply list.Forall_forall. intros n Hn%elem_of_range_incl. by apply Hb.
  - intros n Hn. apply (fd_clear _ _ _ _ _ _ _ Hf). by apply (Hb n).
  - left. exists s'. split; [done|]. by eapply filled_step.
  - right. exists msg. split; [done|]. eapply short_of_takes; [apply Hf|done].
Qed.

(** The sections and the text buffer in the new tables. *)
Lemma sections_step g fl tp c s0 s :
  filled g fl tp [] c s0 s -> 0 <= g < 2 ^ 48 -> 0 <= cr3 s < 2 ^ 48 -> Forall section_ok sections -> entry_at (mem s) g 511 = 0 ->
  let l := kernel_requests sections in
  (exists s', with_inactive_p4 (mkInactivePageMap g fl) tp (remap_sections (Some sections)) s = Ret (tt, s') /\
     filled g fl tp l.*2 (c + (3 + 3 * Z.of_nat (length l))) s0 s') \/
  (exists msg, with_inactive_p4 (mkInactivePageMap g fl) tp (remap_sections (Some sections)) s = Stop (Panic msg) /\
     short_of (c + (3 + 3 * Z.of_nat (length l))) s0).
Proof.
  intros Hf Hg Hr Hs H511 l.
  destruct (with_inactive_p4_spec g fl (remap_sections (Some sections)) (requested l.*2) (3 * Z.of_nat (length l))
    (fun m => granted l.*2 (mem s) m g) tp s) as [([] & s' & E' & Ho)|(msg & E' & Hsh)];
    [apply Hf|apply Hf|done|done|lia| |..].
  - intros s1 Hst Hc Hfl t Hrt Hap Hst1.
    destruct (sections_run g fl sections s1 Hs) with (t := t) as [H1 H2]; [| |done..|].
    + apply list.Forall_forall. intros x Hx. pose proof (kernel_requests_ok sections Hs) as Hok.
      rewrite list.Forall_forall in Hok. destruct (Hok x Hx) as [Hx1 _]. split; [done|].
      apply (same_path_clear (set_cr3 g fl s)); try done; [apply Hx1|].
      apply (fd_clear _ _ _ _ _ _ _ Hf). apply Hx1.
    + rewrite <- H511. apply (Hst []); [apply vpath_nil|done|unfold idx; lia].
    + split; [done|]. destruct H2 as [(a & t' & E & Hev & Htk & Hgt)|]; [left|by right]. exists a, t'. split_and!; try done.
      by apply (granted_same _ _ (mem s1)).
  - left. exists s'. split; [done|]. by apply (filled_step g fl tp [] c s0 s).
  - right. exists msg. split; [done|]. eapply short_of_takes; [apply Hf|done].
Qed.

Definition remap_cost : Z := 13 + 3 * Z.of_nat (length remap_requests).

Lemma remap_calls_spec tp i s : tables_inv s -> tp_ready tp s -> remap_ok s -> tp_page tp = hpage i -> heap_index i ->
  (exists g s', remap_calls tp s = Ret (tt, set_wp true (set_cr3 g (cr3_flags s) s')) /\
     filled g (cr3_flags s) tp remap_requests.*2 remap_cost s s') \/
  (exists msg, remap_calls tp s = Stop (Panic msg) /\ short_of remap_cost s).
Proof.
  intros Hinv Htp Hok Hpage Hi. unfold remap_calls.
  destruct (new_root_spec s tp (cr3_flags s) Hinv Htp)
    as [(g & s2 & s3 & Ea & Efl & E3 & Hnr)|[(g & s2 & msg & Ea & Efl & E3 & Hsh)|(s2 & Ea & Hsh)]]; rewrite (bind_ret _ _ _ _ _ Ea).
  3:{ right. eexists. split; [by msimp|]. apply (short_of_mono 1); [unfold remap_cost; lia|done]. }
  all: msimp; rewrite (bind_ret _ _ _ _ _ (eq_refl : read_cr3 s2 = Ret ((cr3 s2, cr3_flags s2), s2))); cbn [snd]; rewrite Efl.
  2:{ right. exists msg. rewrite (bind_stop _ _ _ _ E3). split; [done|]. apply (short_of_mono 4); [unfold remap_cost; lia|done]. }
  rewrite (bind_ret _ _ _ _ _ E3). set (fl := cr3_flags s) in *.
  assert (0 <= g < 2 ^ 48) as Hg by (pose proof (nr_range _ _ _ _ Hnr); lia).
  pose proof (new_root_filled tp g fl s s3 Hnr) as Hf3.
  assert (forall L c s', filled g fl tp L c s s' -> 0 <= cr3 s' < 2 ^ 48) as Hroot.
  { intros L c s' Hf. rewrite (tk_cr3 _ _ _ _ (fd_keeps _ _ _ _ _ _ _ Hf)).
    pose proof (rec_range _ _ (so_rec _ _ (ti_space _ Hinv))). pose proof (ra_root _ Hok). lia. }
  assert (forall L c s', filled g fl tp L c s s' ->
    forall n, boot_first <= n <= boot_last \/ tree_first <= n <= tree_last ->
      backed_by pa s' n /\ KERNEL_MAPPING_BEGIN / 4096 <= n < 2 ^ 52) as Hcopy.
  { intros L c s' Hf n Hn. pose proof (copied_range s n Hok Hn) as Hr. split; [|done].
    pose proof (fd_keeps _ _ _ _ _ _ _ Hf) as Hk. rewrite Hpage in Hk.
    apply (backed_keeps _ s s' n i Hr Hi Hk). destruct Hn; [by apply (ra_boot_pages _ Hok)|by apply (ra_tree_pages _ Hok)]. }
  assert (boot_first <= boot_last /\ tree_first <= tree_last) as [Hb Ht].
  { destruct Hok as [_ Hb Ht _ _ _]. unfold boot_first, boot_last, tree_first, tree_last, page_after.
    change (2 ^ HEAP_LEVELS) with (2 ^ 25). Z.to_euclidean_division_equations. lia. }
  assert (remap_cost = 4 + (3 + 3 * Z.of_nat (length (kernel_requests sections))) +
    (3 + 3 * Z.of_nat (length (copy_requests boot_first boot_last pa))) +
    (3 + 3 * Z.of_nat (length (copy_requests tree_first tree_last pa)))) as Ec.
  { unfold remap_cost, remap_requests. rewrite !length_app. lia. }
  destruct (sections_step g fl tp 4 s s3 Hf3 Hg (Hroot _ _ _ Hf3) (ra_sections _ Hok)) as [(s4 & E4 & Hf4)|(msg & E4 & Hsh)].
  { rewrite (nr_entries _ _ _ _ Hnr) by (unfold idx; lia). by rewrite decide_False. }
  2:{ right. exists msg. rewrite (bind_stop _ _ _ _ E4). split; [done|]. eapply short_of_mono; [|exact Hsh]. lia. }
  rewrite (bind_ret _ _ _ _ _ E4).
  destruct (copy_step g fl tp i _ _ boot_first boot_last s s4 Hf4 Hg (Hroot _ _ _ Hf4) Hpage Hi Hb) as [(s5 & E5 & Hf5)|(msg & E5 & Hsh)].
  { intros n Hn. apply (Hcopy _ _ _ Hf4). by left. }
  2:{ right. exists msg. rewrite (bind_stop _ _ _ _ E5). split; [done|]. eapply short_of_mono; [|exact Hsh]. lia. }
  rewrite (bind_ret _ _ _ _ _ E5).
  destruct (copy_step g fl tp i _ _ tree_first tree_last s s5 Hf5 Hg (Hroot _ _ _ Hf5) Hpage Hi Ht) as [(s6 & E6 & Hf6)|(msg & E6 & Hsh)].
  { intros n Hn. apply (Hcopy _ _ _ Hf5). by right. }
  2:{ right. exists msg. rewrite (bind_stop _ _ _ _ E6). split; [done|]. eapply short_of_mono; [|exact Hsh]. lia. }
  left. exists g, s6. rewrite (bind_ret _ _ _ _ _ E6). split; [done|].
  rewrite Ec. unfold remap_requests. by rewrite !fmap_app, app_assoc.
Qed.

(** No page of the heap is asked for. *)
Lemma requests_not_heap s i : remap_ok s -> heap_index i -> last_request remap_requests.*2 (hpage i) = None.
Proof.
  intros Hok Hi. destruct (last_request _ _) as [r|] eqn:E; [exfalso|done].
  apply last_request_in in E as [(x & -> & Hx)%list_elem_of_fmap Hs].
  assert (KERNEL_MAPPING_BEGIN / 4096 <= rq_page x.2 < 2 ^ 52) as Hr.
  { unfold remap_requests in Hx. apply elem_of_app in Hx as [Hx|Hx].
    - pose proof (kernel_requests_ok sections (ra_sections _ Hok)) as Hk. rewrite list.Forall_forall in Hk. by apply Hk.
    - apply (copied_range s); [done|]. apply elem_of_app in Hx as [Hx|Hx];
        apply list_elem_of_fmap in Hx as (n & -> & Hn%elem_of_range_incl); cbn [snd rq_page]; auto. }
  eapply kernel_not_heap; [exact Hr|exact Hi|]. destruct Hs as (? & ? & ? & ?). by split_and!.
Qed.

Lemma remap_ok_keeps D s s' i : heap_index i -> tp_keeps (hpage i) D s s' -> remap_ok s -> remap_ok s'.
Proof.
  intros Hi Hk Hok. assert (forall n, boot_first <= n <= boot_last \/ tree_first <= n <= tree_last -> backed_by pa s n -> backed_by pa s' n) as Hb.
  { intros n Hn. apply (backed_keeps D s s' n i); try done. by apply (copied_range s). }
  destruct (Hok). split; try done; auto. by rewrite (tk_cr3 _ _ _ _ Hk).
Qed.

Lemma set_wp_inv b s : tables_inv s -> tables_inv (set_wp b s).
Proof. intros []. by split. Qed.

(** Only the allocator is another one. *)
Lemma tp_keeps_pmm page D p s : tables_inv s ->
  (forall x, fa_free (pmm s) x -> fa_free p x) -> (forall x k, fa_live p x k -> fa_live (pmm s) x k) ->
  tp_keeps page D (set_pmm p s) s.
Proof. intros Hi Hf Hl. split; try done; [by left|]. intros page' _ []. by split. Qed.

(** The heap of a state in which no block is handed out. *)
Definition nothing_live (t : tree) : Prop := forall f k, ~ tree_live t f k.

Lemma nothing_live_free h t x : heap_inv h t -> nothing_live t -> x mod 64 = 0 -> 0 <= x < 2 ^ 30 -> tree_free t x.
Proof. intros Hinv Hn Hx Hr. destruct (hi_complete _ _ Hinv x Hx Hr) as [|(f & k & Hl & _)]; [done|]. by destruct (Hn f k). Qed.

Lemma nothing_live_page h t : heap_inv h t -> nothing_live t -> page_block t.
Proof.
  intros Hinv Hn. exists 0. split; [done|]. intros x Hx. apply hblock_iff in Hx as [H1 H2]; [|lia].
  change (2 ^ (7 + 6)) with 8192 in H1. apply (nothing_live_free h); try done; [by rewrite Z.sub_0_r in H2|lia].
Qed.

(** What [remap_kernel] leaves: the new P4 table [g], a frame that was free, is active. *)
Record remapped h h' (t' : tree) (g : Z) : Prop := {
  rm_root : cr3 (mach h') = g;
  rm_fresh : fa_free (pmm (mach h)) g;
  rm_flags : cr3_flags (mach h') = cr3_flags (mach h);
  rm_wp : cr0_wp (mach h') = true;
  rm_walk page : p4_index page <> REC -> ref_walk (mem (mach h')) g page =
    match last_request remap_requests.*2 page with
    | Some r => Ret (Some (leaf_entry (rq_frame r) (rq_flags r), Kib4))
    | None => Ret None
    end;
  rm_clear page : p4_index page <> REC -> path_clear (mach h') page;
  rm_heap : heap_inv h' t';
  rm_nothing : nothing_live t';
  rm_live x k : fa_live (pmm (mach h)) x k -> fa_live (pmm (mach h')) x k;
  rm_free x : fa_free (pmm (mach h')) x -> fa_free (pmm (mach h)) x;
  rm_tables x : is_table (mach h') x -> fa_free (pmm (mach h)) x;
  rm_mem a : ~ is_table (mach h) (frame_of a) -> ~ fa_free (pmm (mach h)) (frame_of a) ->
    word (mem (mach h')) a = word (mem (mach h)) a;
  rm_takes : takes (7 + remap_cost) (mach h) (mach h')
}.

(** The temporary page is given back on the new tables. *)
Section new_space.
Context h (t : tree) h1 (t1 : tree) (f e g fl c : Z) (s6 : machine P).
Context (Hinv : heap_inv h t) (Hnone : nothing_live t) (Hok : remap_ok (mach h)).
Context (Htt : tp_taken h t h1 t1 f e).
#[local] Abbreviation page := (hpage (f / 4096)).
#[local] Abbreviation tp := (mkTemporaryPage page (e_addr e)).
Context (Hf : filled g fl tp remap_requests.*2 c (mach h1) s6).
#[local] Abbreviation s7 := (set_wp true (set_cr3 g fl s6)).

Lemma temporary_index : heap_index (f / 4096).
Proof. apply block_7_index, (tt_block _ _ _ _ _ _ Htt). Qed.

Lemma new_tables_were_free x : is_table s7 x -> fa_free (pmm (mach h1)) x.
Proof. apply (fd_new _ _ _ _ _ _ _ Hf). Qed.

Lemma filled_free x : fa_free (pmm s7) x -> fa_free (pmm (mach h)) x.
Proof.
  intros Hx. apply (tk_free _ _ _ _ (tt_keeps _ _ _ _ _ _ Htt (fun _ => False))).
  by apply (tk_free _ _ _ _ (fd_keeps _ _ _ _ _ _ _ Hf)).
Qed.

Lemma filled_heap_walk i : heap_index i -> ref_walk (mem s6) g (hpage i) = Ret None.
Proof.
  intros Hi. rewrite (fd_walk _ _ _ _ _ _ _ Hf) by apply hpage_ok, Hi. by rewrite (requests_not_heap (mach h)).
Qed.

Lemma remap_space_inv : tables_inv s7.
Proof. apply set_wp_inv, (ts_other _ _ _ (fd_two _ _ _ _ _ _ _ Hf)). Qed.

Lemma new_space_ready : tp_ready tp s7.
Proof.
  pose proof temporary_index as Hi. split; cbn [tp_page]; [by apply hpage_ok| |by apply filled_heap_walk].
  destruct (fd_clear _ _ _ _ _ _ _ Hf page ltac:(apply hpage_ok, Hi)). by split.
Qed.

Lemma new_space_frame : fa_live (pmm s7) (e_addr e) 0 /\ ~ is_table s7 (e_addr e).
Proof.
  pose proof (tt_frame_live _ _ _ _ _ _ Htt) as Hl. split.
  - by apply (tk_live _ _ _ _ (fd_keeps _ _ _ _ _ _ _ Hf)).
  - intros Hx%new_tables_were_free. pose proof (tk_inv _ _ _ _ (tt_keeps _ _ _ _ _ _ Htt (fun _ => False))) as Hi1.
    apply (fa_live_not_free _ _ 0 (e_addr e) (ti_fa _ Hi1) Hl); [by apply in_block_0|done].
Qed.

Lemma new_space_keeps D : tp_keeps page D (set_pmm (pmm (mach h)) s7) s7.
Proof.
  apply tp_keeps_pmm; [apply remap_space_inv|apply filled_free|]. intros x k Hx.
  apply (tk_live _ _ _ _ (fd_keeps _ _ _ _ _ _ _ Hf)).
  by apply (tk_live _ _ _ _ (tt_keeps _ _ _ _ _ _ Htt (fun _ => False))).
Qed.

(** The words of frames in use are still those of the beginning. *)
Lemma new_space_mem a : ~ is_table (mach h) (frame_of a) -> ~ fa_free (pmm (mach h)) (frame_of a) ->
  word (mem s7) a = word (mem (mach h)) a.
Proof.
  intros H1 H2. rewrite <- (tk_mem _ _ _ _ (tt_keeps _ _ _ _ _ _ Htt (fun _ => False)) a) by auto.
  apply (tk_mem _ _ _ _ (fd_keeps _ _ _ _ _ _ _ Hf)); [auto|..].
  - intros [|]%(tk_new _ _ _ _ (tt_keeps _ _ _ _ _ _ Htt (fun _ => False))); done.
  - by intros ?%(tk_free _ _ _ _ (tt_keeps _ _ _ _ _ _ Htt (fun _ => False))).
Qed.

Lemma remapped_intro s' t' : tree_inv t' ->
  (forall x, tree_free t' x <-> tree_free t1 x \/ hblock f 7 x) ->
  (forall g j, tree_live t' g j <-> tree_live t1 g j /\ ~ (g = f /\ j = 7)) ->
  tp_keeps page (fun _ => False) (set_pmm (pmm (mach h)) s7) s' -> ref_walk (mem s') (cr3 s') page = Ret None ->
  put_back (e_addr e) s7 s' -> fl = cr3_flags (mach h) -> c = remap_cost ->
  remapped h (mkHeapState s' (Some t')) t' g.
Proof.
  intros Hti Hfree Hlive Hk Hn Hpb Hfl Hc. pose proof (tk_cr3 _ _ _ _ Hk) as Hcr. cbn [cr3 set_pmm set_wp set_cr3] in Hcr.
  assert (nothing_live t') as Hnone'.
  { intros x k [Hl Hne]%Hlive. apply (tt_live _ _ _ _ _ _ Htt) in Hl as [Hl|Hl]; [by destruct Hne|]. by destruct (Hnone x k). }
  assert (forall page', p4_index page' <> REC -> ref_walk (mem s') g page' =
    match last_request remap_requests.*2 page' with
    | Some r => Ret (Some (leaf_entry (rq_frame r) (rq_flags r), Kib4))
    | None => Ret None
    end) as Hw.
  { intros page' Hp. rewrite <- (fd_walk _ _ _ _ _ _ _ Hf page' Hp). rewrite <- Hcr at 1.
    destruct (decide (same_page page page')) as [Hs|Hs].
    - rewrite <- !(ref_walk_same_page _ _ _ _ Hs), Hn. symmetry. apply filled_heap_walk, temporary_index.
    - by apply (tk_walk _ _ _ _ Hk). }
  assert (forall x, is_table s7 x -> fa_free (pmm (mach h)) x) as Hnew.
  { intros x Hx%new_tables_were_free. by apply (tk_free _ _ _ _ (tt_keeps _ _ _ _ _ _ Htt (fun _ => False))). }
  assert (forall page', p4_index page' <> REC -> path_clear s' page') as Hcl.
  { intros page' Hp. apply (tk_clear _ _ _ _ Hk page' Hp). destruct (fd_clear _ _ _ _ _ _ _ Hf page' Hp). by split. }
  split; cbn [mach]; try done.
  - apply Hnew. exists []. split; [apply vpath_nil|done].
  - by rewrite (tk_flags _ _ _ _ Hk).
  - by rewrite (tk_wp _ _ _ _ Hk).
  - apply heap_inv_empty; try done; [apply Hk|..].
    + intros i Hi. split; [|apply Hcl, hpage_ok, Hi].
      rewrite Hcr, Hw by apply hpage_ok, Hi. by rewrite (requests_not_heap (mach h)).
    + intros x Hx Hr. apply Hfree. rewrite (tt_free _ _ _ _ _ _ Htt).
      destruct (hblock_dec f 7 x ltac:(lia)); [by right|left]. split; [|done]. by apply (nothing_live_free h).
  - apply (tk_live _ _ _ _ Hk).
  - apply (tk_free _ _ _ _ Hk).
  - intros x [Hx|Hx]%(tk_new _ _ _ _ Hk); [by apply Hnew|done].
  - intros a H1 H2. rewrite <- new_space_mem by done. apply (pb_mem _ _ _ Hpb); [by intros ?%Hnew|by intros ?%filled_free].
  - replace (7 + remap_cost) with (4 + (c + 3)) by lia. apply (takes_trans _ _ _ (mach h1)); [apply Htt|].
    apply (takes_trans _ _ _ s7); [apply Hf|apply Hpb].
Qed.

End new_space.

Lemma remap_kernel_spec h t :
  heap_inv h t -> nothing_live t -> remap_ok (mach h) ->
  (exists g h' t', remap_kernel (Some sections) boot_start boot_end tree_start h = Ret (tt, h') /\ remapped h h' t' g) \/
  (exists msg, remap_kernel (Some sections) boot_start boot_end tree_start h = Stop (Panic msg) /\
     short_of (7 + remap_cost) (mach h)).
Proof.
  intros Hinv Hnone Hok. rewrite (remap_kernel_steps (mach h) h Hok).
  assert (0 <= remap_cost) as Hcost by (unfold remap_cost; lia).
  destruct (TemporaryPage_new_spec h t Hinv (nothing_live_page h t Hinv Hnone)) as [(f & e & h1 & t1 & E1 & Htt)|(msg & E1 & Hsh)].
  2:{ right. exists msg. rewrite (bind_stop _ _ _ _ E1). split; [done|]. by apply (short_of_mono 4); [lia|]. }
  rewrite (bind_ret _ _ _ _ _ E1). pose proof (temporary_index h t h1 t1 f e Htt) as Hidx.
  pose proof (tt_keeps _ _ _ _ _ _ Htt (fun _ => False)) as Hk1.
  destruct (remap_calls_spec (mkTemporaryPage (hpage (f / 4096)) (e_addr e)) (f / 4096) (mach h1) (tk_inv _ _ _ _ Hk1)
    (tt_ready _ _ _ _ _ _ Htt) (remap_ok_keeps _ _ _ _ Hidx Hk1 Hok) eq_refl Hidx) as [(g & s6 & E2 & Hf)|(msg & E2 & Hsh)].
  2:{ right. exists msg. rewrite (bind_stop _ _ _ _ (tables_stop _ _ _ E2)). split; [done|].
      apply (short_of_mono (4 + remap_cost)); [lia|]. apply (short_of_takes _ _ _ (mach h1)); [apply Htt|done]. }
  rewrite (bind_ret _ _ _ _ _ (tables_ret _ h1 _ _ E2)), (tt_tree _ _ _ _ _ _ Htt).
  destruct (new_space_frame h t h1 t1 f e _ _ _ _ Htt Hf) as [Hfl Hfd].
  destruct (drop_temporary_page_anywhere (set_pmm (pmm (mach h)) (set_wp true (set_cr3 g (cr3_flags (mach h1)) s6)))
    (mkHeapState (set_wp true (set_cr3 g (cr3_flags (mach h1)) s6)) (Some t1)) t1 f (e_addr e) (fun _ => False))
    as [(s' & t' & E3 & H1 & H2 & H3 & H4 & H5 & H6)|[E3 Hsh]];
    [done|by eapply tt_inv|apply (tt_live _ _ _ _ _ _ Htt); by left|by eapply tt_block|apply (hp_tables _ (hi_pages _ _ Hinv))|
     by eapply new_space_keeps|by eapply tt_frame_free|done|done|by eapply new_space_ready| |].
  - left. exists g, (mkHeapState s' (Some t')), t'. split; [done|].
    eapply (remapped_intro h t h1 t1 f e g); try done. by rewrite (tk_flags _ _ _ _ Hk1).
  - right. eexists. split; [done|]. replace (7 + remap_cost) with (4 + (remap_cost + 3)) by lia.
    apply (short_of_takes _ _ _ (mach h1)); [apply Htt|]. by apply (short_of_takes _ _ _ s6); [apply Hf|].
Qed.

(** C10: [remap_kernel], called with an initialised heap that has handed out nothing, while
    the old tables map the bootstrap heap, the heap's tree and the page after each with 4 KiB
    pages, either switches to a new P4 table in a frame that was free, in which every page
    outside the recursive window is translated as the last request for it says (the pages of
    the allocated sections and the page after each at their place in the image, with the
    section's flags; the text buffer; the copied ranges at the frames they had) and every
    other page is unmapped, with write protection on, the heap's invariant kept, all frames
    in use still in use with the same contents, and at most seven frames and [remap_cost]
    taken; or it panics, and then fewer frames than that were free. *)
Theorem remap_kernel_correct h t :
  heap_inv h t -> nothing_live t -> remap_ok (mach h) ->
  (exists g h' t', remap_kernel (Some sections) boot_start boot_end tree_start h = Ret (tt, h') /\ remapped h h' t' g) \/
  (exists msg, remap_kernel (Some sections) boot_start boot_end tree_start h = Stop (Panic msg) /\
     short_of (7 + remap_cost) (mach h)).
Proof. apply remap_kernel_spec. Qed.

End remap.

(** * Concrete instances *)

Section examples.
#[local] Existing Instance x86_64_example.
#[local] Existing Instance bit_field_example.
#[local] Existing Instance bitflags_example.
#[local] Existing Instance frames_example.
#[local] Existing Instance debug_build.
#[local] Existing Instance heap_tree_example.
#[local] Existing Instance blocks_example.

(** A machine with a GiB of memory from 1 MiB on, and nothing but its recursive entry in
    the P4 table at [0x1000]. *)
Definition large_usable : list (Z * Z) := [(0x100000, 0x40000000)].

Lemma large_allocator : exists a : PhysicalAllocator, fa_inv a /\
  forall x, fa_free a x <-> usable_frame large_usable x /\ 0 <= x < 8 * 2 ^ 30.
Proof.
  destruct (init_prelim_fresh 64 large_usable 4096) as (ts & _ & Hfr & _).
  assert (ranges_ok large_usable) as Hu by (repeat constructor; simpl; lia).
  destruct (fresh_slots_spec large_usable 8 ts ltac:(lia) Hu Hfr) as (Hi & Hf & _).
  exists (mkPhysicalAllocator (Some ts)). split; [exact Hi|exact Hf].
Qed.

Record large_machine (s : machine PhysicalAllocator) (frames : Z) : Prop := {
  lm_inv : tables_inv s;
  lm_root : cr3 s = 0x1000;
  lm_clear page : p4_index page <> REC -> path_clear s page;
  lm_heap : no_heap_page s;
  lm_enough c : c <= frames -> ~ short_of c s
}.

Lemma large_machine_exists : exists s, large_machine s 200000.
Proof.
  destruct large_allocator as (a & Ha & Hfree). exists (set_pmm a example_machine). split.
  - destruct example_tables as [Hsp _ _]. split; [exact Hsp|exact Ha|].
    intros f (q & Hq & Hf) Hc. apply (example_table q f Hq) in Hf as [_ ->].
    apply Hfree in Hc as [(_ & r & Hr & H1 & _) _]. apply list_elem_of_singleton in Hr as ->. destruct H1. simpl in *. lia.
  - done.
  - intros page Hp. by apply path_clear_pmm, example_clear.
  - intros i Hi. destruct (example_no_heap i Hi) as [H1 H2]. split; [exact H1|by apply path_clear_pmm].
  - intros c Hc. apply (not_short c _ ((fun i => 0x100000 + 4096 * i) <$> range_excl 0 200000)).
    + apply NoDup_fmap_2_strong; [intros x y _ _ ?; lia|]. apply NoDup_seqZ.
    + rewrite length_fmap. unfold range_excl. rewrite length_seqZ. lia.
    + intros x (i & -> & Hi%elem_of_range_excl)%list_elem_of_fmap. cbn [pmm set_pmm]. apply Hfree. split; [|lia].
      split; [Z.to_euclidean_division_equations; lia|].
      exists (0x100000, 0x40000000). split; [by left|]. unfold range_has; simpl. lia.
Qed.

(** The first 10000 pages of the kernel's part mapped to the start of memory, as [boot.asm]
    maps the first GiB. *)
Definition FIRST : Z := 0xffffffff80000.

Lemma booted_machine_exists : exists s, large_machine s 150000 /\
  forall n, FIRST <= n < FIRST + 10000 -> backed_by image_frame s n.
Proof.
  destruct large_machine_exists as [s0 [Hinv Hroot Hclear Hheap Henough]].
  set (l := range_requests "Out of physical memory" FIRST (FIRST + 9999) image_frame copy_flags).
  assert (flags_ok copy_flags) as Hfl by (by repeat apply flags_ok_or).
  assert (forall n, FIRST <= n <= FIRST + 9999 -> KERNEL_MAPPING_BEGIN / 4096 <= n < 2 ^ 52) as Hrange.
  { intros n Hn. change (KERNEL_MAPPING_BEGIN / 4096) with FIRST. unfold FIRST in *. lia. }
  assert (Forall (fun x => request_ok x.2 /\ path_clear s0 (page_no (rq_page x.2))) l) as Hl.
  { apply list.Forall_forall. intros x (n & -> & Hn%elem_of_range_incl)%list_elem_of_fmap. cbn [snd rq_page].
    pose proof (image_request_ok n copy_flags (Hrange n Hn) Hfl) as Hok. split; [done|]. apply Hclear, (ro_page _ Hok). }
  assert (3 * Z.of_nat (length l) = 30000) as El.
  { unfold l, range_requests, range_incl. rewrite length_fmap, length_seqZ. lia. }
  destruct (requests_spec l s0 Hinv Hl) as [(s & _ & Hev & Htk & Hg)|(msg & _ & Hsh)]; rewrite El in *.
  2:{ by destruct (Henough 30000 ltac:(lia)). }
  assert (forall n, FIRST <= n <= FIRST + 9999 -> page_ok (page_no n)) as Hok.
  { intros n Hn. apply (ro_page _ (image_request_ok n copy_flags (Hrange n Hn) Hfl)). }
  assert (forall page, p4_index page <> REC -> path_clear s page) as Hclear'.
  { intros page Hp. apply (path_clear_evolves _ _ _ _ Hp Hev). by apply Hclear. }
  exists s. split; [split|].
  - apply Hev.
  - by rewrite (ev_cr3 _ _ _ Hev).
  - done.
  - intros i Hi. split; [|apply Hclear', hpage_ok, Hi]. rewrite (ev_cr3 _ _ _ Hev), (ev_walk _ _ _ Hev); [apply Hheap, Hi|apply hpage_ok, Hi|].
    intros [r [(x & -> & Hx)%list_elem_of_fmap Hs]%last_request_in].
    apply list_elem_of_fmap in Hx as (n & -> & Hn%elem_of_range_incl). cbn [snd rq_page] in Hs.
    apply (kernel_not_heap n i (Hrange n Hn) Hi). destruct Hs as (? & ? & ? & ?). by split_and!.
  - intros c Hc Hsh. apply (Henough (30000 + c)); [lia|]. by apply (short_of_takes _ _ _ s).
  - intros n Hn. split; [apply Hok; lia|]. exists (leaf_entry (image_frame n) copy_flags).
    destruct (image_request_ok n copy_flags (Hrange n ltac:(lia)) Hfl) as [_ H1 H2 _]. cbn [rq_frame] in H1, H2.
    destruct (leaf_entry_facts (image_frame n) copy_flags H1 H2 Hfl) as (Ha & _). split_and!; [|done|lia].
    unfold small_mapping. rewrite (ev_cr3 _ _ _ Hev), Hg by (apply Hok; lia).
    unfold l. rewrite (last_request_range _ _ _ _ _ n Hok) by lia. reflexivity.
Qed.

(** The sections of a small kernel image. *)
Definition example_sections : list ElfSection :=
  [mkElfSection 0xffffffff80100000 0xffffffff80110000 true false true;
   mkElfSection 0xffffffff80110000 0xffffffff80118000 true true false;
   mkElfSection 0 0x500 false false false].

Lemma example_remap_ok s : large_machine s 150000 -> (forall n, FIRST <= n < FIRST + 10000 -> backed_by image_frame s n) ->
  remap_ok example_sections 0xffffffff80200000 0xffffffff80208000 0xffffffff80300000 image_frame s.
Proof.
  intros Hl Hb. split.
  - repeat (apply list.Forall_cons; split); [| | |by apply list.Forall_nil]; intros Ha; unfold KERNEL_MAPPING_BEGIN; simpl in *; done || lia.
  - unfold KERNEL_MAPPING_BEGIN. lia.
  - unfold KERNEL_MAPPING_BEGIN. lia.
  - intros n Hn. apply Hb. unfold FIRST. unfold boot_first, boot_last, page_after in Hn. Z.to_euclidean_division_equations. lia.
  - intros n Hn. apply Hb. unfold FIRST. unfold tree_first, tree_last, page_after in Hn.
    change (2 ^ HEAP_LEVELS) with (2 ^ 25) in Hn. Z.to_euclidean_division_equations. lia.
  - rewrite (lm_root _ _ Hl). lia.
Qed.

#[local] Abbreviation example_request :=
  (remap_requests example_sections 0xffffffff80200000 0xffffffff80208000 0xffffffff80300000 image_frame).

Lemma example_ranges : boot_first 0xffffffff80200000 = 0xffffffff80200 /\ boot_last 0xffffffff80208000 = 0xffffffff80208 /\
  tree_first 0xffffffff80300000 = 0xffffffff80300 /\ tree_last 0xffffffff80300000 = 0xffffffff82300.
Proof. split_and!; reflexivity. Qed.

Lemma example_text_page :
  last_request example_request.*2 (page_no 0xffffffff80101) = Some (mkRequest 0xffffffff80101 0x101000 GLOBAL).
Proof.
  unfold remap_requests, copy_requests. destruct example_ranges as (-> & -> & -> & ->).
  rewrite !fmap_app, !last_request_app.
  assert (forall n, 0xffffffff80000 <= n <= 0xffffffff90000 -> page_ok (page_no n)) as Hok.
  { intros n Hn. apply kernel_page_ok. unfold KERNEL_PAGE. lia. }
  rewrite !last_request_outside; try (intros m Hm; apply Hok; lia); try (apply Hok; lia); try lia. vm_compute. reflexivity.
Qed.

Lemma example_remap_cost : remap_cost example_sections 0xffffffff80200000 0xffffffff80208000 0xffffffff80300000 image_frame = 24700.
Proof.
  unfold remap_cost, remap_requests, copy_requests. destruct example_ranges as (-> & -> & -> & ->).
  rewrite !length_app, !Nat2Z.inj_add, !length_range_requests by lia. vm_compute. reflexivity.
Qed.

Lemma remap_kernel_correct_witness :
  exists h h', remap_kernel (Some example_sections) 0xffffffff80200000 0xffffffff80208000 0xffffffff80300000 h = Ret (tt, h') /\
    cr3 (mach h) = 0x1000 /\ cr3 (mach h') <> 0x1000 /\ cr0_wp (mach h') = true /\
    ref_walk (mem (mach h')) (cr3 (mach h')) (page_no 0xffffffff80101) =
      Ret (Some (leaf_entry 0x101000 GLOBAL, Kib4)).
Proof.
  destruct booted_machine_exists as (s & Hl & Hb). pose proof (example_remap_ok s Hl Hb) as Hok.
  pose proof (heap_inv_fresh s (lm_inv _ _ Hl) (lm_heap _ _ Hl)) as Hinv.
  set (t := tree_new [(0, Z.shiftl 1 (30 + 1))]) in Hinv. set (h := mkHeapState s (Some t)) in Hinv.
  destruct (remap_kernel_correct example_sections 0xffffffff80200000 0xffffffff80208000 0xffffffff80300000 image_frame h t Hinv
    (fun f k => tree_new_live _ f k) Hok) as [(g & h' & t' & E & Hr)|(msg & _ & Hsh)].
  - exists h, h'. split; [exact E|]. split; [apply (lm_root _ _ Hl)|]. split; [|split; [apply Hr|]].
    + rewrite (rm_root _ _ _ _ _ _ _ _ _ Hr). intros Hg. pose proof (rm_fresh _ _ _ _ _ _ _ _ _ Hr) as Hf. rewrite Hg in Hf.
      apply (ti_free _ (lm_inv _ _ Hl) 0x1000); [|exact Hf]. exists []. split; [apply vpath_nil|].
      rewrite (lm_root _ _ Hl). reflexivity.
    + rewrite (rm_root _ _ _ _ _ _ _ _ _ Hr), (rm_walk _ _ _ _ _ _ _ _ _ Hr) by (vm_compute; discriminate).
      rewrite example_text_page. reflexivity.
  - exfalso. eapply (lm_enough _ _ Hl); [|exact Hsh]. rewrite example_remap_cost. lia.
Defined.

End examples.
