(* ===== verification/KernelSpaceTheorems.v ===== *)
(** The end of [init_memory] ([memory.rs]): [remap_kernel], the guard page of the boot
    stack and the interrupt stacks, one after the other. *)
From S2P Require Import Prelude Crates Machine FrameAlloc Paging Layout PageMap.
From S2P Require Import AddressSpace PagingLemmas PageMapLemmas MapperLemmas UnmapLemmas Friendly Heap.
From S2P Require Import ActivePageMap ActivePageMapLemmas MemoryInit MemoryTheorems.
From S2P Require Import ProcessSpace Redirect RemapLemmas RemapKernel RemapTheorems.
From S2P Require Import BootstrapHeap FriendlyExample PhysicalAllocator AllocatorTheorems PagingTheorems HeapTheorems.
From S2P Require Import HeapLemmas.

Section kernel_space.
Context `{B : Build} `{X : X86_64Crate} `{F : BitflagsCrate}.
Context {P : Type} `{FA : FrameAllocator P} `{FS : !FrameAllocatorSpec P}.
Context `{T : FriendlyTree HEAP_LEVELS HEAP_BASE_ORDER} `{FC : FriendlyCrate}.
Implicit Types (h : heap_state P tree) (s : machine P).

Lemma setup_guard_page_spec s n e : tables_inv s -> page_ok (page_no n) -> small_mapping (mem s) (cr3 s) (page_no n) e ->
  exists s', setup_guard_page (n * 4096) s = Ret (tt, s') /\ unmapped NoFree (page_no n) e s s'.
Proof.
  intros Hinv Hp Hm. unfold setup_guard_page. rewrite page_address.
  assert (walk_page_table (page_no n) s = Ret (Some (e, Kib4), s)) as Hw.
  { rewrite walk_page_table_ref by apply Hinv. by rewrite Hm. }
  mcall Hw.
  destruct (unmap_spec s (page_no n) NoFree Invalidate e Hinv Hp Hm) as (s' & E & Hum & _); [done|]. by exists s'.
Qed.

(** What the heap needs of a change of the tables: its pages, its frames. *)
Lemma heap_inv_elsewhere h t s' : heap_inv h t -> tables_inv s' ->
  (forall i, heap_index i -> path_clear s' (hpage i)) ->
  (forall i, heap_index i -> ref_walk (mem s') (cr3 s') (hpage i) = ref_walk (mem (mach h)) (cr3 (mach h)) (hpage i)) ->
  (forall x k, fa_live (pmm (mach h)) x k -> fa_live (pmm s') x k) ->
  (forall x, is_table s' x -> is_table (mach h) x \/ fa_free (pmm (mach h)) x) ->
  heap_inv (mkHeapState s' (Some t)) t.
Proof.
  intros Hinv Hi Hc Hw Hl Ht. apply (heap_inv_transfer h t); try done; [apply Hinv|].
  intros i e Hidx He. apply Hl. by apply (hp_frame _ (hi_pages _ _ Hinv) i e Hidx He).
Qed.

Section enter.
Context (sections : list ElfSection) (boot_start boot_end tree_start guard : Z) (pa : Z -> Z).
#[local] Abbreviation requests := (remap_requests sections boot_start boot_end tree_start pa).*2.
#[local] Abbreviation cost := (remap_cost sections boot_start boot_end tree_start pa).
#[local] Abbreviation tree_end := (tree_start + (2 ^ HEAP_LEVELS - 1)).
(** The first page of the interrupt stacks: the page after the heap's tree. *)
#[local] Abbreviation stacks := (tree_last tree_start).

(** What a page of the new address space is mapped to, by the requests. *)
Definition asked (page : Page) : res (option (Z * PageSize)) :=
  match last_request requests page with
  | Some r => Ret (Some (leaf_entry (rq_frame r) (rq_flags r), Kib4))
  | None => Ret None
  end.

(** The guard page is a page of the kernel that is asked for and lies below the stacks. *)
Record guard_ok : Prop := {
  gk_page : KERNEL_MAPPING_BEGIN / 4096 <= guard < 2 ^ 52;
  gk_asked : is_Some (last_request requests (page_no guard));
  gk_below : guard < stacks;
  gk_room : stacks + 32 < 2 ^ 52
}.

(** The final address space. *)
Record kernel_space h h' (t' : tree) (tss : TssStacks) : Prop := {
  ks_fresh : fa_free (pmm (mach h)) (cr3 (mach h'));
  ks_wp : cr0_wp (mach h') = true;
  ks_heap : heap_inv h' t';
  ks_nothing : nothing_live t';
  ks_guard : ref_walk (mem (mach h')) (cr3 (mach h')) (page_no guard) = Ret None;
  ks_walk page : p4_index page <> REC -> ~ same_page (page_no guard) page -> ~ ist_pages stacks page ->
    ref_walk (mem (mach h')) (cr3 (mach h')) page = asked page;
  ks_ist : interrupt_stack_table tss = (fun i => (stacks + 4 * (i + 1)) * 4096) <$> range_excl 0 7;
  ks_rsp0 : privilege_stack_0 tss = (stacks + 4 * 8) * 4096;
  ks_stacks i j : 0 <= i < 8 -> 1 <= j <= 3 -> exists f, fa_free (pmm (mach h)) f /\
    small_mapping (mem (mach h')) (cr3 (mach h')) (page_no (stacks + 4 * i + j)) (leaf_entry f MemoryInit.data_flags);
  ks_mem a : ~ is_table (mach h) (frame_of a) -> ~ fa_free (pmm (mach h)) (frame_of a) ->
    word (mem (mach h')) a = word (mem (mach h)) a;
  ks_free x : fa_free (pmm (mach h')) x -> fa_free (pmm (mach h)) x;
  ks_tables x : is_table (mach h') x -> fa_free (pmm (mach h)) x;
  ks_clear page : p4_index page <> REC -> path_clear (mach h') page;
  ks_takes : takes (7 + cost + 4 * 24) (mach h) (mach h')
}.

(** The tables after the guard page was taken out and the stacks were put in. *)
Lemma kernel_space_intro h t h1 t1 g e s2 s3 tss :
  heap_inv h t -> guard_ok -> remap_ok sections boot_start boot_end tree_start pa (mach h) ->
  remapped sections boot_start boot_end tree_start pa h h1 t1 g ->
  unmapped NoFree (page_no guard) e (mach h1) s2 -> evolves (ist_pages stacks) s2 s3 -> takes (4 * 24) s2 s3 ->
  interrupt_stack_table tss = (fun i => (stacks + 4 * (i + 1)) * 4096) <$> range_excl 0 7 ->
  privilege_stack_0 tss = (stacks + 4 * (7 + 1)) * 4096 ->
  (forall i j, 0 <= i < 8 -> 1 <= j <= 3 -> exists f, backed s2 s3 MemoryInit.data_flags Zero (stacks + 4 * i + j) f) ->
  kernel_space h (mkHeapState s3 (Some t1)) t1 tss.
Proof.
  intros Hinv [Hg1 Hg2 Hg3 Hg4] Hok Hrm Hum Hev Htk Hist Hrsp Hbk.
  assert (cr3 s3 = g) as Hc by (by rewrite (ev_cr3 _ _ _ Hev), (um_cr3 _ _ _ _ _ Hum), (rm_root _ _ _ _ _ _ _ _ _ Hrm)).
  assert (KERNEL_MAPPING_BEGIN / 4096 <= stacks) as Hs1 by lia.
  assert (forall i, heap_index i -> ~ ist_pages stacks (hpage i)) as Hnst.
  { intros i Hi (n & Hn & _ & Hs). apply (kernel_not_heap n i); [lia|done|]. destruct Hs as (? & ? & ? & ?). by split_and!. }
  assert (forall x, is_table s3 x -> is_table (mach h1) x \/ fa_free (pmm (mach h1)) x) as Hnew.
  { intros x [Hx|Hx]%(ev_new _ _ _ Hev); [left; by apply (um_tables _ _ _ _ _ Hum)|].
    apply (um_free _ _ _ _ _ Hum) in Hx as [Hx|[? _]]; [by right|done]. }
  assert (forall x, fa_free (pmm s2) x -> fa_free (pmm (mach h)) x) as Hfree.
  { intros x [Hx|[? _]]%(um_free _ _ _ _ _ Hum); [|done]. by apply (rm_free _ _ _ _ _ _ _ _ _ Hrm). }
  assert (page_ok (page_no guard)) as Hgp.
  { apply kernel_page_ok. unfold KERNEL_PAGE. change (KERNEL_MAPPING_BEGIN / 4096) with 0xffffffff80000 in Hg1. lia. }
  assert (forall page, p4_index page <> REC -> ~ same_page (page_no guard) page -> ~ ist_pages stacks page ->
    ref_walk (mem s3) (cr3 s3) page = ref_walk (mem (mach h1)) (cr3 (mach h1)) page) as Hw.
  { intros page Hp H1 H2. rewrite (ev_cr3 _ _ _ Hev), (ev_walk _ _ _ Hev) by done. by apply (um_others _ _ _ _ _ Hum). }
  split; cbn [mach]; try done.
  - rewrite Hc. apply (rm_fresh _ _ _ _ _ _ _ _ _ Hrm).
  - by rewrite (ev_wp _ _ _ Hev), (um_wp _ _ _ _ _ Hum), (rm_wp _ _ _ _ _ _ _ _ _ Hrm).
  - apply (heap_inv_elsewhere h1); [by eapply rm_heap|apply Hev| | | |done].
    + intros i Hi. apply (path_clear_evolves _ _ _ _ (po_rec _ (hpage_ok i Hi)) Hev).
      apply (um_clear _ _ _ _ _ Hum); [apply hpage_ok, Hi|]. apply (rm_clear _ _ _ _ _ _ _ _ _ Hrm), hpage_ok, Hi.
    + intros i Hi. apply Hw; [apply hpage_ok, Hi| |by apply Hnst]. intros Hs.
      apply (kernel_not_heap guard i Hg1 Hi). destruct Hs as (? & ? & ? & ?). by split_and!.
    + intros x k Hx. apply (ev_live _ _ _ Hev), (um_live _ _ _ _ _ Hum). split; [done|]. by intros [? _].
  - by eapply rm_nothing.
  - rewrite (ev_cr3 _ _ _ Hev), (ev_walk _ _ _ Hev); [apply Hum|apply Hgp|].
    intros (n & Hn & _ & Hs). apply same_page_inj in Hs; [|apply kernel_page_ok; unfold KERNEL_PAGE|done].
    + cbn [number page_no] in Hs. lia.
    + change (KERNEL_MAPPING_BEGIN / 4096) with 0xffffffff80000 in Hs1. lia.
  - intros page Hp H1 H2. rewrite Hw by done. rewrite (rm_root _ _ _ _ _ _ _ _ _ Hrm). by apply (rm_walk _ _ _ _ _ _ _ _ _ Hrm).
  - intros i j Hi Hj. destruct (Hbk i j Hi Hj) as [f Hf]. exists f. split; [apply Hfree|]; apply Hf.
  - intros a H1 H2. assert (~ fa_free (pmm s2) (frame_of a)) as H3 by (by intros ?%Hfree).
    assert (~ is_table (mach h1) (frame_of a)) as H4 by (by intros ?%(rm_tables _ _ _ _ _ _ _ _ _ Hrm)).
    rewrite (ev_mem _ _ _ Hev a); [|by intros ?%(um_tables _ _ _ _ _ Hum)|done].
    rewrite (um_mem _ _ _ _ _ Hum) by done. by apply (rm_mem _ _ _ _ _ _ _ _ _ Hrm).
  - intros x Hx%(ev_free _ _ _ Hev). by apply Hfree.
  - intros x [Hx|Hx]%Hnew; [by apply (rm_tables _ _ _ _ _ _ _ _ _ Hrm)|by apply (rm_free _ _ _ _ _ _ _ _ _ Hrm)].
  - intros page Hp. apply (path_clear_evolves _ _ _ _ Hp Hev), (um_clear _ _ _ _ _ Hum); [done|].
    by apply (rm_clear _ _ _ _ _ _ _ _ _ Hrm).
  - apply (takes_trans _ _ _ (mach h1)); [apply Hrm|]. apply (takes_trans 0 _ _ s2); [|done].
    apply takes_none; [done|]. intros x Hx. apply (um_free _ _ _ _ _ Hum). by left.
Qed.

Lemma enter_kernel_space_spec h t :
  heap_inv h t -> nothing_live t -> guard_ok -> remap_ok sections boot_start boot_end tree_start pa (mach h) ->
  let run := enter_kernel_space (Some sections) boot_start boot_end tree_start tree_end (guard * 4096) None in
  (exists h' t' tss, run h = Ret (tss, h') /\ kernel_space h h' t' tss) \/
  (exists msg, run h = Stop (Panic msg) /\ short_of (7 + cost + 4 * 24) (mach h)).
Proof.
  intros Hinv Hnone Hg Hok run. unfold run, enter_kernel_space.
  destruct (remap_kernel_spec sections boot_start boot_end tree_start pa h t Hinv Hnone Hok)
    as [(g & h1 & t1 & E1 & Hrm)|(msg & E1 & Hsh)].
  2:{ right. exists msg. rewrite (bind_stop _ _ _ _ E1). split; [done|]. eapply short_of_mono; [|exact Hsh]. lia. }
  rewrite (bind_ret _ _ _ _ _ E1). destruct (Hg) as [Hg1 [r Hg2] Hg3 Hg4].
  change (KERNEL_MAPPING_BEGIN / 4096) with 0xffffffff80000 in Hg1.
  assert (forall n, guard <= n < 2 ^ 52 -> page_ok (page_no n)) as Hpo by (intros n Hn; apply kernel_page_ok; unfold KERNEL_PAGE; lia).
  pose proof (hp_tables _ (hi_pages _ _ (rm_heap _ _ _ _ _ _ _ _ _ Hrm))) as Hti.
  assert (small_mapping (mem (mach h1)) (cr3 (mach h1)) (page_no guard) (leaf_entry (rq_frame r) (rq_flags r))) as Hm.
  { unfold small_mapping. rewrite (rm_root _ _ _ _ _ _ _ _ _ Hrm), (rm_walk _ _ _ _ _ _ _ _ _ Hrm) by (apply Hpo; lia). by rewrite Hg2. }
  destruct (setup_guard_page_spec (mach h1) guard _ Hti (Hpo guard ltac:(lia)) Hm) as (s2 & E2 & Hum).
  rewrite (bind_ret _ _ _ _ _ (tables_ret _ h1 _ _ E2)).
  pose proof (ra_tree _ _ _ _ _ _ Hok) as Ht. unfold KERNEL_MAPPING_BEGIN in Ht.
  rewrite round_up_divide_page by (change (2 ^ HEAP_LEVELS) with (2 ^ 25); lia). msimp. fold (tree_last tree_start).
  rewrite mul64_small by lia. msimp. rewrite page_address.
  assert (takes 0 (mach h1) s2) as Htk2 by (apply takes_none; [done|]; intros x Hx; apply (um_free _ _ _ _ _ Hum); by left).
  assert (forall c, short_of c s2 -> short_of (7 + cost + c) (mach h)) as Hsh2.
  { intros c Hc. apply (short_of_takes _ _ _ (mach h1)); [apply Hrm|]. by apply (short_of_takes 0 c _ s2). }
  destruct (setup_ist_spec s2 stacks) as [(tss & s3 & E3 & Hev & Htk & Hist & Hrsp & Hbk)|[E3 Hsh]];
    [apply Hum|unfold KERNEL_PAGE; lia|lia| | |].
  - intros n Hn. assert (p4_index (page_no n) <> REC) as Hr by (apply Hpo; lia).
    by apply (um_clear _ _ _ _ _ Hum), (rm_clear _ _ _ _ _ _ _ _ _ Hrm).
  - left. exists (mkHeapState s3 (Some t1)), t1, tss. split.
    + rewrite (tables_ret _ (mkHeapState s2 (htree h1)) _ _ E3). cbn [htree].
      by rewrite (hi_tree _ _ (rm_heap _ _ _ _ _ _ _ _ _ Hrm)).
    + by eapply kernel_space_intro.
  - right. eexists. rewrite (tables_stop _ (mkHeapState s2 (htree h1)) _ E3). split; [done|]. by apply Hsh2.
Qed.

(** C40: The first interrupt stack has no guard page. [setup_ist] leaves the page below it
    unmapped only if it was, but that page is the page after the heap's tree, which
    [remap_range] maps along with the tree: it is writable, at the frame the boot tables
    gave it. *)
Theorem first_interrupt_stack_unguarded h t tss h' :
  heap_inv h t -> nothing_live t -> guard_ok -> remap_ok sections boot_start boot_end tree_start pa (mach h) ->
  enter_kernel_space (Some sections) boot_start boot_end tree_start tree_end (guard * 4096) None h = Ret (tss, h') ->
  head (interrupt_stack_table tss) = Some ((stacks + 4) * 4096) /\
  small_mapping (mem (mach h')) (cr3 (mach h')) (page_no stacks) (leaf_entry (pa stacks) copy_flags) /\
  e_writable (leaf_entry (pa stacks) copy_flags) = true.
Proof.
  intros Hinv Hnone Hg Hok E. destruct (enter_kernel_space_spec h t Hinv Hnone Hg Hok) as [(h2 & t' & tss2 & E' & Hks)|(msg & E' & _)];
    rewrite E in E'; [injection E' as <- <-|done]. destruct Hg as [Hg1 _ Hg3 Hg4].
  change (KERNEL_MAPPING_BEGIN / 4096) with 0xffffffff80000 in Hg1.
  assert (forall n, guard <= n < 2 ^ 52 -> page_ok (page_no n)) as Hpo by (intros n Hn; apply kernel_page_ok; unfold KERNEL_PAGE; lia).
  assert (tree_first tree_start <= stacks) as Hle.
  { unfold tree_first, tree_last, page_after. change (2 ^ HEAP_LEVELS) with (2 ^ 25). Z.to_euclidean_division_equations. lia. }
  destruct (ra_tree_pages _ _ _ _ _ _ Hok stacks ltac:(lia)) as [Hsp (e & _ & He & Hlt)].
  assert (flags_ok copy_flags) as Hfl by (by repeat apply flags_ok_or).
  split_and!.
  - by rewrite (ks_ist _ _ _ _ Hks).
  - unfold small_mapping. rewrite (ks_walk _ _ _ _ Hks); [|apply Hsp|..].
    + unfold asked, remap_requests, copy_requests. rewrite !fmap_app, !last_request_app.
      rewrite last_request_range; [done| |lia]. intros m Hm. by apply (ra_tree_pages _ _ _ _ _ _ Hok m).
    + intros Hs. apply same_page_inj in Hs; [|apply Hpo; lia|done]. cbn [number page_no] in Hs. lia.
    + intros (n & Hn & Hmod & Hs). apply same_page_inj in Hs; [|apply Hpo; lia|done]. cbn [number page_no] in Hs.
      apply Hmod. by replace (n - stacks) with 0 by lia.
  - pose proof (e_addr_range e) as [Ha1 Ha2]. rewrite He in *.
    destruct (leaf_entry_facts (pa stacks) copy_flags Ha1 ltac:(lia) Hfl) as (_ & _ & ->).
    unfold copy_flags, e_writable. by rewrite !flags_or_spec.
Qed.

End enter.

End kernel_space.

(** * Concrete instances *)

Section examples.
#[local] Existing Instance x86_64_example.
#[local] Existing Instance bit_field_example.
#[local] Existing Instance bitflags_example.
#[local] Existing Instance frames_example.
#[local] Existing Instance debug_build.
#[local] Existing Instance heap_tree_example.
#[local] Existing Instance blocks_example.

#[local] Abbreviation example_run :=
  (enter_kernel_space (Some example_sections) 0xffffffff80200000 0xffffffff80208000 0xffffffff80300000
     (0xffffffff80300000 + (2 ^ HEAP_LEVELS - 1)) (0xffffffff80112 * 4096) None).

(** The guard page is a page of the second section. *)
Lemma example_guard : guard_ok example_sections 0xffffffff80200000 0xffffffff80208000 0xffffffff80300000 0xffffffff80112 image_frame.
Proof.
  split.
  - change (KERNEL_MAPPING_BEGIN / 4096) with 0xffffffff80000. lia.
  - unfold remap_requests. rewrite fmap_app, last_request_app. destruct (last_request (_ ++ _).*2 _) as [r|]; [by eexists|].
    vm_compute. by eexists.
  - by destruct example_ranges as (_ & _ & _ & ->).
  - by destruct example_ranges as (_ & _ & _ & ->).
Qed.

Lemma first_interrupt_stack_unguarded_witness :
  exists h h' tss, example_run h = Ret (tss, h') /\
    small_mapping (mem (mach h')) (cr3 (mach h')) (page_no 0xffffffff82300) (leaf_entry 0x2300000 copy_flags).
Proof.
  destruct booted_machine_exists as (s & Hl & Hb). pose proof (example_remap_ok s Hl Hb) as Hok.
  pose proof (heap_inv_fresh s (lm_inv _ _ Hl) (lm_heap _ _ Hl)) as Hinv.
  set (t := tree_new [(0, Z.shiftl 1 (30 + 1))]) in Hinv. set (h := mkHeapState s (Some t)) in Hinv.
  destruct (enter_kernel_space_spec example_sections 0xffffffff80200000 0xffffffff80208000 0xffffffff80300000 0xffffffff80112
    image_frame h t Hinv (fun f k => tree_new_live _ f k) example_guard Hok) as [(h' & t' & tss & E & _)|(msg & _ & Hsh)].
  - exists h, h', tss. split; [exact E|].
    destruct (first_interrupt_stack_unguarded example_sections 0xffffffff80200000 0xffffffff80208000 0xffffffff80300000 0xffffffff80112
      image_frame h t tss h' Hinv (fun f k => tree_new_live _ f k) example_guard Hok E) as (_ & Hm & _).
    destruct example_ranges as (_ & _ & _ & Et). rewrite Et in Hm. exact Hm.
  - exfalso. eapply (lm_enough _ _ Hl); [|exact Hsh]. rewrite example_remap_cost. lia.
Defined.

End examples.
