(* ===== verification/BootLemmas.v ===== *)
(** Mapping while the frame allocator does not exist yet: [setup_bootstrap_heap]
    ([memory.rs]) maps pages whose tables are all there already, so that no table has to be
    allocated. What it does to the tables is stated for any allocator [a] that may come
    later and offers none of them. *)
From S2P Require Import Prelude Crates Machine FrameAlloc Paging Layout PageMap.
From S2P Require Import AddressSpace PagingLemmas PageMapLemmas MapperLemmas BootstrapHeap.
From S2P Require Import Friendly PhysicalAllocator Heap ActivePageMap MemoryInit MemoryTheorems.
From S2P Require Import Redirect RemapLemmas RemapKernel.

Section present.
Context `{B : Build} `{X : X86_64Crate} `{F : BitflagsCrate}.
Context {P : Type} `{FA : FrameAllocator P} `{FS : !FrameAllocatorSpec P}.
Implicit Types (s : machine P) (a : P).

(** The path to the P1 table of a page. *)
Definition p1_path (page : Page) : list Z := [p4_index page; p3_index page; p2_index page].

Lemma next_table_present s l p i g : space_ok (mem s) (cr3 s) -> vpath (p ++ [i]) ->
  table_at (mem s) (cr3 s) (p ++ [i]) = Some g ->
  next_table_create l (tva p) i s = Ret (Some (Ok (tva (p ++ [i]))), s).
Proof.
  intros Hsp Hp Hg. rewrite table_at_snoc in Hg. destruct (table_at (mem s) (cr3 s) p) as [f|] eqn:Hf; [|done].
  assert (Hidx := proj1 Hp). apply Forall_app in Hidx as [Hidx _].
  pose proof (next_table_addr_spec s p f i (so_rec _ _ Hsp) Hidx (vpath_len _ _ Hp) Hf (vpath_idx _ _ Hp)) as Hn.
  change (next_frame (mem s) f i = Some g) in Hg. rewrite Hg in Hn. cbn [fmap option_fmap option_map] in Hn.
  unfold next_table_create, next_page_table, next_page_table_mut.
  rewrite (bind_ret _ _ _ _ _ Hn). cbv beta iota. by rewrite (bind_ret _ _ _ _ _ Hn).
Qed.

Lemma table_above s p i g : table_at (mem s) (cr3 s) (p ++ [i]) = Some g -> exists f, table_at (mem s) (cr3 s) p = Some f.
Proof. rewrite table_at_snoc. destruct (table_at _ _ p) as [f|]; [by exists f|done]. Qed.

Lemma map_to_present s page pa fl g : space_ok (mem s) (cr3 s) -> page_ok page ->
  table_at (mem s) (cr3 s) (p1_path page) = Some g -> pa mod 4096 = 0 -> 0 <= pa < 2 ^ 48 ->
  map_to page pa fl NoInvalidate s = Ret (Ok tt, set_mem (<[g + 8 * p1_index page := leaf_entry pa fl]> (mem s)) s).
Proof.
  intros Hsp [Hsz Hr _ _] Hg Hpa Hpr.
  destruct (table_above s [p4_index page; p3_index page] (p2_index page) g Hg) as [g2 H2].
  destruct (table_above s [p4_index page] (p3_index page) g2 H2) as [g1 H1].
  unfold map_to. rewrite P4_tva.
  mcall (next_table_present s Level4 [] _ g1 Hsp (vpath_page_1 page Hr) H1). cbn [app].
  mcall (next_table_present s Level3 [_] _ g2 Hsp (vpath_page_2 page Hr) H2). cbn [app].
  rewrite Hsz. rewrite bool_decide_true by eauto. msimp. rewrite bool_decide_true by done.
  mcall (next_table_present s Level2 [_; _] _ g Hsp (vpath_page_3 page Hr) Hg). cbn [app].
  unfold table_set. rewrite entry_set_ok by done. msimp.
  mcall (table_write_spec s _ g (p1_index page) (leaf_entry pa fl) Hsp (vpath_page_3 page Hr) Hg (p1_index_range page)).
  by rewrite decide_False.
Qed.

(** A change of the tables that leaves the allocator alone, seen with the allocator [a]. *)
Record drawn a (D : Page -> Prop) s s' : Prop := {
  dr_pmm : pmm s' = pmm s;
  dr_evolves : evolves D (set_pmm a s) (set_pmm a s')
}.

Lemma drawn_trans a D s1 s2 s3 : drawn a D s1 s2 -> drawn a D s2 s3 -> drawn a D s1 s3.
Proof. intros [H1 H2] [H3 H4]. split; [congruence|]. by eapply evolves_trans. Qed.

Lemma drawn_weaken a (D D' : Page -> Prop) s s' : (forall p, D p -> D' p) -> drawn a D s s' -> drawn a D' s s'.
Proof. intros HD [H1 H2]. split; [done|]. by eapply evolves_weaken. Qed.

Lemma drawn_path a D s s' page : p4_index page <> REC -> drawn a D s s' ->
  is_Some (table_at (mem s) (cr3 s) (p1_path page)) -> is_Some (table_at (mem s') (cr3 s') (p1_path page)).
Proof.
  intros Hr [_ Hev] [g Hg]. exists g. pose proof (ev_cr3 _ _ _ Hev) as Hc. cbn [cr3 set_pmm] in Hc. rewrite Hc.
  exact (ev_tables _ _ _ Hev (p1_path page) g (vpath_page_3 page Hr) Hg).
Qed.

Lemma map_to_drawn a s page pa fl : tables_inv (set_pmm a s) -> page_ok page ->
  is_Some (table_at (mem s) (cr3 s) (p1_path page)) -> pa mod 4096 = 0 -> 0 <= pa < 2 ^ 48 -> flags_ok fl ->
  exists s', map_to page pa fl NoInvalidate s = Ret (Ok tt, s') /\ drawn a (same_page page) s s' /\
    small_mapping (mem s') (cr3 s') page (leaf_entry pa fl).
Proof.
  intros Hinv Hp [g Hg] Hpa Hpr Hfl. eexists. split; [apply map_to_present; try done; apply Hinv|].
  split; [split; [done|]|].
  - by apply (leaf_evolves (set_pmm a s) page g); [|apply Hp|].
  - apply (ref_walk_leaf_same (mem s) (cr3 s) page g); [apply Hinv|apply Hp|done|].
    unfold leaf_entry. rewrite new_entry_present by done. unfold e_present. by rewrite flags_or_spec, Z.lor_spec, orb_true_r.
Qed.

(** Page numbers with the frame numbers they are mapped to. *)
Definition map_number (fl : Z) : Z * Z -> M (machine P) (result unit OutOfMemory) := fun '(frame_no, page_no) =>
  let! phys_address := lift (mul64 frame_no 4096) in
  let! virtual_address := lift (mul64 page_no 4096) in
  let! pa := lift (PhysAddr_new phys_address) in
  map_to (containing_address virtual_address) pa fl NoInvalidate.

Definition number_ok s (x : Z * Z) : Prop :=
  page_ok (page_no x.2) /\ 0 <= x.1 < 2 ^ 36 /\ is_Some (table_at (mem s) (cr3 s) (p1_path (page_no x.2))).

Lemma map_number_drawn a s fl x : tables_inv (set_pmm a s) -> flags_ok fl -> number_ok s x ->
  exists s', map_number fl x s = Ret (Ok tt, s') /\ drawn a (same_page (page_no x.2)) s s' /\
    small_mapping (mem s') (cr3 s') (page_no x.2) (leaf_entry (x.1 * 4096) fl).
Proof.
  destruct x as [f n]. intros Hinv Hfl (Hp & Hf & Ht). cbn [fst snd] in *. unfold map_number.
  rewrite mul64_small by lia. msimp. rewrite mul64_small by apply (po_range _ Hp). msimp.
  rewrite PhysAddr_new_ok by lia. msimp. rewrite page_address.
  apply map_to_drawn; try done; [apply Z_mod_mult|lia].
Qed.

Lemma map_numbers_drawn a fl l s : tables_inv (set_pmm a s) -> flags_ok fl -> Forall (number_ok s) l -> NoDup l.*2 ->
  exists s', try_each l (map_number fl) s = Ret (Ok tt, s') /\ drawn a (in_list l.*2) s s' /\
    Forall (fun x => small_mapping (mem s') (cr3 s') (page_no x.2) (leaf_entry (x.1 * 4096) fl)) l.
Proof.
  intros Hinv Hfl Hl Hnd. revert s Hinv Hl. induction l as [|x l IH]; intros s Hinv Hl.
  { exists s. split; [done|]. split; [split; [done|by apply evolves_refl]|constructor]. }
  apply list.Forall_cons in Hl as [Hx Hl]. rewrite fmap_cons in Hnd. apply list.NoDup_cons in Hnd as [Hnx Hnd].
  destruct (map_number_drawn a s fl x Hinv Hfl Hx) as (s1 & E1 & Hd1 & Hm1).
  assert (Forall (number_ok s1) l) as Hl1.
  { apply list.Forall_forall. intros y Hy. rewrite list.Forall_forall in Hl. destruct (Hl y Hy) as (H1 & H2 & H3).
    split_and!; [done|apply H2..|].
    by apply (drawn_path a (same_page (page_no x.2)) s); [apply H1|..]. }
  destruct (IH Hnd s1 (ev_inv _ _ _ (dr_evolves _ _ _ _ Hd1)) Hl1) as (s' & E & Hd & Hm).
  exists s'. cbn [try_each]. rewrite (bind_ret _ _ _ _ _ E1). split; [done|]. split.
  - eapply drawn_trans; (eapply drawn_weaken; [|done]).
    + intros p Hp. exists x.2. split; [by left|done].
    + intros p (n & Hn & Hp). exists n. split; [by right|done].
  - constructor; [|done]. unfold small_mapping. destruct Hd as [_ Hev].
    pose proof (ev_cr3 _ _ _ Hev) as Hc. cbn [cr3 set_pmm] in Hc. rewrite Hc.
    rewrite <- Hm1. apply (ev_walk _ _ _ Hev); [apply Hx|]. intros (n & Hn & Hs).
    apply same_page_inj in Hs; [|rewrite list.Forall_forall in Hl|apply Hx].
    + cbn [number page_no] in Hs. by subst.
    + apply list_elem_of_fmap in Hn as (y & -> & Hy). by apply (Hl y).
Qed.

(** The pages of a [PageRangeMapping], each with its frame: the frames are one more than
    the pages, and the last one is not used. *)
Lemma zip_frames f first last : first <= last + 1 ->
  zip (range_incl f (f + Z.of_nat (length (range_incl first last)))) (range_incl first last) =
    (fun n => (f + (n - first), n)) <$> range_incl first last.
Proof.
  intros Hle. unfold range_incl. rewrite length_seqZ. apply list_eq. intros i.
  rewrite lookup_zip_with, list_lookup_fmap.
  destruct (seqZ first (last - first + 1) !! i) as [n|] eqn:E; cbn [fmap option_fmap option_map].
  - apply lookup_seqZ in E as [-> Hi]. rewrite lookup_seqZ_lt by lia. cbn. do 2 f_equal. lia.
  - by destruct (seqZ f _ !! i).
Qed.

Lemma map_page_range_drawn a s fl p0 f0 k : tables_inv (set_pmm a s) -> flags_ok fl -> 0 <= k ->
  0 <= f0 -> f0 + k < 2 ^ 36 ->
  (forall n, p0 <= n <= p0 + k -> page_ok (page_no n) /\ is_Some (table_at (mem s) (cr3 s) (p1_path (page_no n)))) ->
  exists s', map_page_range (mkPageRangeMapping (p0, p0 + k) f0) NoInvalidate fl s = Ret (Ok tt, s') /\
    drawn a (in_pages p0 (p0 + k + 1)) s s' /\
    (forall n, p0 <= n <= p0 + k -> small_mapping (mem s') (cr3 s') (page_no n) (leaf_entry ((f0 + (n - p0)) * 4096) fl)).
Proof.
  intros Hinv Hfl Hk Hf0 Hf1 Hp. unfold map_page_range. cbn [pages start_frame fst snd].
  rewrite add64_small by (unfold range_incl; rewrite length_seqZ; lia). msimp. rewrite zip_frames by lia.
  set (l := (fun n => (f0 + (n - p0), n)) <$> range_incl p0 (p0 + k)).
  destruct (map_numbers_drawn a fl l s Hinv Hfl) as (s' & E & Hd & Hm).
  - apply list.Forall_forall. intros x (n & -> & Hn%elem_of_range_incl)%list_elem_of_fmap.
    destruct (Hp n Hn). split_and!; cbn [fst snd]; try done; lia.
  - unfold l. rewrite <- list_fmap_compose. apply NoDup_fmap_2_strong; [by intros ?? _ _ ?|]. apply NoDup_seqZ.
  - exists s'. split; [exact E|]. split.
    + eapply drawn_weaken; [|done]. intros p (n & (x & -> & Hx)%list_elem_of_fmap & Hs).
      apply list_elem_of_fmap in Hx as (m & -> & Hm'%elem_of_range_incl). exists m. split; [lia|done].
    + intros n Hn. rewrite list.Forall_forall in Hm. apply (Hm (f0 + (n - p0), n)), list_elem_of_fmap.
      exists n. split; [done|]. by apply elem_of_range_incl.
Qed.

(** The eight trees of the first gibibytes take 1024 pages. *)
Definition BOOT_BYTES : Z := (2 ^ 19 - 1) * 8.

Lemma setup_bootstrap_heap_spec a s vs ps : tables_inv (set_pmm a s) -> 0 <= ps < 2 ^ 40 ->
  KERNEL_MAPPING_BEGIN <= vs < 2 ^ 64 - 2 ^ 26 ->
  let p0 := vs / 4096 + 1 in let f0 := ps / 4096 + 1 in
  (forall n, p0 <= n < p0 + 1024 -> is_Some (table_at (mem s) (cr3 s) (p1_path (page_no n)))) ->
  exists s', setup_bootstrap_heap (2 ^ 19 - 1) vs ps None s =
      Ret ((f0 * 4096, f0 * 4096 + BOOT_BYTES), (p0 * 4096, p0 * 4096 + BOOT_BYTES), Some (new_unchecked (p0 * 4096)), s') /\
    drawn a (in_pages p0 (p0 + 1024)) s s' /\
    (forall n, p0 <= n < p0 + 1024 -> small_mapping (mem s') (cr3 s') (page_no n) (leaf_entry ((f0 + (n - p0)) * 4096) data_flags)).
Proof.
  intros Hinv Hps Hvs p0 f0 Ht. unfold KERNEL_MAPPING_BEGIN in Hvs.
  assert (0xffffffff80000 < p0 < 2 ^ 52 - 2 ^ 13) as Hp0 by (unfold p0; Z.to_euclidean_division_equations; lia).
  assert (0 < f0 <= 2 ^ 28) as Hf0 by (unfold f0; Z.to_euclidean_division_equations; lia).
  assert (forall n, p0 <= n <= p0 + 1023 -> page_ok (page_no n)) as Hpo by (intros n Hn; apply kernel_page_ok; unfold KERNEL_PAGE; lia).
  destruct (map_page_range_drawn a s data_flags p0 f0 1023 Hinv (proj1 data_flags_ok)) as (s' & E & Hd & Hm); [lia..| |].
  { intros n Hn. split; [by apply Hpo|apply Ht; lia]. }
  exists s'. split; [|split; [by replace (p0 + 1024) with (p0 + 1023 + 1) by lia|intros n Hn; apply Hm; lia]].
  unfold setup_bootstrap_heap, containing_address, page_add. cbn [number size].
  change (bytes Kib4) with 4096. rewrite add64_small by (fold p0; lia). cbn [rbind]. msimp. fold p0 f0. fold (page_no p0).
  unfold PageRangeMapping_new, start_address. cbn [size page_no number]. rewrite bool_decide_true by done. cbn [negb].
  change (bytes Kib4) with 4096. rewrite mul64_small by lia. cbn [rbind]. rewrite Z.div_mul by done.
  change (space_taken (2 ^ 19 - 1) / 4096) with 1023. rewrite add64_small by lia. cbn [rbind]. msimp.
  rewrite (bind_ret _ _ _ _ _ E). msimp. rewrite mul64_small by lia. msimp.
  change (space_taken (2 ^ 19 - 1)) with BOOT_BYTES. assert (BOOT_BYTES = 4194296) as Eb by done.
  rewrite add64_small by lia. msimp. rewrite add64_small by lia. by msimp.
Qed.

End present.
