(* ===== verification/BootTables.v ===== *)
(** The page tables that [setup_paging] and [setup_higher_half] of
    [kernel/src/asm/boot.asm] leave: the first GiB at address 0 in 2 MiB pages and at
    [KERNEL_MAPPING_BEGIN] in 4 KiB pages, and the recursive entry. *)
From S2P Require Import Prelude Crates Machine FrameAlloc Paging Layout PageMap.
From S2P Require Import AddressSpace PagingLemmas PageMapLemmas MapperLemmas Heap HeapLemmas RemapKernel.

Section tables.
(** The physical address of [p4_table]. *)
Context (base : Z).

(** The tables lie one after the other: [p4_table], [p3_table], [p2_table],
    [p3_table_higher], [p2_table_higher], and the 512 [p1_tables_higher]. *)
Definition boot_table (k : Z) : Z := base + 4096 * k.

Definition boot_word (k i : Z) : Z :=
  if k =? 0 then
    if i =? 0 then Z.lor (boot_table 1) 0x3
    else if i =? 510 then Z.lor (boot_table 0) 0x3
    else if i =? 511 then Z.lor (boot_table 3) 0x3
    else 0
  else if k =? 1 then if i =? 0 then Z.lor (boot_table 2) 0x3 else 0
  else if k =? 2 then Z.lor (0x200000 * i) 0x83
  else if k =? 3 then if i =? 510 then Z.lor (boot_table 4) 0x3 else 0
  else if k =? 4 then Z.lor (boot_table (5 + i)) 0x3
  else Z.lor (0x1000 * (512 * (k - 5) + i)) 0x3.

(** Memory that holds the tables. *)
Definition holds_tables (m : gmap Z Z) : Prop :=
  forall k i, 0 <= k < 517 -> idx i -> entry_at m (boot_table k) i = boot_word k i.

Context (Hbase : base mod 4096 = 0) (Hrange : 0 <= base < 2 ^ 47).

Lemma boot_table_range k : 0 <= k < 517 -> boot_table k mod 4096 = 0 /\ 0 <= boot_table k < 2 ^ 48.
Proof. intros Hk. unfold boot_table. Z.to_euclidean_division_equations. lia. Qed.

Lemma boot_link_entry x : x mod 4096 = 0 -> 0 <= x < 2 ^ 48 ->
  e_present (Z.lor x 0x3) = true /\ e_huge (Z.lor x 0x3) = false /\
  e_writable (Z.lor x 0x3) = true /\ e_addr (Z.lor x 0x3) = x.
Proof.
  intros Hx Hr. assert (flags_ok 0x3) as Hf by done.
  rewrite new_entry_present, new_entry_huge, new_entry_writable, new_entry_addr by done. done.
Qed.

(** Which table an entry leads to. *)
Definition boot_child (k i : Z) : option Z :=
  if k =? 0 then if i =? 0 then Some 1 else if i =? 510 then Some 0 else if i =? 511 then Some 3 else None
  else if k =? 1 then if i =? 0 then Some 2 else None
  else if k =? 2 then None
  else if k =? 3 then if i =? 510 then Some 4 else None
  else Some (5 + i).

Context (m : gmap Z Z) (Hm : holds_tables m).

Lemma boot_child_range k i c : 0 <= k <= 4 -> idx i -> boot_child k i = Some c -> 0 <= c < 517.
Proof. unfold boot_child, idx. intros Hk Hi. repeat case_match; intros; simplify_eq; lia. Qed.

Lemma boot_entry k i : 0 <= k <= 4 -> idx i ->
  match boot_child k i with
  | Some c => boot_word k i = Z.lor (boot_table c) 0x3
  | None => boot_word k i = 0 \/ (k = 2 /\ boot_word k i = Z.lor (0x200000 * i) 0x83)
  end.
Proof.
  unfold boot_child, boot_word, idx. intros Hk Hi.
  repeat case_match; simplify_eq; first [lia|done|by left|by right; split; [lia|]].
Qed.

Lemma huge_entry i : idx i -> e_present (Z.lor (0x200000 * i) 0x83) = true /\
  e_huge (Z.lor (0x200000 * i) 0x83) = true.
Proof. intros Hi. unfold e_present, e_huge. rewrite !Z.lor_spec. split; apply orb_true_r. Qed.

Lemma boot_next k i : 0 <= k <= 4 -> idx i -> next_frame m (boot_table k) i = boot_table <$> boot_child k i.
Proof.
  intros Hk Hi. pose proof (boot_entry k i Hk Hi) as H. unfold next_frame. rewrite Hm by (done || lia).
  destruct (boot_child k i) as [c|] eqn:E; cbn [fmap option_fmap option_map].
  - destruct (boot_table_range c (boot_child_range k i c Hk Hi E)) as [H1 H2].
    rewrite H. destruct (boot_link_entry _ H1 H2) as (-> & -> & _ & ->). done.
  - destruct H as [->|[_ ->]]; [done|]. destruct (huge_entry i Hi) as [-> ->]. done.
Qed.

(** The tables by path. *)
Definition boot_path (q : list Z) : option Z :=
  match q with
  | [] => Some 0
  | [a] => if a =? 0 then Some 1 else if a =? 511 then Some 3 else None
  | [a; b] => if (a =? 0) && (b =? 0) then Some 2 else if (a =? 511) && (b =? 510) then Some 4 else None
  | [a; b; c] => if (a =? 511) && (b =? 510) then Some (5 + c) else None
  | _ => None
  end.

Lemma boot_table_at q : vpath q -> table_at m base q = boot_table <$> boot_path q.
Proof.
  assert (base = boot_table 0) as E0 by (unfold boot_table; lia). rewrite E0.
  intros (Hq & Hl & Hr). destruct q as [|a [|b [|c [|]]]]; cbn [length head] in *; [done|..|lia]; decompose_Forall;
    assert (a <> 510) by (unfold REC in Hr; congruence); cbn [table_at boot_path].
  - rewrite boot_next by (done || lia). unfold boot_child. cbn [Z.eqb]. by repeat case_match; simplify_eq; try lia.
  - rewrite boot_next by (done || lia). unfold boot_child at 1. cbn [Z.eqb].
    destruct (a =? 0) eqn:Ea; [|destruct (a =? 510) eqn:Ea'; [lia|destruct (a =? 511) eqn:Ea2; [|done]]];
      cbn [fmap option_fmap option_map mbind option_bind]; rewrite boot_next by (done || lia);
      unfold boot_child; cbn [Z.eqb Pos.eqb]; cbn [andb].
    + destruct (b =? 0); [done|]. replace (a =? 511) with false by lia. done.
    + by destruct (b =? 510).
  - rewrite boot_next by (done || lia). unfold boot_child at 1. cbn [Z.eqb].
    destruct (a =? 0) eqn:Ea; [|destruct (a =? 510) eqn:Ea'; [lia|destruct (a =? 511) eqn:Ea2; [|done]]];
      cbn [fmap option_fmap option_map mbind option_bind]; rewrite boot_next by (done || lia);
      unfold boot_child at 1; cbn [Z.eqb Pos.eqb]; cbn [andb].
    + replace (a =? 511) with false by lia. destruct (b =? 0); [|done].
      cbn [fmap option_fmap option_map mbind option_bind]. by rewrite boot_next by (done || lia).
    + destruct (b =? 510); [|done]. cbn [fmap option_fmap option_map mbind option_bind]. by rewrite boot_next by (done || lia).
Qed.

Lemma boot_path_range q k : vpath q -> boot_path q = Some k -> 0 <= k < 517 /\ ((length q <= 2)%nat -> k <= 4).
Proof.
  intros (Hq & Hl & _). destruct q as [|a [|b [|c [|]]]]; cbn [boot_path length]; [..|done]; decompose_Forall; unfold idx in *;
    repeat case_match; intros; simplify_eq; split; intros; lia.
Qed.

Lemma boot_path_inj p q k : vpath p -> vpath q -> boot_path p = Some k -> boot_path q = Some k -> p = q.
Proof.
  intros (Hp & _ & _) (Hq & _ & _).
  destruct p as [|a [|b [|c [|]]]], q as [|a' [|b' [|c' [|]]]]; cbn [boot_path]; try done; decompose_Forall; unfold idx in *;
    repeat case_match; intros; simplify_eq; try lia; repeat (f_equal; [lia|]); repeat f_equal; lia.
Qed.

Lemma boot_space_ok : space_ok m base.
Proof.
  assert (base = boot_table 0) as E0 by (unfold boot_table; lia). split.
  - assert (idx REC) as Hi by done. assert (entry_at m base REC = Z.lor base 0x3) as E.
    { rewrite E0 at 1. rewrite Hm by (done || lia). unfold boot_word. cbn [Z.eqb Pos.eqb REC]. by rewrite <- E0. }
    destruct (boot_link_entry base Hbase ltac:(lia)) as (H1 & H2 & H3 & H4). by split; rewrite E.
  - intros p f i g Hp Hf Hg. assert (vpath p) as Hp' by eauto with wolffia. assert (idx i) as Hi by (by eapply vpath_idx).
    rewrite boot_table_at in Hf by done. destruct (boot_path p) as [k|] eqn:E; [|done]. injection Hf as <-.
    destruct (boot_path_range p k Hp' E) as [Hk Hk4]. apply vpath_len in Hp. specialize (Hk4 Hp).
    rewrite boot_next in Hg by (done || lia). pose proof (boot_entry k i ltac:(lia) Hi) as Hw.
    destruct (boot_child k i) as [c|] eqn:Ec; [|done]. rewrite Hm by done. rewrite Hw.
    destruct (boot_table_range c (boot_child_range k i c ltac:(lia) Hi Ec)) as [H1 H2]. by apply boot_link_entry.
  - intros p q f Hp Hq Hf Hf'. rewrite boot_table_at in Hf, Hf' by done.
    destruct (boot_path p) as [k|] eqn:Ek; [|done]. destruct (boot_path q) as [k'|] eqn:Ek'; [|done].
    injection Hf as <-. injection Hf' as Hf'. unfold boot_table in Hf'. assert (k' = k) as -> by lia. by eapply boot_path_inj.
Qed.

(** ** What the tables map *)

(** The table indices of the pages of the last GiBs. *)
Lemma high_indices n : 0xffffffff40000 <= n < 0xffffffffc0000 ->
  p4_index (page_no n) = 511 /\ p3_index (page_no n) = (if n <? 0xffffffff80000 then 509 else 510) /\
  p2_index (page_no n) = (n / 512) mod 512 /\ p1_index (page_no n) = n mod 512.
Proof.
  intros Hn. unfold p4_index, p3_index, p2_index, p1_index. cbn [number page_no].
  rewrite !va_index_alt by lia. rewrite (land_ones_mod _ 9) by lia.
  change (2 ^ 27) with 134217728. change (2 ^ 18) with 262144. change (2 ^ 9) with 512.
  destruct (n <? 0xffffffff80000) eqn:E; split_and!; try done; Z.to_euclidean_division_equations; lia.
Qed.

Lemma boot_mapping n : 0xffffffff80000 <= n < 0xffffffffc0000 ->
  small_mapping m base (page_no n) (Z.lor (image_frame n) 0x3) /\ e_addr (Z.lor (image_frame n) 0x3) = image_frame n.
Proof.
  intros Hn. destruct (high_indices n ltac:(lia)) as (E4 & E3 & E2 & E1). replace (n <? 0xffffffff80000) with false in E3 by lia.
  assert (image_frame n mod 4096 = 0 /\ 0 <= image_frame n < 2 ^ 48) as [Ha Hr].
  { unfold image_frame, KERNEL_MAPPING_BEGIN. Z.to_euclidean_division_equations. lia. }
  destruct (boot_link_entry _ Ha Hr) as (H1 & H2 & _ & H3). split; [|done].
  assert (vpath [511; 510; (n / 512) mod 512]) as Hv.
  { split_and!; [repeat constructor; unfold idx; Z.to_euclidean_division_equations; lia|simpl; lia|done]. }
  unfold small_mapping, ref_walk, ent. rewrite E4, E3, E2, E1, boot_table_at by done. cbn [boot_path Z.eqb Pos.eqb andb].
  cbn [fmap option_fmap option_map].
  rewrite Hm by (unfold idx; Z.to_euclidean_division_equations; lia).
  assert (boot_word (5 + (n / 512) mod 512) (n mod 512) = Z.lor (image_frame n) 0x3) as ->; [|by rewrite H1].
  unfold boot_word. replace (5 + (n / 512) mod 512 =? 0) with false by (Z.to_euclidean_division_equations; lia).
  replace (5 + (n / 512) mod 512 =? 1) with false by (Z.to_euclidean_division_equations; lia).
  replace (5 + (n / 512) mod 512 =? 2) with false by (Z.to_euclidean_division_equations; lia).
  replace (5 + (n / 512) mod 512 =? 3) with false by (Z.to_euclidean_division_equations; lia).
  replace (5 + (n / 512) mod 512 =? 4) with false by (Z.to_euclidean_division_equations; lia).
  f_equal. unfold image_frame, KERNEL_MAPPING_BEGIN. Z.to_euclidean_division_equations. lia.
Qed.

Section machine.
Context {P : Type} `{FA : FrameAllocator P} `{FS : !FrameAllocatorSpec P}.
Context (s : machine P) (Es : mem s = m) (Ec : cr3 s = base).

Lemma boot_is_table x : is_table s x -> base <= x <= base + 4096 * 516.
Proof.
  intros (q & Hq & Hx). rewrite Es, Ec, boot_table_at in Hx by done. destruct (boot_path q) as [k|] eqn:E; [|done].
  injection Hx as <-. destruct (boot_path_range q k Hq E) as [Hk _]. unfold boot_table. lia.
Qed.

Lemma boot_no_heap_page : no_heap_page s.
Proof.
  intros i Hi. unfold heap_index in Hi. unfold hpage. change HEAP_PAGE with 0xffffffff40000.
  destruct (high_indices (0xffffffff40000 + i) ltac:(lia)) as (E4 & E3 & _).
  replace (0xffffffff40000 + i <? 0xffffffff80000) with true in E3 by lia.
  assert (forall q, Forall idx q -> (length q <= 1)%nat -> table_at m base (511 :: 509 :: q) = None) as Hnone.
  { intros q Hq Hl. rewrite boot_table_at; [by destruct q as [|c [|]]; cbn [length] in *; [done|done|lia]|].
    split_and!; [repeat constructor; try done|simpl; lia|done]. }
  assert (ent m base [511] 509 = Some 0) as H3.
  { unfold ent. rewrite boot_table_at by (split_and!; [by repeat constructor|simpl; lia|done]).
    cbn [boot_path Z.eqb Pos.eqb fmap option_fmap option_map]. by rewrite Hm. }
  assert (forall j, ent m base [511; 509] j = None) as H2 by (intros j; unfold ent; by rewrite (Hnone [] (list.Forall_nil_2 _) ltac:(simpl; lia))).
  split; [|split].
  - unfold ref_walk, huge_walk. rewrite E4, E3, Es, Ec. unfold ent at 1.
    rewrite (Hnone [p2_index (page_no (0xffffffff40000 + i))] ltac:(auto with wolffia) ltac:(simpl; lia)).
    cbn [fmap option_fmap option_map]. rewrite H3.
    change (e_present 0 && e_huge 0) with false. cbv iota. by rewrite H2.
  - unfold clear_entry. rewrite E4, Es, Ec. intros e. unfold ent. rewrite boot_table_at by apply vpath_nil. cbn [boot_path fmap option_fmap option_map].
    rewrite Hm by done. intros [= <-]. unfold boot_word. cbn [Z.eqb Pos.eqb].
    destruct (boot_table_range 3 ltac:(lia)). by apply boot_link_entry.
  - unfold clear_entry. rewrite E4, E3, Es, Ec. intros e. rewrite H3. by intros [= <-].
  - unfold clear_entry. rewrite E4, E3, Es, Ec. intros e. by rewrite H2.
Qed.

End machine.

End tables.

(** ** Memory with nothing but the tables *)

Definition table_words (base N : Z) : gmap Z Z :=
  list_to_map ((fun j => (base + 8 * j, boot_word base (j / 512) (j mod 512))) <$> range_excl 0 N).

Lemma table_words_at base N j : 0 <= j < N ->
  table_words base N !! (base + 8 * j) = Some (boot_word base (j / 512) (j mod 512)).
Proof.
  intros Hj. apply elem_of_list_to_map_1.
  - rewrite <- list_fmap_compose. apply NoDup_fmap_2_strong; [intros x y _ _ E; simpl in E; lia|]. apply NoDup_seqZ.
  - apply list_elem_of_fmap. exists j. split; [done|]. by apply elem_of_range_excl.
Qed.

Lemma table_words_hold base N : 517 * 512 <= N -> holds_tables base (table_words base N).
Proof.
  intros HN k i Hk Hi. unfold idx in Hi. pose proof (table_words_at base N (512 * k + i) ltac:(lia)) as H.
  unfold entry_at, word, boot_table.
  replace (base + 4096 * k + 8 * i) with (base + 8 * (512 * k + i)) by lia.
  assert ((512 * k + i) / 512 = k /\ (512 * k + i) mod 512 = i) as [E1 E2] by (Z.to_euclidean_division_equations; lia).
  rewrite E1, E2 in H. by rewrite H.
Qed.

Lemma boot_memory_exists base : exists m, holds_tables base m.
Proof. eexists. by apply table_words_hold. Qed.
