(* ===== verification/InitMemoryTheorems.v ===== *)
(** [init_memory] ([memory.rs]) from the tables of the boot code to the running kernel's
    address space: bootstrap heap, frame allocator, kernel heap, new tables, guard page and
    interrupt stacks, in the order in which the code brings them up. *)
From S2P Require Import Prelude Crates Machine FrameAlloc Paging Layout PageMap.
From S2P Require Import AddressSpace PagingLemmas PageMapLemmas MapperLemmas BootstrapHeap Friendly PhysicalAllocator.
From S2P Require Import Heap HeapLemmas ActivePageMap MemoryInit MemoryTheorems Vga MemoryInfoTheorems Redirect RemapLemmas RemapKernel.
From S2P Require Import RemapTheorems KernelSpaceTheorems BootLemmas BootTables FriendlyExample AllocatorTheorems PagingTheorems HeapTheorems.

(** ** Small facts about the steps *)

Section steps.
Context `{B : Build} `{X : X86_64Crate} `{F : BitflagsCrate} `{BF : BitFieldCrate}.
Context `{T : FriendlyTree LEVEL_COUNT PHYS_BASE_ORDER} `{HT : FriendlyTree HEAP_LEVELS HEAP_BASE_ORDER}.
Context `{FC : FriendlyCrate}.

Lemma on_heap_ret {A} (c : M (heap_state PhysicalAllocator (tree (FriendlyTree := HT))) A) k a h :
  c (k_heap k) = Ret (a, h) -> on_heap c k = Ret (a, mkKernel h (k_boot k) (k_tss k)).
Proof. intros E. unfold on_heap. by rewrite E. Qed.

Lemma on_heap_stop {A} (c : M (heap_state PhysicalAllocator (tree (FriendlyTree := HT))) A) k w :
  c (k_heap k) = Stop w -> on_heap c k = Stop w.
Proof. intros E. unfold on_heap. by rewrite E. Qed.

Lemma on_mach_ret {A} (c : M (machine PhysicalAllocator) A) k a s :
  c (mach (k_heap k)) = Ret (a, s) -> on_mach c k = Ret (a, mkKernel (mkHeapState s (htree (k_heap k))) (k_boot k) (k_tss k)).
Proof. intros E. unfold on_mach. apply on_heap_ret. by apply tables_ret. Qed.

(** Memory below 7 GiB needs no tree beyond those in the bootstrap heap. *)
Lemma usable_trees mb mbp bh ka areas n us : mb_memory_areas mb = Some areas ->
  Forall (fun r => 1 <= r.2 <= 7 * 2 ^ 30) areas -> usable_memory mb mbp bh ka = Ret (n, us) -> 0 <= n <= 7.
Proof.
  intros Ea Hb. unfold usable_memory. rewrite Ea, sub_ones_spec.
  2:{ apply Forall_fmap. eapply list.Forall_impl; [exact Hb|]. intros r Hr. simpl in *. lia. }
  cbn [rbind]. destruct (list_max _) as [hi|] eqn:Ehi; [|done].
  apply list_max_spec in Ehi as [(e & -> & (r & -> & Hr)%list_elem_of_fmap)%list_elem_of_fmap _].
  rewrite list.Forall_forall in Hb. specialize (Hb r Hr).
  unfold round_up_divide. change (Z.shiftl 1 30) with (2 ^ 30).
  rewrite add64_small by lia. cbn [rbind]. rewrite sub64_small by lia. cbn [rbind].
  destruct (sub64 _ _) as [ke|]; cbn [rbind]; [|done]. destruct (remove_used areas _) as [l1|]; cbn [rbind]; [|done].
  destruct (remove_used l1 _) as [l2|]; cbn [rbind]; [|done]. destruct (remove_used l2 _) as [l3|]; cbn [rbind]; [|done].
  destruct (collect_256 l3); cbn [rbind]; [|done]. intros [= <- _]. unfold wrap.
  assert (0 <= (r.2 - 1 + 2 ^ 30 - 1) / 2 ^ 30 <= 7) by (Z.to_euclidean_division_equations; lia).
  rewrite Z.mod_small by lia. done.
Qed.

Lemma init_rest_small n us (a : PhysicalAllocator) : n <= 7 -> fa_inv a -> init_rest n us a = Ret a.
Proof.
  intros Hn (ts & E & _). destruct a as [o]. cbn [trees] in E. subst o. unfold init_rest. cbn [trees].
  replace (range_incl 8 n) with (@nil Z); [done|]. unfold range_incl. by rewrite seqZ_nil by lia.
Qed.

(** The tables on the way to a small page have no huge entry. *)
Lemma small_mapping_clear (s : machine PhysicalAllocator) page e : small_mapping (mem s) (cr3 s) page e -> path_clear s page.
Proof.
  intros (f1 & f2 & f3 & E1 & E2 & E3 & _)%small_mapping_inv.
  pose proof (next_frame_inv _ _ _ _ E1) as (_ & H1 & _). pose proof (next_frame_inv _ _ _ _ E2) as (_ & H2 & _).
  pose proof (next_frame_inv _ _ _ _ E3) as (_ & H3 & _).
  split; unfold clear_entry, ent; cbn [table_at]; intros x; rewrite ?E1; cbn; rewrite ?E2; cbn; intros [= <-]; assumption.
Qed.

End steps.

Section boot.
Context `{B : Build} `{X : X86_64Crate} `{F : BitflagsCrate} `{BF : BitFieldCrate}.
Context `{T : FriendlyTree LEVEL_COUNT PHYS_BASE_ORDER} `{HT : FriendlyTree HEAP_LEVELS HEAP_BASE_ORDER}.
Context `{FC : FriendlyCrate}.
Context (mb : BootInformation) (ka : Z * Z) (areas : list (Z * Z)) (sections : list ElfSection) (guard : Z).
Implicit Types (s : machine PhysicalAllocator) (k : kernel).

(** Where things go: the bootstrap heap behind the kernel's image and the boot information,
    the heap's tree behind it, then the interrupt stacks. *)
Definition boot_page : Z := (ka.2 + 1) / 4096 + 1.
Definition boot_frame : Z := (mb_end mb + 1) / 4096 + 1.
Definition heap_tree_page : Z := boot_page + 1024.
Definition stacks_page : Z := heap_tree_page + 8192.

#[local] Abbreviation boot_phys := (boot_frame * 4096, boot_frame * 4096 + BOOT_BYTES).
#[local] Abbreviation boot_begin := (boot_page * 4096).
#[local] Abbreviation boot_limit := (boot_page * 4096 + BOOT_BYTES).
#[local] Abbreviation tree_begin := (heap_tree_page * 4096).

(** What the boot loader and the boot code hand over to [init_memory]. *)
Record boots k : Prop := {
  bo_statics : k_boot k = None /\ k_tss k = None /\ htree (k_heap k) = None /\ pmm (mach (k_heap k)) = mkPhysicalAllocator None;
  (** the boot tables are a tree of tables that lie in the kernel's image; *)
  bo_space : space_ok (mem (mach (k_heap k))) (cr3 (mach (k_heap k)));
  bo_tables x : is_table (mach (k_heap k)) x -> x <= ka.2 - KERNEL_MAPPING_BEGIN;
  (** they map what lies behind the image with 4 KiB pages, and nothing where the heap will be; *)
  bo_pages n : boot_page <= n <= stacks_page ->
    exists e, small_mapping (mem (mach (k_heap k))) (cr3 (mach (k_heap k))) (page_no n) e /\ e_addr e < 2 ^ 48;
  bo_no_heap : no_heap_page (mach (k_heap k));
  (** the memory map, the sections and the modules. *)
  bo_area : kernel_area mb = Ret ka;
  bo_areas : mb_memory_areas mb = Some areas;
  bo_end : Forall (fun r => 1 <= r.2 <= 7 * 2 ^ 30) areas;
  bo_layout : boot_layout areas (ka.2 - KERNEL_MAPPING_BEGIN) (mb_start mb, mb_end mb) boot_phys;
  bo_elf : mb_elf_sections mb = Some sections;
  bo_sections : Forall section_ok sections;
  bo_room : KERNEL_MAPPING_BEGIN <= ka.2 < 2 ^ 64 - 2 ^ 27;
  bo_guard : exists sec, sec ∈ sections /\ sec_allocated sec = true /\ sec_start sec <= guard * 4096 < sec_end sec
}.

Lemma boot_ranges : boot_first boot_begin = boot_page /\ boot_last boot_limit = heap_tree_page /\
  tree_first tree_begin = heap_tree_page /\ tree_last tree_begin = stacks_page.
Proof.
  unfold boot_first, boot_last, tree_first, tree_last, page_after, stacks_page, heap_tree_page.
  change (2 ^ HEAP_LEVELS) with (2 ^ 25). change BOOT_BYTES with 4194296. Z.to_euclidean_division_equations. lia.
Qed.

(** What the whole of [init_memory] can need of physical memory, in frames. *)
Definition boot_cost : Z := 4 * 8192 + (7 + (13 + 3 * (Z.of_nat (length (kernel_requests sections)) + 9218)) + 4 * 24).

Lemma boot_remap_cost pa : remap_cost sections boot_begin boot_limit tree_begin pa =
  13 + 3 * (Z.of_nat (length (kernel_requests sections)) + 9218).
Proof.
  unfold remap_cost, remap_requests, copy_requests, range_requests, range_incl. rewrite !length_app, !length_fmap, !length_seqZ.
  destruct boot_ranges as (-> & -> & -> & ->). unfold stacks_page, heap_tree_page. lia.
Qed.

Lemma kernel_area_covers sec : kernel_area mb = Ret ka -> mb_elf_sections mb = Some sections ->
  sec ∈ sections -> sec_allocated sec = true -> sec_end sec <= ka.2.
Proof.
  intros E Es Hin Ha. unfold kernel_area in E. rewrite Es in E. cbv zeta in E.
  destruct (list_min _); [|done]. destruct (list_max _) as [m|] eqn:Em; [|done]. injection E as <-. cbn [snd].
  apply list_max_spec in Em as [_ Hm]. apply Hm, list_elem_of_fmap. exists (sec_start sec, sec_end sec). split; [done|].
  apply elem_of_app. left. apply list_elem_of_fmap. exists sec. split; [done|]. by apply list_elem_of_filter.
Qed.

Lemma boot_bounds k : boots k -> 0xffffffff80000 < boot_page /\ stacks_page + 2 ^ 13 < 2 ^ 52.
Proof.
  intros Hb. pose proof (bo_room _ Hb) as Hr. unfold KERNEL_MAPPING_BEGIN in Hr.
  unfold stacks_page, heap_tree_page, boot_page. Z.to_euclidean_division_equations. lia.
Qed.

(** ** The frame allocator *)

(** The allocator after [init_prelim]: it offers the usable frames and nothing is handed out. *)
Record fresh_allocator (us : list (Z * Z)) (a : PhysicalAllocator) : Prop := {
  fr_inv : fa_inv a;
  fr_free x : fa_free a x <-> usable_frame us x
}.

(** A usable frame is memory of the memory map that nobody uses. *)
Definition unused (us : list (Z * Z)) : Prop := forall x b, usable_frame us x -> x <= b < x + 4096 ->
  in_ranges areas b /\ ~ 0 <= b <= ka.2 - KERNEL_MAPPING_BEGIN /\
  ~ mb_start mb <= b <= mb_end mb /\ ~ boot_frame * 4096 <= b <= boot_frame * 4096 + BOOT_BYTES.

Lemma boot_usable k : boots k ->
  exists n us, usable_memory mb (mb_start mb, mb_end mb) boot_phys ka = Ret (n, us) /\ 0 <= n <= 7 /\ ranges_ok us /\ unused us.
Proof.
  intros Hb. destruct (usable_memory_spec mb _ _ ka areas (bo_areas _ Hb) (proj1 (bo_room _ Hb)) (bo_layout _ Hb))
    as (n & us & E & _ & Hro & Hx).
  exists n, us. split; [done|]. split; [by eapply usable_trees; [apply Hb|apply Hb|]|]. split; [done|].
  intros x b (_ & r & Hr & H1 & H2) Hxb. apply Hx. exists r. split; [done|]. unfold range_has in *. lia.
Qed.

Lemma boot_prelim k us addr : boots k -> ranges_ok us -> unused us ->
  exists a, init_prelim (2 ^ 19 - 1) us (Some (new_unchecked addr)) (mkPhysicalAllocator None) =
      Ret (Some (mkBootstrap addr (Z.ones 8)), a) /\ fresh_allocator us a.
Proof.
  intros Hb Hro Hun. destruct (init_prelim_fresh (2 ^ 19 - 1) us addr) as (ts & E & Hfr & _).
  destruct (fresh_slots_spec us 8 ts ltac:(lia) Hro Hfr) as (Hi & Hf & _).
  exists (mkPhysicalAllocator (Some ts)). split; [done|]. split; [exact Hi|].
  intros x. rewrite (Hf x). split; [tauto|]. intros Hx. split; [done|].
  destruct (Hun x x Hx ltac:(lia)) as ((r & Hr & Hrx) & _). pose proof (bo_end _ Hb) as He.
  pose proof (bl_areas _ _ _ _ (bo_layout _ Hb)) as Hl. rewrite list.Forall_forall in He, Hl.
  specialize (He r Hr). specialize (Hl r Hr). unfold range_has in Hrx. lia.
Qed.

(** The boot tables are not offered. *)
Lemma boot_tables_inv k us a : boots k -> unused us -> fresh_allocator us a -> tables_inv (set_pmm a (mach (k_heap k))).
Proof.
  intros Hb Hun [Hi Hf]. split; [apply Hb|done|]. intros x Hx Hc. apply Hf in Hc.
  destruct (Hun x x Hc ltac:(lia)) as (_ & Hk & _). apply Hk.
  pose proof (bo_tables _ Hb x Hx). destruct Hx as (q & _ & Hq).
  apply (table_at_range _ _ (so_rec _ _ (bo_space _ Hb))) in Hq. lia.
Qed.

(** ** The bootstrap heap and the kernel's heap *)

Section heaps.
Context k (us : list (Z * Z)) (a : PhysicalAllocator).
Context (Hb : boots k) (Hun : unused us) (Hfr : fresh_allocator us a).
#[local] Abbreviation s0 := (mach (k_heap k)).

Lemma boot_page_ok n : boot_page <= n <= stacks_page -> page_ok (page_no n).
Proof. intros Hn. pose proof (boot_bounds k Hb). apply kernel_page_ok. unfold KERNEL_PAGE. lia. Qed.

Lemma boot_heap_spec : exists s1,
  setup_bootstrap_heap (2 ^ 19 - 1) (ka.2 + 1) (mb_end mb + 1) None s0 =
    Ret (boot_phys, (boot_begin, boot_limit), Some (new_unchecked boot_begin), s1) /\
  drawn a (in_pages boot_page heap_tree_page) s0 s1 /\
  (forall n, boot_page <= n < heap_tree_page ->
     small_mapping (mem s1) (cr3 s1) (page_no n) (leaf_entry ((boot_frame + (n - boot_page)) * 4096) MemoryInit.data_flags)).
Proof.
  pose proof (bo_room _ Hb) as Hr. destruct (bo_layout _ Hb) as [_ _ _ _ Hl1 Hl2 Hl3]. cbn [fst snd] in *.
  apply (setup_bootstrap_heap_spec a s0 (ka.2 + 1) (mb_end mb + 1)); [by apply (boot_tables_inv k us)| | |].
  - unfold boot_frame in *. change BOOT_BYTES with 4194296 in *. split; [lia|]. Z.to_euclidean_division_equations. lia.
  - lia.
  - fold boot_page. intros n Hn. destruct (bo_pages _ Hb n) as (e & He & _); [unfold stacks_page, heap_tree_page; lia|].
    apply small_mapping_table in He as (g & Hg & _). by exists g.
Qed.

Context s1 (Hd : drawn a (in_pages boot_page heap_tree_page) s0 s1).
Context (Hm : forall n, boot_page <= n < heap_tree_page ->
  small_mapping (mem s1) (cr3 s1) (page_no n) (leaf_entry ((boot_frame + (n - boot_page)) * 4096) MemoryInit.data_flags)).
#[local] Abbreviation s1' := (set_pmm a s1).

Lemma boot_cr3 : cr3 s1 = cr3 s0.
Proof. apply (ev_cr3 _ _ _ (dr_evolves _ _ _ _ Hd)). Qed.

(** Other pages are as the boot code left them. *)
Lemma boot_others n : page_ok (page_no n) -> ~ boot_page <= n < heap_tree_page ->
  ref_walk (mem s1) (cr3 s1) (page_no n) = ref_walk (mem s0) (cr3 s0) (page_no n).
Proof.
  intros Hp Hn. rewrite boot_cr3. apply (ev_walk _ _ _ (dr_evolves _ _ _ _ Hd)); [apply Hp|].
  intros (m & Hmr & Hs). apply same_page_inj in Hs; [|apply boot_page_ok; unfold stacks_page; lia|done].
  cbn [number page_no] in Hs. lia.
Qed.

Lemma boot_path_clear page : p4_index page <> REC -> path_clear s0 page -> path_clear s1' page.
Proof. intros Hp Hc. apply (path_clear_evolves _ _ _ _ Hp (dr_evolves _ _ _ _ Hd)). by apply path_clear_pmm. Qed.

Lemma boot_no_heap : no_heap_page s1'.
Proof.
  intros i Hi. destruct (bo_no_heap _ Hb i Hi) as [H1 H2]. pose proof (hpage_ok i Hi) as Hp. split.
  - rewrite <- H1. apply boot_others; [done|]. pose proof (boot_bounds k Hb). unfold heap_index in Hi.
    change HEAP_PAGE with 0xffffffff40000. lia.
  - apply boot_path_clear; [apply Hp|done].
Qed.

Lemma kernel_heap_spec :
  let t := tree_new [(0, Z.shiftl 1 (30 + 1))] in
  (exists s2, heap_init (boot_limit + 1) (mkHeapState s1' None) = Ret (tree_begin, mkHeapState s2 (Some t)) /\
     heap_inv (mkHeapState s2 (Some t)) t /\
     pages_backed heap_flags Zero heap_tree_page stacks_page s1' s2 /\ takes (4 * 8192) s1' s2) \/
  (heap_init (boot_limit + 1) (mkHeapState s1' None) = Stop (Panic "Out of physical memory") /\ short_of (4 * 8192) s1').
Proof.
  intros t. pose proof (boot_bounds k Hb) as Hbd. unfold stacks_page, heap_tree_page in Hbd.
  assert (BOOT_BYTES = 4194296) as Eb by done.
  assert (tree_page (boot_limit + 1) = heap_tree_page) as Et.
  { unfold tree_page, heap_tree_page. rewrite Eb. Z.to_euclidean_division_equations. lia. }
  pose proof (heap_init_spec (mkHeapState s1' None) (boot_limit + 1) eq_refl (ev_inv _ _ _ (dr_evolves _ _ _ _ Hd))
    boot_no_heap) as H. rewrite Et in H. apply H.
  - unfold KERNEL_MAPPING_BEGIN. lia.
  - intros n Hn. destruct (bo_pages _ Hb n) as (e & He & _); [unfold stacks_page, heap_tree_page in *; lia|].
    apply boot_path_clear; [|by apply small_mapping_clear in He]. apply boot_page_ok. unfold stacks_page, heap_tree_page in *. lia.
Qed.

(** ** What the tables map when the kernel is remapped *)

Context s2 (Hbk : pages_backed heap_flags Zero heap_tree_page stacks_page s1' s2).

Definition walked s (n : Z) : Z :=
  match ref_walk (mem s) (cr3 s) (page_no n) with Ret (Some (e, _)) => e_addr e | _ => 0 end.

Lemma walked_small s n e : small_mapping (mem s) (cr3 s) (page_no n) e -> walked s n = e_addr e.
Proof. unfold walked. by intros ->. Qed.

Lemma heap_others n : page_ok (page_no n) -> ~ heap_tree_page <= n < stacks_page ->
  ref_walk (mem s2) (cr3 s2) (page_no n) = ref_walk (mem s1) (cr3 s1) (page_no n).
Proof.
  intros Hp Hn. destruct Hbk as [Hev _]. rewrite (ev_cr3 _ _ _ Hev). apply (ev_walk _ _ _ Hev); [apply Hp|].
  intros (m & Hmr & Hs). apply same_page_inj in Hs; [|apply boot_page_ok; unfold heap_tree_page in *; lia|done].
  cbn [number page_no] in Hs. lia.
Qed.

Lemma heap_cr3 : cr3 s2 = cr3 s0.
Proof. destruct Hbk as [Hev _]. rewrite (ev_cr3 _ _ _ Hev). apply boot_cr3. Qed.

(** The bootstrap heap is where its frames are, the tree in frames that were free. *)
Lemma walked_boot n : boot_page <= n < heap_tree_page ->
  small_mapping (mem s2) (cr3 s2) (page_no n) (leaf_entry ((boot_frame + (n - boot_page)) * 4096) MemoryInit.data_flags) /\
  walked s2 n = (boot_frame + (n - boot_page)) * 4096 /\ walked s2 n < 2 ^ 48.
Proof.
  intros Hn. assert (small_mapping (mem s2) (cr3 s2) (page_no n) (leaf_entry ((boot_frame + (n - boot_page)) * 4096) MemoryInit.data_flags)) as H.
  { unfold small_mapping. rewrite heap_others; [by apply Hm|apply boot_page_ok; unfold stacks_page; lia|lia]. }
  split; [done|]. rewrite (walked_small _ _ _ H). destruct (bo_layout _ Hb) as [_ _ _ _ Hl1 Hl2 Hl3]. cbn [fst snd] in *.
  change BOOT_BYTES with 4194296 in *. unfold heap_tree_page in Hn.
  assert (0 <= (boot_frame + (n - boot_page)) * 4096 < 2 ^ 48) as Hr.
  { unfold boot_frame in *. Z.to_euclidean_division_equations. lia. }
  destruct (leaf_entry_facts ((boot_frame + (n - boot_page)) * 4096) MemoryInit.data_flags) as (-> & _ & _);
    [apply Z_mod_mult|done|apply data_flags_ok|]. lia.
Qed.

Lemma walked_tree n : heap_tree_page <= n < stacks_page ->
  small_mapping (mem s2) (cr3 s2) (page_no n) (leaf_entry (walked s2 n) heap_flags) /\
  fa_free a (walked s2 n) /\ walked s2 n < 2 ^ 48 /\ backed s1' s2 heap_flags Zero n (walked s2 n).
Proof.
  intros Hn. destruct Hbk as [_ (fr & Hbd & _)]. specialize (Hbd n Hn). pose proof (bk_mapping _ _ _ _ _ _ Hbd) as H.
  destruct (fa_free_range a (fr n) (fr_inv _ _ Hfr) (bk_was_free _ _ _ _ _ _ Hbd)) as [Hal Hr].
  destruct (leaf_entry_facts (fr n) heap_flags Hal ltac:(lia) heap_flags_ok) as (Ha & _ & _).
  assert (walked s2 n = fr n) as -> by (by rewrite (walked_small _ _ _ H)).
  split_and!; [done|apply Hbd|lia|done].
Qed.

Lemma walked_tree_inj n m : heap_tree_page <= n < stacks_page -> heap_tree_page <= m < stacks_page ->
  walked s2 n = walked s2 m -> n = m.
Proof.
  intros Hn Hm'. destruct Hbk as [_ (fr & Hbd & Hinj)].
  assert (forall i, heap_tree_page <= i < stacks_page -> walked s2 i = fr i) as Hw.
  { intros i Hi. specialize (Hbd i Hi). rewrite (walked_small _ _ _ (bk_mapping _ _ _ _ _ _ Hbd)).
    destruct (fa_free_range a (fr i) (fr_inv _ _ Hfr) (bk_was_free _ _ _ _ _ _ Hbd)) as [Hal Hr].
    by destruct (leaf_entry_facts (fr i) heap_flags Hal ltac:(lia) heap_flags_ok) as (-> & _). }
  rewrite !Hw by done. by apply Hinj.
Qed.

Lemma walked_backed n : boot_page <= n <= stacks_page -> backed_by (walked s2) s2 n.
Proof.
  intros Hn. split; [by apply boot_page_ok|].
  destruct (decide (n < heap_tree_page)) as [H1|H1]; [|destruct (decide (n < stacks_page)) as [H2|H2]].
  - destruct (walked_boot n ltac:(lia)) as (H & Ha & Hr). eexists. split; [exact H|]. split; [by rewrite (walked_small _ _ _ H)|lia].
  - destruct (walked_tree n ltac:(lia)) as (H & _ & Hr & _). eexists. split; [exact H|].
    split; [by rewrite <- (walked_small _ _ _ H)|lia].
  - destruct (bo_pages _ Hb n Hn) as (e & He & Hr). assert (small_mapping (mem s2) (cr3 s2) (page_no n) e) as H.
    { unfold small_mapping. rewrite heap_others by (apply boot_page_ok || idtac; lia).
      rewrite boot_others; [done|by apply boot_page_ok|lia]. }
    exists e. split; [done|]. rewrite (walked_small _ _ _ H). split; [done|lia].
Qed.

Lemma boot_remap_ok : remap_ok sections boot_begin boot_limit tree_begin (walked s2) s2.
Proof.
  pose proof (boot_bounds k Hb) as Hbd. destruct boot_ranges as (E1 & E2 & E3 & E4).
  assert (BOOT_BYTES = 4194296) as Eb by done. unfold stacks_page, heap_tree_page in Hbd.
  split.
  - apply Hb.
  - unfold KERNEL_MAPPING_BEGIN. lia.
  - unfold KERNEL_MAPPING_BEGIN, heap_tree_page. lia.
  - rewrite E1, E2. intros n Hn. apply walked_backed. unfold stacks_page in *. lia.
  - rewrite E3, E4. intros n Hn. apply walked_backed. unfold heap_tree_page in *. lia.
  - rewrite heap_cr3. pose proof (bo_tables _ Hb (cr3 s0)) as Ht. pose proof (bo_room _ Hb) as Hr.
    unfold KERNEL_MAPPING_BEGIN in *. assert (is_table s0 (cr3 s0)) as Hi by (exists []; split; [apply vpath_nil|done]).
    specialize (Ht Hi). lia.
Qed.

(** The guard page of the boot stack is a page of the image. *)
Lemma boot_guard_ok pa : guard_ok sections boot_begin boot_limit tree_begin guard pa.
Proof.
  pose proof (boot_bounds k Hb) as Hbd. destruct (bo_guard _ Hb) as (sec & Hin & Ha & Hg).
  pose proof (kernel_area_covers sec (bo_area _ Hb) (bo_elf _ Hb) Hin Ha) as Hke.
  pose proof (bo_sections _ Hb) as Hs. rewrite list.Forall_forall in Hs. destruct (Hs sec Hin Ha) as (Hal & Hlo & Hhi).
  unfold KERNEL_MAPPING_BEGIN in *. change (0xffffffff80000000 / 4096) with 0xffffffff80000 in *.
  assert (guard < boot_page) as Hlt by (unfold boot_page; Z.to_euclidean_division_equations; lia).
  destruct boot_ranges as (_ & _ & _ & E4).
  split; rewrite ?E4; unfold KERNEL_MAPPING_BEGIN; change (0xffffffff80000000 / 4096) with 0xffffffff80000.
  - unfold stacks_page, heap_tree_page in *. lia.
  - apply (last_request_some _ (mkRequest guard (image_frame guard) (section_flags sec))); [|done].
    apply list_elem_of_fmap. exists ("Out of physical memory for page tables", mkRequest guard (image_frame guard) (section_flags sec)).
    split; [done|]. unfold remap_requests, kernel_requests. apply elem_of_app. left. apply elem_of_app. left.
    apply list_elem_of_bind. exists sec. split; [|done]. unfold section_requests. rewrite Ha.
    apply list_elem_of_fmap. exists guard. split; [done|]. apply elem_of_range_incl. unfold page_after.
    Z.to_euclidean_division_equations. lia.
  - unfold stacks_page, heap_tree_page in *. lia.
  - lia.
Qed.

(** Memory that was neither a table nor usable is as it was. *)
Lemma heap_mem x : ~ is_table s0 (frame_of x) -> ~ usable_frame us (frame_of x) ->
  word (mem s2) x = word (mem s0) x /\ ~ is_table s2 (frame_of x) /\ ~ fa_free (pmm s2) (frame_of x).
Proof.
  intros Ht Hu. pose proof (fun H => Hu (proj1 (fr_free _ _ Hfr (frame_of x)) H)) as Hu'.
  destruct Hbk as [Hev _]. pose proof (dr_evolves _ _ _ _ Hd) as Hev1.
  assert (~ is_table s1' (frame_of x)) as Ht1 by (intros [H|H]%(ev_new _ _ _ Hev1); [by apply Ht|by apply Hu']).
  split_and!.
  - rewrite (ev_mem _ _ _ Hev x) by done. by apply (ev_mem _ _ _ Hev1 x).
  - intros [H|H]%(ev_new _ _ _ Hev); [by apply Ht1|by apply Hu'].
  - intros H%(ev_free _ _ _ Hev). by apply Hu'.
Qed.

End heaps.

(** * The whole of [init_memory] *)

(** The kernel after [init_memory]. [pa] gives the frames of the bootstrap heap and of the
    heap's tree. *)
Record booted (us : list (Z * Z)) k k' (pa : Z -> Z) (t : tree (FriendlyTree := HT)) (tss : TssStacks) : Prop := {
  bt_heap : heap_inv (k_heap k') t;
  bt_nothing : nothing_live t;
  bt_boot : k_boot k' = Some (mkBootstrap boot_begin (Z.ones 8));
  bt_tss : k_tss k' = Some tss;
  bt_wp : cr0_wp (mach (k_heap k')) = true;
  bt_guard : ref_walk (mem (mach (k_heap k'))) (cr3 (mach (k_heap k'))) (page_no guard) = Ret None;
  bt_walk page : p4_index page <> REC -> ~ same_page (page_no guard) page -> ~ ist_pages stacks_page page ->
    ref_walk (mem (mach (k_heap k'))) (cr3 (mach (k_heap k'))) page =
      asked sections boot_begin boot_limit tree_begin pa page;
  bt_boot_pages n : boot_page <= n < heap_tree_page -> pa n = (boot_frame + (n - boot_page)) * 4096;
  bt_tree_pages n : heap_tree_page <= n < stacks_page -> usable_frame us (pa n);
  bt_tree_inj n m : heap_tree_page <= n < stacks_page -> heap_tree_page <= m < stacks_page -> pa n = pa m -> n = m;
  bt_ist : interrupt_stack_table tss = (fun i => (stacks_page + 4 * (i + 1)) * 4096) <$> range_excl 0 7;
  bt_rsp0 : privilege_stack_0 tss = (stacks_page + 4 * 8) * 4096;
  bt_stacks i j : 0 <= i < 8 -> 1 <= j <= 3 -> exists f, usable_frame us f /\
    small_mapping (mem (mach (k_heap k'))) (cr3 (mach (k_heap k'))) (page_no (stacks_page + 4 * i + j))
      (leaf_entry f MemoryInit.data_flags);
  bt_free x : fa_free (pmm (mach (k_heap k'))) x -> usable_frame us x;
  bt_mem x : ~ is_table (mach (k_heap k)) (frame_of x) -> ~ usable_frame us (frame_of x) ->
    word (mem (mach (k_heap k'))) x = word (mem (mach (k_heap k))) x;
  bt_takes : exists l, Z.of_nat (length l) <= boot_cost /\
    forall x, usable_frame us x -> fa_free (pmm (mach (k_heap k'))) x \/ x ∈ l
}.

(** Fewer than [c] frames are usable. *)
Definition too_few (us : list (Z * Z)) (c : Z) : Prop :=
  exists l, Z.of_nat (length l) < c /\ forall x, usable_frame us x -> x ∈ l.

Lemma short_too_few us a s c : fresh_allocator us a -> short_of c (set_pmm a s) -> too_few us c.
Proof. intros [_ Hf] (l & Hl & H). exists l. split; [done|]. intros x Hx. by apply H, Hf. Qed.

(** ** The calls one after the other *)

#[local] Abbreviation boot_done := (Some (mkBootstrap boot_begin (Z.ones 8))).

(** The second half of [init_memory], from [Heap::init] on. *)
Definition boot_rest (info : list (log_Level * list Z)) (n : Z) (us : list (Z * Z)) (heap_tree_start : Z) : M kernel (list (log_Level * list Z)) :=
  let! heap_tree_end := lift (add64 heap_tree_start tree_size) in
  do! setup_physical_allocator_rest n us in
  let! boot := gets k_boot in
  let! boot_start := lift (heap_start boot) in
  let! boot_end := lift (heap_end (2 ^ 19 - 1) boot) in
  let! tss := gets k_tss in
  let! tss := on_heap (enter_kernel_space (mb_elf_sections mb) boot_start boot_end heap_tree_start heap_tree_end
                         (guard * 4096) tss) in
  do! set_tss tss in
  ret (memory_log info n).

Lemma prelim_steps s n us a : usable_memory mb (mb_start mb, mb_end mb) boot_phys ka = Ret (n, us) ->
  pmm s = mkPhysicalAllocator None ->
  init_prelim (2 ^ 19 - 1) us (Some (new_unchecked boot_begin)) (mkPhysicalAllocator None) = Ret (boot_done, a) ->
  setup_physical_allocator_prelim mb (mb_start mb, mb_end mb) boot_phys ka
    (mkKernel (mkHeapState s None) (Some (new_unchecked boot_begin)) None) =
  Ret ((n, us), mkKernel (mkHeapState (set_pmm a s) None) boot_done None).
Proof.
  intros Eu Ep Ei. unfold setup_physical_allocator_prelim. rewrite Eu. msimp.
  rewrite (bind_ret _ _ _ _ _ (eq_refl : gets k_boot _ = Ret (_, _))). cbn [k_boot].
  rewrite (bind_ret _ _ _ _ _ (eq_refl : gets _ _ = Ret (_, _))). cbn [k_heap mach].
  rewrite (total_blocks_spec (FriendlyTree := T)). change (2 ^ LEVEL_COUNT - 1) with (2 ^ 19 - 1).
  cbn [snd]. rewrite Ep, Ei. by msimp.
Qed.

Lemma rest_steps info n us h : n <= 7 -> fa_inv (pmm (mach h)) -> 0 <= boot_page -> tree_begin < 2 ^ 64 - 2 ^ 26 ->
  boot_rest info n us tree_begin (mkKernel h boot_done None) =
    bind (on_heap (enter_kernel_space (mb_elf_sections mb) boot_begin boot_limit tree_begin
                     (tree_begin + (2 ^ HEAP_LEVELS - 1)) (guard * 4096) None))
      (fun tss => do! set_tss tss in ret (memory_log info n)) (mkKernel h boot_done None).
Proof.
  intros Hn Ha Hp Hr. unfold boot_rest. unfold heap_tree_page in Hr.
  assert (tree_size = 2 ^ HEAP_LEVELS - 1) as -> by (by apply blocks_in_tree_spec).
  rewrite add64_small by (unfold heap_tree_page; change (2 ^ HEAP_LEVELS) with (2 ^ 25); lia). msimp.
  assert (setup_physical_allocator_rest n us (mkKernel h boot_done None) = Ret (tt, mkKernel h boot_done None)) as E.
  { unfold setup_physical_allocator_rest. rewrite (bind_ret _ _ _ _ _ (eq_refl : gets _ _ = Ret (_, _))). cbn [k_heap].
    rewrite init_rest_small by done. msimp. unfold on_mach, on_heap, tables, modify. cbn [k_heap k_boot k_tss].
    destruct h as [[m c cf wp tl p] t]. done. }
  rewrite (bind_ret _ _ _ _ _ E). rewrite (bind_ret _ _ _ _ _ (eq_refl : gets _ _ = Ret (_, _))). cbn [k_boot heap_start start start_addr].
  msimp. unfold heap_end. cbn [heap_start rbind start start_addr]. change (space_taken (2 ^ 19 - 1)) with BOOT_BYTES.
  assert (BOOT_BYTES = 4194296) as Eb by done. rewrite add64_small by lia. msimp.
  by rewrite (bind_ret _ _ _ _ _ (eq_refl : gets _ _ = Ret (_, _))).
Qed.

Lemma boot_areas_ok k : boots k -> areas_ok areas /\ memory_total areas < 2 ^ 53.
Proof.
  intros Hb. destruct (bo_layout _ Hb) as [Hl _ Hc _ _ _ _]. pose proof (bo_end _ Hb) as He. split.
  - eapply list.Forall_impl; [exact Hl|]. intros r [H1 H2]. lia.
  - assert (memory_total areas <= Z.of_nat (length areas) * (7 * 2 ^ 30)) as Hm; [|lia]. clear Hc Hb. revert He.
    induction Hl as [|r l Hr Hl IH]; intros He; cbn [memory_total foldr length]; [lia|]. fold (memory_total l).
    apply list.Forall_cons in He as [He1 He]. specialize (IH He). lia.
Qed.

Lemma boot_info k : boots k -> exists info, print_memory_info areas = Ret info.
Proof. intros Hb. destruct (boot_areas_ok k Hb) as [Ha Ht]. apply print_memory_info_ok; [done|lia]. Qed.

Lemma init_memory_front k info n us a s1 : boots k -> print_memory_info areas = Ret info ->
  usable_memory mb (mb_start mb, mb_end mb) boot_phys ka = Ret (n, us) ->
  setup_bootstrap_heap (2 ^ 19 - 1) (ka.2 + 1) (mb_end mb + 1) None (mach (k_heap k)) =
    Ret (boot_phys, (boot_begin, boot_limit), Some (new_unchecked boot_begin), s1) ->
  pmm s1 = mkPhysicalAllocator None ->
  init_prelim (2 ^ 19 - 1) us (Some (new_unchecked boot_begin)) (mkPhysicalAllocator None) = Ret (boot_done, a) ->
  init_memory mb (guard * 4096) k =
    bind (on_heap (heap_init (boot_limit + 1))) (boot_rest info n us) (mkKernel (mkHeapState (set_pmm a s1) None) boot_done None).
Proof.
  intros Hb Einfo Eu Es Ep Ei. destruct (bo_statics _ Hb) as (Hs1 & Hs2 & Hs3 & _). pose proof (bo_room _ Hb) as Hr.
  destruct (bo_layout _ Hb) as [_ _ _ _ Hl1 Hl2 Hl3]. cbn [fst snd] in *.
  assert (BOOT_BYTES = 4194296) as Eb by done. pose proof (boot_bounds k Hb) as Hbd. unfold stacks_page, heap_tree_page in Hbd.
  assert (0 <= mb_end mb < 2 ^ 40) as Hmb by (unfold boot_frame in *; Z.to_euclidean_division_equations; lia).
  unfold KERNEL_MAPPING_BEGIN in *. unfold init_memory. rewrite (bo_area _ Hb), (bo_areas _ Hb). msimp. rewrite Einfo. msimp.
  rewrite add64_small by lia. msimp. rewrite PhysAddr_new_ok by lia. msimp. rewrite add64_small by lia. msimp.
  rewrite VirtAddr_new_canonical; [|lia|].
  2:{ unfold canonical, sign_extend_47. assert (Z.testbit (ka.2 + 1) 47 = true) as ->.
      { apply Z.testbit_true; [lia|]. Z.to_euclidean_division_equations. lia. }
      apply Z.eqb_eq. Z.to_euclidean_division_equations. lia. }
  msimp. rewrite (total_blocks_spec (FriendlyTree := T)). change (2 ^ LEVEL_COUNT - 1) with (2 ^ 19 - 1).
  assert (gets k_boot k = Ret (None, k)) as Eg by (unfold gets; by rewrite Hs1). rewrite (bind_ret _ _ _ _ _ Eg).
  rewrite (bind_ret _ _ _ _ _ (on_mach_ret _ k _ _ Es)), Hs1, Hs2, Hs3. cbv beta iota zeta.
  rewrite (bind_ret _ _ _ _ _ (eq_refl : set_boot _ _ = Ret (tt, _))). cbn [k_heap k_tss].
  rewrite (bind_ret _ _ _ _ _ (prelim_steps s1 n us a Eu Ep Ei)). cbn [fst snd]. rewrite add64_small by lia. by msimp.
Qed.

(** ** The result *)

Lemma booted_intro k us a s1 s2 h' t' tss : boots k -> unused us -> fresh_allocator us a ->
  drawn a (in_pages boot_page heap_tree_page) (mach (k_heap k)) s1 ->
  (forall n, boot_page <= n < heap_tree_page ->
     small_mapping (mem s1) (cr3 s1) (page_no n) (leaf_entry ((boot_frame + (n - boot_page)) * 4096) MemoryInit.data_flags)) ->
  pages_backed heap_flags Zero heap_tree_page stacks_page (set_pmm a s1) s2 -> takes (4 * 8192) (set_pmm a s1) s2 ->
  kernel_space sections boot_begin boot_limit tree_begin guard (walked s2) (mkHeapState s2 (Some (tree_new [(0, Z.shiftl 1 (30 + 1))]))) h' t' tss ->
  booted us k (mkKernel h' boot_done (Some tss)) (walked s2) t' tss.
Proof.
  intros Hb Hun Hfr Hd Hm Hbk Htk Hks. destruct boot_ranges as (_ & _ & _ & E4).
  assert (forall x, fa_free (pmm s2) x -> usable_frame us x) as Hfree.
  { intros x Hx%(ev_free _ _ _ (proj1 Hbk)). by apply (fr_free _ _ Hfr). }
  pose proof (takes_trans _ _ _ _ _ Htk (ks_takes _ _ _ _ _ _ _ _ _ _ Hks)) as (l & Hl & Htl).
  rewrite boot_remap_cost in Hl. destruct Hks as [_ Hwp Hheap Hno Hg Hwalk Hist Hrsp Hst Hmem Hf _ _ _]. rewrite E4 in *. cbn [mach] in *.
  split; cbn [k_heap k_boot k_tss]; try done.
  - intros n Hn. by apply (walked_boot k a Hb s1 Hm s2 Hbk n).
  - intros n Hn. apply (fr_free _ _ Hfr). by apply (walked_tree us a Hfr s1 s2 Hbk n).
  - intros n m Hn Hm'. by apply (walked_tree_inj us a Hfr s1 s2 Hbk n m).
  - intros i j Hi Hj. destruct (Hst i j Hi Hj) as (f & Hff & Hsm). exists f. auto.
  - auto.
  - intros x Ht Hu. destruct (heap_mem k us a Hfr s1 Hd s2 Hbk x Ht Hu) as (E & H1 & H2).
    rewrite <- E. by apply Hmem.
  - exists l. split; [done|]. intros x Hx. by apply Htl, (fr_free _ _ Hfr).
Qed.

Lemma init_memory_spec k : boots k ->
  exists n us, usable_memory mb (mb_start mb, mb_end mb) boot_phys ka = Ret (n, us) /\ unused us /\
    ((exists info k' pa t tss, print_memory_info areas = Ret info /\
        init_memory mb (guard * 4096) k = Ret (memory_log info n, k') /\ booted us k k' pa t tss) \/
     (exists msg, init_memory mb (guard * 4096) k = Stop (Panic msg) /\ too_few us boot_cost)).
Proof.
  intros Hb. destruct (boot_usable k Hb) as (n & us & Eu & Hn & Hro & Hun).
  destruct (boot_prelim k us boot_begin Hb Hro Hun) as (a & Ei & Hfr).
  destruct (boot_heap_spec k us a Hb Hun Hfr) as (s1 & Es & Hd & Hm).
  exists n, us. split; [done|]. split; [done|]. destruct (boot_info k Hb) as [info Einfo].
  assert (pmm s1 = mkPhysicalAllocator None) as Ep by (rewrite (dr_pmm _ _ _ _ Hd); apply Hb).
  rewrite (init_memory_front k info n us a s1 Hb Einfo Eu Es Ep Ei). pose proof (boot_bounds k Hb) as Hbd.
  destruct (kernel_heap_spec k a Hb s1 Hd) as [(s2 & E2 & Hinv & Hbk & Htk)|[E2 Hsh]].
  2:{ right. eexists. rewrite (bind_stop _ _ _ _ (on_heap_stop _ (mkKernel (mkHeapState (set_pmm a s1) None) boot_done None) _ E2)). split; [done|].
      apply (short_too_few us a s1); [done|]. eapply short_of_mono; [|exact Hsh]. unfold boot_cost. lia. }
  rewrite (bind_ret _ _ _ _ _ (on_heap_ret _ (mkKernel (mkHeapState (set_pmm a s1) None) boot_done None) _ _ E2)). cbn [k_boot k_tss].
  rewrite rest_steps; [|lia|apply (ti_fa _ (hp_tables _ (hi_pages _ _ Hinv)))|lia|unfold stacks_page in Hbd; lia].
  rewrite (bo_elf _ Hb).
  destruct (enter_kernel_space_spec sections boot_begin boot_limit tree_begin guard (walked s2) _ _ Hinv
    (fun f j => tree_new_live _ f j) (boot_guard_ok k Hb (walked s2))
    (boot_remap_ok k us a Hb Hfr s1 Hd Hm s2 Hbk)) as [(h' & t' & tss & E3 & Hks)|(msg & E3 & Hsh)].
  - left. exists info, (mkKernel h' boot_done (Some tss)), (walked s2), t', tss. split; [done|]. split.
    + by rewrite (bind_ret _ _ _ _ _ (on_heap_ret _ (mkKernel (mkHeapState s2 _) boot_done None) _ _ E3)).
    + by eapply booted_intro.
  - right. exists msg. rewrite (bind_stop _ _ _ _ (on_heap_stop _ (mkKernel (mkHeapState s2 _) boot_done None) _ E3)).
    split; [done|]. apply (short_too_few us a s1); [done|]. rewrite boot_remap_cost in Hsh.
    exact (short_of_takes _ _ _ s2 Htk Hsh).
Qed.


End boot.

(** * A concrete instance *)

Section examples.
#[local] Existing Instance x86_64_example.
#[local] Existing Instance bit_field_example.
#[local] Existing Instance bitflags_example.
#[local] Existing Instance frames_example.
#[local] Existing Instance debug_build.
#[local] Existing Instance heap_tree_example.
#[local] Existing Instance blocks_example.

(** A machine with a GiB of memory, an image of 4 MiB at 1 MiB in which the boot tables and
    the guard page lie, and the boot information behind it. *)
Definition boot_section : ElfSection := mkElfSection 0xffffffff80100000 0xffffffff80500000 true true false.
Definition boot_information : BootInformation :=
  mkBootInformation 0x600000 0x601000 (Some [(0x100000, 0x40000000)]) (Some [boot_section]) [].
#[local] Abbreviation example_area := (0xffffffff80100000, 0xffffffff80500000).
Definition boot_base : Z := 0x200000.
Definition boot_kernel (m : gmap Z Z) : kernel := mkKernel (mkHeapState (Machine m boot_base 0 false [] (mkPhysicalAllocator None)) None) None None.

Lemma example_boots m : holds_tables boot_base m ->
  boots boot_information example_area [(0x100000, 0x40000000)] [boot_section] 0xffffffff80410 (boot_kernel m).
Proof.
  intros Hm. assert (boot_base mod 4096 = 0) as Hb by done. assert (0 <= boot_base < 2 ^ 47) as Hr by (unfold boot_base; lia).
  assert (boot_page example_area = 0xffffffff80501) as Ep by done.
  assert (stacks_page example_area = 0xffffffff82901) as Es by done.
  assert (boot_frame boot_information = 0x602) as Ef by done. assert (BOOT_BYTES = 4194296) as Eb by done.
  split.
  - done.
  - by apply boot_space_ok.
  - intros x Hx. apply (boot_is_table boot_base Hb Hr m Hm (mach (k_heap (boot_kernel m))) eq_refl eq_refl) in Hx.
    unfold boot_base, KERNEL_MAPPING_BEGIN in *. cbn [snd]. lia.
  - rewrite Ep, Es. intros n Hn. destruct (boot_mapping boot_base Hb Hr m Hm n ltac:(lia)) as [H1 H2].
    eexists. split; [exact H1|]. rewrite H2. unfold image_frame, KERNEL_MAPPING_BEGIN. lia.
  - by apply (boot_no_heap_page boot_base Hb Hr m Hm).
  - done.
  - done.
  - repeat constructor; simpl; lia.
  - rewrite Ef, Eb. unfold KERNEL_MAPPING_BEGIN. split; cbn [fst snd mb_start mb_end boot_information]; try done; try lia.
    + repeat constructor; simpl; lia.
    + simpl. lia.
    + repeat constructor; simpl; lia.
  - done.
  - constructor; [|constructor]. intros _. unfold KERNEL_MAPPING_BEGIN. cbn [sec_start sec_end boot_section]. split; [done|lia].
  - unfold KERNEL_MAPPING_BEGIN. cbn [snd]. lia.
  - exists boot_section. split; [by left|]. split; [done|]. cbn [sec_start sec_end boot_section]. lia.
Qed.

Lemma example_plenty n us c :
  usable_memory boot_information (mb_start boot_information, mb_end boot_information)
    (boot_frame boot_information * 4096, boot_frame boot_information * 4096 + BOOT_BYTES) example_area = Ret (n, us) ->
  c <= 100000 -> ~ too_few us c.
Proof.
  intros Eu Hc (l & Hl & Hin). vm_compute in Eu. injection Eu as <- <-.
  set (frames := (fun i => 0x1000000 + 4096 * i) <$> range_excl 0 100000).
  assert (frames ⊆+ l) as Hsub.
  { apply NoDup_submseteq.
    - apply NoDup_fmap_2_strong; [intros x y _ _ ?; lia|]. apply NoDup_seqZ.
    - intros x (i & -> & Hi%elem_of_range_excl)%list_elem_of_fmap. apply Hin.
      split; [Z.to_euclidean_division_equations; lia|]. eexists. split; [right; right; by left|]. unfold range_has. simpl. lia. }
  apply submseteq_length in Hsub. unfold frames in Hsub. rewrite length_fmap in Hsub. unfold range_excl in Hsub.
  rewrite length_seqZ in Hsub. lia.
Qed.


End examples.
