(* ===== verification/SharedSpace.v ===== *)
(** Two address spaces that share the kernel's half: what happens to the one while the
    other one is active. *)
From S2P Require Import Prelude Crates Machine FrameAlloc Paging Layout PageMap Friendly.
From S2P Require Import AddressSpace PagingLemmas PageMapLemmas MapperLemmas UnmapLemmas Heap HeapLemmas.
From S2P Require Import Storage StorageLemmas ActivePageMap ActivePageMapLemmas MemoryInit Cpu Process ProcessSpace.

(** The tables of [g] other than [g] itself are those of the kernel's half of [R]. *)
Record shares (m : gmap Z Z) (R g k : Z) : Prop := {
  sh_root : next_frame m R KERNEL_ENTRY = Some k;
  sh_entry : next_frame m g KERNEL_ENTRY = Some k;
  sh_paths q x : vpath q -> table_at m g q = Some x ->
    (q = [] /\ x = g) \/ exists q', q = KERNEL_ENTRY :: q' /\ table_at m R q = Some x
}.

Section two_spaces.
Context `{B : Build} `{X : X86_64Crate} `{F : BitflagsCrate}.
Context {P : Type} `{FA : FrameAllocator P} `{FS : !FrameAllocatorSpec P}.
Context (s s1 : machine P) (g fl k : Z) (T : Page -> Prop).
Context (Hinv : tables_inv s) (Hsh : shares (mem s) (cr3 s) g k) (Hg : ~ is_table s g).
Context (Hev : evolves T (set_cr3 g fl s) s1).
Context (HT : forall page, p4_index page = KERNEL_ENTRY -> ~ T page).
#[local] Abbreviation R := (cr3 s).
#[local] Abbreviation m := (mem s).
#[local] Abbreviation m1 := (mem s1).

(** Back on the first address space. *)
Definition returned : machine P := set_cr3 R (cr3_flags s) s1.

Lemma own_kept q f i :
  vpath q -> head q <> Some KERNEL_ENTRY -> table_at m R q = Some f -> idx i -> entry_at m1 f i = entry_at m f i.
Proof.
  intros Hq Hh Hf Hi. pose proof (so_rec _ _ (ti_space _ Hinv)) as Hrec.
  assert (frame_of (f + 8 * i) = f) as Ef.
  { apply frame_of_entry; [|done]. by apply (table_at_range _ _ Hrec q). }
  apply (ev_mem _ _ _ Hev); rewrite Ef; cbn [pmm set_cr3].
  - intros (q' & Hq' & Hx). cbn [mem cr3 set_cr3] in Hx.
    destruct (sh_paths _ _ _ _ Hsh q' f Hq' Hx) as [[-> ->]|(q'' & -> & Hx')]; [apply Hg; by exists q|].
    by rewrite (so_inj _ _ (ti_space _ Hinv) _ _ _ Hq Hq' Hf Hx') in Hh.
  - apply (ti_free _ Hinv). by exists q.
Qed.

Lemma own_table_at q : vpath q -> head q <> Some KERNEL_ENTRY -> table_at m1 R q = table_at m R q.
Proof.
  intros Hq Hh. apply table_at_ext. intros q' j h r -> Hx.
  assert (vpath (q' ++ [j])) as Hj by (apply (vpath_app _ r); by rewrite <- app_assoc).
  apply (own_kept q'); eauto with wolffia. by destruct q'.
Qed.

Lemma own_ent p i : vpath p -> head p <> Some KERNEL_ENTRY -> idx i -> ent m1 R p i = ent m R p i.
Proof.
  intros Hp Hh Hi. unfold ent. rewrite own_table_at by done. destruct (table_at m R p) as [f|] eqn:E; [|done].
  cbn. f_equal. by apply (own_kept p).
Qed.

Lemma returned_root : next_frame m1 R KERNEL_ENTRY = Some k.
Proof.
  rewrite <- (sh_root _ _ _ _ Hsh). unfold next_frame.
  by rewrite (own_kept [] R) by (apply vpath_nil || done || (unfold idx, KERNEL_ENTRY; lia)).
Qed.

Lemma returned_entry : next_frame m1 g KERNEL_ENTRY = Some k.
Proof.
  apply table_at_root. apply (ev_tables _ _ _ Hev [KERNEL_ENTRY] k kernel_path).
  apply table_at_root, (sh_entry _ _ _ _ Hsh).
Qed.

Lemma returned_shared q : table_at m1 R (KERNEL_ENTRY :: q) = table_at m1 g (KERNEL_ENTRY :: q).
Proof. symmetry. apply (shared_table_at m1 R g k returned_root returned_entry). Qed.

(** The pages of both address spaces are translated as before. *)
Lemma returned_walk page : p4_index page <> REC -> ref_walk m1 R page = ref_walk m R page.
Proof.
  intros Hr. destruct (decide (p4_index page = KERNEL_ENTRY)) as [Hk|Hk].
  - rewrite <- (shared_walk m1 R g k returned_root returned_entry page Hk).
    rewrite <- (shared_walk m R g k (sh_root _ _ _ _ Hsh) (sh_entry _ _ _ _ Hsh) page Hk).
    apply (ev_walk _ _ _ Hev); [done|by apply HT].
  - assert (Some (p4_index page) <> Some KERNEL_ENTRY) as Hh by congruence.
    unfold ref_walk, huge_walk. by rewrite !own_ent by auto with wolffia.
Qed.

Lemma returned_new x : is_table returned x -> is_table s x \/ (fa_free (pmm s) x /\ ~ fa_free (pmm s1) x).
Proof.
  intros (q & Hq & Hx). cbn [mem cr3 returned set_cr3] in Hx.
  destruct (decide (head q = Some KERNEL_ENTRY)) as [Hh|Hh].
  2:{ left. exists q. by rewrite <- own_table_at. }
  destruct q as [|i q]; [done|]. injection Hh as ->. rewrite returned_shared in Hx.
  pose proof (ev_inv _ _ _ Hev) as Hinv1. pose proof (ev_cr3 _ _ _ Hev) as Hc. cbn [cr3 set_cr3] in Hc.
  assert (is_table s1 x) as Hx1 by (exists (KERNEL_ENTRY :: q); by rewrite Hc).
  destruct (ev_new _ _ _ Hev x Hx1) as [(q' & Hq' & Hx')|Hf]; [|right; split; [done|by apply (ti_free _ Hinv1)]].
  cbn [mem cr3 set_cr3] in Hx'. left.
  destruct (sh_paths _ _ _ _ Hsh q' x Hq' Hx') as [[-> ->]|(q'' & -> & Hx'')]; [|by eexists].
  pose proof (ti_space _ Hinv1) as Hsp1. rewrite Hc in Hsp1.
  by pose proof (so_inj _ _ Hsp1 _ [] _ Hq Hq' Hx eq_refl).
Qed.

Lemma returned_free x : is_table returned x -> ~ fa_free (pmm s1) x.
Proof.
  intros [Hx|[_ ?]]%returned_new; [|done]. intros Hf%(ev_free _ _ _ Hev). by apply (ti_free _ Hinv x).
Qed.

Lemma returned_apart p q f : vpath p -> vpath (KERNEL_ENTRY :: q) -> head p <> Some KERNEL_ENTRY ->
  table_at m1 R p = Some f -> table_at m1 R (KERNEL_ENTRY :: q) = Some f -> False.
Proof.
  intros Hp Hq Hh Ep Eq. rewrite own_table_at in Ep by done. rewrite returned_shared in Eq.
  pose proof (ev_cr3 _ _ _ Hev) as Hc. cbn [cr3 set_cr3] in Hc.
  assert (is_table s1 f) as Hx1 by (exists (KERNEL_ENTRY :: q); by rewrite Hc).
  destruct (ev_new _ _ _ Hev f Hx1) as [(q' & Hq' & Hx')|Hf].
  - cbn [mem cr3 set_cr3] in Hx'. destruct (sh_paths _ _ _ _ Hsh q' f Hq' Hx') as [[-> ->]|(q'' & -> & Hx'')].
    + apply Hg. by exists p.
    + by rewrite (so_inj _ _ (ti_space _ Hinv) _ _ _ Hp Hq' Ep Hx'') in Hh.
  - apply (ti_free _ Hinv f); [by exists p|done].
Qed.

Lemma returned_space : space_ok m1 R.
Proof.
  pose proof (ev_cr3 _ _ _ Hev) as Hc. cbn [cr3 set_cr3] in Hc.
  pose proof (ti_space _ (ev_inv _ _ _ Hev)) as Hsp1. rewrite Hc in Hsp1.
  destruct (ti_space _ Hinv) as [Hrec Hwr Hinj].
  assert (forall i, idx i -> entry_at m1 R i = entry_at m R i) as Hroot by (intros i Hi; by apply (own_kept []); [apply vpath_nil|..]).
  split.
  - destruct Hrec. split; rewrite Hroot by (unfold idx, REC; lia); done.
  - intros p f i x Hp Hf Hn. destruct (decide (head p = Some KERNEL_ENTRY)) as [Hh|Hh].
    + destruct p as [|j p]; [done|]. injection Hh as ->. rewrite returned_shared in Hf.
      by apply (so_writable _ _ Hsp1 (KERNEL_ENTRY :: p) f i x).
    + pose proof (vpath_app _ _ Hp) as Hp'. rewrite own_table_at in Hf by done.
      assert (idx i) as Hi by (by eapply vpath_idx). unfold next_frame in Hn.
      rewrite (own_kept p f i) in * by done. by apply (Hwr p f i x).
  - intros p q f Hp Hq Ep Eq.
    destruct (decide (head p = Some KERNEL_ENTRY)) as [Hhp|Hhp], (decide (head q = Some KERNEL_ENTRY)) as [Hhq|Hhq].
    + destruct p as [|j p], q as [|j' q]; try done. injection Hhp as ->. injection Hhq as ->.
      rewrite returned_shared in Ep, Eq. by apply (so_inj _ _ Hsp1 _ _ f).
    + destruct p as [|j p]; [done|]. injection Hhp as ->. by destruct (returned_apart q p f).
    + destruct q as [|j q]; [done|]. injection Hhq as ->. by destruct (returned_apart p q f).
    + rewrite own_table_at in Ep, Eq by done. by apply (Hinj p q f).
Qed.

Lemma returned_inv : tables_inv returned.
Proof. split; [apply returned_space|apply Hev|apply returned_free]. Qed.

Lemma returned_clear page : p4_index page = KERNEL_ENTRY -> path_clear s page -> path_clear returned page.
Proof.
  intros Hk [H4 H3 H2]. assert (forall q, table_at m g (KERNEL_ENTRY :: q) = table_at m R (KERNEL_ENTRY :: q)) as Hs.
  { intros q. apply (shared_table_at m R g k); apply Hsh. }
  assert (p4_index page <> REC) as Hr by (rewrite Hk; done).
  pose proof (ev_cr3 _ _ _ Hev) as Hc. cbn [cr3 set_cr3] in Hc.
  assert (forall q i, vpath ((KERNEL_ENTRY :: q) ++ [i]) -> clear_entry s (KERNEL_ENTRY :: q) i ->
    clear_entry returned (KERNEL_ENTRY :: q) i) as Hcl.
  { intros q i Hq Hce e He. destruct (e_huge e) eqn:Eh; [|done]. rewrite <- Eh. apply Hce. unfold ent in *.
    cbn [mem cr3 returned set_cr3] in He. rewrite returned_shared in He. rewrite <- Hs.
    by apply (ev_huge _ _ _ Hev (KERNEL_ENTRY :: q) i e). }
  rewrite Hk in H4, H3, H2. split; rewrite ?Hk.
  - intros e He. apply H4. unfold ent in *. cbn [mem cr3 returned set_cr3 table_at fmap option_fmap option_map] in *.
    rewrite <- He. cbn. f_equal. symmetry. apply (own_kept []); [apply vpath_nil|done|done|]. unfold idx, KERNEL_ENTRY; lia.
  - apply Hcl; [|done]. rewrite <- Hk. by apply vpath_page_2.
  - apply Hcl; [|done]. rewrite <- Hk. by apply vpath_page_3.
Qed.

End two_spaces.

(** * The heap at work next to an address space that is not active *)

Section guest.
Context `{B : Build} `{X : X86_64Crate} `{F : BitflagsCrate}.
Context {P : Type} `{FA : FrameAllocator P} `{FS : !FrameAllocatorSpec P}.
Implicit Types s : machine P.

(** A frame that neither the tables of the active address space nor the heap use or may use. *)
Definition private s (x : Z) : Prop := ~ is_table s x /\ ~ loose s x.

Lemma private_moves s s' x : heap_moves s s' -> private s x -> private s' x.
Proof.
  intros Hm [H1 H2]. split; [intros [|]%(hm_new _ _ Hm); done|]. by intros ?%(hm_loose _ _ Hm).
Qed.

Lemma private_word s s' a : heap_moves s s' -> private s (frame_of a) -> word (mem s') a = word (mem s) a.
Proof. intros Hm [H1 H2]. by apply (hm_mem _ _ Hm). Qed.

(** The address space [g] shares the kernel's half with the active one; its other tables are its own. *)
Record guest s (g k : Z) : Prop := {
  gu_space : space_ok (mem s) g;
  gu_root : next_frame (mem s) (cr3 s) KERNEL_ENTRY = Some k;
  gu_entry : next_frame (mem s) g KERNEL_ENTRY = Some k;
  gu_own q x : vpath q -> head q <> Some KERNEL_ENTRY -> table_at (mem s) g q = Some x -> private s x
}.

Section moves.
Context (s s' : machine P) (g k fl : Z) (Hgu : guest s g k) (Hm : heap_moves s s') (Hinv : tables_inv s').
#[local] Abbreviation m := (mem s).
#[local] Abbreviation m' := (mem s').

Lemma guest_kept q x i :
  vpath q -> head q <> Some KERNEL_ENTRY -> table_at m g q = Some x -> idx i -> entry_at m' x i = entry_at m x i.
Proof.
  intros Hq Hh Hx Hi. apply (private_word s s' _ Hm).
  rewrite frame_of_entry; [by apply (gu_own _ _ _ Hgu q)| |done].
  by apply (table_at_range _ _ (so_rec _ _ (gu_space _ _ _ Hgu)) q).
Qed.

Lemma guest_table_at q : vpath q -> head q <> Some KERNEL_ENTRY -> table_at m' g q = table_at m g q.
Proof.
  intros Hq Hh. apply table_at_ext. intros q' j h r -> Hx.
  assert (vpath (q' ++ [j])) as Hj by (apply (vpath_app _ r); by rewrite <- app_assoc).
  apply (guest_kept q'); eauto with wolffia. by destruct q'.
Qed.

Lemma guest_ent p i : vpath p -> head p <> Some KERNEL_ENTRY -> idx i -> ent m' g p i = ent m g p i.
Proof.
  intros Hp Hh Hi. unfold ent. rewrite guest_table_at by done. destruct (table_at m g p) as [f|] eqn:E; [|done].
  cbn. f_equal. by apply (guest_kept p).
Qed.

(** The pages of its own half are translated as before. *)
Lemma guest_walk page : p4_index page <> REC -> p4_index page <> KERNEL_ENTRY -> ref_walk m' g page = ref_walk m g page.
Proof.
  intros Hr Hk. assert (Some (p4_index page) <> Some KERNEL_ENTRY) as Hh by congruence.
  unfold ref_walk, huge_walk. by rewrite !guest_ent by auto with wolffia.
Qed.

Lemma guest_clear page : p4_index page <> REC -> p4_index page <> KERNEL_ENTRY ->
  path_clear (set_cr3 g fl s) page -> path_clear (set_cr3 g fl s') page.
Proof.
  intros Hr Hk [H4 H3 H2]. assert (Some (p4_index page) <> Some KERNEL_ENTRY) as Hh by congruence.
  split; intros e He; cbn [mem cr3 set_cr3] in *; rewrite guest_ent in He by auto with wolffia; auto.
Qed.

Lemma guest_root_kept : next_frame m' (cr3 s') KERNEL_ENTRY = Some k.
Proof. apply table_at_root, (hm_paths _ _ Hm _ _ kernel_path), table_at_root, (gu_root _ _ _ Hgu). Qed.

Lemma guest_entry_kept : next_frame m' g KERNEL_ENTRY = Some k.
Proof.
  rewrite <- (gu_entry _ _ _ Hgu). unfold next_frame.
  by rewrite (guest_kept [] g) by (apply vpath_nil || done || (unfold idx, KERNEL_ENTRY; lia)).
Qed.

Lemma guest_shared q : table_at m' g (KERNEL_ENTRY :: q) = table_at m' (cr3 s') (KERNEL_ENTRY :: q).
Proof. apply (shared_table_at m' (cr3 s') g k guest_root_kept guest_entry_kept). Qed.

Lemma guest_own_kept q x : vpath q -> head q <> Some KERNEL_ENTRY -> table_at m' g q = Some x -> private s' x.
Proof. intros Hq Hh Hx. rewrite guest_table_at in Hx by done. by apply (private_moves s), (gu_own _ _ _ Hgu q). Qed.

Lemma guest_apart p q x : vpath p -> vpath (KERNEL_ENTRY :: q) -> head p <> Some KERNEL_ENTRY ->
  table_at m' g p = Some x -> table_at m' g (KERNEL_ENTRY :: q) = Some x -> False.
Proof.
  intros Hp Hq Hh Ep Eq. rewrite guest_shared in Eq. destruct (guest_own_kept p x Hp Hh Ep) as [Hn _].
  apply Hn. by exists (KERNEL_ENTRY :: q).
Qed.

Lemma guest_space_kept : space_ok m' g.
Proof.
  destruct (gu_space _ _ _ Hgu) as [Hrec Hwr Hinj]. pose proof (ti_space _ Hinv) as Hsp.
  assert (forall i, idx i -> entry_at m' g i = entry_at m g i) as Hroot by (intros i Hi; by apply (guest_kept []); [apply vpath_nil|..]).
  split.
  - destruct Hrec. split; rewrite Hroot by (unfold idx, REC; lia); done.
  - intros p f i x Hp Hf Hn. destruct (decide (head p = Some KERNEL_ENTRY)) as [Hh|Hh].
    + destruct p as [|j p]; [done|]. injection Hh as ->. rewrite guest_shared in Hf.
      by apply (so_writable _ _ Hsp (KERNEL_ENTRY :: p) f i x).
    + pose proof (vpath_app _ _ Hp) as Hp'. rewrite guest_table_at in Hf by done.
      assert (idx i) as Hi by (by eapply vpath_idx). unfold next_frame in Hn.
      rewrite (guest_kept p f i) in * by done. by apply (Hwr p f i x).
  - intros p q f Hp Hq Ep Eq.
    destruct (decide (head p = Some KERNEL_ENTRY)) as [Hhp|Hhp], (decide (head q = Some KERNEL_ENTRY)) as [Hhq|Hhq].
    + destruct p as [|j p], q as [|j' q]; try done. injection Hhp as ->. injection Hhq as ->.
      rewrite guest_shared in Ep, Eq. by apply (so_inj _ _ Hsp _ _ f).
    + destruct p as [|j p]; [done|]. injection Hhp as ->. by destruct (guest_apart q p f).
    + destruct q as [|j q]; [done|]. injection Hhq as ->. by destruct (guest_apart p q f).
    + rewrite guest_table_at in Ep, Eq by done. by apply (Hinj p q f).
Qed.

Lemma guest_moves : guest s' g k.
Proof. split; [apply guest_space_kept|apply guest_root_kept|apply guest_entry_kept|apply guest_own_kept]. Qed.

(** A table of the guest, seen from the active address space. *)
Lemma guest_table x : is_table (set_cr3 g fl s') x -> private s' x \/ is_table s' x.
Proof.
  intros (q & Hq & Hx). cbn [mem cr3 set_cr3] in Hx. destruct (decide (head q = Some KERNEL_ENTRY)) as [Hh|Hh].
  - destruct q as [|j q]; [done|]. injection Hh as ->. rewrite guest_shared in Hx. right. by eexists.
  - left. by apply (guest_own_kept q).
Qed.

Lemma guest_tables_inv : tables_inv (set_cr3 g fl s').
Proof.
  split; [apply guest_space_kept|apply Hinv|]. cbn [pmm set_cr3]. intros x [[_ Hl]|Hx]%guest_table.
  - intros Hf. apply Hl. by left.
  - by apply (ti_free _ Hinv).
Qed.

(** A private frame that is no table of the guest does not become one. *)
Lemma guest_data x : private s x -> ~ is_table (set_cr3 g fl s) x -> ~ is_table (set_cr3 g fl s') x.
Proof.
  intros Hp Hn (q & Hq & Hx). cbn [mem cr3 set_cr3] in Hx. destruct (decide (head q = Some KERNEL_ENTRY)) as [Hh|Hh].
  - destruct q as [|j q]; [done|]. injection Hh as ->. rewrite guest_shared in Hx.
    apply (proj1 (private_moves s s' x Hm Hp)). by eexists.
  - apply Hn. exists q. by rewrite guest_table_at in Hx.
Qed.

End moves.

End guest.
