(* ===== verification/SpawnTheorems.v ===== *)
(** The address space of a new process and the loader as a whole: what
    [new_process_page_tables] and [spawn_from_elf] ([process.rs]) leave behind. *)
From S2P Require Import Prelude Crates Machine FrameAlloc Paging Layout PageMap AddressSpace.
From S2P Require Import PagingLemmas PageMapLemmas MapperLemmas UnmapLemmas Bytes Friendly FriendlyExample Heap.
From S2P Require Import BootstrapHeap PhysicalAllocator ActivePageMap ActivePageMapLemmas MemoryInit Cpu CpuTheorems.
From S2P Require Import AllocatorTheorems PagingTheorems HeapTheorems Process ProcessLemmas ProcessTheorems.
From S2P Require Import HeapLemmas Storage StorageLemmas ProcessSpace SharedSpace.

Section spawn.
Context `{B : Build} `{X : X86_64Crate} `{F : BitflagsCrate}.
Context {P : Type} `{FA : FrameAllocator P} `{FS : !FrameAllocatorSpec P}.
Context `{T : FriendlyTree HEAP_LEVELS HEAP_BASE_ORDER} `{FC : FriendlyCrate}.
Context `{G : GoblinCrate} `{DM : DashMapCrate} `{BF : BitFieldCrate}.
Implicit Types (h : heap_state P tree) (s : machine P).

(** * The new address space *)

Section new_space.
Context (h h' : heap_state P tree) (t t' : tree) (g fl : Z) (Hpt : process_tables h t h' t' g).
#[local] Abbreviation s := (mach h').

Lemma new_space_inv : tables_inv s.
Proof. destruct (pt_back _ _ _ _ _ Hpt) as [page Hb]. apply (hi_pages _ _ (hb_inv _ _ _ _ _ _ Hb)). Qed.

Lemma new_space_range : g mod 4096 = 0 /\ 0 <= g < 2 ^ 40.
Proof. apply (fa_live_range (pmm s)); [apply new_space_inv|apply Hpt]. Qed.

Lemma new_space_fresh q : vpath q -> table_at (mem s) (cr3 s) q <> Some g.
Proof. intros Hq Hc. apply (pt_data _ _ _ _ _ Hpt). by exists q. Qed.

Lemma new_space_shares : exists k, shares (mem s) (cr3 s) g k /\ space_ok (mem s) g.
Proof.
  destruct (pt_entries _ _ _ _ _ Hpt) as (v & k & Hent & Hke). exists k. destruct new_space_range as [Hg Hr].
  pose proof (filled_share _ _ _ _ _ Hke Hent) as Hsh.
  assert (forall i, idx i -> i <> REC -> i <> KERNEL_ENTRY -> e_present (entry_at (mem s) g i) = false) as Hemp.
  { intros i Hi H1 H2. by rewrite (filled_empty _ _ _ Hent). }
  split; [split; [apply Hke|done|]|].
  - intros q x. apply (shared_path (mem s) (cr3 s) g k); [apply Hke|done|done].
  - apply (shared_space_ok (mem s) (cr3 s) g k); try done.
    + apply new_space_inv.
    + by apply (filled_rec _ _ v); [|lia|].
    + apply Hke.
    + by apply (filled_writable _ (cr3 s) _ v k).
    + apply new_space_fresh.
Qed.

Lemma new_space_tables : tables_inv (set_cr3 g fl s).
Proof.
  destruct new_space_shares as (k & Hsh & Hsp). pose proof new_space_inv as Hinv. split; [done|apply Hinv|].
  intros x (q & Hq & Hx). cbn [mem cr3 pmm set_cr3] in *.
  destruct (sh_paths _ _ _ _ Hsh q x Hq Hx) as [[-> ->]|(q' & -> & Hx')].
  - apply (fa_live_not_free _ _ 0 g (ti_fa _ Hinv) (pt_live _ _ _ _ _ Hpt)). by apply in_block_0.
  - apply (ti_free _ Hinv). by exists (KERNEL_ENTRY :: q').
Qed.

(** Nothing of the user half is mapped, and no huge page is in the way. *)
Lemma new_space_empty page : p4_index page <> REC -> p4_index page <> KERNEL_ENTRY ->
  ref_walk (mem s) g page = Ret None /\ path_clear (set_cr3 g fl s) page.
Proof.
  intros H1 H2. destruct (pt_entries _ _ _ _ _ Hpt) as (v & k & Hent & Hke).
  assert (entry_at (mem s) g (p4_index page) = 0) as H0 by (apply (filled_empty _ _ _ Hent); auto with wolffia).
  assert (forall q, table_at (mem s) g (p4_index page :: q) = None) as Hn.
  { intros q. cbn [table_at]. unfold next_frame. by rewrite H0. }
  split.
  - unfold ref_walk, huge_walk, ent. by rewrite !Hn.
  - split; intros e He; unfold ent in He; cbn [mem cr3 set_cr3] in He; rewrite ?Hn in He; [|done..].
    cbn [table_at] in He. injection He as <-. by rewrite H0.
Qed.

End new_space.

(** C26: [new_process_page_tables]. From a heap with room for a page, the kernel gets a P4
    table [g] in a frame that was free: well formed, with its recursive entry, the
    kernel's entry of the active address space and nothing else, so that the kernel's
    pages are translated alike and no page of the user half is mapped. The temporary
    page is given back: the heap is as before, every page of the active address space
    is translated as before, frames in use stay in use and keep their contents. The
    only other outcome is a panic when fewer than fourteen frames are free. *)
Theorem new_process_page_tables_correct h t :
  heap_inv h t -> page_block t ->
  (exists g h' t', new_process_page_tables h = Ret (mkInactivePageMap g (cr3_flags (mach h)), h') /\
     heap_inv h' t' /\ (forall x, tree_free t' x <-> tree_free t x) /\
     (forall f k, tree_live t' f k <-> tree_live t f k) /\
     cr3 (mach h') = cr3 (mach h) /\
     (forall page, p4_index page <> REC ->
        ref_walk (mem (mach h')) (cr3 (mach h)) page = ref_walk (mem (mach h)) (cr3 (mach h)) page) /\
     fa_free (pmm (mach h)) g /\ fa_live (pmm (mach h')) g 0 /\ ~ is_table (mach h') g /\
     (forall f k, fa_live (pmm (mach h)) f k -> fa_live (pmm (mach h')) f k) /\
     (forall a, ~ is_table (mach h) (frame_of a) -> ~ fa_free (pmm (mach h)) (frame_of a) ->
        word (mem (mach h')) a = word (mem (mach h)) a) /\
     tables_inv (set_cr3 g (cr3_flags (mach h)) (mach h')) /\
     (forall i, idx i -> i <> 510 -> i <> 511 -> entry_at (mem (mach h')) g i = 0) /\
     (forall page, p4_index page = 511 ->
        ref_walk (mem (mach h')) g page = ref_walk (mem (mach h)) (cr3 (mach h)) page) /\
     (forall page, p4_index page < 510 -> ref_walk (mem (mach h')) g page = Ret None)) \/
  (exists msg, new_process_page_tables h = Stop (Panic msg) /\ short_of 14 (mach h)).
Proof.
  intros Hinv Hblk. destruct (new_process_page_tables_spec h t Hinv Hblk) as [(g & h' & t' & E & Hpt)|H];
    [left|by right].
  exists g, h', t'. destruct (pt_back _ _ _ _ _ Hpt) as [page0 Hb]. destruct (hb_keeps _ _ _ _ _ _ Hb).
  destruct (new_space_shares _ _ _ _ _ Hpt) as (k & Hsh & _).
  assert (forall page, p4_index page <> REC ->
        ref_walk (mem (mach h')) (cr3 (mach h)) page = ref_walk (mem (mach h)) (cr3 (mach h)) page) as Hw.
  { intros page Hp. rewrite <- tk_cr3 at 1. by apply (hb_walk _ _ _ _ _ _ Hb). }
  split_and!; [done|apply (hb_inv _ _ _ _ _ _ Hb)|apply (hb_free _ _ _ _ _ _ Hb)|apply (hb_live _ _ _ _ _ _ Hb)|
    done|done|apply (pt_was_free _ _ _ _ _ Hpt)|apply (pt_live _ _ _ _ _ Hpt)|apply (pt_data _ _ _ _ _ Hpt)|done|..].
  - intros a H1 H2. apply tk_mem; [by intros []|done|done].
  - by apply (new_space_tables h h' t t').
  - destruct (pt_entries _ _ _ _ _ Hpt) as (v & k' & Hent & _). intros i Hi H1 H2. by apply (filled_empty _ _ _ Hent).
  - intros page Hp. rewrite <- Hw by (rewrite Hp; done). rewrite <- tk_cr3.
    apply (shared_walk _ _ _ k); [apply Hsh|apply Hsh|done].
  - intros page Hp. apply (new_space_empty h h' t t' g 0 Hpt page); unfold REC, KERNEL_ENTRY; lia.
Qed.

(** * Loading into it *)

(** What the loader needs to know of the program headers: the segments are not empty,
    do not reach address 0 and do not share pages. *)
Record headers_ok (ps : list ProgramHeader) : Prop := {
  hs_ok : Forall (fun p => p_type p = PT_LOAD -> header_ok p) ps;
  hs_separate : separate ps;
  hs_file : Forall (fun p => 0 <= (file_range p).1) ps
}.

Lemma user_page_p4 n : 0 <= n <= STACK_LAST -> p4_index (page_no n) < 256.
Proof.
  unfold STACK_LAST. intros Hn. unfold p4_index. cbn [number page_no]. rewrite va_index_alt by lia.
  Z.to_euclidean_division_equations. lia.
Qed.

Lemma user_bound n b : 0 <= n <= b -> b <= LAST_USER_PAGE -> 0 <= n <= STACK_LAST.
Proof. unfold LAST_USER_PAGE, STACK_LAST. lia. Qed.

Lemma user_pages_not_kernel ps page : headers_ok ps -> p4_index page = KERNEL_ENTRY -> ~ pages_of ps page.
Proof.
  intros Hps Hk (p & Hp & Ht & Hu & n & Hn & Hs). pose proof (hs_ok _ Hps) as Ho.
  rewrite list.Forall_forall in Ho. destruct (header_pages p (Ho p Hp Ht)) as (Hf & _). unfold user_range_ok in Hu.
  assert (p4_index (page_no n) < 256) as Hlt by (apply user_page_p4, (user_bound n (last_page p)); lia).
  destruct Hs as [Hs _]. rewrite Hs, Hk in Hlt. done.
Qed.

Section load.
Context (h h' : heap_state P tree) (t t' : tree) (g fl : Z) (Hpt : process_tables h t h' t' g).
Context (data : list Z) (ps : list ProgramHeader).
Context (Hdata : Forall (fun x => 0 <= x < 256) data) (Hps : headers_ok ps).
#[local] Abbreviation sg := (set_cr3 g fl (mach h')).

Lemma new_space_loadable : Forall (loadable sg) ps.
Proof.
  apply list.Forall_forall. intros p Hp Ht. pose proof (hs_ok _ Hps) as Ho. rewrite list.Forall_forall in Ho.
  split; [by apply Ho|]. intros Hu n Hn. destruct (header_pages p (Ho p Hp Ht)) as (Hf & _). unfold user_range_ok in Hu.
  assert (p4_index (page_no n) < 256) by (apply user_page_p4, (user_bound n (last_page p)); lia).
  apply (new_space_empty h h' t t' g fl Hpt); unfold REC, KERNEL_ENTRY; lia.
Qed.

Lemma load_new_space : exists (r : result unit ElfLaunchError) s1,
  with_inactive (mkInactivePageMap g fl) (load_segments data ps) (mach h') =
    Ret (match r with Ok _ => Ok (mkInactivePageMap g fl) | Err e => Err e end, returned (mach h') s1) /\
  evolves (pages_of ps) sg s1 /\
  match r with
  | Ok _ => Forall (segment_in s1 data) ps /\ takes (14 + frames_needed ps) (mach h) s1 /\
      Forall (fun p => p_type p = PT_LOAD -> segment_fresh (pmm (mach h')) s1 p) ps
  | Err e => (exists p, p ∈ ps /\ p_type p = PT_LOAD /\ segment_error data p e) /\
      (e = ElfInvalidPage TryOutOfMemory -> short_of (14 + frames_needed ps) (mach h))
  end.
Proof.
  destruct (load_segments_spec sg ps data (new_space_tables h h' t t' g fl Hpt) Hdata new_space_loadable
              (hs_separate _ Hps)) as (r & s1 & E & Hev & Hr).
  exists r, s1. split; [|split; [done|]].
  - by apply (with_inactive_ret _ (mkInactivePageMap g fl)); [|apply Hev..].
  - destruct r as [u|e]; [split_and!; [apply Hr| |apply Hr]; apply (takes_trans 14 _ _ (mach h')); [apply Hpt|apply Hr]|]. destruct Hr as [He Hs]. split; [done|]. intros Eo.
    apply (short_of_takes 14 _ _ (mach h')); [apply Hpt|]. by apply Hs.
Qed.

Lemma loaded_heap s1 : evolves (pages_of ps) sg s1 ->
  heap_inv (mkHeapState (returned (mach h') s1) (htree h')) t' /\
  forall page, p4_index page <> REC ->
    ref_walk (mem s1) (cr3 (mach h')) page = ref_walk (mem (mach h')) (cr3 (mach h')) page.
Proof.
  intros Hev. destruct (pt_back _ _ _ _ _ Hpt) as [page0 Hb]. pose proof (hb_inv _ _ _ _ _ _ Hb) as Hi.
  destruct (new_space_shares _ _ _ _ _ Hpt) as (k & Hsh & _). pose proof (new_space_inv _ _ _ _ _ Hpt) as Hinv.
  pose proof (fun page => user_pages_not_kernel ps page Hps) as HT. pose proof (pt_data _ _ _ _ _ Hpt) as Hg.
  pose proof (returned_walk (mach h') s1 g fl k _ Hinv Hsh Hg Hev HT) as Hw. split; [|done].
  apply (heap_inv_transfer h' t'); cbn [mach htree]; try done; try apply Hi.
  - by apply (returned_inv (mach h') s1 g fl k (pages_of ps)).
  - intros i Hidx. apply (returned_clear (mach h') s1 g fl k (pages_of ps)); try done.
    + by apply hpage_p4.
    + by apply (hp_clear _ (hi_pages _ _ Hi)).
  - intros i Hidx. apply Hw, hpage_ok, Hidx.
  - intros i e Hidx He. apply (ev_live _ _ _ Hev). by apply (hp_frame _ (hi_pages _ _ Hi) i e Hidx He).
  - intros x [?|[? _]]%(returned_new (mach h') s1 g fl k (pages_of ps) Hinv Hsh Hg Hev); [by left|by right].
Qed.

(** Loading touches neither the heap nor the active address space. *)
Lemma loaded_moves s1 : heap_inv h t -> evolves (pages_of ps) sg s1 -> heap_moves (mach h) (returned (mach h') s1).
Proof.
  intros Hih Hev. destruct (pt_back _ _ _ _ _ Hpt) as [page0 Hb]. destruct (hb_keeps _ _ _ _ _ _ Hb).
  destruct (new_space_shares _ _ _ _ _ Hpt) as (k & Hsh & _). pose proof (new_space_inv _ _ _ _ _ Hpt) as Hinv.
  pose proof (fun page => user_pages_not_kernel ps page Hps) as HT. pose proof (pt_data _ _ _ _ _ Hpt) as Hg.
  pose proof (returned_walk (mach h') s1 g fl k _ Hinv Hsh Hg Hev HT) as Hw.
  assert (forall page, p4_index page <> REC -> ref_walk (mem (returned (mach h') s1)) (cr3 (returned (mach h') s1)) page =
    ref_walk (mem (mach h)) (cr3 (mach h)) page) as Hwalk.
  { intros page Hr. cbn [mem cr3 returned set_cr3]. rewrite Hw by done. by apply (hb_walk _ _ _ _ _ _ Hb). }
  split; cbn [cr3 cr3_flags cr0_wp mem pmm returned set_cr3]; try done.
  - by rewrite (ev_wp _ _ _ Hev).
  - intros q x Hq Hx. apply tk_paths in Hx; [|done]. destruct (decide (head q = Some KERNEL_ENTRY)) as [Hh|Hh].
    + destruct q as [|j q]; [done|]. injection Hh as ->. rewrite (returned_shared (mach h') s1 g fl k (pages_of ps)) by done.
      apply (ev_tables _ _ _ Hev); [done|]. cbn [mem cr3 set_cr3].
      rewrite (shared_table_at _ (cr3 (mach h')) g k); [done|apply Hsh|apply Hsh].
    + by rewrite (own_table_at (mach h') s1 g fl k (pages_of ps)).
  - intros x [Hx|[Hx _]]%(returned_new (mach h') s1 g fl k (pages_of ps) Hinv Hsh Hg Hev).
    + apply tk_new in Hx as [|]; [by left|right; by left].
    + right. left. auto.
  - auto.
  - intros x [Hx|(i & e & Hi & He & ->)]; [left; by apply tk_free, (ev_free _ _ _ Hev)|]. right. exists i, e. split_and!; [apply Hi..| |done].
    unfold page_mapped, small_mapping in *. rewrite Hwalk in He; [done|apply hpage_ok, Hi].
  - intros x Hx _. by apply (ev_live _ _ _ Hev), tk_live.
  - intros a H1 H2. assert (~ fa_free (pmm (mach h)) (frame_of a)) as Hf by (intros ?; apply H2; by left).
    rewrite (ev_mem _ _ _ Hev); cbn [mem pmm set_cr3].
    + apply tk_mem; [by intros []|done|done].
    + intros (q & Hq & Hx). cbn [mem cr3 set_cr3] in Hx. destruct (sh_paths _ _ _ _ Hsh q _ Hq Hx) as [[-> Eg]|(q' & -> & Hx')].
      * apply Hf. rewrite Eg. apply Hpt.
      * destruct (tk_new (frame_of a)) as [|]; [by eexists|done|done].
    + auto.
Qed.

(** The frames of a page of the heap were in use when the process's own frames were free. *)
Lemma heap_frame_used s1 x : heap_inv h t -> evolves (pages_of ps) sg s1 -> heap_frame (returned (mach h') s1) x ->
  ~ fa_free (pmm (mach h)) x /\ ~ fa_free (pmm (mach h')) x.
Proof.
  intros Hih Hev (i & e & Hi & He & ->). destruct (pt_back _ _ _ _ _ Hpt) as [page0 Hb].
  destruct (loaded_heap s1 Hev) as [_ Hw]. unfold page_mapped, small_mapping in He. cbn [mem cr3 returned set_cr3] in He.
  rewrite Hw in He by (apply hpage_ok, Hi). fold (small_mapping (mem (mach h')) (cr3 (mach h')) (hpage i) e) in He.
  fold (page_mapped (mach h') i e) in He. pose proof (hb_inv _ _ _ _ _ _ Hb) as Hi'.
  destruct (hp_frame _ (hi_pages _ _ Hi') i e Hi He) as (Hl & _).
  assert (~ fa_free (pmm (mach h')) (e_addr e)) as Hn.
  { apply (fa_live_not_free _ _ 0 _ (ti_fa _ (hp_tables _ (hi_pages _ _ Hi'))) Hl). by apply in_block_0. }
  split; [|done]. unfold page_mapped, small_mapping in He. rewrite (hb_walk _ _ _ _ _ _ Hb) in He by (apply hpage_ok, Hi).
  destruct (hp_frame _ (hi_pages _ _ Hih) i e Hi He) as (Hl' & _).
  apply (fa_live_not_free _ _ 0 _ (ti_fa _ (hp_tables _ (hi_pages _ _ Hih))) Hl'). by apply in_block_0.
Qed.

(** The new address space has its tables and its segments to itself. *)
Lemma loaded_guest s1 : heap_inv h t -> evolves (pages_of ps) sg s1 -> exists k, guest (returned (mach h') s1) g k.
Proof.
  intros Hih Hev. destruct (new_space_shares _ _ _ _ _ Hpt) as (k & Hsh & _). exists k.
  pose proof (new_space_inv _ _ _ _ _ Hpt) as Hinv. pose proof (pt_data _ _ _ _ _ Hpt) as Hg.
  pose proof (ev_cr3 _ _ _ Hev) as Hc. cbn [cr3 set_cr3] in Hc.
  split; cbn [mem cr3 returned set_cr3].
  - rewrite <- Hc. apply Hev.
  - by apply (returned_root (mach h') s1 g fl k (pages_of ps)).
  - by apply (returned_entry (mach h') s1 g fl k (pages_of ps)).
  - intros q x Hq Hh Hx. assert (is_table s1 x) as Hx1 by (exists q; by rewrite Hc).
    assert (x = g \/ fa_free (pmm (mach h')) x) as Hx0.
    { destruct (ev_new _ _ _ Hev x Hx1) as [(q' & Hq' & Hx')|]; [|by right]. cbn [mem cr3 set_cr3] in Hx'.
      destruct (sh_paths _ _ _ _ Hsh q' x Hq' Hx') as [[-> ->]|(q'' & -> & Hx'')]; [by left|].
      pose proof (ev_tables _ _ _ Hev _ _ Hq' Hx') as Hx2. cbn [mem cr3 set_cr3] in Hx2.
      pose proof (ti_space _ (ev_inv _ _ _ Hev)) as Hsp. rewrite Hc in Hsp.
      by rewrite (so_inj _ _ Hsp _ _ _ Hq Hq' Hx Hx2) in Hh. }
    split.
    + intros (q' & Hq' & Hx'). cbn [mem cr3 returned set_cr3] in Hx'. destruct (decide (head q' = Some KERNEL_ENTRY)) as [Hh'|Hh'].
      * destruct q' as [|j q']; [done|]. injection Hh' as ->.
        rewrite (returned_shared (mach h') s1 g fl k (pages_of ps)) in Hx' by done.
        pose proof (ti_space _ (ev_inv _ _ _ Hev)) as Hsp. rewrite Hc in Hsp.
        by rewrite (so_inj _ _ Hsp _ _ _ Hq Hq' Hx Hx') in Hh.
      * rewrite (own_table_at (mach h') s1 g fl k (pages_of ps)) in Hx' by done.
        assert (is_table (mach h') x) as Ht by (by exists q'). destruct Hx0 as [->|Hf]; [done|]. by apply (ti_free _ Hinv x).
    + intros [Hf|Hf]; [by apply (ti_free _ (ev_inv _ _ _ Hev) x)|].
      destruct (heap_frame_used s1 x Hih Hev Hf) as [H1 H2]. destruct Hx0 as [->|]; [|done]. apply H1, Hpt.
Qed.

(** The frame behind every page of a segment is private. *)
Definition segment_private (s : machine P) (q : ProgramHeader) : Prop :=
  p_type q = PT_LOAD -> forall n e, first_page q <= n <= last_page q ->
    small_mapping (mem s) g (page_no n) e -> private s (e_addr e).

Lemma loaded_private s1 q : heap_inv h t -> evolves (pages_of ps) sg s1 -> segment_in s1 data q ->
  (p_type q = PT_LOAD -> segment_fresh (pmm (mach h')) s1 q) -> segment_private (returned (mach h') s1) q.
Proof.
  intros Hih Hev Hin Hfr Ht n e Hn He. destruct (Hin Ht) as (_ & src & en & _ & _ & [Har Hen _]).
  pose proof (ev_cr3 _ _ _ Hev) as Hc. cbn [cr3 set_cr3] in Hc. unfold small_mapping in He. cbn [mem returned set_cr3] in He. rewrite <- Hc in He.
  pose proof (Hfr Ht n e Hn He) as Hf. pose proof (new_space_inv _ _ _ _ _ Hpt) as Hinv.
  destruct (new_space_shares _ _ _ _ _ Hpt) as (k & Hsh & _). pose proof (pt_data _ _ _ _ _ Hpt) as Hg.
  pose proof (ar_map _ _ _ _ Har n Hn) as Hm. unfold small_mapping in Hm. rewrite Hm in He. injection He as <-.
  split.
  - intros (q' & Hq' & Hx'). cbn [mem cr3 returned set_cr3] in Hx'. destruct (decide (head q' = Some KERNEL_ENTRY)) as [Hh'|Hh'].
    + destruct q' as [|j q']; [done|]. injection Hh' as ->.
      rewrite (returned_shared (mach h') s1 g fl k (pages_of ps)) in Hx' by done.
      apply (ar_data _ _ _ _ Har n Hn). eexists. split; [exact Hq'|]. by rewrite Hc.
    + rewrite (own_table_at (mach h') s1 g fl k (pages_of ps)) in Hx' by done.
      apply (ti_free _ Hinv (e_addr (en n))); [by exists q'|done].
  - intros [Hx|Hx].
    + destruct (Hen n Hn) as (f & Ef & Hal & Hr & _ & Hnf). rewrite Ef in Hx.
      destruct (leaf_entry_facts f (segment_flags q) Hal Hr (segment_flags_ok q)) as (Ea & _). by rewrite Ea in Hx.
    + by destruct (heap_frame_used s1 _ Hih Hev Hx).
Qed.

End load.

(** A loaded segment stays while the heap is used. *)
Lemma segment_in_moves (s s' : machine P) g k fl data q : guest s g k -> heap_moves s s' -> tables_inv s' ->
  (p_type q = PT_LOAD -> header_ok q) -> segment_private g s q ->
  segment_in (set_cr3 g fl s) data q -> segment_in (set_cr3 g fl s') data q /\ segment_private g s' q.
Proof.
  intros Hgu Hm Hinv Hh Hpr Hin.
  assert (p_type q = PT_LOAD -> forall n, first_page q <= n <= last_page q -> ref_walk (mem s') g (page_no n) = ref_walk (mem s) g (page_no n)) as Hw.
  { intros Ht n Hn. destruct (Hin Ht) as (Hu & _), (header_pages q (Hh Ht)) as (Hf & _). unfold user_range_ok in Hu.
    assert (p4_index (page_no n) < 256) by (apply user_page_p4, (user_bound n (last_page q)); lia).
    apply (guest_walk s s' g k); unfold REC, KERNEL_ENTRY; done || lia. }
  split.
  - intros Ht. destruct (Hin Ht) as (Hu & src & en & H1 & H2 & [[A1 A2 A3 A4] He Hb]). split; [done|]. exists src, en. split_and!; [done|done|].
    assert (forall n, first_page q <= n <= last_page q -> private s (e_addr (en n))) as Hp.
    { intros n Hn. apply (Hpr Ht n); [done|]. by apply A2. }
    split.
    + split; [done| | |done].
      * intros n Hn. unfold small_mapping. cbn [mem cr3 set_cr3]. rewrite Hw by done. by apply A2.
      * intros n Hn. apply (guest_data s s' g k fl); auto.
    + intros n Hn. destruct (He n Hn) as (f & E & Hal & Hr & Hl & Hf). exists f. cbn [pmm set_cr3] in *.
      pose proof (Hp n Hn) as Hpn. rewrite E in Hpn.
      destruct (leaf_entry_facts f (segment_flags q) Hal Hr (segment_flags_ok q)) as (Ea & _). rewrite Ea in Hpn.
      split_and!; [done|done|lia|lia| |].
      * apply (hm_live _ _ Hm); [done|]. intros Hx. apply (proj2 Hpn). by right.
      * intros Hx. apply (proj2 (private_moves s s' f Hm Hpn)). by left.
    + intros x Hx. rewrite (Hb x Hx). f_equal. unfold mem_byte. f_equal. cbn [mem set_cr3]. symmetry.
      apply (private_word s s' _ Hm). rewrite frame_word, frame_phys. apply Hp. by apply segment_byte_page.
  - intros Ht n e Hn He. unfold small_mapping in He. rewrite Hw in He by done. apply (private_moves s s' _ Hm). by apply (Hpr Ht n).
Qed.

(** * Spawning *)

(** The image is one the kernel runs. *)
Definition accepted (elf : Elf) : Prop :=
  is_lib elf = false /\ 0 < entry elf < two64 /\ is_64 elf = true /\ libraries elf = [].

(** The check of the entry point lets exactly the addresses below [2 ^ 48] pass. *)
Lemma entry_check e : 0 < e < two64 ->
  (Z.shiftr e 63 =? 1) || bool_decide (VirtAddr_try_new e = None) = (2 ^ 48 <=? e) /\
  (e < 2 ^ 48 -> VirtAddr_new e = Ret (sign_extend_47 e)).
Proof.
  intros He. rewrite Z.shiftr_div_pow2 by lia. destruct (Z.leb_spec (2 ^ 48) e) as [Hl|Hl].
  - split; [|lia]. apply orb_true_iff. destruct (decide (2 ^ 63 <= e)) as [H63|H63].
    + left. apply Z.eqb_eq. Z.to_euclidean_division_equations. lia.
    + right. apply bool_decide_eq_true. apply VirtAddr_try_new_err; [lia| |done].
      unfold canonical, sign_extend_47. apply Z.eqb_neq. pose proof (Z.mod_pos_bound e (2 ^ 48) ltac:(lia)).
      destruct (Z.testbit e 47); lia.
  - assert (VirtAddr_try_new e = Some (sign_extend_47 e)) as Ht by (apply VirtAddr_try_new_ok; [lia|by right]).
    split.
    + rewrite Ht, Z.div_small by lia. done.
    + intros _. destruct (VirtAddr_new_spec e) as [msg ->]. by rewrite Ht.
Qed.

(** The machine with the address space of the process active. *)
Definition space_of (p : Process) (s : proc_state (P := P)) : machine P :=
  set_cr3 (p4_frame (page_tables p)) (im_flags (page_tables p)) (mach (ps_heap s)).

(** The address space of the process: every segment is there as the image has it, the
    kernel's pages are those of the active address space, nothing else is mapped, and
    the pages of the stack can be mapped. *)
Record spawned (data : list Z) (elf : Elf) (p : Process) (s : proc_state (P := P)) : Prop := {
  sp_tables : tables_inv (space_of p s);
  sp_segments q : q ∈ program_headers elf -> p_type q = PT_LOAD ->
    user_range_ok (first_page q) (last_page q) = true /\ segment_visible (space_of p s) data q;
  sp_loaded : Forall (segment_in (space_of p s) data) (program_headers elf);
  sp_kernel page : p4_index page = 511 ->
    ref_walk (mem (space_of p s)) (cr3 (space_of p s)) page =
    ref_walk (mem (mach (ps_heap s))) (cr3 (mach (ps_heap s))) page;
  sp_nothing page : p4_index page < 510 -> ~ pages_of (program_headers elf) page ->
    ref_walk (mem (space_of p s)) (cr3 (space_of p s)) page = Ret None;
  sp_stack n : STACK_FIRST <= n <= STACK_LAST -> path_clear (space_of p s) (page_no n)
}.

Lemma spawned_intro h t h' t' g fl data elf s1 ps np tss :
  process_tables h t h' t' g -> headers_ok (program_headers elf) ->
  evolves (pages_of (program_headers elf)) (set_cr3 g fl (mach h')) s1 ->
  Forall (segment_in s1 data) (program_headers elf) ->
  forall ip io n tb,
  spawned data elf (mkProcess (mkInactivePageMap g fl) STACK_TOP ip io n)
    (mkProcState (mkHeapState (returned (mach h') s1) (htree h')) ps np tss tb).
Proof.
  intros Hpt Hps Hev Hseg ip io n tb. set (p := mkProcess _ _ _ _ _). set (s := mkProcState _ _ _ _ _).
  assert (space_of p s = s1) as Es.
  { pose proof (ev_cr3 _ _ _ Hev) as H1. pose proof (ev_cr3_flags _ _ _ Hev) as H2. cbn in H1, H2.
    unfold space_of. cbn. rewrite <- H1, <- H2. by destruct s1. }
  assert (cr3 s1 = g) as Hc by apply (ev_cr3 _ _ _ Hev).
  destruct (new_space_shares _ _ _ _ _ Hpt) as (k & Hsh & _). pose proof (new_space_inv _ _ _ _ _ Hpt) as Hinv.
  pose proof (pt_data _ _ _ _ _ Hpt) as Hg.
  pose proof (fun page => new_space_empty h h' t t' g fl Hpt page) as Hemp.
  split; rewrite ?Es; cbn [ps_heap mach s].
  - apply Hev.
  - rewrite list.Forall_forall in Hseg. intros q Hq Ht. destruct (Hseg q Hq Ht) as (Hu & src & en & H1 & H2 & H3).
    split; [done|]. pose proof (hs_file _ Hps) as Hf. rewrite list.Forall_forall in Hf.
    apply (loaded_visible s1 data q src en); auto. apply Hev.
  - done.
  - intros page Hp. rewrite Hc. apply (shared_walk _ _ _ k); [| |done].
    + by apply (returned_root (mach h') s1 g fl k (pages_of (program_headers elf))).
    + by apply (returned_entry (mach h') s1 g fl k (pages_of (program_headers elf))).
  - intros page Hp Hn. rewrite (ev_cr3 _ _ _ Hev), (ev_walk _ _ _ Hev); [|unfold REC; lia|done].
    apply Hemp; unfold REC, KERNEL_ENTRY; lia.
  - intros m Hm.
    assert (p4_index (page_no m) <> REC /\ p4_index (page_no m) <> KERNEL_ENTRY) as [H1 H2].
    { assert (p4_index (page_no m) < 256) by (apply user_page_p4; unfold STACK_FIRST in Hm; lia).
      unfold REC, KERNEL_ENTRY. lia. }
    apply (path_clear_evolves _ _ _ _ H1 Hev). by apply Hemp.
Qed.

(** The process's address space while the heap is used. *)
Lemma spawned_moves data elf p (s s' : proc_state (P := P)) k :
  headers_ok (program_headers elf) -> spawned data elf p s -> guest (mach (ps_heap s)) (p4_frame (page_tables p)) k ->
  Forall (segment_private (p4_frame (page_tables p)) (mach (ps_heap s))) (program_headers elf) ->
  heap_moves (mach (ps_heap s)) (mach (ps_heap s')) -> tables_inv (mach (ps_heap s')) -> spawned data elf p s'.
Proof.
  intros Hps Hsp Hgu Hpr Hm Hinv. set (g := p4_frame (page_tables p)) in *. set (fl := im_flags (page_tables p)).
  pose proof (guest_moves _ _ g k Hgu Hm Hinv) as Hgu'.
  assert (tables_inv (space_of p s')) as Hinv' by (by apply (guest_tables_inv (mach (ps_heap s)) _ g k fl)).
  assert (Forall (segment_in (space_of p s') data) (program_headers elf)) as Hld.
  { pose proof (sp_loaded _ _ _ _ Hsp) as Hl. pose proof (hs_ok _ Hps) as Ho. rewrite list.Forall_forall in *. intros q Hq.
    destruct (segment_in_moves (mach (ps_heap s)) (mach (ps_heap s')) g k fl data q); auto. }
  split; [done| |done|..].
  - intros q Hq Ht. pose proof (hs_file _ Hps) as Hf. rewrite list.Forall_forall in Hld, Hf.
    destruct (Hld q Hq Ht) as (Hu & src & en & H1 & H2 & H3). split; [done|]. apply (loaded_visible _ data q src en); auto. apply Hinv'.
  - intros page Hp. apply (shared_walk _ _ _ k); [apply Hgu'|apply Hgu'|done].
  - intros page Hp Hn. rewrite <- (sp_nothing _ _ _ _ Hsp page Hp Hn).
    apply (guest_walk _ _ g k Hgu Hm); unfold REC, KERNEL_ENTRY; lia.
  - intros n Hn. assert (p4_index (page_no n) < 256) by (apply user_page_p4; unfold STACK_FIRST in Hn; lia).
    apply (guest_clear (mach (ps_heap s)) _ g k fl Hgu Hm); [unfold REC; lia|unfold KERNEL_ENTRY; lia|]. by apply (sp_stack _ _ _ _ Hsp).
Qed.

(** ** The table of processes *)

(** Its blocks. *)
Definition table_of (s : proc_state (P := P)) : list (Z * Z) := default [] (ps_table s).

(** What the map does with the allocator when [pid] is inserted, from a table that may have to be
    created first: at most [na] blocks, which with their tables need at most [cost] frames. *)
Definition insert_fits (s : proc_state (P := P)) (pid : Z) (na : nat) (cost : Z) : Prop :=
  forall bs, ps_table s = None \/ ps_table s = Some bs ->
    let create := match ps_table s with None => map_storage | Some _ => [] end in
    let insert := insert_storage bs (dom (PROCESSES s)) pid in
    Forall op_ok create /\ Forall op_ok insert /\ (acquired create + acquired insert <= na)%nat /\
    storage_frames create + storage_frames insert <= cost.

Lemma insert_fits_cost (s : proc_state (P := P)) pid na cost : insert_fits s pid na cost -> 0 <= cost.
Proof.
  intros H. destruct (ps_table s) as [bs|] eqn:E; [destruct (H bs (or_intror E)) as (H1 & H2 & _ & H3)|
    destruct (H [] (or_introl E)) as (H1 & H2 & _ & H3)];
    pose proof (storage_frames_nonneg _ H1); pose proof (storage_frames_nonneg _ H2); lia.
Qed.

Lemma processes_insert_spec (s : proc_state (P := P)) t n pid p na cost :
  heap_inv (ps_heap s) t -> owns t (table_of s) -> few_blocks n t -> insert_fits s pid na cost -> Z.of_nat (n + na) < 4096 ->
  (exists (s' : proc_state (P := P)) t', processes_insert pid p s = Ret (tt, s') /\
     storage_moved (ps_heap s) t (table_of s) (ps_heap s') t' (table_of s') /\ apart_from t (table_of s) (table_of s') /\
     PROCESSES s' = <[pid := p]> (PROCESSES s) /\ NEXT_PID s' = NEXT_PID s /\ ps_tss s' = ps_tss s /\ is_Some (ps_table s') /\
     few_blocks (n + na) t' /\ takes cost (mach (ps_heap s)) (mach (ps_heap s'))) \/
  (exists msg, processes_insert pid p s = Stop (Panic msg) /\ short_of cost (mach (ps_heap s))).
Proof.
  intros Hinv Ho Hfew Hfit Hn. destruct s as [h procs np tss tb]. cbn [ps_heap PROCESSES NEXT_PID ps_tss] in *.
  unfold table_of in Ho. cbn [ps_table] in Ho. unfold processes_insert.
  assert ((exists bs h1 t1, processes_table (mkProcState h procs np tss tb) = Ret (bs, mkProcState h1 procs np tss tb) /\
      (tb = None \/ tb = Some bs) /\ storage_moved h t (default [] tb) h1 t1 bs /\ apart_from t (default [] tb) bs /\
      few_blocks (n + acquired (match tb with None => map_storage | Some _ => [] end)) t1 /\
      takes (storage_frames (match tb with None => map_storage | Some _ => [] end)) (mach h) (mach h1)) \/
    (exists msg, processes_table (mkProcState h procs np tss tb) = Stop (Panic msg) /\ short_of cost (mach h)))
    as [(bs & h1 & t1 & E1 & Hbs & Hm1 & Ha1 & Hf1 & Ht1)|(msg & E1 & Hsh)].
  { unfold processes_table. cbn [ps_table]. destruct tb as [bs|]; cbn [default] in *.
    - left. exists bs, h, t. cbn [acquired storage_frames]. split_and!; [done|by right|by apply storage_moved_refl|by intros f k|by rewrite Nat.add_0_r|by apply takes_refl].
    - destruct (Hfit [] (or_introl eq_refl)) as (H1 & H2 & H3 & H4). cbn [ps_table] in *.
      destruct (use_storage_spec map_storage [] h t n Hinv Ho Hfew H1 ltac:(lia)) as [(bs & h1 & t1 & E1 & Hm1 & Ha1 & Hf1 & Ht1)|(msg & E1 & Hsh)].
      + left. exists bs, h1, t1. rewrite (with_memory_ret _ (mkProcState h procs np tss None) _ _ E1). by split_and!; [|left| | | |].
      + right. exists msg. rewrite (with_memory_stop _ (mkProcState h procs np tss None) _ E1). split; [done|].
        pose proof (storage_frames_nonneg _ H2). eapply short_of_mono; [|exact Hsh]. lia. }
  2:{ right. exists msg. by rewrite (bind_stop _ _ _ _ E1). }
  rewrite (bind_ret _ _ _ _ _ E1), (bind_ret (gets _) _ _ (dom procs) (mkProcState h1 procs np tss tb)) by done.
  destruct (Hfit bs Hbs) as (H1 & H2 & H3 & H4). cbn [ps_table PROCESSES] in *.
  destruct (use_storage_spec (insert_storage bs (dom procs) pid) bs h1 t1 _ (sm_inv _ _ _ _ _ _ Hm1) (sm_owns _ _ _ _ _ _ Hm1) Hf1 H2 ltac:(lia))
    as [(bs2 & h2 & t2 & E2 & Hm2 & Ha2 & Hf2 & Ht2)|(msg & E2 & Hsh)].
  - left. rewrite (bind_ret _ _ _ _ _ (with_memory_ret _ (mkProcState h1 procs np tss tb) _ _ E2)). unfold modify. cbn [ps_heap PROCESSES NEXT_PID ps_tss ps_table].
    eexists _, t2. split; [done|]. unfold table_of. cbn [ps_heap PROCESSES NEXT_PID ps_tss ps_table default].
    split_and!; [by eapply storage_moved_trans| |done|done|done|by eexists|eapply few_blocks_mono; [|exact Hf2]; lia|].
    + intros f k Hl Hb. apply Ha2; [apply (sm_live _ _ _ _ _ _ Hm1); by right|by apply Ha1].
    + eapply takes_mono; [exact H4|]. by eapply takes_trans.
  - right. exists msg. rewrite (bind_stop _ _ _ _ (with_memory_stop _ (mkProcState h1 procs np tss tb) _ E2)). split; [done|].
    eapply short_of_mono; [exact H4|]. by eapply short_of_takes.
Qed.

(** ** The whole *)

Lemma few_blocks_page h t n : heap_inv h t -> few_blocks n t -> Z.of_nat n < 4096 -> page_block t.
Proof. intros Hinv Hf Hn. by apply (few_blocks_room h t n 7 Hinv Hf Hn). Qed.

(** A process whose address space is as the image has it, and which nothing else has a part of. *)
Definition settled data elf (p : Process) (s : proc_state (P := P)) : Prop :=
  let g := p4_frame (page_tables p) in
  spawned data elf p s /\ exists k, guest (mach (ps_heap s)) g k /\
    Forall (segment_private g (mach (ps_heap s))) (program_headers elf).

Lemma settled_moves data elf p (s s' : proc_state (P := P)) : headers_ok (program_headers elf) -> settled data elf p s ->
  heap_moves (mach (ps_heap s)) (mach (ps_heap s')) -> tables_inv (mach (ps_heap s')) -> settled data elf p s'.
Proof.
  intros Hps (Hsp & k & Hgu & Hpr) Hm Hinv. split; [by eapply spawned_moves|]. exists k. split; [by eapply guest_moves|].
  pose proof (sp_loaded _ _ _ _ Hsp) as Hl. pose proof (hs_ok _ Hps) as Ho. rewrite list.Forall_forall in *. intros q Hq.
  destruct (segment_in_moves (mach (ps_heap s)) (mach (ps_heap s')) _ k (im_flags (page_tables p)) data q Hgu Hm Hinv); auto.
Qed.

(** Setting up the address space and loading into it do not touch the containers' blocks. *)
Lemma load_steps h t h' t' g fl ps s1 bs : heap_inv h t -> process_tables h t h' t' g -> headers_ok ps ->
  evolves (pages_of ps) (set_cr3 g fl (mach h')) s1 -> owns t bs ->
  storage_steps h t bs (mkHeapState (returned (mach h') s1) (htree h')) t' bs.
Proof.
  intros Hinv Hpt Hps Hev Ho. destruct (loaded_heap h h' t t' g fl Hpt ps Hps s1 Hev) as [Hinv' Hw].
  destruct (pt_back _ _ _ _ _ Hpt) as [page0 Hb]. split; [|by intros f k].
  apply storage_moved_neutral; [done|done|done|apply (hb_live _ _ _ _ _ _ Hb)|by apply (loaded_moves h h' t t' g fl Hpt ps)|].
  intros i Hi. cbn [mach mem cr3 returned set_cr3]. rewrite Hw by apply hpage_ok, Hi. apply (hb_walk _ _ _ _ _ _ Hb), hpage_ok, Hi.
Qed.

(** What a call leaves behind when it takes at most [cost] frames; [table_of] are the blocks of the table of
    processes. *)
Definition spawn_result data elf (s : proc_state (P := P)) (r : result Z ElfLaunchError) (s' : proc_state (P := P)) cost : Prop :=
  ps_tss s' = ps_tss s /\
  match r with
  | Ok pid => pid = NEXT_PID s /\ entry elf < 2 ^ 48 /\
      exists pt, let p := mkProcess pt STACK_TOP (sign_extend_47 (entry elf)) [] true in
        PROCESSES s' = <[pid := p]> (PROCESSES s) /\ settled data elf p s' /\ takes cost (mach (ps_heap s)) (mach (ps_heap s'))
  | Err e => PROCESSES s' = PROCESSES s /\ ps_table s' = ps_table s /\
      ((e = InvalidEntryPoint (entry elf) /\ 2 ^ 48 <= entry elf) \/
       ((exists q, q ∈ program_headers elf /\ p_type q = PT_LOAD /\ segment_error data q e) /\
        (e = ElfInvalidPage TryOutOfMemory -> short_of cost (mach (ps_heap s)))))
  end.

Section spawning.
Context (data : list Z) (elf : Elf) (Hacc : accepted elf) (Hps : headers_ok (program_headers elf)).
Context (Hdata : Forall (fun x => 0 <= x < 256) data).

Lemma spawn_parsed_spec (s : proc_state (P := P)) t n na cost :
  heap_inv (ps_heap s) t -> owns t (table_of s) -> few_blocks n t -> NEXT_PID s < u64_max ->
  insert_fits s (NEXT_PID s) na cost -> Z.of_nat (n + na) < 4096 ->
  let total := 14 + frames_needed (program_headers elf) + cost in
  (exists r (s' : proc_state (P := P)) t', spawn_parsed data elf s = Ret (r, s') /\
     storage_steps (ps_heap s) t (table_of s) (ps_heap s') t' (table_of s') /\ spawn_result data elf s r s' total) \/
  (exists msg, spawn_parsed data elf s = Stop (Panic msg) /\ short_of total (mach (ps_heap s))).
Proof.
  intros Hinv Ho Hfew Hpid Hfit Hn total. pose proof (insert_fits_cost _ _ _ _ Hfit) as Hcost. destruct Hacc as (Hlib & Hent & H64 & Hdyn). destruct s as [h procs np tss tb].
  unfold table_of in Ho. cbn [ps_heap NEXT_PID PROCESSES ps_table] in *.
  pose proof (frames_needed_nonneg _ (hs_ok _ Hps)) as Hfn.
  unfold spawn_parsed. rewrite Hlib, H64, Hdyn. replace (entry elf =? 0) with false by lia.
  cbn [orb negb]. rewrite bool_decide_true by done. cbn [negb].
  destruct (new_process_page_tables_spec h t Hinv (few_blocks_page h t n Hinv Hfew ltac:(lia))) as [(g & h' & t' & E & Hpt)|(msg & E & Hsh)].
  2:{ right. exists msg. rewrite (bind_stop _ _ _ _ (with_memory_stop _ (mkProcState h procs np tss tb) _ E)). split; [done|].
      eapply short_of_mono; [|exact Hsh]. lia. }
  set (fl := cr3_flags (mach h)) in *. rewrite (bind_ret _ _ _ _ _ (with_memory_ret _ (mkProcState h procs np tss tb) _ _ E)).
  destruct (load_new_space h h' t t' g fl Hpt data (program_headers elf) Hdata Hps) as (r & s1 & El & Hev & Hr).
  pose proof (load_steps h t h' t' g fl _ s1 _ Hinv Hpt Hps Hev Ho) as Hst. set (h2 := mkHeapState (returned (mach h') s1) (htree h')) in *.
  rewrite (bind_ret (with_memory (tables _)) _ _ _ (mkProcState h2 procs np tss tb))
    by (unfold with_memory, tables; cbn [ps_heap]; rewrite El; reflexivity).
  destruct r as [[]|e].
  2:{ left. eexists _, _, t'. split; [done|]. split; [exact Hst|]. split; [done|]. cbn [PROCESSES ps_table ps_heap].
      destruct Hr as [He Hs]. split_and!; [done|done|]. right. split; [done|]. intros Eo. eapply short_of_mono; [|by apply Hs]. lia. }
  destruct (entry_check (entry elf) Hent) as [Ec Ei]. rewrite Ec.
  destruct (Z.leb_spec (2 ^ 48) (entry elf)) as [Hl|Hl].
  { left. eexists _, _, t'. split; [done|]. split; [exact Hst|]. split; [done|]. cbn [PROCESSES ps_table ps_heap]. split_and!; [done|done|by left]. }
  rewrite (Ei Hl). msimp.
  rewrite (bind_ret ProcessId_next _ _ np (mkProcState h2 procs (wrap 64 (np + 1)) tss tb)).
  2:{ unfold ProcessId_next. cbn [NEXT_PID ps_heap PROCESSES ps_tss ps_table]. by replace (np <? u64_max) with true by lia. }
  set (p := mkProcess (mkInactivePageMap g fl) STACK_TOP (sign_extend_47 (entry elf)) [] true).
  set (s2 := mkProcState h2 procs (wrap 64 (np + 1)) tss tb). destruct Hr as (Hin & Htk & Hfresh).
  assert (settled data elf p s2) as Hset.
  { split; [by apply (spawned_intro h t h' t')|]. destruct (loaded_guest h h' t t' g fl Hpt _ Hps s1 Hinv Hev) as [k Hgu].
    exists k. split; [done|]. rewrite list.Forall_forall in *. intros q Hq. by apply (loaded_private h h' t t' g fl Hpt data (program_headers elf)); auto. }
  destruct (processes_insert_spec s2 t' n np p na cost) as [(s3 & t3 & E3 & Hm3 & Ha3 & Ep & _ & Ets & _ & _ & Ht3)|(msg & E3 & Hsh)].
  - apply (sm_inv _ _ _ _ _ _ (proj1 Hst)).
  - apply (sm_owns _ _ _ _ _ _ (proj1 Hst)).
  - destruct (pt_back _ _ _ _ _ Hpt) as [page0 Hb]. apply (few_blocks_sub n t); [apply (hb_live _ _ _ _ _ _ Hb)|done].
  - done.
  - done.
  - left. rewrite (bind_ret _ _ _ _ _ E3). exists (Ok np), s3, t3. split; [done|]. split; [by eapply storage_steps_trans|].
    split; [done|]. split_and!; [done|done|]. eexists. split; [exact Ep|]. split.
    + apply (settled_moves data elf p s2); [done|done|apply Hm3|]. apply (hi_pages _ _ (sm_inv _ _ _ _ _ _ Hm3)).
    + apply (takes_trans _ _ _ s1); [done|]. done.
  - right. exists msg. rewrite (bind_stop _ _ _ _ E3). split; [done|]. by apply (short_of_takes _ _ _ s1).
Qed.

(** ** The whole *)

Lemma spawn_from_elf_spec (s : proc_state (P := P)) t n na cost :
  heap_inv (ps_heap s) t -> owns t (table_of s) -> few_blocks n t -> NEXT_PID s < u64_max ->
  elf_parse data = Ok elf -> Forall op_ok (elf_storage data) ->
  insert_fits s (NEXT_PID s) na cost -> Z.of_nat (n + acquired (elf_storage data) + na) < 4096 ->
  let total := storage_frames (elf_storage data) + (14 + frames_needed (program_headers elf) + cost) in
  (exists r (s' : proc_state (P := P)) t', spawn_from_elf data s = Ret (r, s') /\
     storage_steps (ps_heap s) t (table_of s) (ps_heap s') t' (table_of s') /\ spawn_result data elf s r s' total) \/
  (exists msg, spawn_from_elf data s = Stop (Panic msg) /\ short_of total (mach (ps_heap s))).
Proof.
  intros Hinv Ho Hfew Hpid Hparse Hops Hfit Hn total. pose proof (insert_fits_cost _ _ _ _ Hfit) as Hcost. pose proof (frames_needed_nonneg _ (hs_ok _ Hps)) as Hfn.
  unfold spawn_from_elf.
  assert (owns t []) as Ho0 by (apply (owns_sub t (table_of s)); [by apply sublist_nil_l|done]).
  destruct (use_storage_spec (elf_storage data) [] (ps_heap s) t n Hinv Ho0 Hfew Hops ltac:(lia))
    as [(bs & h1 & t1 & E1 & Hm1 & Ha1 & Hf1 & Ht1)|(msg & E1 & Hsh)].
  2:{ right. exists msg. rewrite (bind_stop _ _ _ _ (with_memory_stop _ s _ E1)). split; [done|]. eapply short_of_mono; [|exact Hsh]. lia. }
  rewrite (bind_ret _ _ _ _ _ (with_memory_ret _ s _ _ E1)), Hparse.
  set (s1 := mkProcState h1 (PROCESSES s) (NEXT_PID s) (ps_tss s) (ps_table s)).
  pose proof (storage_steps_frame _ _ [] _ _ bs (table_of s) Hinv Ho (conj Hm1 Ha1)) as Hst1. cbn [app] in Hst1.
  pose proof (sm_owns _ _ _ _ _ _ (proj1 Hst1)) as Ho1. pose proof (sm_inv _ _ _ _ _ _ Hm1) as Hinv1.
  destruct (spawn_parsed_spec s1 t1 (n + acquired (elf_storage data)) na cost Hinv1) as [(r & s2 & t2 & E2 & Hst2 & Hr)|(msg & E2 & Hsh)]; try done.
  { apply (owns_sub t1 (bs ++ table_of s)); [by apply sublist_inserts_l|done]. }
  2:{ right. exists msg. rewrite (bind_stop _ _ _ _ E2). split; [done|]. by apply (short_of_takes _ _ _ (mach h1)). }
  rewrite (bind_ret _ _ _ _ _ E2). pose proof (sm_inv _ _ _ _ _ _ (proj1 Hst2)) as Hinv2.
  assert (storage_steps h1 t1 (bs ++ table_of s) (ps_heap s2) t2 (bs ++ table_of s2)) as Hst2'.
  { rewrite (Permutation_app_comm bs), (Permutation_app_comm bs). rewrite (Permutation_app_comm bs) in Ho1. by apply storage_steps_frame. }
  pose proof (sm_owns _ _ _ _ _ _ (proj1 Hst2')) as Ho2.
  destruct (release_storage_spec bs (ps_heap s2) t2 Hinv2) as (h3 & t3 & E3 & Hm3 & _ & Ht3).
  { apply (owns_sub t2 (bs ++ table_of s2)); [by apply sublist_inserts_r|done]. }
  left. rewrite (bind_ret _ _ _ _ _ (with_memory_ret _ s2 _ _ E3)). eexists r, _, t3. split; [done|].
  assert (apart_from t2 bs []) as Ha3 by (intros f k _ _ (b & Hb & _); set_solver).
  pose proof (storage_steps_frame _ _ bs _ _ [] (table_of s2) Hinv2 Ho2 (conj Hm3 Ha3)) as Hst3. cbn [app] in Hst3.
  split; [by eapply storage_steps_trans; [..|eapply storage_steps_trans]|].
  destruct Hr as [Hts Hr]. split; [done|]. destruct r as [pid|e].
  - destruct Hr as (-> & He & pt & Ep & Hset & Htk). split_and!; [done|done|]. exists pt. split; [done|]. split.
    + eapply settled_moves; [done|exact Hset|apply Hm3|]. apply (hi_pages _ _ (sm_inv _ _ _ _ _ _ Hm3)).
    + apply (takes_trans _ _ _ (mach h1)); [done|]. replace (14 + _ + _) with (14 + frames_needed (program_headers elf) + cost + 0) by lia.
      by apply (takes_trans _ _ _ (mach (ps_heap s2))).
  - destruct Hr as (Ep & Et & [?|[He Hs]]); (split; [done|]); (split; [done|]); [by left|right]. split; [done|]. intros Eo.
    apply (short_of_takes _ _ _ (mach h1)); [done|]. by apply Hs.
Qed.

End spawning.

(** C5: [spawn_from_elf] as a whole, on an image the kernel runs whose segments do not share
    pages, with a working heap and process identifiers left. The allocations that [Elf::parse] and the table of
    processes make on the heap are as their crates say ([elf_storage], [map_storage], [insert_storage]), in blocks of
    at most 128 KiB, with fewer than 4096 live. Either the process is
    entered under the next identifier with an address space of its own that shows every
    segment as the image has it (and nothing else of the user half, with the kernel's
    pages as in the active address space), the stack pointer at [STACK_TOP] and the entry
    point; or the image is refused with an error that is true of it, and the table of
    processes and the heap's blocks are unchanged. Either way the kernel is back on its own address space; the heap
    is well formed, and its live blocks are those of the table of processes and those that were live before and did
    not belong to the table, whose pages are mapped as before: what the parsed image had is given back. Every page
    outside the heap is translated as before, and frames in use that are neither page tables nor behind the heap
    keep their contents. The only other outcome is a panic when fewer frames are free than the call may need. *)
Theorem spawn_from_elf_correct data elf (s : proc_state (P := P)) t n na cost :
  heap_inv (ps_heap s) t -> owns t (table_of s) -> few_blocks n t -> NEXT_PID s < u64_max ->
  elf_parse data = Ok elf -> accepted elf -> headers_ok (program_headers elf) ->
  Forall (fun x => 0 <= x < 256) data -> Forall op_ok (elf_storage data) ->
  insert_fits s (NEXT_PID s) na cost -> Z.of_nat (n + acquired (elf_storage data) + na) < 4096 ->
  let m := mach (ps_heap s) in
  let total := storage_frames (elf_storage data) + (14 + frames_needed (program_headers elf) + cost) in
  (exists r (s' : proc_state (P := P)) t', let m' := mach (ps_heap s') in
     spawn_from_elf data s = Ret (r, s') /\
     heap_inv (ps_heap s') t' /\ owns t' (table_of s') /\
     (forall f k, tree_live t' f k <->
        block_of_list (table_of s') f k \/ (tree_live t f k /\ ~ block_of_list (table_of s) f k)) /\
     (forall f k i e, tree_live t f k -> ~ block_of_list (table_of s) f k -> covers f k i ->
        page_mapped m i e -> page_mapped m' i e) /\
     cr3 m' = cr3 m /\ ps_tss s' = ps_tss s /\
     (forall page, p4_index page <> REC -> ~ heap_area page ->
        ref_walk (mem m') (cr3 m) page = ref_walk (mem m) (cr3 m) page) /\
     (forall a, ~ is_table m (frame_of a) -> ~ fa_free (pmm m) (frame_of a) -> ~ heap_frame m (frame_of a) ->
        word (mem m') a = word (mem m) a) /\
     match r with
     | Ok pid => pid = NEXT_PID s /\ entry elf < 2 ^ 48 /\
         exists pt, let p := mkProcess pt STACK_TOP (sign_extend_47 (entry elf)) [] true in
           PROCESSES s' = <[pid := p]> (PROCESSES s) /\ spawned data elf p s' /\ takes total m m'
     | Err e => PROCESSES s' = PROCESSES s /\ ps_table s' = ps_table s /\
         (forall f k, tree_live t' f k <-> tree_live t f k) /\
         ((e = InvalidEntryPoint (entry elf) /\ 2 ^ 48 <= entry elf) \/
          ((exists q, q ∈ program_headers elf /\ p_type q = PT_LOAD /\ segment_error data q e) /\
           (e = ElfInvalidPage TryOutOfMemory -> short_of total m)))
     end) \/
  (exists msg, spawn_from_elf data s = Stop (Panic msg) /\ short_of total m).
Proof.
  intros Hinv Ho Hfew Hpid Hparse Hacc Hps Hdata Hops Hfit Hn m total.
  destruct (spawn_from_elf_spec data elf Hacc Hps Hdata s t n na cost Hinv Ho Hfew Hpid Hparse Hops Hfit Hn)
    as [(r & s' & t' & E & [[I O L M K] _] & Ht & Hr)|H]; [left|by right].
  exists r, s', t'. pose proof (hm_cr3 _ _ M) as Hc. split_and!; [done|done|done|done|done|done|done|..].
  - intros page H1 H2. pose proof (hm_walk _ _ M page H1 H2) as Hw. by rewrite Hc in Hw.
  - intros a H1 H2 H3. apply (hm_mem _ _ M); [done|]. by intros [].
  - destruct r as [pid|e].
    + destruct Hr as (-> & He & pt & Ep & [Hs _] & Htk). split_and!; [done|done|]. by exists pt.
    + destruct Hr as (Ep & Et & Hr). split_and!; [done|done| |done]. intros f k. rewrite L. unfold table_of. rewrite Et.
      symmetry. apply (sm_live _ _ _ _ _ _ (storage_moved_refl _ _ _ Hinv Ho)).
Qed.

(** * Running what was spawned *)

Lemma zero_byte (m : gmap Z Z) f o : f mod 4096 = 0 -> 0 <= o < 4096 ->
  (forall i, idx i -> entry_at m f i = 0) -> mem_byte m (f + o) = 0.
Proof.
  intros Hf Ho Hz. unfold mem_byte. set (a := f + o).
  assert (a - a mod 8 = f + 8 * (o / 8)) as ->.
  { unfold a. Z.to_euclidean_division_equations. lia. }
  assert (idx (o / 8)) as Hi by (unfold idx; Z.to_euclidean_division_equations; lia).
  specialize (Hz _ Hi). unfold entry_at in Hz. rewrite Hz. unfold get_byte. by rewrite Z.shiftr_0_l.
Qed.

(** The byte at [va] reads as 0 and can be written and accessed by the process, but
    not executed. *)
Definition fresh_stack_byte s (va : Z) : Prop :=
  exists pa e, mmu_walk (mem s) (cr3 s) va = Some (pa, true) /\ mem_byte (mem s) pa = 0 /\
    ref_walk (mem s) (cr3 s) (page_no (va / 4096)) = Ret (Some (e, Kib4)) /\
    Z.testbit e 2 = true /\ Z.testbit e 63 = true.

Lemma stack_backed s s' va : fa_inv (pmm s) ->
  pages_backed stack_flags Zero STACK_FIRST (STACK_LAST + 1) s s' -> STACK_FIRST <= va / 4096 <= STACK_LAST ->
  fresh_stack_byte s' va.
Proof.
  intros Hfa (Hev & fr & Hfr & _) Hn. set (n := va / 4096) in *. destruct (Hfr n ltac:(lia)).
  destruct (fa_free_range _ _ Hfa bk_was_free) as [Hal Hr]. destruct stack_flags_ok as [Hfl Hw].
  destruct (leaf_entry_facts (fr n) stack_flags Hal ltac:(lia) Hfl) as (Ha & _ & Hwr).
  pose proof (Z.mod_pos_bound va 4096 ltac:(lia)) as Hm.
  exists (fr n + va mod 4096), (leaf_entry (fr n) stack_flags). split_and!.
  - replace va with (number (page_no n) * 4096 + va mod 4096) at 1
      by (cbn [number page_no]; unfold n; Z.to_euclidean_division_equations; lia).
    rewrite (mmu_small _ _ (page_no n) (leaf_entry (fr n) stack_flags)); [|apply Hev|by apply stack_page_ok|done|lia].
    by rewrite Ha, Hwr, Hw.
  - apply zero_byte; [done|lia|]. by apply bk_zero.
  - done.
  - rewrite leaf_bit; [|done|lia|by left]. unfold stack_flags. by rewrite !flags_or_spec.
  - rewrite leaf_bit; [|done|lia|by right]. unfold stack_flags. by rewrite !flags_or_spec.
Qed.

Lemma spawned_process_spec rflags data elf (s : proc_state (P := P)) pid p t :
  PROCESSES s !! pid = Some p -> new p = true -> spawned data elf p s ->
  headers_ok (program_headers elf) ->
  Forall (fun q => p_type q = PT_LOAD -> last_page q < STACK_FIRST) (program_headers elf) ->
  ps_tss s = Some t -> locked (tss_iomap t) = false -> iopb_ok (iopb (tss_iomap t)) ->
  (exists s' : proc_state (P := P),
     run_by_pid rflags pid s = Ret (Ok (mkIret (instruction_ptr p) 0x33 rflags (stack_ptr p) 0x2b [0x2b; 0x2b; 0x2b; 0x2b]), s') /\
     let m := mach (ps_heap s') in
     cr3 m = p4_frame (page_tables p) /\ tables_inv m /\
     (forall q, q ∈ program_headers elf -> p_type q = PT_LOAD -> segment_visible m data q) /\
     (forall va, STACK_TOP - 4096 <= va < STACK_TOP -> fresh_stack_byte m va) /\
     (forall page, p4_index page = 511 ->
        ref_walk (mem m) (cr3 m) page = ref_walk (mem (mach (ps_heap s))) (cr3 (mach (ps_heap s))) page)) \/
  (exists s' : proc_state (P := P), run_by_pid rflags pid s = Ret (Err OutOfMemory_, s') /\ short_of 8 (mach (ps_heap s))).
Proof.
  intros Hp Hnew Hsp Hps Hbelow Ht Hlock Hiopb.
  destruct (run_by_pid_steps rflags s pid p t Hp Hnew Ht Hlock Hiopb) as [Hok Herr]. fold (space_of p s) in Hok, Herr.
  destruct (setup_spec (space_of p s) (sp_tables _ _ _ _ Hsp) (sp_stack _ _ _ _ Hsp)) as (r & m' & Es & Hr).
  destruct r as [[]|[]].
  2:{ right. destruct (Herr _ m' Es) as [s' E]. exists s'. split; [done|]. by destruct Hr as (k & _ & _ & Hex). }
  left. destruct (Hok m' Es) as (s' & b' & E & Em & _). exists s'. split; [done|]. rewrite Em. cbv zeta.
  pose proof (proj1 Hr) as Hev. pose proof (ev_cr3 _ _ _ Hev) as Hc.
  split_and!; [by rewrite Hc|apply Hev|..].
  - intros q Hq Hqt. pose proof (sp_loaded _ _ _ _ Hsp) as Hl. pose proof (hs_file _ Hps) as Hf. pose proof (hs_ok _ Hps) as Ho.
    rewrite list.Forall_forall in Hl, Hf, Hbelow, Ho. specialize (Hbelow q Hq Hqt).
    destruct (header_pages q (Ho q Hq Hqt)) as (H0 & _).
    assert (segment_in m' data q) as Hs.
    { apply (segment_in_evolves _ (space_of p s) m' data q Hev); [|by apply Hl].
      intros n Hn (i & Hi & Hsame). apply same_page_inj in Hsame.
      - cbn [number page_no] in Hsame. lia.
      - apply stack_page_ok. lia.
      - apply user_page_ok. unfold LAST_USER_PAGE, STACK_FIRST in *. lia. }
    destruct (Hs Hqt) as (_ & src & en & H1 & H2 & H3). apply (loaded_visible m' data q src en); auto. apply Hev.
  - intros va Hva. apply (stack_backed (space_of p s)); [apply Hsp|done|].
    assert (STACK_TOP = 0x7fffffffe000) as Hst.
    { unfold STACK_TOP. by rewrite VirtAddr_new_truncate_spec by lia. }
    rewrite Hst in Hva. unfold STACK_FIRST, STACK_LAST. Z.to_euclidean_division_equations. lia.
  - intros page Hpg. rewrite Hc, (ev_walk _ _ _ Hev); [by apply (sp_kernel _ _ _ _ Hsp)|by rewrite Hpg|].
    intros (i & Hi & Hs & _). pose proof (user_page_p4 i) as Hu. rewrite Hs, Hpg in Hu. unfold STACK_FIRST in Hi. lia.
Qed.

(** C27: a spawned process starts. On a process that [spawn_from_elf] left behind whose
    segments stay below the stack, [run_by_pid] enters user mode at the entry point with
    the stack pointer at [STACK_TOP], the flags register as it is and the user's data segment in every data
    segment register, and in the address space that is then active every
    segment is still as the image has it, the kernel's pages are where they were, and the
    page below the stack pointer reads as zeros, is writable and not executable. The only
    other outcome is the report that fewer than eight frames were free. *)
Theorem spawned_process_runs rflags data elf (s : proc_state (P := P)) pid p t :
  PROCESSES s !! pid = Some p -> new p = true -> spawned data elf p s ->
  headers_ok (program_headers elf) ->
  Forall (fun q => p_type q = PT_LOAD -> last_page q < STACK_FIRST) (program_headers elf) ->
  ps_tss s = Some t -> locked (tss_iomap t) = false -> iopb_ok (iopb (tss_iomap t)) ->
  (exists s' : proc_state (P := P),
     run_by_pid rflags pid s = Ret (Ok (mkIret (instruction_ptr p) 0x33 rflags (stack_ptr p) 0x2b [0x2b; 0x2b; 0x2b; 0x2b]), s') /\
     let m := mach (ps_heap s') in
     cr3 m = p4_frame (page_tables p) /\ tables_inv m /\
     (forall q, q ∈ program_headers elf -> p_type q = PT_LOAD -> segment_visible m data q) /\
     (forall va, STACK_TOP - 4096 <= va < STACK_TOP -> fresh_stack_byte m va) /\
     (forall page, p4_index page = 511 ->
        ref_walk (mem m) (cr3 m) page = ref_walk (mem (mach (ps_heap s))) (cr3 (mach (ps_heap s))) page)) \/
  (exists s' : proc_state (P := P), run_by_pid rflags pid s = Ret (Err OutOfMemory_, s') /\ short_of 8 (mach (ps_heap s))).
Proof. apply spawned_process_spec. Qed.

End spawn.

(** * Concrete instances *)

Section examples.
#[local] Existing Instance x86_64_example.
#[local] Existing Instance bit_field_example.
#[local] Existing Instance bitflags_example.
#[local] Existing Instance frames_example.
#[local] Existing Instance debug_build.
#[local] Existing Instance heap_tree_example.
#[local] Existing Instance blocks_example.

Definition example_elf : Elf := mkElf false 0x3010 true [] [example_header].

(** A parser that takes every image for [example_elf], with a vector for the headers of the program and one for
    the sections, of which it gives back a third. *)
Definition goblin_one : GoblinCrate := {|
  goblin_error := unit;
  elf_parse _ := Ok example_elf;
  elf_storage _ := [Acquire 56; Acquire 4096; Acquire 224; Release 1];
  elf_log _ := []
|}.
#[local] Existing Instance goblin_one.
#[local] Existing Instance dashmap_example.

Lemma example_page_block : page_block (tree_new [(0, Z.shiftl 1 (30 + 1))]).
Proof.
  exists 0. split; [done|]. intros x Hx. apply hblock_iff in Hx as [Hr Hm]; [|lia].
  apply tree_new_free. split; [|split].
  - replace x with (x - 0) by lia. exact Hm.
  - change (tree_bytes HEAP_LEVELS HEAP_BASE_ORDER) with (2 ^ 30). lia.
  - exists (0, Z.shiftl 1 (30 + 1)). split; [by apply list_elem_of_singleton|].
    unfold HEAP_BASE_ORDER. change (Z.shiftl 1 (30 + 1)) with (2 ^ 31).
    split; split; cbn [fst snd]; lia.
Qed.

Lemma new_process_page_tables_correct_witness : exists g h',
  new_process_page_tables example_heap = Ret (mkInactivePageMap g 0, h') /\
  tables_inv (set_cr3 g 0 (mach h')).
Proof.
  destruct (new_process_page_tables_correct example_heap _ example_heap_inv example_page_block)
    as [(g & h' & t' & E & _ & _ & _ & _ & _ & _ & _ & _ & _ & _ & Ht & _)|(msg & _ & H)].
  - exists g, h'. split; [exact E|exact Ht].
  - destruct (example_enough 14 ltac:(lia) H).
Defined.

Definition example_kernel : proc_state (P := PhysicalAllocator) := mkProcState example_heap ∅ 5 None None.

Lemma example_headers : headers_ok [example_header].
Proof.
  split.
  - constructor; [|done]. intros _. by split; cbn; lia.
  - done.
  - constructor; [cbn; lia|done].
Qed.

Lemma example_insert_fits : insert_fits example_kernel 5 2 56.
Proof.
  intros bs _. cbn [ps_table example_kernel map_storage insert_storage dashmap_example].
  split_and!; [repeat constructor; cbn; lia| |case_bool_decide; cbn; lia|case_bool_decide; vm_compute; congruence].
  case_bool_decide; repeat constructor; cbn; lia.
Qed.

Lemma spawn_from_elf_correct_witness : exists s' p,
  spawn_from_elf example_image example_kernel = Ret (Ok 5, s') /\
  PROCESSES s' = <[5 := p]> (PROCESSES example_kernel) /\ spawned example_image example_elf p s'.
Proof.
  destruct (spawn_from_elf_correct (G := goblin_one) example_image example_elf example_kernel _ 0 2 56 example_heap_inv)
    as [([pid|e] & s' & t' & E & _ & _ & _ & _ & _ & _ & _ & _ & Hr)|(msg & _ & H)].
  - split; [constructor|]. intros b Hb. by apply not_elem_of_nil in Hb.
  - exact example_few.
  - reflexivity.
  - reflexivity.
  - by split_and!.
  - exact example_headers.
  - repeat constructor; lia.
  - repeat constructor; cbn; lia.
  - exact example_insert_fits.
  - by vm_compute.
  - destruct Hr as (-> & _ & pt & Hp & Hs & _). eexists s', _. split; [exact E|]. split; [exact Hp|exact Hs].
  - exfalso. destruct Hr as (_ & _ & _ & [[_ Hl]|[He Hex]]); [cbn in Hl; lia|].
    refine (example_no_error e _ _ He Hex). by vm_compute.
  - exfalso. revert H. apply example_enough. by vm_compute.
Defined.

Lemma example_spawned : exists s p, spawned example_image example_elf p s /\
  PROCESSES s !! 5 = Some p /\ new p = true /\ instruction_ptr p = 0x3010 /\ stack_ptr p = STACK_TOP /\
  ps_tss s = Some example_tss /\ takes 18 example_machine (mach (ps_heap s)).
Proof.
  destruct (new_process_page_tables_spec example_heap _ example_heap_inv example_page_block)
    as [(g & h' & t' & _ & Hpt)|(msg & _ & H)]; [|destruct (example_enough 14 ltac:(lia) H)].
  assert (Forall (fun x => 0 <= x < 256) example_image) as Hd by (repeat constructor; lia).
  destruct (load_new_space example_heap h' _ t' g 0 Hpt example_image [example_header] Hd example_headers)
    as ([[]|e] & s1 & _ & Hev & Hr).
  - destruct Hr as (Hr & Htk & _). set (p := mkProcess (mkInactivePageMap g 0) STACK_TOP 0x3010 [] true).
    exists (mkProcState (mkHeapState (returned (mach h') s1) (htree h')) {[ 5 := p ]} 6 (Some example_tss) None), p.
    split; [|split_and!; try done; apply lookup_singleton_eq].
    exact (spawned_intro example_heap _ h' t' g 0 example_image example_elf s1 _ _ _ Hpt example_headers Hev Hr _ _ _ _).
  - destruct Hr as [He Hex]. destruct (example_no_error e 18 ltac:(lia) He Hex).
Qed.

Lemma spawned_process_runs_witness : exists s s',
  run_by_pid 0x202 5 s = Ret (Ok (mkIret 0x3010 0x33 0x202 STACK_TOP 0x2b [0x2b; 0x2b; 0x2b; 0x2b]), s') /\
  segment_visible (mach (ps_heap s')) example_image example_header.
Proof.
  destruct example_spawned as (s & p & Hsp & Hp & Hnew & Hip & Hst & Ht & Htk). exists s.
  destruct (spawned_process_runs 0x202 example_image example_elf s 5 p example_tss Hp Hnew Hsp example_headers)
    as [(s' & E & _ & _ & Hseg & _)|(s' & _ & H)].
  - constructor; [|done]. intros _. reflexivity.
  - exact Ht.
  - reflexivity.
  - apply default_iopb_ok.
  - exists s'. rewrite Hip, Hst in E. split; [exact E|]. apply Hseg; [by left|reflexivity].
  - destruct (example_enough 26 ltac:(lia)). exact (short_of_takes 18 8 _ _ Htk H).
Defined.

End examples.
