(* ===== verification/Kmain.v ===== *)
(** [kmain] of [kernel/src/lib.rs], [acpi_init] of [acpi_handler.rs] and [init] of
    [log.rs]: the parts of the kernel brought up one after the other, until the first
    process runs. No interrupt arrives while [kmain] runs; what happens when one does is in
    [Interrupts.v]. *)
From S2P Require Import Prelude Crates Machine FrameAlloc Paging Layout PageMap BootstrapHeap Friendly.
From S2P Require Import PhysicalAllocator Heap Storage PhysicalMapping ActivePageMap MemoryInit Ports Interrupts Vga Cpu Process.

(** A record of the [log] crate: level, target and message. *)
Definition log_record : Type := log_Level * list Z * list Z.

(** [AcpiTables::search_for_rsdp_bios] of the [acpi] crate, given the two operations of the
    handler and the logger that is registered with the [log] crate, over the state [St] they work on. *)
Class AcpiCrate (St : Type) := {
  AcpiTables : Type;
  AcpiError : Type;
  AcpiError_debug : AcpiError -> list Z;
  search_for_rsdp_bios : (Z -> Z -> M St acpi_PhysicalMapping) -> (acpi_PhysicalMapping -> M St unit) ->
    (log_record -> M St unit) -> M St (result AcpiTables AcpiError)
}.

Section kmain.
Context `{B : Build} `{X : X86_64Crate} `{F : BitflagsCrate} `{BF : BitFieldCrate}.
Context `{T : FriendlyTree LEVEL_COUNT PHYS_BASE_ORDER} `{HT : FriendlyTree HEAP_LEVELS HEAP_BASE_ORDER}.
Context `{FC : FriendlyCrate} `{G : GdtCrate} `{GC : GoblinCrate} `{DM : DashMapCrate} {L : Type}.
#[local] Abbreviation hS := (heap_state PhysicalAllocator (tree (FriendlyTree := HT))).
Context `{AC : !AcpiCrate (hS * console)}.

(** The devices, registers and statics of the kernel. *)
Record system := mkSystem {
  sy_logger : option log_Level;     (** the maximal level of the [log] crate, once it has its logger *)
  sy_console : console;
  sy_kernel : kernel;
  sy_tss : option Tss;
  sy_intr : intr L;
  sy_cpu : cpu;
  sy_processes : gmap Z Process;
  sy_next_pid : Z;
  sy_table : option (list (Z * Z))  (** the storage of the table of processes *)
}.

#[local] Abbreviation sM := (M system).

(** ** The parts of the state *)

Definition on_console {A} (c : M console A) : sM A := fun s =>
  match c (sy_console s) with
  | Ret (a, x) => Ret (a, mkSystem (sy_logger s) x (sy_kernel s) (sy_tss s) (sy_intr s) (sy_cpu s) (sy_processes s) (sy_next_pid s) (sy_table s))
  | Stop w => Stop w
  end.

(** [init_memory] fills the [Once] of [tss::TSS]. *)
Definition on_kernel {A} (c : M kernel A) : sM A := fun s =>
  match c (sy_kernel s) with
  | Ret (a, k) =>
      let t := match sy_tss s with Some t => Some t | None => Tss_new <$> k_tss k end in
      Ret (a, mkSystem (sy_logger s) (sy_console s) k t (sy_intr s) (sy_cpu s) (sy_processes s) (sy_next_pid s) (sy_table s))
  | Stop w => Stop w
  end.

Definition on_intr {A} (c : M (intr L) A) : sM A := fun s =>
  match c (sy_intr s) with
  | Ret (a, i) => Ret (a, mkSystem (sy_logger s) (sy_console s) (sy_kernel s) (sy_tss s) i (sy_cpu s) (sy_processes s) (sy_next_pid s) (sy_table s))
  | Stop w => Stop w
  end.

Definition on_cpu {A} (c : option Tss -> M cpu A) : sM A := fun s =>
  match c (sy_tss s) (sy_cpu s) with
  | Ret (a, p) => Ret (a, mkSystem (sy_logger s) (sy_console s) (sy_kernel s) (sy_tss s) (sy_intr s) p (sy_processes s) (sy_next_pid s) (sy_table s))
  | Stop w => Stop w
  end.

Definition on_procs {A} (c : M (proc_state (P := PhysicalAllocator) (T := HT)) A) : sM A := fun s =>
  let k := sy_kernel s in
  match c (mkProcState (k_heap k) (sy_processes s) (sy_next_pid s) (sy_tss s) (sy_table s)) with
  | Ret (a, p) =>
      Ret (a, mkSystem (sy_logger s) (sy_console s) (mkKernel (ps_heap p) (k_boot k) (k_tss k)) (ps_tss p) (sy_intr s)
                (sy_cpu s) (PROCESSES p) (NEXT_PID p) (ps_table p))
  | Stop w => Stop w
  end.

(** ** [log::init], [acpi_init] *)

Context (f : features).

Definition log_init : sM unit := fun s =>
  match sy_logger s with
  | Some _ => Stop (Panic "Error setting logger!")
  | None => Ret (tt, mkSystem (Some (log_level f)) (sy_console s) (sy_kernel s) (sy_tss s) (sy_intr s) (sy_cpu s) (sy_processes s) (sy_next_pid s) (sy_table s))
  end.

Definition say (l : log_Level) (text : list Z) : sM unit := on_console (log_macro f l text).

(** The [log] crate hands a record of a level up to the maximal one to the registered logger. *)
Definition log_records (records : list log_record) : sM unit := fun s =>
  match sy_logger s with
  | None => Ret (tt, s)
  | Some max => for_each records (fun '(l, target, args) =>
      if level_no l <=? level_no max then on_console (log f l target args) else ret tt) s
  end.

(** The memory and the console, on which the search for the ACPI tables works. *)
Definition in_memory {A} (c : M hS A) : M (hS * console) A := fun s =>
  match c s.1 with Ret (a, h) => Ret (a, (h, s.2)) | Stop w => Stop w end.
Definition to_logger (r : log_record) : M (hS * console) unit := fun s =>
  let '(l, target, args) := r in
  match log f l target args s.2 with Ret (a, c) => Ret (a, (s.1, c)) | Stop w => Stop w end.

Definition rsdp_search : M (hS * console) (result AcpiTables AcpiError) :=
  search_for_rsdp_bios (fun addr size => in_memory (acpi_map_physical_region addr size))
    (fun m => in_memory (acpi_unmap_physical_region m)) to_logger.

Definition on_search {A} (c : M (hS * console) A) : sM A := fun s =>
  let k := sy_kernel s in
  match c (k_heap k, sy_console s) with
  | Ret (a, (h, x)) =>
      Ret (a, mkSystem (sy_logger s) x (mkKernel h (k_boot k) (k_tss k)) (sy_tss s) (sy_intr s) (sy_cpu s)
                (sy_processes s) (sy_next_pid s) (sy_table s))
  | Stop w => Stop w
  end.

Definition acpi_init : sM (result AcpiTables AcpiError) :=
  do! say Info_ (chars "acpi: initializing") in
  let! search_result := on_search rsdp_search in
  match search_result with
  | Ok tables =>
      do! say Info_ (chars "acpi: init successful") in
      ret (Ok tables)
  | Err e =>
      do! say Error_ (chars "acpi: init unsuccessful " ++ AcpiError_debug e) in
      ret (Err e)
  end.

(** [Vec::with_capacity(1)] for a function pointer. *)
Definition listener_vec : M hS unit :=
  let! _ := acquire 8 in ret tt.

(** [LISTENERS] is a [lazy_static]: its vectors are created when [listen] first uses it. *)
Definition init_listeners : M hS unit := for_each (range_excl 0 16) (fun _ => listener_vec).

(** ** [kmain] *)

(** The flags register, of which the kernel controls the interrupt flag. *)
Definition flags_register (rflags : Z) (s : system) : Z :=
  if int_flag (sy_intr s) then Z.setbit rflags 9 else Z.clearbit rflags 9.

(** [syscall_callback] is the address of the entry point, [tick_fn] the pointer to [tick], [init_elf] the image of the
    first process and [rflags] the flags other than the interrupt flag. What [goblin] logs it logs while it parses,
    before anything else that [spawn_from_elf] does.
    The result is the frame with which the processor enters user mode. *)
Definition kmain (mb : BootInformation) (guard_page_addr : Z)
    (syscall_callback : Z) (tick_fn : L) (init_elf : list Z) (rflags : Z) : sM iret_frame :=
  do! on_console (on_vga clear) in
  do! log_init in
  let! memory_lines := on_kernel (init_memory mb guard_page_addr) in
  do! for_each memory_lines (fun x => say x.1 x.2) in
  do! say Debug_ (chars "gdt: initialising rust gdt") in
  do! on_cpu gdt_init in
  do! say Debug_ (chars "gdt: initialised") in
  do! say Info_ (chars "interrupts: initializing") in
  do! on_intr interrupts_init in
  do! say Debug_ (chars "interrupts: initialized idt") in
  do! say Debug_ (chars "interrupts: pic initialized and remapped") in
  do! say Info_ (chars "interrupts: initialized") in
  do! on_intr interrupts_enable in
  do! say Info_ (chars "interrupts: ready") in
  do! on_cpu (fun _ => enable_features) in
  do! say Info_ (chars "cpu features: enabled") in
  do! say Info_ (chars "pit: initializing") in
  do! on_procs (with_memory init_listeners) in
  do! on_intr (pit_initialize tick_fn CONTROLLER) in
  do! say Info_ (chars "pit: ready") in
  let! _acpi := acpi_init in
  do! on_cpu (setup_syscall syscall_callback) in
  do! say Info_ (chars "init: loading") in
  do! log_records (elf_log init_elf) in
  let! pid := on_procs (spawn_from_elf init_elf) in
  match pid with
  | Err _ => panic "{:#x?}"
  | Ok pid =>
      do! say Info_ (chars "init: launching") in
      let! flags := gets (flags_register rflags) in
      let! r := on_procs (run_by_pid flags pid) in
      match r with
      | Ok frame => ret frame
      | Err _ => panic "Out of physical memory"
      end
  end.

End kmain.
