(* ===== verification/SmallBlocks.v ===== *)
(** Heaps with few live blocks of the smallest size, as the listeners' vectors are. *)
From S2P Require Import Prelude Crates Machine FrameAlloc Paging Layout PageMap AddressSpace.
From S2P Require Import PagingLemmas PageMapLemmas MapperLemmas Friendly Heap HeapLemmas Storage StorageLemmas ProcessSpace.
From S2P Require Import PhysicalAllocator PhysicalMapping Ports Interrupts Vga Cpu Process MemoryInit Kmain.

Section small.
Context `{B : Build} `{X : X86_64Crate} `{F : BitflagsCrate}.
Context {P : Type} `{FA : FrameAllocator P} `{FS : !FrameAllocatorSpec P}.
Context `{T : FriendlyTree HEAP_LEVELS HEAP_BASE_ORDER}.
#[local] Abbreviation hblock := (block_of HEAP_BASE_ORDER).

(** The live blocks are [n] of the smallest. *)
Definition small_blocks (n : nat) (t : tree) : Prop :=
  exists l : list Z, length l = n /\ forall g j, tree_live t g j <-> g ∈ l /\ j = 0.

Lemma hblock_0 f x : hblock f 0 x <-> x = f.
Proof. rewrite hblock_iff by lia. change (2 ^ (0 + 6)) with 64. split; [|intros ->]; Z.to_euclidean_division_equations; lia. Qed.

(** One block among [n + 1] of the same size has no live block. *)
Lemma small_blocks_room (h : heap_state P tree) t n k : heap_inv h t -> small_blocks n t -> 0 <= k ->
  (Z.of_nat n + 1) * 2 ^ (k + 6) <= 2 ^ 30 -> exists f, f mod 2 ^ (k + 6) = 0 /\ forall x, hblock f k x -> tree_free t x.
Proof.
  intros Hinv (l & Hl & Hlive) Hk Hroom. assert (0 < 2 ^ (k + 6)) as Hp by (apply Z.pow_pos_nonneg; lia).
  assert (2 ^ (k + 6) = 64 * 2 ^ k) as Hp64 by (rewrite Z.pow_add_r by lia; lia).
  destruct (some_missing ((fun g => g / 2 ^ (k + 6)) <$> l)) as (i & Hi & Hn). rewrite length_fmap, Hl in Hi.
  exists (i * 2 ^ (k + 6)). split; [by apply Z.mod_mul; lia|]. intros x (Hx & Hm)%hblock_iff; [|done].
  destruct (hi_complete _ _ Hinv x) as [?|(g & j & [Hg ->]%Hlive & ->%hblock_0)]; [|nia|done|].
  - rewrite Hp64 in Hm. Z.to_euclidean_division_equations. nia.
  - destruct Hn. apply list_elem_of_fmap. exists g. split; [|done]. apply Z.div_unique with (g - i * 2 ^ (k + 6)); lia.
Qed.

(** Outside of the heap every page is translated alike. *)
Definition kept (m m' : machine P) : Prop := forall n, 0xffffffff80000 <= n < 2 ^ 52 ->
  ref_walk (mem m') (cr3 m') (page_no n) = ref_walk (mem m) (cr3 m) (page_no n).

Lemma kept_trans m1 m2 m3 : kept m1 m2 -> kept m2 m3 -> kept m1 m3.
Proof. intros H1 H2 n Hn. by rewrite H2, H1. Qed.

Lemma heap_pages_kept a b m m' : HEAP_PAGE <= a -> b <= HEAP_PAGE + 2 ^ 18 -> evolves (in_pages a b) m m' -> kept m m'.
Proof.
  intros Ha Hb Hev n Hn. change HEAP_PAGE with 0xffffffff40000 in *.
  assert (forall x, 0xffffffff40000 <= x < 2 ^ 52 -> page_ok (page_no x)) as Hpo by (intros x Hx; apply kernel_page_ok; unfold KERNEL_PAGE; lia).
  rewrite (ev_cr3 _ _ _ Hev). apply (ev_walk _ _ _ Hev); [apply Hpo; lia|].
  intros (x & Hx & Hs). apply same_page_inj in Hs; [|apply Hpo; lia|apply Hpo; lia]. cbn [number page_no] in Hs. lia.
Qed.


End small.

Section listeners.
Context `{B : Build} `{X : X86_64Crate} `{F : BitflagsCrate} `{BF : BitFieldCrate}.
Context `{T : FriendlyTree LEVEL_COUNT PHYS_BASE_ORDER} `{HT : FriendlyTree HEAP_LEVELS HEAP_BASE_ORDER} `{FC : FriendlyCrate}.
Implicit Types (h : heap_state PhysicalAllocator (tree (FriendlyTree := HT))).

Lemma listener_vec_spec h t n : heap_inv h t -> small_blocks n t -> Z.of_nat n < 2 ^ 23 ->
  (exists h' t', listener_vec h = Ret (tt, h') /\ heap_inv h' t' /\ small_blocks (S n) t' /\
     kept (mach h) (mach h') /\ takes 4 (mach h) (mach h')) \/
  (exists msg, listener_vec h = Stop (Panic msg) /\ short_of 4 (mach h)).
Proof.
  intros Hinv Hsm Hn. destruct (heap_alloc_spec h t 8 Hinv ltac:(lia)) as (k & Ek & Hres).
  assert (k = 0) as ->. { vm_compute in Ek. by injection Ek as <-. }
  change (used_pages 0) with 1 in Hres. unfold listener_vec, acquire. rewrite bind_assoc.
  destruct Hres as [([ptr|] & h' & t' & E & Hi' & Hr)|[E Hsh]].
  - left. exists h', t'. rewrite (bind_ret _ _ _ _ _ E). destruct Hr as (f & -> & Hb & _ & Hlive & Hev & Htk & _).
    split_and!; [done|done| | |done].
    + destruct Hsm as (l & Hl & Hll). exists (f :: l). split; [cbn [length]; lia|]. intros g j. rewrite Hlive, Hll, elem_of_cons. naive_solver.
    + apply (heap_pages_kept (HEAP_PAGE + f / 4096) (HEAP_PAGE + f / 4096 + 1)); [..|done];
        destruct Hb as (_ & _ & Hf); Z.to_euclidean_division_equations; lia.
  - exfalso. destruct Hr as (_ & _ & [H|H]); [lia|]. destruct (small_blocks_room h t n 0 Hinv Hsm ltac:(lia)) as (f & Hf & Hfree).
    { change (2 ^ (0 + 6)) with 64. lia. }
    by apply (H f Hf).
  - right. eexists. rewrite (bind_stop _ _ _ _ E). split; [done|]. done.
Qed.

Lemma listener_vecs_spec l h t n : heap_inv h t -> small_blocks n t -> Z.of_nat n + Z.of_nat (length l) < 2 ^ 23 ->
  (exists h' t', for_each l (fun _ : Z => listener_vec) h = Ret (tt, h') /\ heap_inv h' t' /\ small_blocks (n + length l) t' /\
     kept (mach h) (mach h') /\ takes (4 * Z.of_nat (length l)) (mach h) (mach h')) \/
  (exists msg, for_each l (fun _ : Z => listener_vec) h = Stop (Panic msg) /\ short_of (4 * Z.of_nat (length l)) (mach h)).
Proof.
  revert h t n. induction l as [|x l IH]; intros h t n Hinv Hsm Hn; cbn [length] in *.
  - left. exists h, t. split_and!; [done|done|by rewrite Nat.add_0_r|done|by apply takes_none].
  - cbn [for_each]. destruct (listener_vec_spec h t n Hinv Hsm ltac:(lia)) as [(h1 & t1 & E1 & Hi1 & Hs1 & Hk1 & Ht1)|(msg & E1 & Hsh)].
    2:{ right. exists msg. rewrite (bind_stop _ _ _ _ E1). split; [done|]. eapply short_of_mono; [|exact Hsh]. lia. }
    rewrite (bind_ret _ _ _ _ _ E1).
    destruct (IH h1 t1 (S n) Hi1 Hs1 ltac:(lia)) as [(h2 & t2 & E2 & Hi2 & Hs2 & Hk2 & Ht2)|(msg & E2 & Hsh)].
    + left. exists h2, t2. split_and!; [done|done|by replace (n + S (length l))%nat with (S n + length l)%nat by lia|by eapply kept_trans|].
      replace (4 * Z.of_nat (S (length l))) with (4 + 4 * Z.of_nat (length l)) by lia. by eapply takes_trans.
    + right. exists msg. split; [done|]. replace (4 * Z.of_nat (S (length l))) with (4 + 4 * Z.of_nat (length l)) by lia.
      by eapply short_of_takes.
Qed.

(** The sixteen vectors take at most sixty-four frames. *)
Lemma init_listeners_spec h t : heap_inv h t -> small_blocks 0 t ->
  (exists h' t', init_listeners h = Ret (tt, h') /\ heap_inv h' t' /\ small_blocks 16 t' /\
     kept (mach h) (mach h') /\ takes 64 (mach h) (mach h')) \/
  (exists msg, init_listeners h = Stop (Panic msg) /\ short_of 64 (mach h)).
Proof. intros Hinv Hs. apply (listener_vecs_spec (range_excl 0 16) h t 0 Hinv Hs). by vm_compute. Qed.

Lemma small_blocks_few n (t : tree (FriendlyTree := HT)) : small_blocks n t -> few_blocks n t.
Proof.
  intros (l & Hl & Hlive). exists ((fun g => (g, 0)) <$> l). rewrite length_fmap. split; [lia|].
  intros g j [Hg ->]%Hlive. split; [|lia]. by apply (list_elem_of_fmap_2 (fun g => (g, 0))).
Qed.

End listeners.
