(* ===== verification/KmainTheorems.v ===== *)
(** [kmain] as a whole: from the boot tables to the first instruction of the first process. *)
From S2P Require Import Prelude Crates Machine FrameAlloc Paging Layout PageMap Bytes.
From S2P Require Import AddressSpace PagingLemmas PageMapLemmas MapperLemmas BootstrapHeap Friendly PhysicalAllocator.
From S2P Require Import Heap HeapLemmas Storage StorageLemmas PhysicalMapping ActivePageMap MemoryInit MemoryTheorems RemapKernel RemapTheorems.
From S2P Require Import KernelSpaceTheorems BootLemmas Ports Interrupts InterruptTheorems Vga VgaTheorems Panic PanicTheorems Cpu CpuTheorems.
From S2P Require Import Process ProcessLemmas ProcessTheorems ProcessSpace SharedSpace SpawnTheorems InitMemoryTheorems Kmain SmallBlocks.
From S2P Require Import BootTables FriendlyExample AllocatorTheorems PagingTheorems HeapTheorems.

Section steps.
Context `{B : Build} `{X : X86_64Crate} `{F : BitflagsCrate} `{BF : BitFieldCrate}.
Context `{T : FriendlyTree LEVEL_COUNT PHYS_BASE_ORDER} `{HT : FriendlyTree HEAP_LEVELS HEAP_BASE_ORDER}.
Context `{FC : FriendlyCrate} `{G : GdtCrate} `{GC : GoblinCrate} `{DM : DashMapCrate} {L : Type}.
Context (f : features).
#[local] Abbreviation system := (system (L := L)).
Implicit Types (c : console) (k : kernel).

(** ** What is logged *)

(** A line of the kernel's own, or a record of another crate. *)
Inductive log_entry := Said (line : log_Level * list Z) | Recorded (r : log_record).

(** Its text on the serial port, if the build has its level. *)
Definition entry_text (e : log_entry) : list Z :=
  match e with
  | Said line =>
      if match line.1 with Debug_ => feature_debug f | Trace => feature_trace f | _ => true end
      then (log_label line.1).1 ++ line.2 ++ [10] else []
  | Recorded (l, target, args) =>
      if enabled f l then (log_label l).1 ++ target ++ chars ": " ++ args ++ [10] else []
  end.
Definition log_text (lines : list log_entry) : list Z := concat (entry_text <$> lines).

(** The console after [lines], when [out0] was on the serial port before. *)
Definition logged (out0 : list Z) (lines : list log_entry) (c : console) : Prop :=
  writer_ok (vga c) /\ serial c = out0 ++ log_text lines.

Lemma log_text_app l1 l2 : log_text (l1 ++ l2) = log_text l1 ++ log_text l2.
Proof. unfold log_text. by rewrite fmap_app, concat_app. Qed.

Lemma log_text_snoc lines line : log_text (lines ++ [line]) = log_text lines ++ entry_text line.
Proof. rewrite log_text_app. unfold log_text at 2. cbn [fmap list_fmap concat]. by rewrite app_nil_r. Qed.

Lemma log_macro_ok c out0 lines l txt : logged out0 lines c ->
  exists c', log_macro f l txt c = Ret (tt, c') /\ logged out0 (lines ++ [Said (l, txt)]) c'.
Proof.
  intros [Hw Hs]. unfold logged. rewrite log_text_snoc. unfold log_macro, entry_text. cbn [fst snd].
  destruct (match l with Debug_ => _ | _ => _ end).
  2:{ exists c. split_and!; [done|done|]. by rewrite app_nil_r. }
  destruct (log_label l) as [label col].
  destruct (write_str_coloured_ok (vga c) label col Hw) as (w1 & E1 & H1 & _).
  destruct (write_str_ok w1 (txt ++ [10]) H1) as (w2 & E2 & H2 & _).
  exists (mkConsole w2 (((serial c ++ label) ++ txt) ++ [10])). split_and!; [|exact H2|].
  - unfold bind, on_vga, serial_write, modify. rewrite E1. cbn [vga serial]. by rewrite E2.
  - cbn [serial fst]. by rewrite Hs, <- !app_assoc.
Qed.

Lemma log_ok c out0 lines l target args : logged out0 lines c ->
  exists c', log f l target args c = Ret (tt, c') /\ logged out0 (lines ++ [Recorded (l, target, args)]) c'.
Proof.
  intros [Hw Hs]. unfold logged. rewrite log_text_snoc. unfold log, entry_text. destruct (enabled f l).
  2:{ exists c. split_and!; [done|done|]. by rewrite app_nil_r. }
  destruct (log_label l) as [label col].
  destruct (write_str_coloured_ok (vga c) label col Hw) as (w1 & E1 & H1 & _).
  destruct (write_str_ok w1 (target ++ chars ": " ++ args ++ [10]) H1) as (w2 & E2 & H2 & _).
  exists (mkConsole w2 ((serial c ++ label) ++ target ++ chars ": " ++ args ++ [10])). split_and!; [|exact H2|].
  - unfold bind, on_vga, serial_write, modify. rewrite E1. cbn [vga serial]. by rewrite E2.
  - cbn [serial fst]. by rewrite Hs, <- !app_assoc.
Qed.

(** ** One step of [kmain] before a postcondition [Q] *)

Section step.
Context {A : Type} (Q : res (A * system) -> Prop).
Context (lg : option log_Level) (c : console) (k : kernel) (t : option Tss) (i : intr L) (p : cpu) (ps : gmap Z Process) (n : Z) (tb : option (list (Z * Z))).

Lemma say_step out0 lines l txt (K : unit -> M system A) : logged out0 lines c ->
  (forall c', logged out0 (lines ++ [Said (l, txt)]) c' -> Q (K tt (mkSystem lg c' k t i p ps n tb))) ->
  Q (bind (say f l txt) K (mkSystem lg c k t i p ps n tb)).
Proof.
  intros Hw HK. destruct (log_macro_ok c out0 lines l txt Hw) as (c' & E & Hw').
  assert (say f l txt (mkSystem lg c k t i p ps n tb) = Ret (tt, mkSystem lg c' k t i p ps n tb)) as Es.
  { unfold say, on_console. cbn [sy_console]. by rewrite E. }
  rewrite (bind_ret _ _ _ _ _ Es). by apply HK.
Qed.

Lemma intr_step (m : M (intr L) unit) i' (K : unit -> M system A) : m i = Ret (tt, i') ->
  Q (K tt (mkSystem lg c k t i' p ps n tb)) -> Q (bind (on_intr m) K (mkSystem lg c k t i p ps n tb)).
Proof.
  intros E HK. assert (on_intr m (mkSystem lg c k t i p ps n tb) = Ret (tt, mkSystem lg c k t i' p ps n tb)) as Es.
  { unfold on_intr. cbn [sy_intr]. by rewrite E. }
  by rewrite (bind_ret _ _ _ _ _ Es).
Qed.

Lemma cpu_step (m : option Tss -> M cpu unit) p' (K : unit -> M system A) : m t p = Ret (tt, p') ->
  Q (K tt (mkSystem lg c k t i p' ps n tb)) -> Q (bind (on_cpu m) K (mkSystem lg c k t i p ps n tb)).
Proof.
  intros E HK. assert (on_cpu m (mkSystem lg c k t i p ps n tb) = Ret (tt, mkSystem lg c k t i p' ps n tb)) as Es.
  { unfold on_cpu. cbn [sy_cpu sy_tss]. by rewrite E. }
  by rewrite (bind_ret _ _ _ _ _ Es).
Qed.

Lemma procs_step {R} (m : M (proc_state (P := PhysicalAllocator) (T := HT)) R) r q (K : R -> M system A) :
  m (mkProcState (k_heap k) ps n t tb) = Ret (r, q) ->
  Q (K r (mkSystem lg c (mkKernel (ps_heap q) (k_boot k) (k_tss k)) (ps_tss q) i p (PROCESSES q) (NEXT_PID q) (ps_table q))) ->
  Q (bind (on_procs m) K (mkSystem lg c k t i p ps n tb)).
Proof.
  intros E HK. assert (on_procs m (mkSystem lg c k t i p ps n tb) =
    Ret (r, mkSystem lg c (mkKernel (ps_heap q) (k_boot k) (k_tss k)) (ps_tss q) i p (PROCESSES q) (NEXT_PID q) (ps_table q))) as Es.
  { unfold on_procs. cbn [sy_kernel sy_processes sy_next_pid sy_tss sy_table]. by rewrite E. }
  by rewrite (bind_ret _ _ _ _ _ Es).
Qed.

Lemma procs_stop {R} (m : M (proc_state (P := PhysicalAllocator) (T := HT)) R) w (K : R -> M system A) :
  m (mkProcState (k_heap k) ps n t tb) = Stop w -> Q (Stop w) -> Q (bind (on_procs m) K (mkSystem lg c k t i p ps n tb)).
Proof.
  intros E HK. assert (on_procs m (mkSystem lg c k t i p ps n tb) = Stop w) as Es.
  { unfold on_procs. cbn [sy_kernel sy_processes sy_next_pid sy_tss sy_table]. by rewrite E. }
  by rewrite (bind_stop _ _ _ _ Es).
Qed.

End step.

Lemma lines_step {A} (Q : res (A * system) -> Prop) lg c k t i p ps n tb out0 before lines (K : unit -> M system A) : logged out0 before c ->
  (forall c', logged out0 (before ++ (Said <$> lines)) c' -> Q (K tt (mkSystem lg c' k t i p ps n tb))) ->
  Q (bind (for_each lines (fun x => say f x.1 x.2)) K (mkSystem lg c k t i p ps n tb)).
Proof.
  revert c before. induction lines as [|[l txt] lines IH]; intros c before Hw HK; cbn [for_each].
  - apply HK. by rewrite app_nil_r.
  - rewrite bind_assoc. eapply say_step; [exact Hw|]. intros c' Hw'. eapply IH; [exact Hw'|].
    intros c2 Hc2. apply HK. by rewrite <- app_assoc in Hc2.
Qed.

Lemma records_step {A} (Q : res (A * system) -> Prop) c k t i p ps n tb out0 before records (K : unit -> M system A) :
  logged out0 before c ->
  (forall c', logged out0 (before ++ (Recorded <$> records)) c' -> Q (K tt (mkSystem (Some (log_level f)) c' k t i p ps n tb))) ->
  Q (bind (log_records f records) K (mkSystem (Some (log_level f)) c k t i p ps n tb)).
Proof.
  intros Hw HK. enough (exists c', log_records f records (mkSystem (Some (log_level f)) c k t i p ps n tb) =
    Ret (tt, mkSystem (Some (log_level f)) c' k t i p ps n tb) /\ logged out0 (before ++ (Recorded <$> records)) c') as (c' & E & Hc').
  { rewrite (bind_ret _ _ _ _ _ E). by apply HK. }
  unfold log_records. cbn [sy_logger]. clear HK. revert c before Hw.
  induction records as [|[[l target] args] records IH]; intros c before Hw; cbn [for_each].
  - exists c. split; [done|]. by rewrite app_nil_r.
  - destruct (log_ok c out0 before l target args Hw) as (c1 & E1 & Hc1). destruct (IH c1 _ Hc1) as (c' & E & Hc').
    exists c'. split; [|by rewrite <- app_assoc in Hc'].
    erewrite bind_ret; [exact E|]. destruct (level_no l <=? level_no (log_level f)) eqn:El.
    + unfold on_console. cbn [sy_console]. by rewrite E1.
    + unfold log, enabled in E1. rewrite El in E1. by injection E1 as <-.
Qed.

End steps.

(** * What [kmain] starts with and what it ends with *)

Section kmain.
Context `{B : Build} `{X : X86_64Crate} `{F : BitflagsCrate} `{BF : BitFieldCrate}.
Context `{T : FriendlyTree LEVEL_COUNT PHYS_BASE_ORDER} `{HT : FriendlyTree HEAP_LEVELS HEAP_BASE_ORDER}.
Context `{FC : FriendlyCrate} `{G : GdtCrate} `{GC : GoblinCrate} `{DM : DashMapCrate} {L : Type}.
#[local] Abbreviation hS := (heap_state PhysicalAllocator (tree (FriendlyTree := HT))).
Context `{AC : !AcpiCrate (hS * console)}.
#[local] Abbreviation system := (system (L := L)).
Context (f : features).
Context (mb : BootInformation) (ka : Z * Z) (areas : list (Z * Z)) (sections : list ElfSection) (guard : Z).
Context (syscall_callback : Z) (tick_fn : L) (init_elf : list Z) (elf : Elf) (rflags : Z).
Context (acpi_cost : Z) (acpi_blocks : nat) (table_cost : Z) (table_blocks : nat).
Implicit Types (s : system) (m : machine PhysicalAllocator).

#[local] Abbreviation boot_begin := (boot_page ka * 4096).
#[local] Abbreviation boot_limit := (boot_page ka * 4096 + BOOT_BYTES).
#[local] Abbreviation tree_begin := (heap_tree_page ka * 4096).

(** The pages from [KERNEL_MAPPING_BEGIN] on. *)
Definition image_page (n : Z) : Prop := 0xffffffff80000 <= n < 2 ^ 52.

(** The search for the ACPI tables, with the kernel's handler and logger, from a heap in which only the
    listeners' vectors are: it leaves a working heap with at most [acpi_blocks] blocks, the kernel's pages as they
    are and a console to which it has logged records, and takes at most [acpi_cost] frames; or it panics because
    there are fewer. *)
Definition acpi_ok : Prop := 0 <= acpi_cost /\ forall (h : hS) t c, heap_inv h t -> small_blocks 16 t -> writer_ok (vga c) ->
  (exists r h' t' c' records, rsdp_search f (h, c) = Ret (r, (h', c')) /\
     heap_inv h' t' /\ few_blocks acpi_blocks t' /\ kept (mach h) (mach h') /\ takes acpi_cost (mach h) (mach h') /\
     logged f (serial c) (Recorded <$> records) c') \/
  (exists msg, rsdp_search f (h, c) = Stop (Panic msg) /\ short_of acpi_cost (mach h)).

(** The image of the first process. *)
Record image_ok : Prop := {
  im_parse : elf_parse init_elf = Ok elf;
  im_accepted : accepted elf;
  im_headers : headers_ok (program_headers elf);
  im_below : Forall (fun q => p_type q = PT_LOAD -> last_page q < STACK_FIRST) (program_headers elf);
  im_bytes : Forall (fun x => 0 <= x < 256) init_elf
}.

(** What the process loader asks of the heap: blocks of the parsed image and at most [table_blocks] of the table of
    processes, for which at most [table_cost] frames are taken, none larger than 128 KiB and not too many. *)
Record storage_ok s : Prop := {
  so_image : Forall op_ok (elf_storage init_elf);
  so_table : insert_fits (mkProcState (k_heap (sy_kernel s)) (sy_processes s) (sy_next_pid s) (sy_tss s) (sy_table s))
    (sy_next_pid s) table_blocks table_cost;
  so_room : Z.of_nat (acpi_blocks + acquired (elf_storage init_elf) + table_blocks) < 4096
}.

(** The machine and the statics when [kmain] is called. *)
Record starts s : Prop := {
  st_boots : boots mb ka areas sections guard (sy_kernel s);
  st_logger : sy_logger s = None;
  st_tss : sy_tss s = None;
  st_screen : writer_ok (vga (sy_console s));
  st_listeners i : (i < 8)%nat -> LISTENERS (sy_intr s) !! i = Some [];
  st_imr : Z.testbit (imr (master8259 (i_hw (sy_intr s)))) 0 = false;
  st_isr : isr (master8259 (i_hw (sy_intr s))) = 0;
  st_pid : sy_next_pid s < u64_max;
  st_table : sy_table s = None
}.

(** The kernel in an address space: the guard page unmapped, the stacks of interrupts and
    system calls in frames of their own, all else as [remap_kernel] asked. *)
Record kernel_mapped (us : list (Z * Z)) m : Prop := {
  km_guard : ref_walk (mem m) (cr3 m) (page_no guard) = Ret None;
  km_walk : exists pa, forall n, image_page n -> n <> guard -> ~ ist_pages (stacks_page ka) (page_no n) ->
    ref_walk (mem m) (cr3 m) (page_no n) = asked sections boot_begin boot_limit tree_begin pa (page_no n);
  km_stacks i j : 0 <= i < 8 -> 1 <= j <= 3 -> exists x, usable_frame us x /\
    small_mapping (mem m) (cr3 m) (page_no (stacks_page ka + 4 * i + j)) (leaf_entry x MemoryInit.data_flags)
}.

(** The timer interrupts and is counted. *)
Record timer_runs (i : intr L) : Prop := {
  tm_ready : timer_ready tick_fn i;
  tm_idt : idt_loaded i = true;
  tm_pit : pit (i_hw i) = mkPit8254 (access_as_u8 LobyteHibyte) (mode_as_u8 RateGenerator) RELOAD_VALUE None;
  tm_counter : COUNTER i = 0
}.

(** System calls enter the kernel on the stack behind the interrupt stacks and return to the
    segments of user mode. *)
Record syscalls_ready (p : cpu) : Prop := {
  sr_lstar : lstar p = syscall_callback;
  sr_masked : Z.testbit (sfmask p) 9 = true;
  sr_syscall : syscall_selectors p = (cs p, ss p) /\ Z.land (cs p) 3 = 0;
  sr_sysret : sysret_selectors p = (0x33, 0x2b);
  sr_rsp : SYSCALL_STACK p = (stacks_page ka + 4 * 8) * 4096
}.

(** What the kernel logs after [init_memory] has logged [lines], up to the first process; [records] are those of the
    search for the ACPI tables. *)
Definition boot_lines (lines : list (log_Level * list Z)) (records : list log_record) (acpi : log_Level * list Z) : list log_entry :=
  (Said <$> lines) ++
  (Said <$> [(Debug_, chars "gdt: initialising rust gdt"); (Debug_, chars "gdt: initialised");
   (Info_, chars "interrupts: initializing"); (Debug_, chars "interrupts: initialized idt");
   (Debug_, chars "interrupts: pic initialized and remapped"); (Info_, chars "interrupts: initialized");
   (Info_, chars "interrupts: ready"); (Info_, chars "cpu features: enabled");
   (Info_, chars "pit: initializing"); (Info_, chars "pit: ready"); (Info_, chars "acpi: initializing")]) ++
  (Recorded <$> records) ++ [Said acpi].

Definition acpi_line (r : result AcpiTables AcpiError) : log_Level * list Z :=
  match r with
  | Ok _ => (Info_, chars "acpi: init successful")
  | Err e => (Error_, chars "acpi: init unsuccessful " ++ AcpiError_debug e)
  end.

(** A run of the search that ended with [r] and logged [records]. *)
Definition searched (r : result AcpiTables AcpiError) (records : list log_record) : Prop :=
  exists (h : hS) c h' c', rsdp_search f (h, c) = Ret (r, (h', c')) /\ serial c' = serial c ++ log_text f (Recorded <$> records).

(** The processor enters the first process with [frame]; on the serial port were [out0] before and
    then, of [init_memory], [lines]. *)
Record running (us : list (Z * Z)) (out0 : list Z) (lines : list (log_Level * list Z)) (frame : iret_frame) s : Prop := {
  ru_frame : frame = mkIret (sign_extend_47 (entry elf)) 0x33 (Z.setbit rflags 9) STACK_TOP 0x2b [0x2b; 0x2b; 0x2b; 0x2b];
  ru_tables : tables_inv (mach (k_heap (sy_kernel s)));
  ru_segments q : q ∈ program_headers elf -> p_type q = PT_LOAD -> segment_visible (mach (k_heap (sy_kernel s))) init_elf q;
  ru_stack va : STACK_TOP - 4096 <= va < STACK_TOP -> fresh_stack_byte (mach (k_heap (sy_kernel s))) va;
  ru_kernel : kernel_mapped us (mach (k_heap (sy_kernel s)));
  ru_timer : timer_runs (sy_intr s);
  ru_syscalls : syscalls_ready (sy_cpu s);
  ru_logger : sy_logger s = Some (log_level f);
  ru_log : exists r records, searched r records /\ serial (sy_console s) =
    out0 ++ log_text f (boot_lines lines records (acpi_line r) ++
      [Said (Info_, chars "init: loading")] ++ (Recorded <$> elf_log init_elf) ++ [Said (Info_, chars "init: launching")])
}.

(** Frames for everything that [kmain] does. *)
Definition spawn_cost : Z := storage_frames (elf_storage init_elf) + (14 + frames_needed (program_headers elf) + table_cost).
Definition kmain_cost : Z := boot_cost sections + (64 + acpi_cost + (spawn_cost + 8)).

(** What the kernel refuses: an entry point or a segment outside of the user half, a segment
    whose bytes in the file are not as many as in memory. *)
Definition refused : Prop := 2 ^ 48 <= entry elf \/
  exists q, q ∈ program_headers elf /\ p_type q = PT_LOAD /\
    (user_range_ok (first_page q) (last_page q) = false \/
     forall src, slice_get init_elf (file_range q) = Some src -> Z.of_nat (length src) <> (vm_range q).2 - (vm_range q).1).

(** ** The kernel's pages *)

Lemma image_page_p4 n : image_page n -> p4_index (page_no n) = 511.
Proof.
  unfold image_page. intros Hn. unfold p4_index. cbn [number page_no]. rewrite va_index_alt by lia.
  Z.to_euclidean_division_equations. lia.
Qed.

Lemma spawn_cost_nonneg s : image_ok -> storage_ok s -> 0 <= spawn_cost.
Proof.
  intros Him Hso. pose proof (frames_needed_nonneg _ (hs_ok _ (im_headers Him))).
  pose proof (storage_frames_nonneg _ (so_image _ Hso)). pose proof (insert_fits_cost _ _ _ _ (so_table _ Hso)). unfold spawn_cost. lia.
Qed.

Lemma heap_moves_kept m m' : heap_moves m m' -> kept m m'.
Proof.
  intros Hm n Hn. apply (hm_walk _ _ Hm); [by rewrite image_page_p4|]. intros (x & Hx & Hs). change HEAP_PAGE with 0xffffffff40000 in Hx.
  assert (forall y, 0xffffffff40000 <= y < 2 ^ 52 -> page_ok (page_no y)) as Hpo by (intros y Hy; apply kernel_page_ok; unfold KERNEL_PAGE; lia).
  apply same_page_inj in Hs; [|apply Hpo; lia|apply Hpo; lia]. cbn [number page_no] in Hs. lia.
Qed.

(** The pages in question are those of the image and what follows it. *)
Definition layout_ok : Prop := image_page guard /\ 0xffffffff80000 <= stacks_page ka /\ stacks_page ka + 32 < 2 ^ 52.

Lemma boots_layout k : boots mb ka areas sections guard k -> layout_ok.
Proof.
  intros Hb. pose proof (boot_bounds mb ka areas sections guard k Hb) as Hbd.
  destruct (boot_guard_ok mb ka areas sections guard k Hb (fun _ => 0)) as [Hg _ _ _].
  change (KERNEL_MAPPING_BEGIN / 4096) with 0xffffffff80000 in Hg.
  unfold layout_ok, image_page, stacks_page, heap_tree_page in *. lia.
Qed.

Lemma kernel_mapped_kept us m m' : layout_ok -> kernel_mapped us m -> kept m m' -> kernel_mapped us m'.
Proof.
  intros (Hg & H1 & H2) [Kg [pa Kw] Ks] Hk. split.
  - by rewrite Hk.
  - exists pa. intros n Hn Hng Hi. rewrite Hk by done. by apply Kw.
  - intros i j Hi Hj. destruct (Ks i j Hi Hj) as (x & Hx & Hm). exists x. split; [done|].
    unfold small_mapping. rewrite Hk; [exact Hm|]. unfold image_page. lia.
Qed.

Lemma booted_mapped us k k' pa t tss : layout_ok -> booted mb ka sections guard us k k' pa t tss -> kernel_mapped us (mach (k_heap k')).
Proof.
  intros (Hg & _ & _) Hbt. split.
  - apply Hbt.
  - exists pa. intros n Hn Hng Hi. apply Hbt; [by rewrite image_page_p4| |done].
    intros Hs%same_page_inj; [by apply Hng|apply kernel_page_ok; unfold image_page, KERNEL_PAGE in *; lia..].
  - intros i j Hi Hj. by apply (bt_stacks _ _ _ _ _ _ _ _ _ _ Hbt).
Qed.

(** ** The stages *)

(** [kmain] ends with the first process running, or it panics: because memory is short or
    because the image is refused. *)
Definition outcome (us : list (Z * Z)) (out0 : list Z) (lines : list (log_Level * list Z)) (r : res (iret_frame * system)) : Prop :=
  (exists frame s', r = Ret (frame, s') /\ running us out0 lines frame s') \/
  (exists msg, r = Stop (Panic msg) /\ (too_few us kmain_cost \/ refused)).

Definition launch : M system iret_frame :=
  do! say f Info_ (chars "init: loading") in
  do! log_records f (elf_log init_elf) in
  let! pid := on_procs (spawn_from_elf init_elf) in
  match pid with
  | Err _ => panic "{:#x?}"
  | Ok pid =>
      do! say f Info_ (chars "init: launching") in
      let! flags := gets (flags_register rflags) in
      let! r := on_procs (run_by_pid flags pid) in
      match r with
      | Ok frame => ret frame
      | Err _ => panic "Out of physical memory"
      end
  end.

(** The kernel is up. *)
Record prepared (us : list (Z * Z)) (out0 : list Z) (lines : list (log_Level * list Z)) s : Prop := {
  pr_heap : exists t, heap_inv (k_heap (sy_kernel s)) t /\ few_blocks acpi_blocks t;
  pr_mapped : kernel_mapped us (mach (k_heap (sy_kernel s)));
  pr_frames c : short_of c (mach (k_heap (sy_kernel s))) -> too_few us (boot_cost sections + (64 + acpi_cost + c));
  pr_log : exists r records, searched r records /\ logged f out0 (boot_lines lines records (acpi_line r)) (sy_console s);
  pr_tss : exists tss, sy_tss s = Some (Tss_new tss);
  pr_timer : timer_runs (sy_intr s);
  pr_syscalls : syscalls_ready (sy_cpu s);
  pr_logger : sy_logger s = Some (log_level f);
  pr_pid : sy_next_pid s < u64_max;
  pr_table : sy_table s = None;
  pr_storage : storage_ok s
}.

Lemma too_few_mono us c c' : c <= c' -> too_few us c -> too_few us c'.
Proof. intros Hc (l & Hl & H). exists l. split; [lia|done]. Qed.

Lemma launch_spec us out0 lines s : layout_ok -> image_ok -> prepared us out0 lines s -> outcome us out0 lines (launch s).
Proof.
  intros Hlay Him [(t & Hinv & Hfew) Hmap Hfr (ra & recs & Hsd & Hlog) [tss Htss] Htm Hsr Hlg Hpid Htb Hso].
  pose proof (spawn_cost_nonneg s Him Hso) as Hn0.
  destruct s as [lg c k tt' i p ps n tb]. cbn [sy_logger sy_console sy_kernel sy_tss sy_intr sy_cpu sy_processes sy_next_pid sy_table] in *. subst tt' lg tb.
  unfold launch. eapply (say_step f (outcome us out0 lines)); [exact Hlog|]. intros c1 Hc1.
  eapply (records_step f (outcome us out0 lines)); [exact Hc1|]. clear c1 Hc1. intros c1 Hc1.
  destruct Hso as [Hsi Hst Hsr']. cbn [sy_kernel sy_tss sy_processes sy_next_pid sy_table] in Hst.
  assert (owns t []) as Ho by (split; [constructor|by intros b ?%not_elem_of_nil]).
  destruct (spawn_from_elf_spec init_elf elf (im_accepted Him) (im_headers Him) (im_bytes Him)
    (mkProcState (k_heap k) ps n (Some (Tss_new tss)) None) t acpi_blocks table_blocks table_cost Hinv Ho Hfew Hpid (im_parse Him) Hsi Hst Hsr')
    as [(r & s1 & t1 & E1 & [Hmv _] & Ht1 & Hr)|(msg & E1 & Hsh)].
  2:{ eapply (procs_stop (outcome us out0 lines)); [exact E1|]. right. exists msg. split; [done|]. left.
      eapply too_few_mono; [|apply Hfr, Hsh]. unfold kmain_cost, spawn_cost. lia. }
  eapply (procs_step (outcome us out0 lines)); [exact E1|]. destruct r as [pid|e].
  2:{ right. eexists. split; [done|]. destruct Hr as (_ & _ & [[_ Hl]|[(q & Hq & Hqt & Hse) Hoom]]); [right; by left|].
      destruct e as [| | |[]| | |r]; try done.
      - right. right. exists q. auto.
      - left. eapply too_few_mono; [|apply Hfr, Hoom; done]. unfold kmain_cost, spawn_cost. lia.
      - right. right. exists q. split_and!; [done..|]. right. apply Hse. }
  destruct Hr as (-> & Hent & pt & Hps & [Hsp _] & Htk). cbn [ps_heap PROCESSES NEXT_PID ps_tss] in *.
  eapply (say_step f (outcome us out0 lines)); [exact Hc1|]. intros c2 Hc2. set (p' := mkProcess _ _ _ _ _) in Hps, Hsp.
  assert (PROCESSES s1 !! n = Some p') as Hp by (rewrite Hps; apply lookup_insert_eq).
  pose proof (tr_if _ _ (tm_ready _ Htm)) as Hif. rewrite (bind_ret (gets _) _ _ (Z.setbit rflags 9) _) by (unfold gets, flags_register; cbn [sy_intr]; by rewrite Hif).
  destruct (spawned_process_spec (Z.setbit rflags 9) init_elf elf s1 n p' (Tss_new tss) Hp eq_refl Hsp (im_headers Him) (im_below Him) Ht1 eq_refl default_iopb_ok)
    as [(s2 & E2 & _ & Hti & Hseg & Hstk & Hker)|(s2 & E2 & Hsh)].
  - destruct s1 as [h1 ps1 n1 t1' tb1]. cbn [ps_heap PROCESSES NEXT_PID ps_tss ps_table] in *.
    eapply (procs_step (outcome us out0 lines)); [exact E2|]. left. eexists _, _. split; [done|].
    split; cbn [sy_logger sy_kernel sy_intr sy_cpu k_heap ps_heap]; try done.
    + apply (kernel_mapped_kept us (mach (k_heap k))); [done..|]. intros x Hx. rewrite Hker by (by apply image_page_p4).
      by apply (heap_moves_kept _ _ (sm_moves _ _ _ _ _ _ Hmv)).
    + exists ra, recs. split; [done|]. rewrite <- !app_assoc in Hc2. apply Hc2.
  - destruct s1 as [h1 ps1 n1 t1' tb1]. cbn [ps_heap PROCESSES NEXT_PID ps_tss ps_table] in *.
    eapply (procs_step (outcome us out0 lines)); [exact E2|]. right. eexists. split; [done|]. left. unfold kmain_cost.
    apply Hfr. by apply (short_of_takes _ _ _ (mach h1)).
Qed.

(** [kmain] after [init_memory]. *)
Definition bring_up (memory_lines : list (log_Level * list Z)) : M system iret_frame :=
  do! for_each memory_lines (fun x => say f x.1 x.2) in
  do! say f Debug_ (chars "gdt: initialising rust gdt") in
  do! on_cpu gdt_init in
  do! say f Debug_ (chars "gdt: initialised") in
  do! say f Info_ (chars "interrupts: initializing") in
  do! on_intr interrupts_init in
  do! say f Debug_ (chars "interrupts: initialized idt") in
  do! say f Debug_ (chars "interrupts: pic initialized and remapped") in
  do! say f Info_ (chars "interrupts: initialized") in
  do! on_intr interrupts_enable in
  do! say f Info_ (chars "interrupts: ready") in
  do! on_cpu (fun _ => enable_features) in
  do! say f Info_ (chars "cpu features: enabled") in
  do! say f Info_ (chars "pit: initializing") in
  do! on_procs (with_memory init_listeners) in
  do! on_intr (pit_initialize tick_fn CONTROLLER) in
  do! say f Info_ (chars "pit: ready") in
  let! _acpi := acpi_init f in
  do! on_cpu (setup_syscall syscall_callback) in
  launch.

Lemma interrupts_init_spec (i : intr L) : exists h, interrupts_init i = Ret (tt, mkIntr h (LISTENERS i) (COUNTER i) true (int_flag i)) /\
  remapped h /\ imr (master8259 h) = imr (master8259 (i_hw i)) /\ isr (master8259 h) = isr (master8259 (i_hw i)).
Proof.
  destruct (init_and_remap_spec (i_hw i)) as (h & E & Hr & _ & _ & _ & Hm & _ & Hs & _).
  exists h. split_and!; [|done..]. unfold interrupts_init, bind, modify, on_hw. cbn [i_hw]. by rewrite E.
Qed.

Lemma setup_syscall_spec ts (p : cpu) : 0 <= syscall_callback < 2 ^ 64 -> canonical syscall_callback = true ->
  privilege_stack_0 ts = (stacks_page ka + 4 * 8) * 4096 -> cs p = 0x18 -> ss p = 0x20 ->
  exists p', setup_syscall syscall_callback (Some (Tss_new ts)) p = Ret (tt, p') /\ syscalls_ready p'.
Proof.
  intros Hr Hc Hp Hcs Hss. destruct (GDT_spec (Tss_new ts)) as [tb Eg]. unfold setup_syscall. rewrite Eg.
  destruct (VirtAddr_new_spec syscall_callback) as [msg Ev]. rewrite VirtAddr_try_new_ok in Ev by auto.
  apply Z.eqb_eq in Hc. rewrite Ev, Hc. cbn [rbind selectors user_cs user_ds kernel_cs kernel_ds]. rewrite Star_write_ok by done.
  eexists. split; [done|]. split; cbn [lstar sfmask cs ss SYSCALL_STACK Tss_new tss]; try done.
  by rewrite Hcs, Hss.
Qed.

Lemma acpi_step {A} (Q : res (A * system) -> Prop) out0 before c k t i p ps n tb (K : result AcpiTables AcpiError -> M system A) h0 :
  logged f out0 before c -> acpi_ok -> heap_inv (k_heap k) h0 -> small_blocks 16 h0 ->
  (forall msg, short_of acpi_cost (mach (k_heap k)) -> Q (Stop (Panic msg))) ->
  (forall r h t' records c', heap_inv h t' -> few_blocks acpi_blocks t' -> kept (mach (k_heap k)) (mach h) ->
     takes acpi_cost (mach (k_heap k)) (mach h) -> searched r records ->
     logged f out0 (before ++ [Said (Info_, chars "acpi: initializing")] ++ (Recorded <$> records) ++ [Said (acpi_line r)]) c' ->
     Q (K r (mkSystem (Some (log_level f)) c' (mkKernel h (k_boot k) (k_tss k)) t i p ps n tb))) ->
  Q (bind (acpi_init f) K (mkSystem (Some (log_level f)) c k t i p ps n tb)).
Proof.
  intros Hw [_ Hac] Hinv Hsb Hstop HK. unfold acpi_init. rewrite bind_assoc. eapply (say_step f Q); [exact Hw|]. intros c1 [Hc1 Hs1].
  rewrite bind_assoc. destruct (Hac _ _ c1 Hinv Hsb Hc1) as [(r & h & t' & c2 & recs & E & Hi & Hf & Hk & Ht & [Hc2 Hs2])|(msg & E & Hsh)].
  2:{ rewrite (bind_stop (on_search _) _ _ (Panic msg)); [by apply Hstop|]. unfold on_search. cbn [sy_kernel sy_console]. by rewrite E. }
  erewrite (bind_ret (on_search _)); [|unfold on_search; cbn [sy_kernel sy_console]; rewrite E; done].
  cbn [sy_logger sy_tss sy_intr sy_cpu sy_processes sy_next_pid sy_table].
  assert (logged f out0 ((before ++ [Said (Info_, chars "acpi: initializing")]) ++ (Recorded <$> recs)) c2) as Hc.
  { split; [done|]. by rewrite Hs2, Hs1, (log_text_app f (before ++ _)), <- app_assoc. }
  assert (searched r recs) as Hsd by (by exists (k_heap k), c1, h, c2).
  destruct r as [tb'|e]; rewrite bind_assoc; (eapply (say_step f Q); [exact Hc|]); intros c3 Hc3;
    rewrite <- !app_assoc in Hc3; by eapply HK.
Qed.

Lemma booted_short us k k' pa th tss x : booted mb ka sections guard us k k' pa th tss ->
  short_of x (mach (k_heap k')) -> too_few us (boot_cost sections + x).
Proof.
  intros Hbt (l & Hl & Hin). destruct (bt_takes _ _ _ _ _ _ _ _ _ _ Hbt) as (l' & Hl' & Hin'). exists (l' ++ l).
  rewrite length_app. split; [lia|]. intros y Hy. apply elem_of_app. destruct (Hin' y Hy); auto.
Qed.

Lemma clear_ok w : writer_ok w -> safe clear w.
Proof. intros Hw. apply safe_gets, safe_for_each; [done|]. intros y w' Hy%elem_of_range_excl Hw'. by apply clear_row_ok. Qed.

(** One line. *)
Ltac log_one :=
  match goal with Hl : logged ?f ?out0 _ _ |- ?Q _ => eapply (say_step f Q); [exact Hl|]; clear Hl; intros ? ? end.

Lemma bring_up_spec us out0 lines k k' pa th tss c i p ps n k0 :
  layout_ok -> image_ok -> acpi_ok -> 0 <= syscall_callback < 2 ^ 64 -> canonical syscall_callback = true ->
  booted mb ka sections guard us k k' pa th tss -> logged f out0 [] c ->
  (forall j, (j < 8)%nat -> LISTENERS i !! j = Some []) -> Z.testbit (imr (master8259 (i_hw i))) 0 = false ->
  isr (master8259 (i_hw i)) = 0 -> n < u64_max -> storage_ok (mkSystem None c k0 None i p ps n None) ->
  outcome us out0 lines (bring_up lines (mkSystem (Some (log_level f)) c k' (Some (Tss_new tss)) i p ps n None)).
Proof.
  intros Hlay Him Hac Hcb Hcan Hbt Hc Hls Himr Hisr Hn Hso. pose proof (proj1 Hac) as Hac0.
  unfold bring_up. eapply (lines_step f (outcome us out0 lines)); [exact Hc|]. intros c1 Hc1. log_one.
  destruct (GDT_spec (Tss_new tss)) as [tb Eg].
  eapply (cpu_step (outcome us out0 lines)); [unfold gdt_init; rewrite Eg; done|].
  do 2 log_one.
  destruct (interrupts_init_spec i) as (h & Ei & Hrm & Hm & Hs). eapply (intr_step (outcome us out0 lines)); [exact Ei|].
  do 3 log_one.
  eapply (intr_step (outcome us out0 lines)); [done|]. log_one.
  eapply (cpu_step (outcome us out0 lines)); [done|]. do 2 log_one.
  assert (small_blocks 0 th) as Hsb.
  { exists []. split; [done|]. intros g j. split; [by intros ?%(bt_nothing _ _ _ _ _ _ _ _ _ _ Hbt)|by intros [?%not_elem_of_nil _]]. }
  pose proof (spawn_cost_nonneg _ Him Hso) as Hhn.
  destruct (init_listeners_spec _ _ (bt_heap _ _ _ _ _ _ _ _ _ _ Hbt) Hsb) as [(h1 & t1 & E1 & Hi1 & Hb1 & Hk1 & Ht1)|(msg & E1 & Hsh)].
  2:{ eapply (procs_stop (outcome us out0 lines)); [unfold with_memory; cbn [ps_heap]; by rewrite E1|]. right. exists msg. split; [done|]. left.
      eapply too_few_mono; [|by apply (booted_short us k k' pa th tss)]. unfold kmain_cost. lia. }
  eapply (procs_step (outcome us out0 lines)); [unfold with_memory; cbn [ps_heap]; by rewrite E1|]. cbn [ps_heap PROCESSES NEXT_PID ps_tss].
  eapply (intr_step (outcome us out0 lines)); [apply (pit_initialize_correct tick_fn _ []); apply (Hls 0%nat); lia|].
  log_one.
  match goal with Hl : logged f out0 _ _ |- _ => eapply acpi_step; [exact Hl|done|exact Hi1|exact Hb1|..]; clear Hl end; cbn [k_heap].
  - intros msg Hsh. right. exists msg. split; [done|]. left.
    eapply too_few_mono; [|apply (booted_short us k k' pa th tss (64 + acpi_cost) Hbt); exact (short_of_takes _ _ _ _ Ht1 Hsh)]. unfold kmain_cost. lia.
  - intros r h2 t2 recs c'' Hi2 Hb2 Hk2 Ht2 Hsd Hc''.
    match goal with |- outcome us out0 lines (bind _ _ (mkSystem _ _ _ _ _ ?q _ _ _)) =>
      destruct (setup_syscall_spec tss q Hcb Hcan (bt_rsp0 _ _ _ _ _ _ _ _ _ _ Hbt) eq_refl eq_refl) as (p' & Ep & Hsr) end.
    eapply (cpu_step (outcome us out0 lines)); [exact Ep|].
    apply launch_spec; [done|done|]. split; cbn [sy_kernel sy_console sy_tss sy_intr sy_cpu sy_logger sy_next_pid k_heap]; try done.
    + by exists t2.
    + apply (kernel_mapped_kept us (mach (k_heap k'))); [done|by eapply booted_mapped|by eapply kept_trans].
    + intros x Hx. apply (booted_short us k k' pa th tss); [done|]. apply (short_of_takes _ _ _ (mach h2)); [|done].
      by eapply takes_trans.
    + exists r, recs. split; [done|]. rewrite <- !app_assoc in Hc''. exact Hc''.
    + by exists tss.
    + split; try done. split; cbn [i_hw LISTENERS int_flag with_pit master8259]; try done.
      * by rewrite Hm.
      * by rewrite Hs.
      * rewrite list_lookup_insert_eq; [done|]. specialize (Hls 0%nat ltac:(lia)). by apply lookup_lt_Some in Hls.
      * intros j Hj. rewrite list_lookup_insert_ne by lia. apply Hls. lia.
    + destruct Hso as [H1 H2 H3]. by split; [|exact H2|].
Qed.

Lemma kmain_spec s : starts s -> image_ok -> acpi_ok -> storage_ok s -> 0 <= syscall_callback < 2 ^ 64 -> canonical syscall_callback = true ->
  exists info n us, print_memory_info areas = Ret info /\
    usable_memory mb (mb_start mb, mb_end mb) (boot_frame mb * 4096, boot_frame mb * 4096 + BOOT_BYTES) ka = Ret (n, us) /\
    unused mb ka areas us /\ outcome us (serial (sy_console s)) (memory_log info n) (kmain f mb (guard * 4096) syscall_callback tick_fn init_elf rflags s).
Proof.
  intros [Hb Hlg Ht Hscr Hls Himr Hisr Hpid Htb] Him Hac Hso Hcb Hcan. pose proof (boots_layout _ Hb) as Hlay.
  destruct (init_memory_spec mb ka areas sections guard _ Hb) as (n & us & Eu & Hun & Hres).
  destruct (boot_info mb ka areas sections guard _ Hb) as [info Hinfo]. exists info, n, us. do 3 (split; [done|]).
  destruct s as [lg c k tt' i p ps np tb]. cbn [sy_logger sy_console sy_kernel sy_tss sy_intr sy_cpu sy_processes sy_next_pid sy_table] in *. subst tt' lg tb.
  destruct (clear_ok (vga c) Hscr) as (w & Ew & Hw & _).
  assert (on_console (on_vga clear) (mkSystem None c k None i p ps np None) = Ret (tt, mkSystem None (mkConsole w (serial c)) k None i p ps np None)) as Ec.
  { unfold on_console, on_vga. cbn [sy_console]. by rewrite Ew. }
  unfold kmain. rewrite (bind_ret _ _ _ _ _ Ec). rewrite (bind_ret (log_init f) _ _ tt (mkSystem (Some (log_level f)) (mkConsole w (serial c)) k None i p ps np None)) by done.
  destruct Hres as [(info' & k' & pa & th & ts & Hinfo' & E & Hbt)|(msg & E & Hsh)].
  - rewrite Hinfo in Hinfo'. injection Hinfo' as <-.
    assert (on_kernel (init_memory mb (guard * 4096)) (mkSystem (Some (log_level f)) (mkConsole w (serial c)) k None i p ps np None) =
      Ret (memory_log info n, mkSystem (Some (log_level f)) (mkConsole w (serial c)) k' (Some (Tss_new ts)) i p ps np None)) as Ek.
    { unfold on_kernel. cbn [sy_kernel sy_tss]. rewrite E. by rewrite (bt_tss _ _ _ _ _ _ _ _ _ _ Hbt). }
    rewrite (bind_ret _ _ _ _ _ Ek). eapply (bring_up_spec _ _ _ k _ _ _ _ _ _ _ _ _ k); try done; [split; [done|]; by rewrite app_nil_r|].
    destruct Hso as [H1 H2 H3]. by split; [|exact H2|].
  - rewrite (bind_stop (on_kernel _) _ _ (Panic msg)) by (unfold on_kernel; cbn [sy_kernel]; by rewrite E).
    right. exists msg. split; [done|]. left. eapply too_few_mono; [|exact Hsh].
    pose proof (spawn_cost_nonneg _ Him Hso). destruct Hac. unfold kmain_cost. lia.
Qed.


End kmain.

(** * A concrete instance *)

Section examples.
#[local] Existing Instance x86_64_example.
#[local] Existing Instance bit_field_example.
#[local] Existing Instance bitflags_example.
#[local] Existing Instance frames_example.
#[local] Existing Instance debug_build.
#[local] Existing Instance heap_tree_example.
#[local] Existing Instance blocks_example.
#[local] Existing Instance gdt_example.
#[local] Existing Instance goblin_one.

#[local] Existing Instance dashmap_example.

(** A machine without ACPI tables, of which the crate warns. *)
Definition acpi_none : AcpiCrate (heap_state PhysicalAllocator (tree (FriendlyTree := heap_tree_example)) * console) :=
  {| AcpiTables := unit; AcpiError := unit; AcpiError_debug _ := [];
     search_for_rsdp_bios _ _ log :=
       do! log (Warn, chars "rsdp", chars "none found") in ret (Err tt) |}.
#[local] Existing Instance acpi_none.

Lemma acpi_none_ok : acpi_ok (mkFeatures true true) 0 16.
Proof.
  split; [done|]. intros h t c Hinv Hn Hc. left.
  assert (logged (mkFeatures true true) (serial c) [] c) as Hl by (split; [done|]; by rewrite app_nil_r).
  destruct (log_ok (mkFeatures true true) c (serial c) [] Warn (chars "rsdp") (chars "none found") Hl) as (c' & E & Hc').
  exists (Err tt), h, t, c', [(Warn, chars "rsdp", chars "none found")].
  split_and!; [|done|by apply small_blocks_few|done|by apply takes_none|exact Hc'].
  unfold rsdp_search. cbn [search_for_rsdp_bios acpi_none]. erewrite bind_ret; [done|]. unfold to_logger. cbn [fst snd]. by rewrite E.
Qed.

Lemma example_image_ok : image_ok example_image example_elf.
Proof.
  split; [done|by split_and!|apply example_headers| |repeat constructor; lia].
  constructor; [|done]. by intros _.
Qed.

Definition example_system (m : gmap Z Z) : system (L := unit) :=
  mkSystem None (mkConsole example_writer []) (boot_kernel m) None
    (mkIntr example_hw (replicate 16 []) 0 false false) example_cpu ∅ 0 None.

Lemma example_starts m : holds_tables boot_base m ->
  starts boot_information (0xffffffff80100000, 0xffffffff80500000) [(0x100000, 0x40000000)] [boot_section] 0xffffffff80410 (example_system m).
Proof.
  intros Hm. split; try done.
  - by apply example_boots.
  - split; cbn [buffer cursor fst snd example_writer VgaWriter_new sy_console vga example_system]; unfold RESOLUTION_x, RESOLUTION_y; [|lia..].
    split; [done|]. by apply Forall_replicate.
  - intros i Hi. apply lookup_replicate_2. lia.
Qed.

Lemma example_storage_ok m : storage_ok example_image 16 56 2 (example_system m).
Proof.
  split; [repeat constructor; cbn; lia| |by vm_compute]. intros bs Hb. exact (example_insert_fits bs Hb).
Qed.

Lemma example_not_refused : ~ refused example_image example_elf.
Proof.
  intros [H|(q & Hq%list_elem_of_singleton & _ & [H|H])]; subst; [by vm_compute in H|by vm_compute in H|].
  by eapply H; vm_compute.
Qed.


End examples.
