(* ===== verification/Locks.v ===== *)
(** The locking behaviour of code on one processor: a small language of lock operations, its
    transitions with interrupts, and a checker for code that never asks for a lock it already
    holds. The statics of the kernel are guarded by the spinning locks of the [spin] crate: a
    processor that asks for a lock it holds itself, or that an interrupted function of its own
    holds, spins forever. *)
From S2P Require Import Prelude.

(** * Locks and code *)

(** The guarded statics; the fields of one static that are locked on their own have a lock each.
    [trees_lock] stands for all 256 locks of the frame allocator's trees. *)
Inductive lock :=
| VGA_WRITER_lock | SERIAL_WRITER_lock | ACTIVE_PAGE_TABLES_lock | HEAP_tree_lock | trees_lock
| bitmap_lock | CHAINED_PICS_lock | IO_WAIT_PORT_lock | CONTROLLER_lock | LISTENERS_lock
| PROCESSES_lock | iomap_lock
(** and the [Once]s *)
| HEAP_once | trees_once | BOOTSTRAP_HEAP_once | TSS_once | GDT_once | IDT_once | LISTENERS_once
| PROCESSES_once.

#[export] Instance lock_eq_dec : EqDecision lock.
Proof. solve_decision. Defined.

(** A [Mutex] and the writer of a [RwLock] exclude everyone, readers only writers. *)
Inductive mode := Shared | Exclusive.

#[export] Instance mode_eq_dec : EqDecision mode.
Proof. solve_decision. Defined.

Inductive code :=
| Nop
| Then (a b : code)
| Either (a b : code)                         (** a branch on data *)
| Repeat (a : code)                           (** a loop *)
| Locked (l : lock) (m : mode) (a : code)     (** a guard and what is done before it is dropped *)
| CallOnce (o : lock) (init : code)           (** [Once::call_once], and the dereference of a [lazy_static] *)
| Wait (o : lock)                             (** [Once::wait] and its [unwrap] *)
| SetInterrupts (on : bool)                   (** [sti], [cli] and what loads the flag with others *)
| Halts                                       (** [halt], also at the end of a panic *)
| User.                                       (** the processor runs user code *)

Declare Scope code_scope.
Bind Scope code_scope with code.
Delimit Scope code_scope with code.
Notation "a ;; b" := (Then a b) : code_scope.

(** * Transitions *)

Inductive frame :=
| Do (c : code)
| Unlock (l : lock) (m : mode)    (** the guard is dropped *)
| Finish (o : lock)               (** [call_once] ends *)
| Iret.                           (** the handler returns *)

(** The guards alive, the innermost first. *)
#[local] Abbreviation guards := (list (lock * mode)).

Record config := mkConfig {
  todo : list frame;
  held : guards;
  inited : list lock;
  ints : bool
}.

Definition starting (c : code) : config := mkConfig [Do c] [] [] false.

(** Two guards of one lock do not go together unless both only read. *)
Definition free (l : lock) (m : mode) (H : guards) : bool :=
  forallb (fun g => negb (bool_decide (g.1 = l) && (bool_decide (g.2 = Exclusive) || bool_decide (m = Exclusive)))) H.

Section transitions.
(** The handler of the interrupts, and which of them arrive: those with [arrives H] when the guards
    [H] are alive. *)
Context (handler : code) (arrives : guards -> bool).

Inductive step : config -> config -> Prop :=
| s_nop K H D i : step (mkConfig (Do Nop :: K) H D i) (mkConfig K H D i)
| s_then a b K H D i : step (mkConfig (Do (Then a b) :: K) H D i) (mkConfig (Do a :: Do b :: K) H D i)
| s_left a b K H D i : step (mkConfig (Do (Either a b) :: K) H D i) (mkConfig (Do a :: K) H D i)
| s_right a b K H D i : step (mkConfig (Do (Either a b) :: K) H D i) (mkConfig (Do b :: K) H D i)
| s_again a K H D i : step (mkConfig (Do (Repeat a) :: K) H D i) (mkConfig (Do a :: Do (Repeat a) :: K) H D i)
| s_enough a K H D i : step (mkConfig (Do (Repeat a) :: K) H D i) (mkConfig K H D i)
| s_lock l m a K H D i : free l m H = true ->
    step (mkConfig (Do (Locked l m a) :: K) H D i) (mkConfig (Do a :: Unlock l m :: K) ((l, m) :: H) D i)
| s_unlock l m K H D i : step (mkConfig (Unlock l m :: K) ((l, m) :: H) D i) (mkConfig K H D i)
| s_init o a K H D i : o ∉ D -> free o Shared H = true ->
    step (mkConfig (Do (CallOnce o a) :: K) H D i) (mkConfig (Do a :: Finish o :: K) ((o, Exclusive) :: H) D i)
| s_finish o K H D i : step (mkConfig (Finish o :: K) ((o, Exclusive) :: H) D i) (mkConfig K H (o :: D) i)
| s_inited o a K H D i : o ∈ D -> free o Shared H = true ->
    step (mkConfig (Do (CallOnce o a) :: K) H D i) (mkConfig K H D i)
| s_wait o K H D i : o ∈ D -> free o Shared H = true -> step (mkConfig (Do (Wait o) :: K) H D i) (mkConfig K H D i)
| s_unwrap o K H D i : o ∉ D -> free o Shared H = true -> step (mkConfig (Do (Wait o) :: K) H D i) (mkConfig [] H D false)
| s_flag b K H D i : step (mkConfig (Do (SetInterrupts b) :: K) H D i) (mkConfig K H D b)
| s_halt K H D i : step (mkConfig (Do Halts :: K) H D i) (mkConfig [] H D false)
| s_user K H D i : step (mkConfig (Do User :: K) H D i) (mkConfig K H D i)
| s_interrupt K H D : arrives H = true -> step (mkConfig K H D true) (mkConfig (Do handler :: Iret :: K) H D false)
| s_iret K H D i : step (mkConfig (Iret :: K) H D i) (mkConfig K H D true).

(** The lock that is asked for next. *)
Definition wants (c : config) : option (lock * mode) :=
  match todo c with
  | Do (Locked l m _) :: _ => Some (l, m)
  | Do (CallOnce o _) :: _ | Do (Wait o) :: _ => Some (o, Shared)
  | _ => None
  end.

(** The processor asks for a lock whose guard is alive: it spins, or, at a [try_lock], fails. *)
Definition contended (c : config) : Prop := exists l m, wants c = Some (l, m) /\ free l m (held c) = false.

(** With interrupts off that is the end. *)
Lemma contended_stuck c : contended c -> ints c = false -> forall c', ~ step c c'.
Proof.
  intros (l & m & Hw & Hf) Hi c' Hs. destruct Hs; cbn [held ints] in *; try done; cbn [wants todo] in Hw; simplify_eq; congruence.
Qed.

(** One transition of the code itself: the first branch, no turn of a loop. *)
Definition next (c : config) : option config :=
  let '(mkConfig K H D i) := c in
  match K with
  | Do Nop :: K | Do User :: K => Some (mkConfig K H D i)
  | Do (Then a b) :: K => Some (mkConfig (Do a :: Do b :: K) H D i)
  | Do (Either a b) :: K => Some (mkConfig (Do a :: K) H D i)
  | Do (Repeat a) :: K => Some (mkConfig K H D i)
  | Do (Locked l m a) :: K => if free l m H then Some (mkConfig (Do a :: Unlock l m :: K) ((l, m) :: H) D i) else None
  | Do (CallOnce o a) :: K =>
      if negb (free o Shared H) then None else
      if decide (o ∈ D) then Some (mkConfig K H D i)
      else Some (mkConfig (Do a :: Finish o :: K) ((o, Exclusive) :: H) D i)
  | Do (Wait o) :: K =>
      if negb (free o Shared H) then None else Some (if decide (o ∈ D) then mkConfig K H D i else mkConfig [] H D false)
  | Do (SetInterrupts b) :: K => Some (mkConfig K H D b)
  | Do Halts :: _ => Some (mkConfig [] H D false)
  | Unlock l m :: K => match H with g :: H => if decide (g = (l, m)) then Some (mkConfig K H D i) else None | [] => None end
  | Finish o :: K => match H with g :: H => if decide (g = (o, Exclusive)) then Some (mkConfig K H (o :: D) i) else None | [] => None end
  | Iret :: K => Some (mkConfig K H D true)
  | [] => None
  end.

Lemma next_step c c' : next c = Some c' -> step c c'.
Proof.
  destruct c as [[|[[]| | |] K] H D i]; cbn [next]; intros E; repeat case_match; simplify_eq;
    repeat match goal with E : negb _ = false |- _ => apply negb_false_iff in E end; by constructor.
Qed.

(** Transitions until [stop] holds. *)
Fixpoint run_until (stop : config -> bool) (n : nat) (c : config) : option config :=
  if stop c then Some c else
  match n with
  | O => None
  | S n => match next c with Some c => run_until stop n c | None => None end
  end.

Lemma run_until_steps stop n c c' : run_until stop n c = Some c' -> rtc step c c'.
Proof.
  revert c. induction n as [|n IH]; intros c; cbn [run_until]; destruct (stop c); try done; try (by intros [= ->]).
  destruct (next c) as [c1|] eqn:E; [|done]. intros Hr. eapply rtc_l; [by apply next_step|by apply IH].
Qed.

(** * The checker *)

Definition inter (a b : list lock) : list lock := filter (fun x => x ∈ b) a.

(** Whether [c] can run with the guards [H] alive, the [Once]s [D] initialised and the interrupt
    flag [i], given [q], which says when interrupts do no harm; and the flag and the initialised
    [Once]s afterwards. *)
Fixpoint check (q : guards -> list lock -> bool) (H : guards) (D : list lock) (i : bool) (c : code) : option (bool * list lock) :=
  if negb i || q H D then
    match c with
    | Nop | Halts => Some (i, D)
    | Then a b => match check q H D i a with Some (i1, D1) => check q H D1 i1 b | None => None end
    | Either a b =>
        match check q H D i a, check q H D i b with
        | Some (i1, D1), Some (i2, D2) =>
            if eqb i1 i2 && (negb i1 || q H (inter D1 D2)) then Some (i1, inter D1 D2) else None
        | _, _ => None
        end
    | Repeat a => match check q H D i a with Some (i1, _) => if eqb i1 i then Some (i, D) else None | None => None end
    | Locked l m a =>
        if free l m H then
          match check q ((l, m) :: H) D i a with
          | Some (i1, D1) => if negb i1 || q H D1 then Some (i1, D1) else None
          | None => None
          end
        else None
    | CallOnce o a =>
        if negb (free o Shared H) then None else
        if decide (o ∈ D) then Some (i, D) else
        match check q ((o, Exclusive) :: H) D i a with
        | Some (i1, _) => if eqb i1 i then Some (i, o :: D) else None
        | None => None
        end
    | Wait o => if free o Shared H then Some (i, D) else None
    | SetInterrupts b => if negb b || q H D then Some (b, D) else None
    | User => if decide (H = []) then Some (i, D) else None
    end
  else None.

(** The handler runs with interrupts off and does not turn them on. *)
Definition harmless (H : guards) (D : list lock) : bool :=
  negb (arrives H) ||
  match check (fun _ _ => false) H D false handler with Some (false, _) => true | _ => false end.

Definition check_code (c : code) : bool :=
  match check harmless [] [] false c with Some _ => true | None => false end.

(** * The checker is right *)

Definition calm (q : guards -> list lock -> bool) (H : guards) (D : list lock) (i : bool) : Prop := i = true -> q H D = true.

Lemma calm_test q H D i : negb i || q H D = true <-> calm q H D i.
Proof. unfold calm. destruct i; simpl; [|done]. split; auto. Qed.

Definition monotone (q : guards -> list lock -> bool) : Prop :=
  forall H D D', D ⊆ D' -> q H D = true -> q H D' = true.

(** Takes apart the equation that says what [check] returned. *)
Ltac split_check q :=
  repeat match goal with
  | H : context [match check ?q ?x ?d ?i ?c with _ => _ end] |- _ => destruct (check q x d i c) as [[??]|] eqn:?; [|done]
  | H : context [if ?b then _ else _] |- _ => destruct b eqn:?; try done
  end; simplify_eq;
  repeat match goal with
  | H : _ && _ = true |- _ => apply andb_true_iff in H as [??]
  | H : eqb _ _ = true |- _ => apply eqb_prop in H; subst
  | H : negb _ || q _ _ = true |- _ => apply calm_test in H
  | H : negb _ = false |- _ => apply negb_false_iff in H
  end.

Section sound.
Context (q : guards -> list lock -> bool) (Hq : monotone q).

Lemma calm_mono H D D' i : D ⊆ D' -> calm q H D i -> calm q H D' i.
Proof. intros HD Hc Hi. eapply Hq; [exact HD|]. by apply Hc. Qed.

Lemma calm_test_mono H D D' i : D ⊆ D' -> calm q H D i -> negb i || q H D' = true.
Proof. intros HD Hc. apply calm_test. by apply (calm_mono H D). Qed.

Lemma check_before H D i c r : check q H D i c = Some r -> calm q H D i.
Proof. intros Hc. apply calm_test. destruct c; cbn [check] in Hc; destruct (negb i || q H D); done. Qed.

Lemma check_grows H D i c i' D' : check q H D i c = Some (i', D') -> D ⊆ D'.
Proof.
  revert H D i i' D'. induction c; intros H D i i' D' Hc; cbn [check] in Hc; split_check q; try done.
  - transitivity l; eauto.
  - intros x Hx. apply list_elem_of_filter. split; [by eapply IHc2|by eapply IHc1].
  - by eapply IHc.
  - intros x Hx. by right.
Qed.

Lemma check_after H D i c i' D' : check q H D i c = Some (i', D') -> calm q H D' i'.
Proof.
  revert H D i i' D'. induction c; intros H D i i' D' Hc; pose proof (check_before _ _ _ _ _ Hc) as Hb;
    cbn [check] in Hc; split_check q; try done.
  - by eapply IHc2.
  - apply (calm_mono H D); [|done]. intros x Hx. by right.
Qed.

(** More [Once]s initialised do no harm. *)
Lemma check_mono H D D2 i c i' D' : D ⊆ D2 -> check q H D i c = Some (i', D') ->
  exists D2', check q H D2 i c = Some (i', D2') /\ D' ⊆ D2'.
Proof.
  revert H D D2 i i' D'. induction c; intros H D D2 j i' D' HD Hc; pose proof (check_before _ _ _ _ _ Hc) as Hb;
    pose proof (calm_test_mono H D D2 j HD Hb) as Ht;
    cbn [check] in Hc |- *; rewrite Ht; clear Ht; split_check q;
    repeat match goal with E : free _ _ _ = _ |- _ => rewrite E end; cbn [negb].
  - by exists D2.
  - edestruct IHc1 as (D3 & E & HD3); [exact HD|eassumption|]. rewrite E. by eapply IHc2.
  - edestruct IHc1 as (D3 & E & HD3); [exact HD|eassumption|]. edestruct IHc2 as (D4 & E4 & HD4); [exact HD|eassumption|].
    rewrite E, E4, eqb_reflx. assert (inter l l0 ⊆ inter D3 D4) as Hi.
    { intros x [Hx1 Hx2]%list_elem_of_filter. apply list_elem_of_filter. auto. }
    rewrite (calm_test_mono _ _ _ _ Hi) by done. by exists (inter D3 D4).
  - edestruct IHc as (D3 & E & HD3); [exact HD|eassumption|]. rewrite E, eqb_reflx. by exists D2.
  - edestruct IHc as (D3 & E & HD3); [exact HD|eassumption|]. rewrite E.
    rewrite (calm_test_mono _ _ _ _ HD3) by done. by exists D3.
  - destruct (decide (o ∈ D2)) as [Hin|Hin]; [by exists D2|]. destruct (Hin (HD o ltac:(done))).
  - destruct (decide (o ∈ D2)) as [Hin|Hin].
    + exists D2. split; [done|]. intros x [->|Hx]%elem_of_cons; auto.
    + edestruct IHc as (D3 & E & HD3); [exact HD|eassumption|]. rewrite E, eqb_reflx. exists (o :: D2). split; [done|].
      intros x [->|Hx]%elem_of_cons; [by left|right; auto].
  - by exists D2.
  - rewrite (calm_test_mono _ _ _ _ HD) by done. by exists D2.
  - by exists D2.
  - by exists D2.
Qed.

End sound.

Lemma never_monotone : monotone (fun _ _ => false).
Proof. done. Qed.

(** What can run without interrupts can run where they do no harm, as long as they are off. *)
Lemma check_weaken q H D c D' i : check (fun _ _ => false) H D i c = Some (i, D') -> i = false -> check q H D i c = Some (i, D').
Proof.
  assert (forall H D c r, check (fun _ _ => false) H D false c = Some r -> r.1 = false /\ check q H D false c = Some r) as Hw.
  { clear. intros H D c. revert H D. induction c; intros H D r Hc; cbn [check negb orb] in Hc |- *; try (by simplify_eq).
    - destruct (check _ H D false c1) as [[i1 D1]|] eqn:E1; [|done]. destruct (IHc1 _ _ _ E1) as [Hi1 ->]. cbn in Hi1. subst i1. cbn [check negb orb]. exact (IHc2 _ _ _ Hc).
    - destruct (check _ H D false c1) as [[i1 D1]|] eqn:E1; [|done]. destruct (check _ H D false c2) as [[i2 D2]|] eqn:E2; [|done].
      destruct (IHc1 _ _ _ E1) as [Hi1 ->]. destruct (IHc2 _ _ _ E2) as [Hi2 ->]. cbn in Hi1, Hi2. subst. cbn in Hc |- *. by simplify_eq.
    - destruct (check _ H D false c) as [[i1 D1]|] eqn:E1; [|done]. destruct (IHc _ _ _ E1) as [Hi1 ->]. cbn in Hi1. subst. cbn in Hc |- *. by simplify_eq.
    - destruct (free l m H); [|done]. destruct (check _ _ D false c) as [[i1 D1]|] eqn:E1; [|done]. destruct (IHc _ _ _ E1) as [Hi1 ->].
      cbn in Hi1. subst. cbn in Hc |- *. by simplify_eq.
    - destruct (negb _); [done|]. destruct (decide _); [by simplify_eq|]. destruct (check _ _ D false c) as [[i1 D1]|] eqn:E1; [|done].
      destruct (IHc _ _ _ E1) as [Hi1 ->]. cbn in Hi1. subst. cbn in Hc |- *. by simplify_eq.
    - destruct (free _ _ _); by simplify_eq.
    - destruct on; [done|]. cbn in Hc |- *. by simplify_eq.
    - destruct (decide _); by simplify_eq. }
  intros Hc ->. by apply Hw in Hc as [_ Hc].
Qed.

Lemma harmless_monotone : monotone harmless.
Proof.
  intros H D D' HD. unfold harmless. destruct (arrives H); [|done]. cbn [negb orb].
  destruct (check _ H D false handler) as [[[] D1]|] eqn:E; try done. intros _.
  by destruct (check_mono _ never_monotone _ _ D' _ _ _ _ HD E) as (D2 & -> & _).
Qed.

(** The rest of the work passes the checker. *)
Fixpoint passes (K : list frame) (H : guards) (D : list lock) (i : bool) : Prop :=
  match K with
  | [] => calm harmless H D i
  | Do c :: K => exists i' D', check harmless H D i c = Some (i', D') /\ passes K H D' i'
  | Unlock l m :: K => calm harmless H D i /\ exists H', H = (l, m) :: H' /\ passes K H' D i
  | Finish o :: K => calm harmless H D i /\ exists H', H = (o, Exclusive) :: H' /\ passes K H' (o :: D) i
  | Iret :: K => i = false /\ passes K H D true
  end.

Lemma passes_calm K H D i : passes K H D i -> calm harmless H D i.
Proof.
  destruct K as [|[c|l m|o|] K]; cbn [passes]; [done|..].
  - intros (i' & D' & Hc & _). by eapply check_before.
  - by intros [? _].
  - by intros [? _].
  - by intros [-> _].
Qed.

Lemma passes_mono K H D D' i : D ⊆ D' -> passes K H D i -> passes K H D' i.
Proof.
  revert H D D' i. induction K as [|[c|l m|o|] K IH]; cbn [passes]; intros H D D' i HD.
  - by apply calm_mono, HD; apply harmless_monotone.
  - intros (i' & D1 & Hc & Hp). destruct (check_mono _ harmless_monotone _ _ D' _ _ _ _ HD Hc) as (D2 & E & HD2). eauto 10.
  - intros (Hc & H' & -> & Hp). split; [|eauto]. by eapply calm_mono; [apply harmless_monotone|..].
  - intros (Hc & H' & -> & Hp). split; [by eapply calm_mono; [apply harmless_monotone|..]|]. exists H'. split; [done|].
    eapply IH; [|exact Hp]. intros x [->|Hx]%elem_of_cons; [by left|right; auto].
  - intros [-> Hp]. eauto.
Qed.

Definition passing (c : config) : Prop := passes (todo c) (held c) (inited c) (ints c).

Lemma check_code_passing c : check_code c = true -> passing (starting c).
Proof.
  unfold check_code. destruct (check harmless [] [] false c) as [[i D]|] eqn:E; [|done]. intros _.
  exists i, D. split; [done|]. by apply (check_after harmless harmless_monotone _ _ _ _ _ _ E).
Qed.

(** The equation of [check] for the code that is run next. *)
Ltac open_check Hp Hc :=
  let E := fresh "E" in destruct Hp as (? & ? & E & Hp); cbn [check] in E; rewrite (proj2 (calm_test _ _ _ _) Hc) in E; split_check harmless.

(** One transition. *)
Lemma step_passing c c' : step c c' -> passing c -> passing c'.
Proof.
  pose proof harmless_monotone as Hmono.
  unfold passing. intros Hs. destruct Hs as [K H D i|a b K H D i|a b K H D i|a b K H D i|a K H D i|a K H D i|l m a K H D i Hf|l m K H D i
    |o a K H D i Ho Hf|o K H D i|o a K H D i Ho Hf|o K H D i Ho Hf|o K H D i Ho Hf|b K H D i|K H D i|K H D i|K H D Ha|K H D i];
    cbn [todo held inited ints]; intros Hp; pose proof (passes_calm _ _ _ _ Hp) as Hc; cbn [passes] in Hp |- *.
  - by open_check Hp Hc.
  - open_check Hp Hc. eauto 10.
  - open_check Hp Hc. eexists _, _. split; [reflexivity|]. eapply passes_mono; [|exact Hp]. by intros x [_ ?]%list_elem_of_filter.
  - open_check Hp Hc. eexists _, _. split; [reflexivity|]. eapply passes_mono; [|exact Hp]. by intros x [? _]%list_elem_of_filter.
  - pose proof Hp as Hp'. open_check Hp Hc. eexists _, _. split; [reflexivity|].
    eapply (passes_mono (Do (Repeat a) :: K)); [|exact Hp']. by eapply check_grows.
  - by open_check Hp Hc.
  - open_check Hp Hc. eexists _, _. split; [reflexivity|]. split; [by eapply check_after|]. eauto.
  - destruct Hp as (_ & H' & [= <-] & Hp). done.
  - open_check Hp Hc. eexists _, _. split; [reflexivity|]. split; [by eapply check_after|]. eexists. split; [done|].
    eapply passes_mono; [|exact Hp]. intros y [->|Hy]%elem_of_cons; [by left|right]. by eapply check_grows.
  - destruct Hp as (_ & H' & [= <-] & Hp). done.
  - by open_check Hp Hc.
  - by open_check Hp Hc.
  - done.
  - by open_check Hp Hc.
  - done.
  - by open_check Hp Hc.
  - specialize (Hc eq_refl). unfold harmless in Hc. rewrite Ha in Hc. cbn [negb orb] in Hc.
    destruct (check _ H D false handler) as [[[] D1]|] eqn:E; try done. exists false, D1.
    split; [by apply check_weaken|]. split; [done|]. eapply passes_mono; [|exact Hp]. by eapply (check_grows (fun _ _ => false)).
  - by destruct Hp as [_ Hp].
Qed.

Lemma reachable_passing c c' : rtc step c c' -> passing c -> passing c'.
Proof. induction 1; [done|]. intros Hp. by apply IHrtc, (step_passing x). Qed.

(** Code that passes never asks for a lock whose guard is alive, never gets stuck and has no
    guard alive in user mode. *)
Lemma passing_safe c : passing c ->
  ~ contended c /\ (todo c = [] \/ exists c', step c c') /\ (forall K, todo c = Do User :: K -> held c = []).
Proof.
  unfold passing. destruct c as [[|f K] H D i]; cbn [todo held inited ints].
  { intros _. split_and!; [by intros (l & m & [=] & _)|by left|done]. }
  intros Hp. pose proof (passes_calm _ _ _ _ Hp) as Hc. destruct f as [c|l m|o|].
  2:{ destruct Hp as (_ & H' & -> & _). split_and!; [by intros (? & ? & [=] & _)|right; eexists; constructor|done]. }
  2:{ destruct Hp as (_ & H' & -> & _). split_and!; [by intros (? & ? & [=] & _)|right; eexists; constructor|done]. }
  2:{ split_and!; [by intros (? & ? & [=] & _)|right; eexists; constructor|done]. }
  cbn [passes] in Hp. destruct c as [|a b|a b|a|l m a|o a|o|b| |]; open_check Hp Hc;
    try (split_and!; [by intros (? & ? & [=] & _)|right; eexists; by constructor|done]).
  all: split_and!; [intros (? & ? & [= <- <-] & ?); cbn [held] in *; congruence|right|done].
  - eexists. by apply s_lock.
  - eexists. by apply s_inited.
  - eexists. by apply s_init.
  - match goal with |- exists s', step (mkConfig _ _ ?d _) _ => destruct (decide (o ∈ d)) end; eexists; [by apply s_wait|by apply s_unwrap].
Qed.

Lemma check_code_safe c s : check_code c = true -> rtc step (starting c) s ->
  ~ contended s /\ (todo s = [] \/ exists s', step s s') /\ (forall K, todo s = Do User :: K -> held s = []).
Proof. intros Hc Hs. apply passing_safe, (reachable_passing (starting c)); [done|]. by apply check_code_passing. Qed.

End transitions.
