(* ===== verification/KernelLocks.v ===== *)
(** The locks that the kernel's functions take, in the language of [Locks.v]: every guard, every
    [Once], what runs before it is dropped, and the functions that are called; data, and what
    depends on it, is left open ([Either], [Repeat]). A panic stops an execution anywhere; its
    handler takes no lock ([panic_fmt_locks]). *)
From S2P Require Import Prelude Locks.

#[local] Open Scope code_scope.

Definition exclusively (l : lock) (a : code) : code := Locked l Exclusive a.

(** ** Output: [log.rs], [lib.rs], [lang.rs] *)

Definition serial1_print_locks : code := exclusively SERIAL_WRITER_lock Nop.
Definition say_locks : code :=
  exclusively VGA_WRITER_lock Nop ;; exclusively VGA_WRITER_lock Nop ;;
  serial1_print_locks ;; serial1_print_locks ;; serial1_print_locks.
(** [debug!] and [trace!] depend on the features of the build. *)
Definition debug_locks : code := Either Nop say_locks.

(** The handler of panics makes a writer and a serial port of its own. *)
Definition panic_fmt_locks : code := Halts.

(** ** Frames and pages: [physical_allocator.rs], [bootstrap_heap.rs], [paging.rs], [page_map.rs] *)

Definition allocate_locks : code := Repeat (Wait trees_once ;; exclusively trees_lock Nop).
Definition deallocate_locks : code := Wait trees_once ;; exclusively trees_lock Nop.

Definition bootstrap_allocate_locks : code := Wait BOOTSTRAP_HEAP_once ;; Repeat (exclusively bitmap_lock Nop).
Definition init_prelim_locks : code := CallOnce trees_once (Repeat bootstrap_allocate_locks).

Definition next_table_create_locks : code := Either Nop allocate_locks.
Definition map_to_locks : code := next_table_create_locks ;; next_table_create_locks ;; Either Nop next_table_create_locks.
Definition map_locks : code := allocate_locks ;; map_to_locks.
Definition map_range_locks : code := Repeat map_locks.
Definition try_map_user_range_locks : code := Either debug_locks (Repeat (Either Nop map_locks)).
Definition set_flags_locks : code := Repeat map_to_locks.
Definition unmap_locks : code := Either Nop deallocate_locks.
Definition unmap_range_locks : code := Repeat unmap_locks.
Definition map_page_range_locks : code := Repeat map_to_locks.

(** ** The heap: [heap.rs], [physical_mapping.rs] *)

Definition heap_init_locks : code := CallOnce HEAP_once (exclusively ACTIVE_PAGE_TABLES_lock map_range_locks).

Definition heap_alloc_locks : code :=
  Wait HEAP_once ;;
  exclusively HEAP_tree_lock
    (Repeat (exclusively ACTIVE_PAGE_TABLES_lock (Either Nop (map_locks ;; Either Nop unmap_range_locks)))).

Definition heap_dealloc_locks : code :=
  Wait HEAP_once ;; exclusively HEAP_tree_lock Nop ;;
  Either (Wait HEAP_once ;; exclusively HEAP_tree_lock Nop ;; Either Nop (exclusively ACTIVE_PAGE_TABLES_lock unmap_locks))
         (Repeat (exclusively ACTIVE_PAGE_TABLES_lock unmap_locks)).

Definition alloc_specific_locks : code :=
  Wait HEAP_once ;;
  exclusively HEAP_tree_lock
    (Either Nop (exclusively ACTIVE_PAGE_TABLES_lock (Repeat map_to_locks ;; Either Nop unmap_range_locks))).

Definition dealloc_specific_locks : code :=
  Either Nop (Wait HEAP_once ;; exclusively HEAP_tree_lock Nop ;; Repeat (exclusively ACTIVE_PAGE_TABLES_lock unmap_locks)).

(** What [Vec], [Box] and the containers of other crates do with the global allocator. *)
Definition heap_use : code := Repeat (Either heap_alloc_locks heap_dealloc_locks).

(** [Logger::log], which other crates call through [log]: it formats the message into a string. *)
Definition log_locks : code :=
  Either Nop
    (heap_use ;; exclusively VGA_WRITER_lock Nop ;; exclusively VGA_WRITER_lock Nop ;;
     exclusively SERIAL_WRITER_lock Nop ;; exclusively SERIAL_WRITER_lock Nop ;; heap_use).

Definition init_rest_locks : code := Wait trees_once ;; Repeat (heap_use ;; exclusively trees_lock Nop).

(** ** Address spaces: [page_map.rs], [remap.rs] *)

Definition TemporaryPage_new_locks : code :=
  heap_alloc_locks ;; exclusively ACTIVE_PAGE_TABLES_lock Nop ;; exclusively ACTIVE_PAGE_TABLES_lock unmap_locks.
Definition drop_temporary_page_locks : code := exclusively ACTIVE_PAGE_TABLES_lock map_to_locks ;; heap_dealloc_locks.

(** These are given an [ActivePageMap]: that of the lock, or a duplicate. *)
Definition inactive_page_map_new_locks : code := map_to_locks ;; unmap_locks.
Definition with_inactive_p4_locks (body : code) : code := map_to_locks ;; body ;; unmap_locks.
Definition remap_range_locks : code := heap_use ;; with_inactive_p4_locks (Repeat map_to_locks) ;; heap_use.

Definition remap_kernel_locks : code :=
  TemporaryPage_new_locks ;; debug_locks ;; allocate_locks ;; inactive_page_map_new_locks ;; debug_locks ;;
  with_inactive_p4_locks (Repeat map_page_range_locks ;; map_to_locks) ;;
  Wait BOOTSTRAP_HEAP_once ;; Wait BOOTSTRAP_HEAP_once ;; remap_range_locks ;; remap_range_locks ;;
  debug_locks ;; debug_locks ;; drop_temporary_page_locks.

(** ** [memory.rs] *)

Definition setup_bootstrap_heap_locks : code :=
  exclusively ACTIVE_PAGE_TABLES_lock map_page_range_locks ;; CallOnce BOOTSTRAP_HEAP_once Nop.
Definition setup_guard_page_locks : code :=
  exclusively ACTIVE_PAGE_TABLES_lock Nop ;; exclusively ACTIVE_PAGE_TABLES_lock unmap_locks.
Definition setup_ist_locks : code := Repeat (Either Nop (exclusively ACTIVE_PAGE_TABLES_lock map_locks)) ;; CallOnce TSS_once Nop.

Definition print_memory_info_locks : code := debug_locks ;; Repeat debug_locks ;; say_locks.

Definition init_memory_locks : code :=
  say_locks ;; print_memory_info_locks ;;
  debug_locks ;; setup_bootstrap_heap_locks ;;
  debug_locks ;; debug_locks ;; init_prelim_locks ;;
  debug_locks ;; heap_init_locks ;;
  debug_locks ;; init_rest_locks ;;
  debug_locks ;; remap_kernel_locks ;;
  debug_locks ;; setup_guard_page_locks ;;
  debug_locks ;; setup_ist_locks ;; say_locks.

(** ** Interrupts and the timer: [pic.rs], [interrupts.rs], [pit.rs] *)

(** [write_command], [write_data] and [read_data] *)
Definition io_wait_locks : code := exclusively IO_WAIT_PORT_lock Nop.
Definition init_and_remap_locks : code :=
  io_wait_locks ;; io_wait_locks ;; io_wait_locks ;;
  (io_wait_locks ;; io_wait_locks) ;; (io_wait_locks ;; io_wait_locks) ;;
  io_wait_locks ;; io_wait_locks ;; io_wait_locks ;; io_wait_locks ;; io_wait_locks ;; io_wait_locks.

Definition LISTENERS_locks : code := CallOnce LISTENERS_once (Repeat heap_alloc_locks).
Definition listen_locks : code := LISTENERS_locks ;; exclusively LISTENERS_lock heap_use.
(** The only listener, [tick], takes no lock. *)
Definition dispatch_irq_locks : code := LISTENERS_locks ;; Locked LISTENERS_lock Shared (Repeat Nop).
Definition handle_interrupt_locks (handler : code) : code :=
  io_wait_locks ;; Either (handler ;; io_wait_locks) (Either Nop io_wait_locks).
Definition handle_irq_locks : code := exclusively CHAINED_PICS_lock (handle_interrupt_locks dispatch_irq_locks).

Definition interrupts_init_locks : code :=
  say_locks ;; CallOnce IDT_once Nop ;; debug_locks ;; exclusively CHAINED_PICS_lock init_and_remap_locks ;; debug_locks ;; say_locks.
Definition pit_initialize_locks : code := say_locks ;; listen_locks.

(** ** Segments and system calls: [gdt.rs], [syscall.rs], [buffer.rs] *)

Definition GDT_locks : code := CallOnce GDT_once (Wait TSS_once).
Definition gdt_init_locks : code := debug_locks ;; Repeat GDT_locks ;; GDT_locks ;; debug_locks.
Definition setup_syscall_locks : code := Wait TSS_once ;; GDT_locks.

Definition try_from_user_locks : code := Repeat (exclusively ACTIVE_PAGE_TABLES_lock Nop).
Definition syscall_handler_locks : code :=
  Either panic_fmt_locks
  (Either (say_locks ;; Halts)
  (Either (Either Nop (exclusively ACTIVE_PAGE_TABLES_lock try_map_user_range_locks))
  (Either (Either Nop panic_fmt_locks)
          (try_from_user_locks ;; Either Nop (exclusively VGA_WRITER_lock Nop))))).
(** The processor masks interrupts on [syscall]; the stub turns them on again. *)
Definition syscall_callback_locks : code := SetInterrupts false ;; SetInterrupts true ;; syscall_handler_locks.

(** ** Processes: [process.rs] *)

Definition new_process_page_tables_locks : code :=
  TemporaryPage_new_locks ;; allocate_locks ;; inactive_page_map_new_locks ;; map_to_locks ;; unmap_locks ;; drop_temporary_page_locks.

(** The parser allocates and may log; the segments are loaded with the page tables locked. *)
Definition spawn_from_elf_locks : code :=
  Repeat (Either heap_use log_locks) ;;
  Either Nop
    (new_process_page_tables_locks ;;
     exclusively ACTIVE_PAGE_TABLES_lock (Repeat (try_map_user_range_locks ;; set_flags_locks)) ;;
     Either Nop (CallOnce PROCESSES_once heap_use ;; exclusively PROCESSES_lock heap_use)) ;;
  heap_use.

Definition run_by_pid_locks : code :=
  CallOnce PROCESSES_once heap_use ;;
  exclusively PROCESSES_lock
    (exclusively ACTIVE_PAGE_TABLES_lock Nop ;; Either Nop (exclusively ACTIVE_PAGE_TABLES_lock map_range_locks) ;;
     Wait TSS_once ;; exclusively iomap_lock Nop).

(** ** [lib.rs], [acpi_handler.rs] *)

(** The search maps and unmaps physical memory, allocates and may log. *)
Definition acpi_init_locks : code :=
  say_locks ;; Repeat (Either alloc_specific_locks (Either dealloc_specific_locks (Either heap_use log_locks))) ;; say_locks.

Definition kmain_locks : code :=
  exclusively VGA_WRITER_lock Nop ;;
  init_memory_locks ;;
  gdt_init_locks ;;
  interrupts_init_locks ;;
  SetInterrupts true ;; say_locks ;;
  say_locks ;;
  exclusively CONTROLLER_lock pit_initialize_locks ;; say_locks ;;
  acpi_init_locks ;;
  setup_syscall_locks ;;
  say_locks ;; spawn_from_elf_locks ;; Either Nop panic_fmt_locks ;; say_locks ;;
  run_by_pid_locks ;; Either Nop panic_fmt_locks.

(** The kernel from its start on: the first process runs, makes system calls or causes an exception. *)
Definition kernel_locks : code := kmain_locks ;; User ;; Repeat (Either syscall_callback_locks panic_fmt_locks ;; User).

(** No interrupt arrives while the listeners are created or changed. *)
Definition listeners_quiet (H : list (lock * mode)) : bool :=
  free LISTENERS_lock Shared H && free LISTENERS_once Shared H.
