(* ===== verification/LockTheorems.v ===== *)
(** The kernel does not lock itself out, and the one place where an interrupt can make it. *)
From S2P Require Import Prelude Locks KernelLocks.

(** C9: the kernel never waits for itself. From its start, through [kmain], the first process and all
    of its system calls, with timer and other interrupts at any time except while the list of
    listeners is created or changed, whatever the branches taken and however often loops run: no
    lock is asked for while a guard of it is alive, so that no [lock] spins, no [try_lock] of
    the frame allocator finds a tree in use and [lock_or_panic] does not panic; there is always
    a next step until the machine halts; and whenever user code runs no guard is
    alive. *)
Theorem kernel_never_waits s : rtc (step handle_irq_locks listeners_quiet) (starting kernel_locks) s ->
  ~ contended s /\ (todo s = [] \/ exists s', step handle_irq_locks listeners_quiet s s') /\
  (forall K, todo s = Do User :: K -> held s = []).
Proof. apply check_code_safe. by vm_compute. Qed.

Definition in_user_mode (s : config) : bool := match todo s with Do User :: _ => true | _ => false end.

Lemma kernel_never_waits_witness : exists s K, todo s = Do User :: K /\ ints s = true /\ held s = [] /\
  rtc (step handle_irq_locks listeners_quiet) (starting kernel_locks) s.
Proof.
  destruct (run_until in_user_mode 2000 (starting kernel_locks)) as [s|] eqn:E; [|by vm_compute in E].
  pose proof (run_until_steps handle_irq_locks listeners_quiet _ _ _ _ E) as Hs.
  destruct (kernel_never_waits s Hs) as (_ & _ & Hu).
  assert (exists K, todo s = Do User :: K /\ ints s = true) as (K & HK & Hi).
  { vm_compute in E. injection E as <-. eexists. split; reflexivity. }
  exists s, K. split_and!; [exact HK|exact Hi|exact (Hu K HK)|exact Hs].
Defined.

(** ** The exception *)

Definition changes_listeners (s : config) : bool := bool_decide ((LISTENERS_lock, Exclusive) ∈ held s).

(** The interrupt arrives there. *)
Definition interrupted (s : config) : config := mkConfig (Do handle_irq_locks :: Iret :: todo s) (held s) (inited s) false.

Definition asks_for_listeners (s : config) : bool := bool_decide (wants s = Some (LISTENERS_lock, Shared)).

(** C34: an interrupt at the wrong time stops the kernel for good. [kmain] enables interrupts before
    it lets the timer register its listener; when an interrupt arrives while [listen] has the
    list of listeners locked, its handler asks for the same lock in [dispatch_irq], with
    interrupts off, and spins forever. *)
Theorem interrupted_listen_hangs : exists s,
  rtc (step handle_irq_locks (fun _ => true)) (starting kernel_locks) s /\
  (LISTENERS_lock, Exclusive) ∈ held s /\ (CHAINED_PICS_lock, Exclusive) ∈ held s /\
  contended s /\ forall s', ~ step handle_irq_locks (fun _ => true) s s'.
Proof.
  destruct (run_until changes_listeners 2000 (starting kernel_locks)) as [s1|] eqn:E1; [|by vm_compute in E1].
  assert (ints s1 = true) as Hi by (vm_compute in E1; by injection E1 as <-).
  destruct (run_until asks_for_listeners 2000 (interrupted s1)) as [s2|] eqn:E2.
  2:{ exfalso. vm_compute in E1. injection E1 as <-. by vm_compute in E2. }
  exists s2. assert ((LISTENERS_lock, Exclusive) ∈ held s2 /\ (CHAINED_PICS_lock, Exclusive) ∈ held s2 /\ contended s2 /\ ints s2 = false) as (H1 & H2 & H3 & H4).
  { vm_compute in E1. injection E1 as <-. vm_compute in E2. injection E2 as <-. cbn [held ints].
    split_and!; [set_solver|set_solver| |done]. by exists LISTENERS_lock, Shared. }
  split_and!; [|done..|by apply contended_stuck].
  etrans; [by apply (run_until_steps _ _ _ _ _ _ E1)|]. eapply rtc_l; [|by apply (run_until_steps _ _ _ _ _ _ E2)].
  destruct s1 as [K H D i]. cbn [ints] in Hi. subst i. by apply s_interrupt.
Qed.
